(** * Form layout and dependency engine (frappe.ui.form.Layout)

    A shallow embedding of [frappe.ui.form.Layout], [frappe.ui.form.Section]
    and [frappe.ui.form.Column]: building the section/column/control tree
    from an ordered list of docfields, evaluating [depends_on]-style
    expressions against the bound document, the refresh pass, section
    collapse, and tab navigation.

    JavaScript objects that are shared by reference (controls, sections and
    columns reachable both from [layout.fields_list] and from
    [section.fields_list]) live in arenas of the layout and are referred to
    by index.  Exceptions are explicit: a computation returns the state
    reached together with either a value or the exception raised. *)

From Stdlib Require Import String Ascii.
From stdpp Require Import base option list strings gmap.

Open Scope string_scope.

(** ** JavaScript values held by documents *)

#[warnings="-register-all"]
Inductive Value :=
| VUndefined
| VNull
| VBool (b : bool)
| VNum (n : Z)
| VStr (s : string)
| VArr (items : list Value)
| VObj.   (* any other object, or a function; what it holds is not read *)

(** [!!value] *)
Definition truthy (v : Value) : bool :=
  match v with
  | VUndefined | VNull => false
  | VBool b => b
  | VNum n => negb (Z.eqb n 0)
  | VStr s => negb (String.eqb s "")
  | VArr _ => true
  | VObj => true
  end.

(** [value == null] *)
Definition is_nullish (v : Value) : bool :=
  match v with
  | VUndefined | VNull => true
  | _ => false
  end.

(** [$.isArray(value)] *)
Definition isArray (v : Value) : bool :=
  match v with
  | VArr _ => true
  | _ => false
  end.

(** A document is a mutable key -> value object; the map holds its own
    properties. *)
Abbreviation Doc := (gmap string Value).

(** The members every plain object inherits from [Object.prototype]
    (ECMAScript, with the accessors of its Annex B): functions, and the
    prototype object itself under [__proto__]. *)
Definition object_prototype : list string :=
  ["constructor"; "hasOwnProperty"; "isPrototypeOf"; "propertyIsEnumerable";
   "toLocaleString"; "toString"; "valueOf"; "__proto__";
   "__defineGetter__"; "__defineSetter__"; "__lookupGetter__";
   "__lookupSetter__"].

Definition inherited (k : string) : bool :=
  existsb (String.eqb k) object_prototype.

(** [doc[k]]: the document's own property, else the member inherited
    under that name, else [undefined]. *)
Definition doc_get (d : Doc) (k : string) : Value :=
  match d !! k with
  | Some v => v
  | None => if inherited k then VObj else VUndefined
  end.

(** ** Exceptions and results *)

Inductive Exn :=
| ValidationError (msg : string)
| TypeError (msg : string)
| ScriptError (msg : string).

Inductive result (A : Type) :=
| Ok (a : A)
| Raise (e : Exn).
Arguments Ok {A} a.
Arguments Raise {A} e.

(** ** Dependency expressions

    [df.depends_on] and its siblings hold a boolean, a function of the
    document, or a string. *)

Inductive Expr :=
| EBool (b : bool)
| EFun (f : Doc -> result Value)
| EStr (s : string).

(** JavaScript truthiness of an optional expression, as in
    [if (f.df.depends_on)]: absent, [false] and the empty string are
    falsy. *)
Definition expr_set (e : option Expr) : bool :=
  match e with
  | None => false
  | Some (EBool b) => b
  | Some (EFun _) => true
  | Some (EStr s) => negb (String.eqb s "")
  end.

(** [s.substr(n)] *)
Definition substr_from (n : nat) (s : string) : string :=
  substring n (String.length s - n) s.

(** [s.substr(0, n) == p] *)
Definition has_prefix (n : nat) (p s : string) : bool :=
  String.eqb (substring 0 n s) p.

(** [s.includes(p)] *)
Fixpoint includes (p s : string) : bool :=
  if String.prefix p s then true
  else match s with
       | EmptyString => false
       | String _ s' => includes p s'
       end.

(** ** Docfields *)

Record DocField := {
  fieldname : option string;
  fieldtype : string;          (* the empty string stands for an absent type *)
  label : string;              (* the empty string stands for an absent label *)
  hidden : bool;
  reqd : bool;
  read_only : bool;
  permlevel : nat;
  depends_on : option Expr;
  mandatory_depends_on : option Expr;
  read_only_depends_on : option Expr;
  collapsible : bool;
  collapsible_depends_on : option Expr;
  hidden_due_to_dependency : bool
}.

(** The object [{}] used by [df || {}]. *)
Definition empty_df : DocField := {|
  fieldname := None; fieldtype := ""; label := "";
  hidden := false; reqd := false; read_only := false; permlevel := 0;
  depends_on := None; mandatory_depends_on := None;
  read_only_depends_on := None;
  collapsible := false; collapsible_depends_on := None;
  hidden_due_to_dependency := false |}.

Definition set_hidden_due_to_dependency (b : bool) (df : DocField) : DocField := {|
  fieldname := fieldname df; fieldtype := fieldtype df; label := label df;
  hidden := hidden df; reqd := reqd df; read_only := read_only df;
  permlevel := permlevel df;
  depends_on := depends_on df; mandatory_depends_on := mandatory_depends_on df;
  read_only_depends_on := read_only_depends_on df;
  collapsible := collapsible df;
  collapsible_depends_on := collapsible_depends_on df;
  hidden_due_to_dependency := b |}.

(** The two properties written by [set_dependant_property]. *)
Inductive Property := P_reqd | P_read_only.

Definition get_property (p : Property) (df : DocField) : bool :=
  match p with P_reqd => reqd df | P_read_only => read_only df end.

Definition set_property (p : Property) (b : bool) (df : DocField) : DocField := {|
  fieldname := fieldname df; fieldtype := fieldtype df; label := label df;
  hidden := hidden df;
  reqd := match p with P_reqd => b | P_read_only => reqd df end;
  read_only := match p with P_read_only => b | P_reqd => read_only df end;
  permlevel := permlevel df;
  depends_on := depends_on df; mandatory_depends_on := mandatory_depends_on df;
  read_only_depends_on := read_only_depends_on df;
  collapsible := collapsible df;
  collapsible_depends_on := collapsible_depends_on df;
  hidden_due_to_dependency := hidden_due_to_dependency df |}.

(** A property key: [obj[undefined]] reads the key ["undefined"]. *)
Definition key_of (name : option string) : string :=
  match name with Some s => s | None => "undefined" end.

(** Truthiness of [df.fieldname]. *)
Definition name_set (name : option string) : bool :=
  match name with Some s => negb (String.eqb s "") | None => false end.

(** ** The form context and the external collaborators *)

(** The owning form [frm], as far as the layout consults it: the form's
    document, the permission test [frm.get_perm(permlevel, "read")] and the
    script manager's [trigger(event, doctype, docname)]. *)
Record Frm := {
  frm_doc : option Doc;
  get_perm : nat -> bool;
  trigger : string -> option string -> option string -> result Value
}.

(** Collaborators that are called by the layout but defined elsewhere:
    - [js_eval code doc parent] is [frappe.utils.eval(code, {doc, parent})],
      raising when the code does not parse or throws;
    - [frappe_throw msg] is [frappe.throw(msg)]: [Some e] when the call
      raises [e], [None] when it returns to its caller;
    - [no_value_type] is the table [frappe.model.no_value_type]. *)
Record Env := {
  js_eval : string -> Doc -> option Doc -> result Value;
  frappe_throw : string -> option Exn;
  no_value_type : list string
}.

(** ** Layout objects *)

Inductive Status := Write | Read | NoStatus.

(** A control made by [frappe.ui.form.make_control].  The widget itself is
    opaque: its [refresh()] is recorded as an event, and [disp_status],
    the DOM visibility of [$wrapper], its [hide-control] class and the
    focus targets are attributes the widget keeps for itself; they are
    read as the widget left them, and what its [refresh()] does to them
    is not part of this development. *)
Record Control := {
  c_df : DocField;
  c_section : nat;               (* fieldobj.section *)
  c_column : nat;                (* the column whose wrapper is the parent *)
  disp_status : option Status;
  wrapper_visible : bool;        (* $wrapper.is(":visible") *)
  hide_control : bool;           (* $wrapper.hasClass("hide-control") *)
  grid_rows : nat;               (* field.grid.grid_rows.length, for a Table *)
  has_editor : bool;
  has_input : bool
}.

Inductive SectionClass := NoClass | VisibleSection | EmptySection.

Record SectionNode := {
  s_df : DocField;               (* this.df = df || {} *)
  s_synthetic : bool;            (* constructed without a df *)
  s_page : nat;                  (* the page the wrapper was appended to *)
  s_fields_list : list nat;      (* controls, by arena index *)
  s_head : bool;                 (* this.head exists *)
  s_hide_control : bool;         (* wrapper.hasClass("hide-control") *)
  s_body_hide : bool;            (* body.hasClass("hide") *)
  s_class : SectionClass
}.

Record ColumnNode := {
  col_df : DocField;             (* this.df = df || {} *)
  col_synthetic : bool;          (* constructed without a df *)
  col_section : nat
}.

(** What [fields_list] and [fields_dict] hold: references to objects. *)
Inductive FieldRef :=
| RControl (i : nat)
| RSection (i : nat)
| RColumn (i : nat).

Inductive Event :=
| EvRefresh (r : FieldRef)                       (* a control's refresh() *)
| EvSectionRefresh (i : nat)                     (* FormSection.refresh *)
| EvSetDfProperty (name : option string) (p : Property) (v : bool)
| EvSetRowDfProperty (parentfield : Value) (p : Property) (v : bool)
    (name : option string)
| EvCollapse (i : nat) (hide : bool)
| EvRefreshSectionCount.

Record Layout := {
  fields : list DocField;        (* this.fields *)
  with_dashboard : bool;
  frm : option Frm;
  is_dialog : bool;
  doctype : option string;
  docname : option string;
  doc : option Doc;              (* this.doc *)
  get_values : option Doc;       (* this.get_values(true), when defined *)
  pages : nat;                   (* page elements created so far *)
  page : option nat;             (* this.page *)
  folded : bool;
  controls : list Control;
  sections : list SectionNode;       (* this.sections, also the section arena *)
  columns : list ColumnNode;
  section : option nat;          (* this.section *)
  column : option nat;           (* this.column *)
  fields_list : list FieldRef;
  fields_dict : gmap string FieldRef;
  log : list Event
}.

(** Field updates of the layout object. *)
Definition set_fields (x : list DocField) (L : Layout) : Layout :=
  {| fields := x; with_dashboard := with_dashboard L; frm := frm L;
     is_dialog := is_dialog L; doctype := doctype L; docname := docname L;
     doc := doc L; get_values := get_values L; pages := pages L;
     page := page L; folded := folded L; controls := controls L;
     sections := sections L; columns := columns L; section := section L;
     column := column L; fields_list := fields_list L;
     fields_dict := fields_dict L; log := log L |}.

Definition set_doc (x : option Doc) (L : Layout) : Layout :=
  {| fields := fields L; with_dashboard := with_dashboard L; frm := frm L;
     is_dialog := is_dialog L; doctype := doctype L; docname := docname L;
     doc := x; get_values := get_values L; pages := pages L; page := page L;
     folded := folded L; controls := controls L; sections := sections L;
     columns := columns L; section := section L; column := column L;
     fields_list := fields_list L; fields_dict := fields_dict L;
     log := log L |}.

Definition set_pages (x : nat) (L : Layout) : Layout :=
  {| fields := fields L; with_dashboard := with_dashboard L; frm := frm L;
     is_dialog := is_dialog L; doctype := doctype L; docname := docname L;
     doc := doc L; get_values := get_values L; pages := x; page := page L;
     folded := folded L; controls := controls L; sections := sections L;
     columns := columns L; section := section L; column := column L;
     fields_list := fields_list L; fields_dict := fields_dict L;
     log := log L |}.

Definition set_page (x : option nat) (L : Layout) : Layout :=
  {| fields := fields L; with_dashboard := with_dashboard L; frm := frm L;
     is_dialog := is_dialog L; doctype := doctype L; docname := docname L;
     doc := doc L; get_values := get_values L; pages := pages L; page := x;
     folded := folded L; controls := controls L; sections := sections L;
     columns := columns L; section := section L; column := column L;
     fields_list := fields_list L; fields_dict := fields_dict L;
     log := log L |}.

Definition set_folded (x : bool) (L : Layout) : Layout :=
  {| fields := fields L; with_dashboard := with_dashboard L; frm := frm L;
     is_dialog := is_dialog L; doctype := doctype L; docname := docname L;
     doc := doc L; get_values := get_values L; pages := pages L;
     page := page L; folded := x; controls := controls L;
     sections := sections L; columns := columns L; section := section L;
     column := column L; fields_list := fields_list L;
     fields_dict := fields_dict L; log := log L |}.

Definition set_controls (x : list Control) (L : Layout) : Layout :=
  {| fields := fields L; with_dashboard := with_dashboard L; frm := frm L;
     is_dialog := is_dialog L; doctype := doctype L; docname := docname L;
     doc := doc L; get_values := get_values L; pages := pages L;
     page := page L; folded := folded L; controls := x;
     sections := sections L; columns := columns L; section := section L;
     column := column L; fields_list := fields_list L;
     fields_dict := fields_dict L; log := log L |}.

Definition set_sections (x : list SectionNode) (L : Layout) : Layout :=
  {| fields := fields L; with_dashboard := with_dashboard L; frm := frm L;
     is_dialog := is_dialog L; doctype := doctype L; docname := docname L;
     doc := doc L; get_values := get_values L; pages := pages L;
     page := page L; folded := folded L; controls := controls L;
     sections := x; columns := columns L; section := section L;
     column := column L; fields_list := fields_list L;
     fields_dict := fields_dict L; log := log L |}.

Definition set_columns (x : list ColumnNode) (L : Layout) : Layout :=
  {| fields := fields L; with_dashboard := with_dashboard L; frm := frm L;
     is_dialog := is_dialog L; doctype := doctype L; docname := docname L;
     doc := doc L; get_values := get_values L; pages := pages L;
     page := page L; folded := folded L; controls := controls L;
     sections := sections L; columns := x; section := section L;
     column := column L; fields_list := fields_list L;
     fields_dict := fields_dict L; log := log L |}.

Definition set_section (x : option nat) (L : Layout) : Layout :=
  {| fields := fields L; with_dashboard := with_dashboard L; frm := frm L;
     is_dialog := is_dialog L; doctype := doctype L; docname := docname L;
     doc := doc L; get_values := get_values L; pages := pages L;
     page := page L; folded := folded L; controls := controls L;
     sections := sections L; columns := columns L; section := x;
     column := column L; fields_list := fields_list L;
     fields_dict := fields_dict L; log := log L |}.

Definition set_column (x : option nat) (L : Layout) : Layout :=
  {| fields := fields L; with_dashboard := with_dashboard L; frm := frm L;
     is_dialog := is_dialog L; doctype := doctype L; docname := docname L;
     doc := doc L; get_values := get_values L; pages := pages L;
     page := page L; folded := folded L; controls := controls L;
     sections := sections L; columns := columns L; section := section L;
     column := x; fields_list := fields_list L; fields_dict := fields_dict L;
     log := log L |}.

Definition set_fields_list (x : list FieldRef) (L : Layout) : Layout :=
  {| fields := fields L; with_dashboard := with_dashboard L; frm := frm L;
     is_dialog := is_dialog L; doctype := doctype L; docname := docname L;
     doc := doc L; get_values := get_values L; pages := pages L;
     page := page L; folded := folded L; controls := controls L;
     sections := sections L; columns := columns L; section := section L;
     column := column L; fields_list := x; fields_dict := fields_dict L;
     log := log L |}.

Definition set_fields_dict (x : gmap string FieldRef) (L : Layout) : Layout :=
  {| fields := fields L; with_dashboard := with_dashboard L; frm := frm L;
     is_dialog := is_dialog L; doctype := doctype L; docname := docname L;
     doc := doc L; get_values := get_values L; pages := pages L;
     page := page L; folded := folded L; controls := controls L;
     sections := sections L; columns := columns L; section := section L;
     column := column L; fields_list := fields_list L; fields_dict := x;
     log := log L |}.

Definition set_log (x : list Event) (L : Layout) : Layout :=
  {| fields := fields L; with_dashboard := with_dashboard L; frm := frm L;
     is_dialog := is_dialog L; doctype := doctype L; docname := docname L;
     doc := doc L; get_values := get_values L; pages := pages L;
     page := page L; folded := folded L; controls := controls L;
     sections := sections L; columns := columns L; section := section L;
     column := column L; fields_list := fields_list L;
     fields_dict := fields_dict L; log := x |}.

Definition emit (e : Event) (L : Layout) : Layout :=
  set_log (log L ++ [e]) L.

(** ** Computations that mutate the layout and may throw *)

Definition M (A : Type) : Type := Layout -> Layout * result A.

Definition ret {A} (a : A) : M A := fun L => (L, Ok a).

Definition throw {A} (e : Exn) : M A := fun L => (L, Raise e).

Definition bind {A B} (m : M A) (k : A -> M B) : M B :=
  fun L => match m L with
           | (L', Ok a) => k a L'
           | (L', Raise e) => (L', Raise e)
           end.

(** A statement that cannot throw. *)
Definition modify (f : Layout -> Layout) : M unit := fun L => (f L, Ok tt).

(** A pure computation that may throw. *)
Definition lift {A} (r : result A) : M A := fun L => (L, r).

Declare Scope layout_scope.
Delimit Scope layout_scope with layout.
Notation "x <- m ;; k" := (bind m (fun x => k))
  (at level 100, m at next level, right associativity) : layout_scope.
Notation "m ;;; k" := (bind m (fun _ => k))
  (at level 100, right associativity) : layout_scope.

(** [for (x of xs) body(x)], stopping at the first exception. *)
Fixpoint for_each {A} (body : A -> M unit) (xs : list A) : M unit :=
  match xs with
  | [] => ret tt
  | x :: xs' => bind (body x) (fun _ => for_each body xs')
  end.

(** ** Access to the shared objects *)

Definition df_of (L : Layout) (r : FieldRef) : option DocField :=
  match r with
  | RControl i => c_df <$> controls L !! i
  | RSection i => s_df <$> sections L !! i
  | RColumn i => col_df <$> columns L !! i
  end.

Definition set_c_df (df : DocField) (c : Control) : Control :=
  {| c_df := df; c_section := c_section c; c_column := c_column c;
     disp_status := disp_status c; wrapper_visible := wrapper_visible c;
     hide_control := hide_control c; grid_rows := grid_rows c;
     has_editor := has_editor c; has_input := has_input c |}.

Definition set_s_df (df : DocField) (s : SectionNode) : SectionNode :=
  {| s_df := df; s_synthetic := s_synthetic s; s_page := s_page s;
     s_fields_list := s_fields_list s; s_head := s_head s;
     s_hide_control := s_hide_control s; s_body_hide := s_body_hide s;
     s_class := s_class s |}.

Definition set_s_fields_list (l : list nat) (s : SectionNode) : SectionNode :=
  {| s_df := s_df s; s_synthetic := s_synthetic s; s_page := s_page s;
     s_fields_list := l; s_head := s_head s;
     s_hide_control := s_hide_control s; s_body_hide := s_body_hide s;
     s_class := s_class s |}.

Definition set_s_hide_control (b : bool) (s : SectionNode) : SectionNode :=
  {| s_df := s_df s; s_synthetic := s_synthetic s; s_page := s_page s;
     s_fields_list := s_fields_list s; s_head := s_head s;
     s_hide_control := b; s_body_hide := s_body_hide s;
     s_class := s_class s |}.

Definition set_s_body_hide (b : bool) (s : SectionNode) : SectionNode :=
  {| s_df := s_df s; s_synthetic := s_synthetic s; s_page := s_page s;
     s_fields_list := s_fields_list s; s_head := s_head s;
     s_hide_control := s_hide_control s; s_body_hide := b;
     s_class := s_class s |}.

Definition set_s_class (c : SectionClass) (s : SectionNode) : SectionNode :=
  {| s_df := s_df s; s_synthetic := s_synthetic s; s_page := s_page s;
     s_fields_list := s_fields_list s; s_head := s_head s;
     s_hide_control := s_hide_control s; s_body_hide := s_body_hide s;
     s_class := c |}.

Definition set_col_df (df : DocField) (c : ColumnNode) : ColumnNode :=
  {| col_df := df; col_synthetic := col_synthetic c;
     col_section := col_section c |}.

(** [x.df = g(x.df)] on the object a reference points to. *)
Definition upd_df (g : DocField -> DocField) (r : FieldRef) (L : Layout) : Layout :=
  match r with
  | RControl i =>
      set_controls (alter (fun c => set_c_df (g (c_df c)) c) i (controls L)) L
  | RSection i =>
      set_sections (alter (fun s => set_s_df (g (s_df s)) s) i (sections L)) L
  | RColumn i =>
      set_columns (alter (fun c => set_col_df (g (col_df c)) c) i (columns L)) L
  end.

(** ** frappe.ui.form.Section and frappe.ui.form.Column *)

Module FormSection.

(** The class [hide-control] computed by [refresh]. *)
Definition hide (fm : option Frm) (df : DocField) : bool :=
  let hide := hidden df || hidden_due_to_dependency df in
  if negb hide &&
     match fm with
     | Some f => negb (get_perm f (permlevel df))
     | None => false
     end
  then true else hide.

Definition refresh (i : nat) (L : Layout) : Layout :=
  emit (EvSectionRefresh i)
    (set_sections
       (alter (fun s => set_s_hide_control (hide (frm L) (s_df s)) s) i
          (sections L)) L).

Definition is_signature (L : Layout) (j : nat) : bool :=
  match controls L !! j with
  | Some c => String.eqb (fieldtype (c_df c)) "Signature"
  | None => false
  end.

(** [collapse(hide)]; [None] is the call without an argument made by a
    click on the head. *)
Definition collapse (i : nat) (hide : option bool) (L : Layout) : Layout :=
  match sections L !! i with
  | None => L
  | Some s =>
      if negb (s_head s) then L
      else
        let h := match hide with
                 | Some h => h
                 | None => negb (s_body_hide s)
                 end in
        let L1 := set_sections (alter (set_s_body_hide h) i (sections L)) L in
        let L2 := emit (EvCollapse i h) L1 in
        fold_left (fun L' j => emit (EvRefresh (RControl j)) L')
          (filter (fun j => is_signature L j = true) (s_fields_list s)) L2
  end.

Definition is_collapsed (s : SectionNode) : bool := s_body_hide s.

(** The loop of [has_missing_mandatory] over the section's own
    controls; reading a key of an absent document is a [TypeError]. *)
Fixpoint missing_in (d : option Doc) (dfs : list DocField) : result bool :=
  match dfs with
  | [] => Ok false
  | section_df :: rest =>
      if reqd section_df then
        match d with
        | None => Raise (TypeError "Cannot read properties of undefined")
        | Some d' =>
            if is_nullish (doc_get d' (key_of (fieldname section_df)))
            then Ok true
            else missing_in d rest
        end
      else missing_in d rest
  end.

Definition field_dfs (L : Layout) (s : SectionNode) : list DocField :=
  omap (fun j => c_df <$> controls L !! j) (s_fields_list s).

Definition has_missing_mandatory (L : Layout) (s : SectionNode) : result bool :=
  missing_in (doc L) (field_dfs L s).

End FormSection.

(** [Column.refresh] refreshes the owning section. *)
Definition Column_refresh (i : nat) (L : Layout) : Layout :=
  match columns L !! i with
  | Some c => FormSection.refresh (col_section c) L
  | None => L
  end.

(** [fieldobj.refresh()] on whatever a reference points to: the call is
    recorded for a control, whose widget is outside the layout, and
    carried out for a section and for a column. *)
Definition field_refresh (r : FieldRef) (L : Layout) : Layout :=
  match r with
  | RControl _ => emit (EvRefresh r) L
  | RSection i => FormSection.refresh i L
  | RColumn i => Column_refresh i L
  end.

(** ** frappe.ui.form.Layout: dependency evaluation *)

(** [var doc = this.doc; if (!doc && this.get_values) doc = this.get_values(true)] *)
Definition resolve_doc (L : Layout) : option Doc :=
  match doc L with
  | Some d => Some d
  | None => get_values L
  end.

(** [this.frm ? this.frm.doc : this.doc || null] *)
Definition parent_doc (L : Layout) : option Doc :=
  match frm L with
  | Some f => frm_doc f
  | None => doc L
  end.

(** [parent && parent.istable] *)
Definition parent_istable (parent : option Doc) : bool :=
  match parent with
  | Some p => truthy (doc_get p "istable")
  | None => false
  end.

Definition dquote : string := String (ascii_of_nat 34) EmptyString.

(** The message [Invalid "depends_on" expression]. *)
Definition invalid_depends_on : string :=
  "Invalid " ++ dquote ++ "depends_on" ++ dquote ++ " expression".

(** The [eval:] branch: the [try] block with its [catch]. *)
Definition eval_branch (env : Env) (expression : string) (d : Doc)
    (parent : option Doc) : result Value :=
  match js_eval env (substr_from 5 expression) d parent with
  | Ok out =>
      if parent_istable parent && includes "is_submittable" expression
      then Ok (VBool true)
      else Ok out
  | Raise _ =>
      match frappe_throw env invalid_depends_on with
      | Some e => Raise e
      | None => Ok VNull            (* [out] keeps its initial [null] *)
      end
  end.

(** The last branch: [doc[expression]], own or inherited, an array
    counting by its length. *)
Definition lookup_branch (expression : string) (d : Doc) : Value :=
  let value := doc_get d expression in
  match value with
  | VArr items => VBool (negb (Nat.eqb (length items) 0))
  | _ => VBool (truthy value)
  end.

Definition evaluate_depends_on_value (env : Env) (L : Layout)
    (expression : Expr) : result Value :=
  match resolve_doc L with
  | None => Ok VUndefined
  | Some d =>
      let parent := parent_doc L in
      match expression with
      | EBool b => Ok (VBool b)
      | EFun f => f d
      | EStr s =>
          if has_prefix 5 "eval:" s then eval_branch env s d parent
          else
            match has_prefix 3 "fn:" s, frm L with
            | true, Some f => trigger f (substr_from 3 s) (doctype L) (docname L)
            | _, _ => Ok (lookup_branch s d)
            end
      end
  end.

(** ** frappe.ui.form.Layout: the dependency pass *)

Inductive FormObj := FormFrm | FormSelf.

(** [form_obj] of [set_dependant_property]. *)
Definition form_obj (L : Layout) : option FormObj :=
  match frm L with
  | Some _ => Some FormFrm
  | None =>
      if is_dialog L || bool_decide (doctype L = Some "Web Form")
      then Some FormSelf else None
  end.

(** [this.doc && this.doc.parent && this.doc.parentfield] *)
Definition in_child_row (L : Layout) : bool :=
  match doc L with
  | Some d => truthy (doc_get d "parent") && truthy (doc_get d "parentfield")
  | None => false
  end.

(** Modelled from the spec: [set_df_property(fieldname, property, value)]
    of the form (or of the dialog itself) is defined outside the layout.
    The setter finds the field registered under [fieldname], and is "a
    no-op / idempotent if the value is already correct"; otherwise it
    stores the value in the field's df and refreshes the field. *)
Definition set_df_property (name : option string) (p : Property) (value : bool)
    (L : Layout) : Layout :=
  let L := emit (EvSetDfProperty name p value) L in
  match fields_dict L !! key_of name with
  | None => L
  | Some r =>
      match df_of L r with
      | None => L
      | Some df =>
          if Bool.eqb (get_property p df) value then L
          else field_refresh r (upd_df (set_property p value) r L)
      end
  end.

(** Modelled from the spec: the six-argument call
    [set_df_property(parentfield, property, value, parent, fieldname, name)]
    pushes the property "to the parent document's per-row field metadata",
    which is the df the row's control is bound to; the setter itself does
    not refresh the row's control. *)
Definition set_row_df_property (parentfield : Value) (p : Property)
    (value : bool) (name : option string) (L : Layout) : Layout :=
  let L := emit (EvSetRowDfProperty parentfield p value name) L in
  match fields_dict L !! key_of name with
  | None => L
  | Some r => upd_df (set_property p value) r L
  end.

Definition set_dependant_property (env : Env) (condition : Expr)
    (name : option string) (property : Property) : M unit :=
  fun L =>
    match evaluate_depends_on_value env L condition with
    | Raise e => (L, Raise e)
    | Ok set_prop =>
        let value := truthy set_prop in
        match form_obj L with
        | None => (L, Ok tt)
        | Some _ =>
            if in_child_row L then
              let L1 := set_row_df_property
                          (doc_get (default ∅ (doc L)) "parentfield")
                          property value name L in
              (* refresh child fields *)
              match fields_dict L1 !! key_of name with
              | Some r => (field_refresh r L1, Ok tt)
              | None => (L1, Ok tt)
              end
            else (set_df_property name property value L, Ok tt)
        end
    end.

(** [f.df.depends_on || f.df.mandatory_depends_on || f.df.read_only_depends_on] *)
Definition df_has_dep (df : DocField) : bool :=
  expr_set (depends_on df) || expr_set (mandatory_depends_on df)
  || expr_set (read_only_depends_on df).

Definition has_dep (L : Layout) : bool :=
  existsb (fun r => match df_of L r with
                    | Some df => df_has_dep df
                    | None => false
                    end) (fields_list L).

(** The show / hide part of one iteration. *)
Definition show_hide (env : Env) (r : FieldRef) (df : DocField) : M unit :=
  fun L =>
    match depends_on df with
    | Some e =>
        if expr_set (depends_on df) then
          match evaluate_depends_on_value env L e with
          | Raise ex => (L, Raise ex)
          | Ok guardian_has_value =>
              let cur := match df_of L r with
                         | Some d => hidden_due_to_dependency d
                         | None => false
                         end in
              if truthy guardian_has_value then
                if cur
                then (field_refresh r
                        (upd_df (set_hidden_due_to_dependency false) r L), Ok tt)
                else (L, Ok tt)
              else
                if negb cur
                then (field_refresh r
                        (upd_df (set_hidden_due_to_dependency true) r L), Ok tt)
                else (L, Ok tt)
          end
        else (L, Ok tt)
    | None => (L, Ok tt)
    end.

Definition when_set (e : option Expr) (k : Expr -> M unit) : M unit :=
  match e with
  | Some c => if expr_set e then k c else ret tt
  | None => ret tt
  end.

(** The body of the loop [for (var i = me.fields_list.length - 1; i >= 0; i--)]. *)
Definition dependency_step (env : Env) (r : FieldRef) : M unit :=
  fun L =>
    match df_of L r with
    | None => (L, Ok tt)
    | Some df =>
        bind (show_hide env r df) (fun _ =>
        bind (when_set (mandatory_depends_on df) (fun c =>
                set_dependant_property env c (fieldname df) P_reqd)) (fun _ =>
        when_set (read_only_depends_on df) (fun c =>
                set_dependant_property env c (fieldname df) P_read_only))) L
    end.

Definition refresh_section_count : M unit :=
  modify (emit EvRefreshSectionCount).

Definition refresh_dependency (env : Env) : M unit :=
  fun L =>
    if negb (has_dep L) then (L, Ok tt)
    else bind (for_each (dependency_step env) (reverse (fields_list L)))
              (fun _ => refresh_section_count) L.

(** ** frappe.ui.form.Layout: the refresh pass *)

(** [section.find(".frappe-control:not(.hide-control)").length] *)
Definition has_shown_control (L : Layout) (i : nat) : bool :=
  existsb (fun c => Nat.eqb (c_section c) i && negb (hide_control c))
    (controls L).

(** [refresh_sections]: every section that is not itself hidden is marked
    visible or empty. *)
Definition refresh_sections (L : Layout) : Layout :=
  set_sections
    (imap (fun i s =>
             if s_hide_control s then s
             else if has_shown_control L i
                  then set_s_class VisibleSection s
                  else set_s_class EmptySection s)
       (sections L)) L.

(** [var collapse = true; if (df.collapsible_depends_on) collapse =
    !this.evaluate_depends_on_value(df.collapsible_depends_on)] *)
Definition declarative_collapse (env : Env) (L : Layout) (df : DocField)
    : result bool :=
  match collapsible_depends_on df with
  | Some e =>
      if expr_set (collapsible_depends_on df)
      then match evaluate_depends_on_value env L e with
           | Ok v => Ok (negb (truthy v))
           | Raise ex => Raise ex
           end
      else Ok true
  | None => Ok true
  end.

(** One iteration of the loop of [refresh_section_collapse]. *)
Definition collapse_step (env : Env) (i : nat) : M unit :=
  fun L =>
    match sections L !! i with
    | None => (L, Ok tt)
    | Some sec =>
        let df := s_df sec in
        if collapsible df then
          match declarative_collapse env L df with
          | Raise ex => (L, Raise ex)
          | Ok false => (FormSection.collapse i (Some false) L, Ok tt)
          | Ok true =>
              (* collapse && section.has_missing_mandatory() *)
              match FormSection.has_missing_mandatory L sec with
              | Raise ex => (L, Raise ex)
              | Ok missing =>
                  (FormSection.collapse i (Some (negb missing)) L, Ok tt)
              end
          end
        else (L, Ok tt)
    end.

Definition refresh_section_collapse (env : Env) : M unit :=
  fun L => for_each (collapse_step env) (seq 0 (length (sections L))) L.

(** [attach_doc_and_docfields(refresh)].  The metadata registry behind
    [frappe.meta.get_docfield] is an outside collaborator; the df objects
    of the layout are taken to be the registry's own, so rebinding leaves
    them in place. *)
Definition attach_doc_and_docfields (refresh : bool) (L : Layout) : Layout :=
  fold_left (fun L' r => if refresh then field_refresh r L' else L')
    (fields_list L) L.

Definition refresh (env : Env) (new_doc : option Doc) : M unit :=
  fun L =>
    let L := match new_doc with
             | Some d => set_doc (Some d) L
             | None => L
             end in
    let L := attach_doc_and_docfields true L in
    bind (refresh_dependency env) (fun _ =>
    bind (modify refresh_sections) (fun _ =>
    match frm L with
    | Some _ => refresh_section_collapse env
    | None => ret tt
    end)) L.

(** ** frappe.ui.form.Layout: building the tree *)

(** [no_opening_section], read from [this.fields]. *)
Definition no_opening_section (L : Layout) : bool :=
  match fields L with
  | [] => true
  | df :: _ => negb (String.eqb (fieldtype df) "Section Break")
  end.

Definition section_break_df : DocField := {|
  fieldname := None; fieldtype := "Section Break"; label := "";
  hidden := false; reqd := false; read_only := false; permlevel := 0;
  depends_on := None; mandatory_depends_on := None;
  read_only_depends_on := None;
  collapsible := false; collapsible_depends_on := None;
  hidden_due_to_dependency := false |}.

(** [this.fields.unshift({fieldtype: 'Section Break'})] *)
Definition setup_dashboard_section (L : Layout) : Layout :=
  if no_opening_section L then set_fields (section_break_df :: fields L) L
  else L.

(** [new frappe.ui.form.Section(layout, df)]: [init], [make] and the
    first [refresh]; the new section is pushed on [layout.sections]. *)
Definition new_section (df : option DocField) (L : Layout) : Layout * nat :=
  let L1 := match page L with
            | Some _ => L
            | None => set_page (Some (pages L)) (set_pages (S (pages L)) L)
            end in
  let d := default empty_df df in
  let sec := {| s_df := d;
                s_synthetic := match df with None => true | Some _ => false end;
                s_page := default 0 (page L1);
                s_fields_list := [];
                s_head := negb (String.eqb (label d) "");
                s_hide_control := false;
                s_body_hide := false;
                s_class := NoClass |} in
  let i := length (sections L1) in
  (FormSection.refresh i (set_sections (sections L1 ++ [sec]) L1), i).

Definition make_section (df : option DocField) (L : Layout) : Layout :=
  let '(L1, i) := new_section df L in
  let L2 := set_section (Some i) L1 in
  let L3 := match df with
            | Some d =>
                set_fields_list (fields_list L2 ++ [RSection i])
                  (set_fields_dict
                     (<[key_of (fieldname d) := RSection i]> (fields_dict L2)) L2)
            | None => L2
            end in
  set_column None L3.

(** [new frappe.ui.form.Column(this.section, df)]; without a current
    section [this.section.body] is a [TypeError]. *)
Definition make_column (df : option DocField) : M unit :=
  fun L =>
    match section L with
    | None => (L, Raise (TypeError "Cannot read properties of null"))
    | Some sid =>
        let col := {| col_df := default empty_df df;
                      col_synthetic := match df with
                                       | None => true
                                       | Some _ => false
                                       end;
                      col_section := sid |} in
        let i := length (columns L) in
        let L1 := set_column (Some i) (set_columns (columns L ++ [col]) L) in
        let L2 := match df with
                  | Some d =>
                      if name_set (fieldname d)
                      then set_fields_list (fields_list L1 ++ [RColumn i]) L1
                      else L1
                  | None => L1
                  end in
        (L2, Ok tt)
    end.

(** The control object handed back by [frappe.ui.form.make_control]; it
    is not rendered or refreshed yet. *)
Definition init_field (df : DocField) (sid cid : nat) : Control :=
  {| c_df := df; c_section := sid; c_column := cid;
     disp_status := None; wrapper_visible := false; hide_control := false;
     grid_rows := 0; has_editor := false; has_input := false |}.

(** [!this.section && this.make_section()] *)
Definition ensure_section : M unit :=
  fun L => match section L with
           | None => (make_section None L, Ok tt)
           | Some _ => (L, Ok tt)
           end.

(** [!this.column && this.make_column()] *)
Definition ensure_column : M unit :=
  fun L => match column L with
           | None => make_column None L
           | Some _ => (L, Ok tt)
           end.

(** The rest of [make_field]: the control is made in the current column
    and registered with the layout and with the current section. *)
Definition place_field (df : DocField) : M unit :=
  fun L =>
    match section L, column L with
    | Some sid, Some cid =>
        let j := length (controls L) in
        let L1 := set_controls (controls L ++ [init_field df sid cid]) L in
        let L2 := set_fields_list (fields_list L1 ++ [RControl j]) L1 in
        let L3 := set_fields_dict
                    (<[key_of (fieldname df) := RControl j]> (fields_dict L2)) L2 in
        let L4 := set_sections
                    (alter (fun s => set_s_fields_list (s_fields_list s ++ [j]) s)
                       sid (sections L3)) L3 in
        (L4, Ok tt)
    | _, _ => (L, Raise (TypeError "Cannot read properties of null"))
    end.

Definition make_field (df : DocField) : M unit :=
  bind ensure_section (fun _ =>
  bind ensure_column (fun _ => place_field df)).

(** [make_page]: a second page is opened; later sections go into it. *)
Definition make_page (L : Layout) : Layout :=
  set_folded true
    (set_section None
       (set_page (Some (pages L)) (set_pages (S (pages L)) L))).

Definition render_one (df : DocField) : M unit :=
  if String.eqb (fieldtype df) "Fold" then modify make_page
  else if String.eqb (fieldtype df) "Section Break"
       then modify (make_section (Some df))
  else if String.eqb (fieldtype df) "Column Break"
       then make_column (Some df)
  else make_field df.

(** [render(new_fields)].  Without [new_fields] the loop runs over
    [this.fields] itself, so it sees the section break that
    [setup_dashboard_section] may have put in front. *)
Definition render (new_fields : option (list DocField)) : M unit :=
  fun L =>
    let L := set_column None (set_section None L) in
    let L := if with_dashboard L then setup_dashboard_section L else L in
    let fs := match new_fields with
              | Some nf => nf
              | None => fields L
              end in
    let L := if no_opening_section L then make_section None L else L in
    for_each render_one fs L.

(** A layout as [init] leaves it, before [render]. *)
Definition init (fs : list DocField) (dashboard : bool) (fm : option Frm)
    (d : option Doc) : Layout :=
  {| fields := fs; with_dashboard := dashboard; frm := fm;
     is_dialog := false; doctype := None; docname := None;
     doc := d; get_values := None;
     pages := 0; page := None; folded := false;
     controls := []; sections := []; columns := [];
     section := None; column := None;
     fields_list := []; fields_dict := ∅; log := [] |}.

(** The tree that was built, read off the arenas: for every section, in
    order, whether it is synthetic and its columns; for every column
    whether it is synthetic and the fieldnames of its controls. *)
Definition column_controls (L : Layout) (cid : nat) : list (option string) :=
  omap (fun c => if Nat.eqb (c_column c) cid
                 then Some (fieldname (c_df c)) else None)
    (controls L).

Definition section_columns (L : Layout) (sid : nat)
    : list (bool * list (option string)) :=
  omap (fun x => x)
    (imap (fun cid c => if Nat.eqb (col_section c) sid
                        then Some (col_synthetic c, column_controls L cid)
                        else None)
       (columns L)).

Definition tree (L : Layout)
    : list (bool * list (bool * list (option string))) :=
  imap (fun sid s => (s_synthetic s, section_columns L sid)) (sections L).

(** ** frappe.ui.form.Layout: tab navigation *)

(** What tab navigation reads from an entry of a [fields_list]. *)
Record TabField := {
  t_fieldname : option string;
  t_fieldtype : string;
  t_disp_status : option Status;
  t_wrapper_visible : bool;      (* $wrapper exists and is(":visible") *)
  t_grid_rows : nat;
  t_has_editor : bool;
  t_has_input : bool
}.

Definition tab_field (L : Layout) (r : FieldRef) : option TabField :=
  match r with
  | RControl i =>
      (fun c => {| t_fieldname := fieldname (c_df c);
                   t_fieldtype := fieldtype (c_df c);
                   t_disp_status := disp_status c;
                   t_wrapper_visible := wrapper_visible c;
                   t_grid_rows := grid_rows c;
                   t_has_editor := has_editor c;
                   t_has_input := has_input c |}) <$> controls L !! i
  | _ =>
      (* sections and columns have neither disp_status nor $wrapper *)
      (fun df => {| t_fieldname := fieldname df;
                    t_fieldtype := fieldtype df;
                    t_disp_status := None;
                    t_wrapper_visible := false;
                    t_grid_rows := 0;
                    t_has_editor := false;
                    t_has_input := false |}) <$> df_of L r
  end.

Definition tab_fields (L : Layout) : list TabField :=
  omap (tab_field L) (fields_list L).

(** The open grid row found by [get_open_grid_row], as far as
    [handle_tab] reads it. *)
Record GridRow := {
  gr_fields : option (list TabField);   (* grid_row.layout.fields_list *)
  gr_idx : nat;                         (* grid_row.doc.idx *)
  gr_rows : nat;                        (* grid_row.grid.grid_rows.length *)
  gr_parent : option string;            (* grid_row.grid.df.parent *)
  gr_fieldname : option string          (* grid_row.grid.df.fieldname *)
}.

Inductive FocusTarget :=
| TNewRow          (* field.grid.add_new_row(1) *)
| TFirstRow        (* field.grid.grid_rows[0].toggle_view(true) *)
| TEditor          (* field.editor.set_focus() *)
| TInput           (* field.$input.focus() *)
| TNothing.

Inductive Action :=
| ASetFocus (i : nat) (t : FocusTarget)       (* set_focus(fields[i]) *)
| AShowRowForm (i : nat) (added_row : bool)   (* grid_rows[0].show_form() *)
| AFocusPrimary                               (* $(primary_button).focus() *)
| ACloseRowThenTab (parent fieldname : option string)
| AOpenRow (idx : nat).

Definition is_visible (f : TabField) : bool :=
  match t_disp_status f with
  | Some Write => t_wrapper_visible f
  | _ => false
  end.

Definition set_focus (i : nat) (f : TabField) : Action :=
  if String.eqb (t_fieldtype f) "Table" then
    if Nat.eqb (t_grid_rows f) 0 then ASetFocus i TNewRow
    else ASetFocus i TFirstRow
  else if t_has_editor f then ASetFocus i TEditor
  else if t_has_input f then ASetFocus i TInput
  else ASetFocus i TNothing.

Definition in_list (l : list string) (x : string) : bool :=
  existsb (String.eqb x) l.

(** The loop of [focus_on_next_field] over [fields[i], fields[i+1], ...];
    [None] is the fall-through without a [return]. *)
Fixpoint next_field_from (env : Env) (i : nat) (rest : list TabField)
    : option Action :=
  match rest with
  | [] => None
  | field :: rest' =>
      if is_visible field then
        if String.eqb (t_fieldtype field) "Table"
        then Some (AShowRowForm i (Nat.eqb (t_grid_rows field) 0))
        else if negb (in_list (no_value_type env) (t_fieldtype field))
             then Some (set_focus i field)
             else next_field_from env (S i) rest'
      else next_field_from env (S i) rest'
  end.

Definition focus_on_next_field (env : Env) (start_idx : nat)
    (fs : list TabField) : option Action :=
  next_field_from env (S start_idx) (drop (S start_idx) fs).

(** The loop of [handle_tab] from index [i] on; the result is the action
    taken, if any, and the final value of [focused]. *)
Fixpoint tab_loop (env : Env) (fs : list TabField) (name : option string)
    (shift : bool) (i : nat) (prev : option nat) (rest : list TabField)
    : list Action * bool :=
  match rest with
  | [] => ([], false)
  | f :: rest' =>
      let continue_ :=
        tab_loop env fs name shift (S i)
          (if is_visible f then Some i else prev) rest' in
      if bool_decide (t_fieldname f = name) then
        if shift then
          match prev with
          | Some p =>
              match fs !! p with
              | Some pf => ([set_focus p pf], false)
              | None => ([], false)
              end
          | None => ([AFocusPrimary], false)
          end
        else
          match (if Nat.ltb i (length fs - 1)
                 then focus_on_next_field env i fs else None) with
          | Some a => ([a], true)
          | None => continue_
          end
      else continue_
  end.

Definition handle_tab (env : Env) (L : Layout) (open_row : option GridRow)
    (dt : option string) (name : option string) (shift : bool)
    : list Action :=
  let in_grid := negb (bool_decide (dt = doctype L)) in
  let grid_row := if in_grid then open_row else None in
  let fs := if in_grid
            then match open_row with
                 | Some g => gr_fields g
                 | None => None
                 end
            else Some (tab_fields L) in
  match fs with
  | None => []                      (* no open row, or a row without layout *)
  | Some fs =>
      let '(acts, focused) := tab_loop env fs name shift 0 None fs in
      if focused then acts
      else
        match grid_row with
        | Some g =>
            if Nat.eqb (gr_idx g) (gr_rows g)
            then acts ++ [ACloseRowThenTab (gr_parent g) (gr_fieldname g)]
            else acts ++ [AOpenRow (gr_idx g)]
        | None => if negb shift then acts ++ [AFocusPrimary] else acts
        end
  end.

(** ** A reference evaluator for a fragment of the expression language

    [frappe.utils.eval] is instantiated, in concrete runs, by an evaluator
    of the expressions [doc.f], [parent.f] and [doc.f == 'lit'] (also on
    [parent]); anything else is a script error, as a syntax error is. *)

Definition is_ident_char (c : ascii) : bool :=
  let n := nat_of_ascii c in
  (Nat.leb 97 n && Nat.leb n 122) || (Nat.leb 65 n && Nat.leb n 90)
  || (Nat.leb 48 n && Nat.leb n 57) || Nat.eqb n 95.

Fixpoint ltrim (s : string) : string :=
  match s with
  | String c s' => if Ascii.eqb c " "%char then ltrim s' else s
  | EmptyString => EmptyString
  end.

Fixpoint take_ident (s : string) : string * string :=
  match s with
  | String c s' =>
      if is_ident_char c
      then let '(a, b) := take_ident s' in (String c a, b)
      else (EmptyString, s)
  | EmptyString => (EmptyString, EmptyString)
  end.

(** Reads a literal up to the closing quote. *)
Fixpoint take_literal (s : string) : option (string * string) :=
  match s with
  | String c s' =>
      if Ascii.eqb c "'"%char then Some (EmptyString, s')
      else match take_literal s' with
           | Some (a, b) => Some (String c a, b)
           | None => None
           end
  | EmptyString => None
  end.

Definition mini_eval (code : string) (d : Doc) (parent : option Doc)
    : result Value :=
  let bad := Raise (ScriptError "unsupported expression") in
  let s := ltrim code in
  let obj :=
    if String.prefix "doc." s then Some (Some d, substr_from 4 s)
    else if String.prefix "parent." s then Some (parent, substr_from 7 s)
    else None in
  match obj with
  | None => bad
  | Some (None, _) => Raise (TypeError "Cannot read properties of null")
  | Some (Some o, rest) =>
      let '(name, rest) := take_ident rest in
      if String.eqb name "" then bad
      else
        let v := doc_get o name in
        let rest := ltrim rest in
        if String.eqb rest "" then Ok v
        else if String.prefix "==" rest then
          match ltrim (substr_from 2 rest) with
          | String q lit =>
              if Ascii.eqb q "'"%char then
                match take_literal lit with
                | Some (l, tail) =>
                    if String.eqb (ltrim tail) "" then
                      match v with
                      | VStr x => Ok (VBool (String.eqb x l))
                      | VUndefined | VNull => Ok (VBool false)
                      | _ => bad
                      end
                    else bad
                | None => bad
                end
              else bad
          | EmptyString => bad
          end
        else bad
  end.

(** [frappe.throw] raising, as its name says, and the table of field
    types that hold no value. *)
Definition std_env : Env := {|
  js_eval := mini_eval;
  frappe_throw := fun msg => Some (ValidationError msg);
  no_value_type :=
    ["Section Break"; "Column Break"; "HTML"; "Table"; "Table MultiSelect";
     "Button"; "Image"; "Fold"; "Heading"] |}.

(** The same with a [frappe.throw] that only reports and returns. *)
Definition quiet_env : Env := {|
  js_eval := mini_eval;
  frappe_throw := fun _ => None;
  no_value_type := no_value_type std_env |}.

(** A docfield with the given name and type and nothing else set. *)
Definition plain_df (name type : string) : DocField := {|
  fieldname := Some name; fieldtype := type; label := "";
  hidden := false; reqd := false; read_only := false; permlevel := 0;
  depends_on := None; mandatory_depends_on := None;
  read_only_depends_on := None;
  collapsible := false; collapsible_depends_on := None;
  hidden_due_to_dependency := false |}.

Definition with_depends_on (e : Expr) (df : DocField) : DocField := {|
  fieldname := fieldname df; fieldtype := fieldtype df; label := label df;
  hidden := hidden df; reqd := reqd df; read_only := read_only df;
  permlevel := permlevel df;
  depends_on := Some e; mandatory_depends_on := mandatory_depends_on df;
  read_only_depends_on := read_only_depends_on df;
  collapsible := collapsible df;
  collapsible_depends_on := collapsible_depends_on df;
  hidden_due_to_dependency := hidden_due_to_dependency df |}.

Definition with_mandatory_depends_on (e : Expr) (df : DocField) : DocField := {|
  fieldname := fieldname df; fieldtype := fieldtype df; label := label df;
  hidden := hidden df; reqd := reqd df; read_only := read_only df;
  permlevel := permlevel df;
  depends_on := depends_on df; mandatory_depends_on := Some e;
  read_only_depends_on := read_only_depends_on df;
  collapsible := collapsible df;
  collapsible_depends_on := collapsible_depends_on df;
  hidden_due_to_dependency := hidden_due_to_dependency df |}.

(** A collapsible section break. *)
Definition collapsible_df (name lbl : string) (cond : option Expr) : DocField := {|
  fieldname := Some name; fieldtype := "Section Break"; label := lbl;
  hidden := false; reqd := false; read_only := false; permlevel := 0;
  depends_on := None; mandatory_depends_on := None;
  read_only_depends_on := None;
  collapsible := true; collapsible_depends_on := cond;
  hidden_due_to_dependency := false |}.

Definition with_reqd (df : DocField) : DocField := set_property P_reqd true df.

(** A form that grants every permission level and has no scripts. *)
Definition open_frm (d : option Doc) : Frm := {|
  frm_doc := d;
  get_perm := fun _ => true;
  trigger := fun _ _ _ => Ok VUndefined |}.

(** ** Example data *)

Definition status_doc (s : string) : Doc := {[ "status" := VStr s ]}.

(** A grid-row layout inside a form: the layout's document is the child
    row (it carries [istable]), the form's document is its parent. *)
Definition row_doc : Doc :=
  {[ "istable" := VNum 1; "name" := VStr "row-1" ]}.

Definition form_doc : Doc := {[ "name" := VStr "DOC-1" ]}.

Definition row_layout : Layout :=
  init [] false (Some (open_frm (Some form_doc))) (Some row_doc).

(** ** Views used to state what an operation leaves alone *)

(** Everything but the sections and the event log. *)
Definition outside_sections (L : Layout) : Layout :=
  set_sections [] (set_log [] L).


(** A required direct field whose document value is [null] or
    [undefined]. *)
Definition missing_value (d : Doc) (df : DocField) : bool :=
  reqd df && is_nullish (doc_get d (key_of (fieldname df))).


(** A collapsible section with a head, holding one required field. *)
Definition details_layout (d : Doc) : Layout :=
  fst (render None
         (init [collapsible_df "details" "Details" None;
                with_reqd (plain_df "notes" "Data")]
            false (Some (open_frm (Some d))) (Some d))).

(** The section [render] makes of the section break of [details_layout],
    with its one control. *)
Definition details_section : SectionNode :=
  {| s_df := collapsible_df "details" "Details" None; s_synthetic := false;
     s_page := 0; s_fields_list := [0]; s_head := true;
     s_hide_control := false; s_body_hide := false; s_class := NoClass |}.

(** ** Kinds of descriptors *)

Definition is_section_break (df : DocField) : bool :=
  String.eqb (fieldtype df) "Section Break".

Definition is_column_break (df : DocField) : bool :=
  String.eqb (fieldtype df) "Column Break".

(** A descriptor that is neither a fold nor a break becomes a control. *)
Definition is_field (df : DocField) : bool :=
  negb (String.eqb (fieldtype df) "Fold")
  && negb (is_section_break df) && negb (is_column_break df).

Definition synthetic_column (sid : nat) : ColumnNode :=
  {| col_df := empty_df; col_synthetic := true; col_section := sid |}.

(** The section [render] makes of the section break of [headless_layout]. *)
Definition headless_section : SectionNode :=
  {| s_df := collapsible_df "details" "" None; s_synthetic := false;
     s_page := 0; s_fields_list := [0]; s_head := false;
     s_hide_control := false; s_body_hide := false; s_class := NoClass |}.

(** Two sections that differ at most in the [hide] class of the body. *)
Definition same_but_body_hide (s s' : SectionNode) : Prop :=
  set_s_body_hide false s = set_s_body_hide false s'.

(** Where a section comes from: whether it was made without a df, and
    its df. *)
Definition sec_origin (s : SectionNode) : bool * DocField :=
  (s_synthetic s, s_df s).

(** The first section of a list of sections exists and has the given
    origin. *)
Definition first_origin (l : list SectionNode) (o : bool * DocField) : Prop :=
  ∃ s, l !! 0 = Some s ∧ sec_origin s = o.

(** The origin of a first section that no descriptor of the caller asked
    for: made without a df, or, with a dashboard, from the section break
    the layout puts in front of the list. *)
Definition synthesized_origin (dashboard : bool) : bool * DocField :=
  if dashboard then (false, section_break_df) else (true, empty_df).

(** The origin of the first section of the layout built from [fs]. *)
Definition expected_first_origin (fs : list DocField) (dashboard : bool)
    : bool * DocField :=
  match fs with
  | df :: _ =>
      if is_section_break df then (false, df)
      else synthesized_origin dashboard
  | [] => synthesized_origin dashboard
  end.

(** ** A form with three fields for tab navigation

    [A] and [C] are writable and rendered, [B] is hidden; [type_c] is the
    field type of [C]. *)
Definition tab_control (name type : string) (shown : bool) : Control :=
  {| c_df := plain_df name type; c_section := 0; c_column := 0;
     disp_status := Some (if shown then Write else NoStatus);
     wrapper_visible := shown; hide_control := negb shown;
     grid_rows := 0; has_editor := false; has_input := true |}.

Definition tab_layout (type_c : string) : Layout :=
  let L := init [plain_df "A" "Data"; plain_df "B" "Data"; plain_df "C" type_c]
             false None None in
  set_fields_list [RControl 0; RControl 1; RControl 2]
    (set_controls [tab_control "A" "Data" true; tab_control "B" "Data" false;
                   tab_control "C" type_c true] L).

(** What tab navigation sees of [tab_control name type shown]. *)
Definition tab_entry (name type : string) (shown : bool) : TabField :=
  {| t_fieldname := Some name; t_fieldtype := type;
     t_disp_status := Some (if shown then Write else NoStatus);
     t_wrapper_visible := shown; t_grid_rows := 0;
     t_has_editor := false; t_has_input := true |}.

(** ** The dependency pass as a list of writes

    What a pass decides depends on the document, the form and the
    expressions, none of which it changes; what it does is a sequence of
    writes to the flags of the dfs.  The two are separated here: a plan
    lists the writes, [run_prim] performs one. *)

#[global] Instance FieldRef_eq_dec : EqDecision FieldRef.
Proof. solve_decision. Defined.

#[global] Instance Property_eq_dec : EqDecision Property.
Proof. solve_decision. Defined.

Inductive Prim :=
| PFlag (r : FieldRef) (b : bool)
    (* show / hide: [hidden_due_to_dependency] of [r] becomes [b] *)
| PProp (name : option string) (p : Property) (b : bool)
    (* [set_df_property(name, p, b)] *)
| PRowProp (parentfield : Value) (name : option string) (p : Property)
    (b : bool).
    (* the call with six arguments, then the refresh of the child field *)

Definition cur_flag (L : Layout) (r : FieldRef) : bool :=
  match df_of L r with
  | Some d => hidden_due_to_dependency d
  | None => false
  end.

Definition run_prim (c : Prim) (L : Layout) : Layout :=
  match c with
  | PFlag r b =>
      if Bool.eqb (cur_flag L r) b then L
      else field_refresh r (upd_df (set_hidden_due_to_dependency b) r L)
  | PProp name p b => set_df_property name p b L
  | PRowProp pf name p b =>
      let L1 := set_row_df_property pf p b name L in
      match fields_dict L1 !! key_of name with
      | Some r => field_refresh r L1
      | None => L1
      end
  end.

Definition run_prims (cs : list Prim) (L : Layout) : Layout :=
  fold_left (fun L' c => run_prim c L') cs L.

(** A plan: the writes made, and the exception that ended them, if any. *)
Definition Plan : Type := list Prim * option Exn.

Definition plan_result (pl : Plan) : result unit :=
  match snd pl with
  | Some e => Raise e
  | None => Ok tt
  end.

Definition seq_plan (a b : Plan) : Plan :=
  match snd a with
  | Some _ => a
  | None => ((fst a ++ fst b)%list, snd b)
  end.

Definition flag_plan (env : Env) (L : Layout) (r : FieldRef)
    (e : option Expr) : Plan :=
  match e with
  | Some c =>
      if expr_set e then
        match evaluate_depends_on_value env L c with
        | Raise ex => ([], Some ex)
        | Ok v => ([PFlag r (negb (truthy v))], None)
        end
      else ([], None)
  | None => ([], None)
  end.

Definition prop_plan (env : Env) (L : Layout) (e : option Expr)
    (name : option string) (p : Property) : Plan :=
  match e with
  | Some c =>
      if expr_set e then
        match evaluate_depends_on_value env L c with
        | Raise ex => ([], Some ex)
        | Ok v =>
            (match form_obj L with
             | None => []
             | Some _ =>
                 if in_child_row L
                 then [PRowProp (doc_get (default ∅ (doc L)) "parentfield")
                         name p (truthy v)]
                 else [PProp name p (truthy v)]
             end, None)
        end
      else ([], None)
  | None => ([], None)
  end.

Definition step_plan (env : Env) (L : Layout) (x : FieldRef) : Plan :=
  match df_of L x with
  | None => ([], None)
  | Some df =>
      seq_plan (flag_plan env L x (depends_on df))
        (seq_plan (prop_plan env L (mandatory_depends_on df) (fieldname df) P_reqd)
           (prop_plan env L (read_only_depends_on df) (fieldname df)
              P_read_only))
  end.

Fixpoint pass_plan (env : Env) (L : Layout) (xs : list FieldRef) : Plan :=
  match xs with
  | [] => ([], None)
  | x :: xs' => seq_plan (step_plan env L x) (pass_plan env L xs')
  end.

(** ** What a refresh cannot change *)

(** The df without the three flags a pass writes. *)
Definition df_static (df : DocField) : DocField :=
  set_hidden_due_to_dependency false
    (set_property P_reqd false (set_property P_read_only false df)).

Definition control_static (c : Control) : Control :=
  set_c_df (df_static (c_df c)) c.

Definition section_static (s : SectionNode) : SectionNode :=
  {| s_df := df_static (s_df s); s_synthetic := s_synthetic s;
     s_page := s_page s; s_fields_list := s_fields_list s;
     s_head := s_head s; s_hide_control := false; s_body_hide := false;
     s_class := NoClass |}.

Definition column_static (c : ColumnNode) : ColumnNode :=
  set_col_df (df_static (col_df c)) c.

(** The layout without the flags, the classes of the sections and the
    event log. *)
Definition frame (L : Layout) : Layout :=
  set_log []
    (set_controls (control_static <$> controls L)
       (set_sections (section_static <$> sections L)
          (set_columns (column_static <$> columns L) L))).

Definition flag_of (L : Layout) (r : FieldRef) : option bool :=
  hidden_due_to_dependency <$> df_of L r.

Definition prop_of (L : Layout) (r : FieldRef) (p : Property) : option bool :=
  get_property p <$> df_of L r.

(** Two layouts that differ at most in their event logs. *)
Definition same_state (L L' : Layout) : Prop := set_log [] L = set_log [] L'.

(** The object a write goes to, and the write itself. *)
Definition prim_target (L : Layout) (c : Prim) : option FieldRef :=
  match c with
  | PFlag r _ => Some r
  | PProp name _ _ | PRowProp _ name _ _ => fields_dict L !! key_of name
  end.

Definition prim_write (c : Prim) (df : DocField) : DocField :=
  match c with
  | PFlag _ b => set_hidden_due_to_dependency b df
  | PProp _ p b | PRowProp _ _ p b => set_property p b df
  end.

(** [c] writes the visibility flag of [r]. *)
Definition writes_flag (r : FieldRef) (c : Prim) : Prop :=
  match c with
  | PFlag r' _ => r' = r
  | _ => False
  end.

(** The permission test of [Section.refresh]. *)
Definition perm_read (fm : option Frm) (df : DocField) : bool :=
  match fm with
  | Some f => get_perm f (permlevel df)
  | None => true
  end.

(** The visibility a df asks for.  Modelled from the spec:
    [visible = !hidden_static && !hidden_due_to_dependency], a field
    being "additionally forced hidden" when the form does not grant read
    permission at its permlevel. *)
Definition df_visible (fm : option Frm) (df : DocField) : bool :=
  negb (hidden df) && negb (hidden_due_to_dependency df) && perm_read fm df.

(** The wrapper of section [i] carries the class its df asks for. *)
Definition hide_consistent (L : Layout) (i : nat) : Prop :=
  ∀ s, sections L !! i = Some s →
       s_hide_control s = FormSection.hide (frm L) (s_df s).

(** The document a refresh works with. *)
Definition rebind (new_doc : option Doc) (L : Layout) : Layout :=
  match new_doc with
  | Some d => set_doc (Some d) L
  | None => L
  end.

(** A field whose [depends_on] cannot be evaluated. *)
Definition broken_layout : Layout :=
  fst (render None
         (init [with_depends_on (EStr "eval:doc.status ==") (plain_df "A" "Data")]
            false None (Some (status_doc "Open")))).

(** A field shown while the status is Open, after a section break that is
    shown under the same condition. *)
Definition status_layout (s : string) : Layout :=
  fst (render None
         (init [with_depends_on (EStr "eval: doc.status == 'Open'")
                  (plain_df "sb" "Section Break");
                with_depends_on (EStr "eval: doc.status == 'Open'")
                  (plain_df "A" "Data");
                plain_df "B" "Data"]
            false None (Some (status_doc s)))).

(** Three fields of a form without permissions to consult: [A] with the
    literal [false] as its [depends_on], [B] without [depends_on] but
    with the flag a former pass has left on its df, and [C] shown while
    the status is Open. *)
Definition stale_layout : Layout :=
  fst (render None
         (init [with_depends_on (EBool false) (plain_df "A" "Data");
                set_hidden_due_to_dependency true (plain_df "B" "Data");
                with_depends_on (EStr "eval: doc.status == 'Open'")
                  (plain_df "C" "Data")]
            false None (Some (status_doc "Open")))).

Definition is_flag_write (r : FieldRef) (c : Prim) : bool :=
  match c with
  | PFlag r' _ => bool_decide (r' = r)
  | _ => false
  end.

(** Two layouts with the same controls, columns and form whose sections
    have the same dfs and [hide-control] classes. *)
Definition same_dfs (L L' : Layout) : Prop :=
  outside_sections L' = outside_sections L ∧
  length (sections L') = length (sections L) ∧
  ∀ i s, sections L !! i = Some s →
    ∃ s', sections L' !! i = Some s' ∧
          s_df s' = s_df s ∧ s_hide_control s' = s_hide_control s.


(** ** Re-rendering *)


(** What [field_refresh r] appends to the event log. *)
Definition refresh_events (L : Layout) (r : FieldRef) : list Event :=
  match r with
  | RControl _ => [EvRefresh r]
  | RSection i => [EvSectionRefresh i]
  | RColumn c =>
      match columns L !! c with
      | Some col => [EvSectionRefresh (col_section col)]
      | None => []
      end
  end.

(** The events a computation added to the log of [L]. *)
Definition new_events (L L' : Layout) : list Event :=
  drop (length (log L)) (log L').









(** ** The flags of a df, one at a time *)

Inductive DLoc := DFlag | DProp (p : Property).

#[global] Instance DLoc_eq_dec : EqDecision DLoc.
Proof. solve_decision. Defined.

Definition get_dloc (k : DLoc) (df : DocField) : bool :=
  match k with
  | DFlag => hidden_due_to_dependency df
  | DProp p => get_property p df
  end.

Definition dloc_of (L : Layout) (r : FieldRef) (k : DLoc) : option bool :=
  get_dloc k <$> df_of L r.

(** The flag a write goes to and the value written. *)
Definition prim_loc (c : Prim) : DLoc :=
  match c with
  | PFlag _ _ => DFlag
  | PProp _ p _ | PRowProp _ _ p _ => DProp p
  end.

Definition prim_value (c : Prim) : bool :=
  match c with
  | PFlag _ b | PProp _ _ b | PRowProp _ _ _ b => b
  end.

(** Every section carries the [hide-control] class its df asks for, as it
    does when [Section.init] has refreshed it. *)
Definition sections_consistent (L : Layout) : Prop :=
  ∀ i, hide_consistent L i.

(** The decision of one step of [refresh_section_collapse]: nothing to
    do, an exception, or the argument of [collapse]. *)
Definition collapse_decision (env : Env) (L : Layout) (i : nat)
    : option (result bool) :=
  match sections L !! i with
  | None => None
  | Some sec =>
      if collapsible (s_df sec) then
        Some match declarative_collapse env L (s_df sec) with
             | Raise ex => Raise ex
             | Ok false => Ok false
             | Ok true =>
                 match FormSection.has_missing_mandatory L sec with
                 | Raise ex => Raise ex
                 | Ok missing => Ok (negb missing)
                 end
             end
      else None
  end.

(** The classes a dependency pass never touches. *)
Definition sec_rest (L : Layout) (i : nat) : option (bool * SectionClass) :=
  (fun s => (s_body_hide s, s_class s)) <$> sections L !! i.

Definition sec_hide (L : Layout) (i : nat) : option bool :=
  s_hide_control <$> sections L !! i.

(** A layout whose visible sections already carry the class
    [refresh_sections] gives them. *)
Definition sections_marked (L : Layout) : Prop :=
  ∀ i s, sections L !! i = Some s → s_hide_control s = false →
    s_class s = if has_shown_control L i then VisibleSection else EmptySection.


(** A form with a collapsible section that its condition keeps open while
    the status is Open. *)
Definition manual_layout : Layout :=
  fst (render None
         (init [collapsible_df "details" "Details"
                  (Some (EStr "eval:doc.status == 'Open'"));
                plain_df "notes" "Data"]
            false (Some (open_frm (Some (status_doc "Open"))))
            (Some (status_doc "Open")))).

(** ** Tactics *)

(** Runs the builder on a concrete list of descriptors. *)
Ltac run_builder :=
  cbv [for_each bind modify ret make_field ensure_section ensure_column
       place_field make_section make_column
       new_section make_page init_field
       set_fields set_doc set_pages set_page set_folded set_controls
       set_sections set_columns set_section set_column set_fields_list
       set_fields_dict set_log emit
       fields with_dashboard frm is_dialog doctype docname doc get_values
       pages page folded controls sections columns section column
       fields_list fields_dict log
       FormSection.refresh set_s_hide_control set_s_fields_list
       s_df s_synthetic s_page s_fields_list s_head s_hide_control
       s_body_hide s_class
       init default from_option id length app
       alter list_alter].

(** Reduces the projections of a layout applied to field updates. *)
Ltac lsimpl :=
  cbn [fields with_dashboard frm is_dialog doctype docname doc get_values
       pages page folded controls sections columns section column
       fields_list fields_dict log
       set_fields set_doc set_pages set_page set_folded set_controls
       set_sections set_columns set_section set_column set_fields_list
       set_fields_dict set_log emit].

Ltac lsimpl_in H :=
  cbn [fields with_dashboard frm is_dialog doctype docname doc get_values
       pages page folded controls sections columns section column
       fields_list fields_dict log
       set_fields set_doc set_pages set_page set_folded set_controls
       set_sections set_columns set_section set_column set_fields_list
       set_fields_dict set_log emit] in H.

(** * Further definitions: the builder, messages and key events *)

(** ** Kinds of descriptors, continued *)

Definition is_fold (df : DocField) : bool := String.eqb (fieldtype df) "Fold".

(** The list starts with a column break. *)
Definition starts_with_column (fs : list DocField) : bool :=
  match fs with
  | df :: _ => is_column_break df
  | [] => false
  end.

(** Somewhere in the list a column break comes right after a fold. *)
Fixpoint fold_then_column (fs : list DocField) : bool :=
  match fs with
  | df :: rest =>
      (is_fold df && starts_with_column rest) || fold_then_column rest
  | [] => false
  end.

(** Whether [this.section] is set. *)
Definition has_section (L : Layout) : bool :=
  match section L with Some _ => true | None => false end.

(** The exception of a property read on [null]. *)
Definition null_deref : Exn := TypeError "Cannot read properties of null".

(** Whether the loop over [fs] runs to its end, given whether there is a
    current section when it starts. *)
Fixpoint loop_ok (sec : bool) (fs : list DocField) : bool :=
  match fs with
  | [] => true
  | df :: rest =>
      if is_fold df then loop_ok false rest
      else if is_column_break df then sec && loop_ok true rest
      else loop_ok true rest
  end.

(** ** What the builder registers *)

(** A descriptor that ends up in [fields_list]: every field and section
    break, and a column break that has a fieldname. *)
Definition listed (df : DocField) : bool :=
  is_section_break df || is_field df
  || (is_column_break df && name_set (fieldname df)).

(** Columns are pushed on [fields_list] but never put in [fields_dict]. *)
Definition registered (r : FieldRef) : bool :=
  match r with RColumn _ => false | _ => true end.

(** The key under which the object behind a reference is registered. *)
Definition ref_key (L : Layout) (r : FieldRef) : option string :=
  (fun df => key_of (fieldname df)) <$> df_of L r.

Definition named (L : Layout) (k : string) (r : FieldRef) : bool :=
  registered r && bool_decide (ref_key L r = Some k).

(** The last field or section of [fields_list] registered under [k]. *)
Definition last_named (L : Layout) (k : string) : option FieldRef :=
  last (List.filter (named L k) (fields_list L)).

(** [this.fields] once [render] has run: with a dashboard a section break
    is put in front of a list that does not start with one. *)
Definition rendered_fields (fs : list DocField) (dashboard : bool)
    : list DocField :=
  if dashboard && match fs with
                  | [] => true
                  | df :: _ => negb (is_section_break df)
                  end
  then section_break_df :: fs else fs.

(** The controls of section [i], in the order of their creation. *)
Definition controls_of_section (L : Layout) (i : nat) : list nat :=
  List.filter (fun j => bool_decide (c_section <$> controls L !! j = Some i))
    (seq 0 (length (controls L))).

(** ** Invariants of the builder *)

Definition refs_valid (L : Layout) : Prop :=
  ∀ r, r ∈ fields_list L → is_Some (df_of L r).

Definition dict_last (L : Layout) : Prop :=
  ∀ k, fields_dict L !! k = last_named L k.

Definition controls_placed (L : Layout) : Prop :=
  ∀ j c, controls L !! j = Some c →
    c_section c < length (sections L) ∧
    col_section <$> columns L !! c_column c = Some (c_section c).

Definition section_lists (L : Layout) : Prop :=
  ∀ i s, sections L !! i = Some s → s_fields_list s = controls_of_section L i.

Definition current_ok (L : Layout) : Prop :=
  (∀ sid, section L = Some sid → sid < length (sections L)) ∧
  (∀ sid cid, section L = Some sid → column L = Some cid →
     col_section <$> columns L !! cid = Some sid).

Definition built (L : Layout) : Prop :=
  refs_valid L ∧ dict_last L ∧ controls_placed L ∧ section_lists L ∧
  current_ok L.

(** Objects stay where they are, with their dfs. *)
Definition grows (L L' : Layout) : Prop :=
  ∀ r df, df_of L r = Some df → df_of L' r = Some df.

(** ** Adding fields to a layout that was rendered *)

(** [fields.map((field) => { if (field.fieldname) return field.fieldname; })]:
    a descriptor without a fieldname contributes [undefined]. *)
Definition fieldnames_of (fs : list DocField) : list (option string) :=
  (fun df => if name_set (fieldname df) then fieldname df else None) <$> fs.

(** A call [fieldobj.set_input(value)] on a control. *)
Inductive InputCall :=
| SetInput (r : FieldRef) (v : Value).

(** The attribute [df["default"]] is read through [default_of]. *)
Definition refresh_fields_step (default_of : DocField -> Value)
    (fieldnames : list (option string)) (r : FieldRef) : M (list InputCall) :=
  fun L =>
    match df_of L r with
    | None => (L, Ok [])
    | Some df =>
        if bool_decide (fieldname df ∈ fieldnames) then
          let L1 := field_refresh r L in
          if truthy (default_of df) then
            match r with
            | RControl _ => (L1, Ok [SetInput r (default_of df)])
            | _ =>
                (* sections and columns have no [set_input] *)
                (L1, Raise (TypeError "fieldobj.set_input is not a function"))
            end
          else (L1, Ok [])
        else (L, Ok [])
    end.

(** [this.fields_list.map(fieldobj => ...)], collecting the inputs set. *)
Fixpoint refresh_each (default_of : DocField -> Value)
    (fieldnames : list (option string)) (rs : list FieldRef)
    : M (list InputCall) :=
  match rs with
  | [] => ret []
  | r :: rs' =>
      bind (refresh_fields_step default_of fieldnames r) (fun c1 =>
      bind (refresh_each default_of fieldnames rs') (fun c2 =>
      ret (c1 ++ c2)%list))
  end.

Definition refresh_fields (default_of : DocField -> Value)
    (fs : list DocField) : M (list InputCall) :=
  fun L => refresh_each default_of (fieldnames_of fs) (fields_list L) L.

(** [add_fields(fields)]: [this.render(fields); this.refresh_fields(fields)] *)
Definition add_fields (default_of : DocField -> Value)
    (fs : list DocField) : M (list InputCall) :=
  bind (render (Some fs)) (fun _ => refresh_fields default_of fs).

(** The entries of [fields_list] that [refresh_fields] goes to. *)
Definition matches (fieldnames : list (option string)) (L : Layout)
    (r : FieldRef) : bool :=
  match df_of L r with
  | Some df => bool_decide (fieldname df ∈ fieldnames)
  | None => false
  end.

Definition matching (fieldnames : list (option string)) (L : Layout)
    : list FieldRef :=
  List.filter (matches fieldnames L) (fields_list L).

(** The input set on an entry that has a default. *)
Definition default_call (default_of : DocField -> Value) (L : Layout)
    (r : FieldRef) : option InputCall :=
  match df_of L r with
  | Some df =>
      if truthy (default_of df) then Some (SetInput r (default_of df))
      else None
  | None => None
  end.

(** What was made since the layout had [n0] sections and [m0] controls
    belongs to sections made since. *)
Definition made_since (n0 m0 : nat) (L : Layout) : Prop :=
  (n0 ≤ length (sections L))%nat ∧
  (∀ sid, section L = Some sid → (n0 ≤ sid)%nat) ∧
  (∀ j c, controls L !! j = Some c → (m0 ≤ j)%nat → (n0 ≤ c_section c)%nat).

(** The arenas and [fields_list] of [L'] continue those of [L]. *)
Definition continues (L L' : Layout) : Prop :=
  controls L `prefix_of` controls L' ∧
  columns L `prefix_of` columns L' ∧
  fields_list L `prefix_of` fields_list L' ∧
  (length (sections L) ≤ length (sections L'))%nat ∧
  fields L' = fields L ∧ with_dashboard L' = with_dashboard L.

(** What [refresh_fields] cannot change: everything but the
    [hide-control] class of the sections and the event log. *)
Definition quiet (L L' : Layout) : Prop :=
  controls L' = controls L ∧ columns L' = columns L ∧
  fields_list L' = fields_list L ∧ fields L' = fields L ∧
  length (sections L') = length (sections L) ∧
  (∀ i s, sections L !! i = Some s →
     ∃ s', sections L' !! i = Some s' ∧ s_df s' = s_df s ∧
           s_fields_list s' = s_fields_list s).

(** A layout with two fields and a section break between them, and a
    default for the field [B] only. *)
Definition two_field_layout : Layout :=
  fst (render None
         (init [plain_df "A" "Data"; plain_df "sb" "Section Break";
                plain_df "B" "Data"] false None None)).

Definition default_for_B (df : DocField) : Value :=
  if bool_decide (fieldname df = Some "B") then VStr "x" else VUndefined.

(** ** Collapse states *)

(** The collapse state of section [i]. *)
Definition collapsed_at (L : Layout) (i : nat) : option bool :=
  FormSection.is_collapsed <$> sections L !! i.

(** A click on the head of section [i].  [make_head] binds the handler,
    which calls [collapse()] without an argument, only when the df is
    collapsible, and a head is made only for a df with a label.  Nothing
    in the layout writes [df.collapsible], so the test gives at the time
    of the click what it gave when the head was made. *)
Definition head_click (i : nat) (L : Layout) : Layout :=
  match sections L !! i with
  | Some s =>
      if s_head s && collapsible (s_df s)
      then FormSection.collapse i None L
      else L
  | None => L
  end.

(** What [Section.collapse] needs of a section to act on it, and what
    [refresh_section_collapse] needs to call it. *)
Definition recomputed (s : SectionNode) : bool :=
  collapsible (s_df s) && s_head s.

(** A dialog (no form) with a collapsible section, after a click on the
    head of that section. *)
Definition clicked_dialog : Layout :=
  FormSection.collapse 0 None
    (fst (render None
            (init [collapsible_df "details" "Details" None;
                   plain_df "notes" "Data"]
               false None (Some form_doc)))).

(** ** The dependency pass in special layouts *)

(** A layout with one conditional field and no document at all. *)
Definition unbound_layout : Layout :=
  fst (render None
         (init [with_depends_on (EStr "eval:doc.status ==") (plain_df "A" "Data");
                plain_df "B" "Data"]
            false None None)).

(** A layout that is neither in a form nor a dialog, with a field that is
    mandatory while the status is Open. *)
Definition bare_layout : Layout :=
  fst (render None
         (init [with_mandatory_depends_on (EStr "eval:doc.status == 'Open'")
                  (plain_df "A" "Data")]
            false None (Some (status_doc "Open")))).

(** ** Tab navigation in general *)

(** A field the forward scan of [focus_on_next_field] stops at: visible,
    and a table or of a type that holds a value. *)
Definition eligible (env : Env) (f : TabField) : bool :=
  is_visible f &&
  (String.eqb (t_fieldtype f) "Table"
   || negb (in_list (no_value_type env) (t_fieldtype f))).

(** What the forward scan does with the field it stops at. *)
Definition forward_action (i : nat) (f : TabField) : Action :=
  if String.eqb (t_fieldtype f) "Table"
  then AShowRowForm i (Nat.eqb (t_grid_rows f) 0)
  else set_focus i f.

(** How a grid row is left: the last row is closed and navigation goes on
    in the form, otherwise the next row is opened. *)
Definition leave_row (g : GridRow) : Action :=
  if Nat.eqb (gr_idx g) (gr_rows g)
  then ACloseRowThenTab (gr_parent g) (gr_fieldname g)
  else AOpenRow (gr_idx g).

(** The variable [prev] of [handle_tab] after the fields [l], the first
    of which has index [i]. *)
Fixpoint scan_prev (i : nat) (prev : option nat) (l : list TabField)
    : option nat :=
  match l with
  | [] => prev
  | f :: l' => scan_prev (S i) (if is_visible f then Some i else prev) l'
  end.

(** A form with the fields [A], a button, [B] and [C], of which [B] is
    hidden. *)
Definition nav_layout : Layout :=
  let L := init [] false None None in
  set_fields_list [RControl 0; RControl 1; RControl 2; RControl 3]
    (set_controls [tab_control "A" "Data" true; tab_control "go" "Button" true;
                   tab_control "B" "Data" false; tab_control "C" "Data" true]
       L).

(** The second of three rows of a grid, open, with two fields. *)
Definition open_row : GridRow :=
  {| gr_fields := Some [tab_entry "x" "Data" true; tab_entry "y" "Data" true];
     gr_idx := 2; gr_rows := 3;
     gr_parent := Some "Order"; gr_fieldname := Some "items" |}.

(** ** The keydown handler installed by [setup_tabbing] *)

(** What the handler reads of the event: [ev.which], the attributes
    [data-doctype] and [data-fieldname] of the target, and [ev.shiftKey]. *)
Record KeyEvent := {
  ev_which : nat;
  ev_doctype : option string;
  ev_fieldname : option string;
  ev_shift : bool
}.

(** What the handler returns: nothing, so that the browser goes on with
    the key, or [false] after the actions of [handle_tab]. *)
Inductive Outcome :=
| Unhandled
| Suppressed (acts : list Action).

(** The fields [handle_tab] walks through, if any: those of the layout,
    or those of the open grid row when the event comes from a field of
    another doctype. *)
Definition tab_scope (L : Layout) (open_row : option GridRow)
    (dt : option string) : option (list TabField) :=
  if negb (bool_decide (dt = doctype L))
  then match open_row with
       | Some g => gr_fields g
       | None => None
       end
  else Some (tab_fields L).

(** [handle_tab] with its return value: [undefined] when it returns
    before the loop, [false] otherwise. *)
Definition handle_tab_result (env : Env) (L : Layout)
    (open_row : option GridRow) (dt name : option string) (shift : bool)
    : Outcome :=
  match tab_scope L open_row dt with
  | None => Unhandled
  | Some _ => Suppressed (handle_tab env L open_row dt name shift)
  end.

Definition keydown (env : Env) (L : Layout) (open_row : option GridRow)
    (ev : KeyEvent) : Outcome :=
  if Nat.eqb (ev_which ev) 9 then
    if name_set (ev_doctype ev)
    then handle_tab_result env L open_row (ev_doctype ev) (ev_fieldname ev)
           (ev_shift ev)
    else Unhandled
  else Unhandled.

(** ** The message area of the layout *)

(** The element [this.message] with the colour remembered in
    [this.message_color].  The elements appended to it are kept as the
    markup [$(html)] made them from. *)
Record Message := {
  message_color : option string;
  m_classes : gset string;
  m_content : list string
}.

(** [$('<div class="form-message hidden"></div>')], as [make] creates it. *)
Definition new_message : Message :=
  {| message_color := None;
     m_classes := {[ "form-message"; "hidden" ]};
     m_content := [] |}.

Definition message_colors : list string :=
  ["yellow"; "blue"; "red"; "green"; "orange"].

(** Truthiness of an optional string. *)
Definition str_set (s : option string) : bool :=
  match s with Some x => negb (String.eqb x "") | None => false end.

(** [(color && [...].includes(color)) ? color : 'blue'] *)
Definition pick_color (color : option string) : string :=
  match color with
  | Some c => if str_set color && in_list message_colors c then c else "blue"
  | None => "blue"
  end.

(** [if (html.substr(0, 1) !== '<') html = '<div>' + html + '</div>'] *)
Definition wrap_html (html : string) : string :=
  if String.eqb (substring 0 1 html) "<" then html
  else "<div>" ++ html ++ "</div>".

(** [show_message(html, color)].  [$(html)] is jQuery's: [jq html] is the
    markup of the elements it makes, or the exception it raises (a string
    jQuery does not take for markup is read as a selector, and a selector
    that does not parse is a syntax error).  The classes are set before
    [$(html)] is called. *)
Definition show_message (jq : string → result string)
    (html color : option string) (M : Message) : Message * result unit :=
  let classes1 :=
    match message_color M with
    | Some c => if str_set (message_color M) then m_classes M ∖ {[ c ]}
                else m_classes M
    | None => m_classes M
    end in
  let c := pick_color color in
  let hidden_empty :=
    {| message_color := Some c;
       m_classes := {[ "hidden" ]} ∪ classes1;
       m_content := [] |} in
  match html with
  | Some h =>
      if str_set html then
        let shown := {[ c ]} ∪ (classes1 ∖ {[ "hidden" ]}) in
        match jq (wrap_html h) with
        | Ok el =>
            ({| message_color := Some c; m_classes := shown;
                m_content := (m_content M ++ [el])%list |}, Ok tt)
        | Raise e =>
            ({| message_color := Some c; m_classes := shown;
                m_content := m_content M |}, Raise e)
        end
      else (hidden_empty, Ok tt)
  | None => (hidden_empty, Ok tt)
  end.

(** A sequence of calls, each with its [html] and [color]; a call that
    raises leaves the message area as it was when the exception left. *)
Definition show_messages (jq : string → result string)
    (calls : list (option string * option string)) (M : Message) : Message :=
  fold_left (fun M' c => fst (show_message jq (fst c) (snd c) M')) calls M.

(** The remembered colour, if any, is one of the five, and the message
    element carries its own class and either [hidden] or the remembered
    colour, and nothing else. *)
Definition message_ok (M : Message) : Prop :=
  (message_color M = None ∨
   ∃ c, message_color M = Some c ∧ c ∈ message_colors) ∧
  (m_classes M = {[ "form-message"; "hidden" ]} ∨
   ∃ c, message_color M = Some c ∧ m_classes M = {[ "form-message"; c ]}).

(** ** Making a layout from the metadata of a doctype *)

(** [get_new_name_field]: the descriptor of the field in which the name
    of a new document is typed.  [name_label] is [__('Name')]; the
    attributes [parent] and [get_status] are not read by the layout. *)
Definition get_new_name_field (name_label : string) : DocField := {|
  fieldname := Some "__newname"; fieldtype := "Data"; label := name_label;
  hidden := true; reqd := true; read_only := false; permlevel := 0;
  depends_on := None; mandatory_depends_on := None;
  read_only_depends_on := None;
  collapsible := false; collapsible_depends_on := None;
  hidden_due_to_dependency := false |}.

(** [docfield.label = f.label] *)
Definition set_label (lbl : string) (df : DocField) : DocField := {|
  fieldname := fieldname df; fieldtype := fieldtype df; label := lbl;
  hidden := hidden df; reqd := reqd df; read_only := read_only df;
  permlevel := permlevel df;
  depends_on := depends_on df; mandatory_depends_on := mandatory_depends_on df;
  read_only_depends_on := read_only_depends_on df;
  collapsible := collapsible df;
  collapsible_depends_on := collapsible_depends_on df;
  hidden_due_to_dependency := hidden_due_to_dependency df |}.

(** The metadata of the doctype, kept outside the layout:
    - [copy_docfield name] is
      [copy_dict(frappe.meta.docfield_map[this.doctype][name])];
    - [sorted_docfields] is
      [frappe.meta.sort_docfields(frappe.meta.docfield_map[this.doctype])];
    - [doctype_layout] holds the fieldname and label of every entry of
      [this.doctype_layout.fields], when there is a doctype layout. *)
Record Meta := {
  copy_docfield : option string -> DocField;
  sorted_docfields : list DocField;
  doctype_layout : option (list (option string * string));
  name_label : string
}.

Definition get_fields_from_layout (m : Meta)
    (layout_fields : list (option string * string)) : list DocField :=
  (fun f => set_label (snd f) (copy_docfield m (fst f))) <$> layout_fields.

(** [get_doctype_fields]; [get_new_name_field] reads [this.frm.doctype],
    which is a [TypeError] without a form. *)
Definition get_doctype_fields (m : Meta) (fm : option Frm)
    : result (list DocField) :=
  match fm with
  | None => Raise (TypeError "Cannot read properties of undefined")
  | Some _ =>
      Ok (get_new_name_field (name_label m) ::
            match doctype_layout m with
            | Some lf => get_fields_from_layout m lf
            | None => sorted_docfields m
            end)
  end.

(** [make], on the options [init] has copied into the layout: the fields
    are those given, or else those of the doctype. *)
Definition make (m : Meta) (given : option (list DocField)) (dashboard : bool)
    (fm : option Frm) (d : option Doc) : Layout * result unit :=
  match given with
  | Some fs => render None (init fs dashboard fm d)
  | None =>
      match get_doctype_fields m fm with
      | Ok fs => render None (init fs dashboard fm d)
      | Raise e => (init [] dashboard fm d, Raise e)
      end
  end.

(** ** What every refresh does first *)

(** The events of refreshing every entry of [fields_list] in order. *)
Definition refresh_all_events (L : Layout) : list Event :=
  concat (refresh_events L <$> fields_list L).


(** ** The widths of the columns *)

(** The columns of section [sid], by index: the elements found by
    [this.section.wrapper.find(".form-column")]. *)
Definition section_column_ids (cols : list ColumnNode) (sid : nat) : list nat :=
  List.filter (fun i => bool_decide (col_section <$> cols !! i = Some sid))
    (seq 0 (length cols)).

(** [resize_all_columns] in section [sid]: every column of the section
    gets the class [col-sm-<colspan>], whatever class it had.  The width
    classes are kept by column index; [cint_div a b] is [cint(a / b)]. *)
Definition resize_all_columns (cint_div : nat -> nat -> nat)
    (cols : list ColumnNode) (sid : nat) (w : list nat) : list nat :=
  let colspan := cint_div 12 (length (section_column_ids cols sid)) in
  imap (fun i x => if bool_decide (col_section <$> cols !! i = Some sid)
                   then colspan else x) w.

(** [Column.init] for the column pushed last on [cols]: [make] adds its
    element, still without a width, and [resize_all_columns] follows. *)
Definition column_init (cint_div : nat -> nat -> nat)
    (cols : list ColumnNode) (w : list nat) : list nat :=
  match last cols with
  | Some c => resize_all_columns cint_div cols (col_section c) (w ++ [0])%list
  | None => w
  end.

(** The width classes once the columns have been made one after the
    other, in the order of the arena. *)
Definition column_widths (cint_div : nat -> nat -> nat)
    (cols : list ColumnNode) : list nat :=
  fold_left (fun w k => column_init cint_div (take k cols) w)
    (seq 1 (length cols)) [].

(** The sum of the widths of the columns of section [sid]. *)
Definition section_width (cint_div : nat -> nat -> nat)
    (cols : list ColumnNode) (sid : nat) : nat :=
  list_sum ((fun j => default 0 (column_widths cint_div cols !! j))
              <$> section_column_ids cols sid).

(** A form with one section and three columns. *)
Definition three_column_layout : Layout :=
  fst (render None
         (init [plain_df "A" "Data"; plain_df "c1" "Column Break";
                plain_df "B" "Data"; plain_df "c2" "Column Break";
                plain_df "C" "Data"] false None None)).

(** ** The order of the dependency pass *)

(** The three conditions of a df. *)
Definition conditions (df : DocField) : list (option Expr) :=
  [depends_on df; mandatory_depends_on df; read_only_depends_on df].

(** Every condition of [r] that is set evaluates without raising. *)
Definition evaluates (env : Env) (L : Layout) (r : FieldRef) : Prop :=
  ∀ df c e, df_of L r = Some df → c ∈ conditions df → c = Some e →
    expr_set c = true → ∃ v, evaluate_depends_on_value env L e = Ok v.

(** Three fields shown while the status is Open; the condition of the
    second cannot be evaluated. *)
Definition half_broken_layout : Layout :=
  fst (render None
         (init [with_depends_on (EStr "eval: doc.status == 'Open'")
                  (plain_df "A" "Data");
                with_depends_on (EStr "eval:doc.status ==") (plain_df "B" "Data");
                with_depends_on (EStr "eval: doc.status == 'Open'")
                  (plain_df "C" "Data")]
            false None (Some (status_doc "Closed")))).

(** ** Sections as they are made *)

(** A section as [Section.init] leaves it: expanded, not yet marked, and
    hidden exactly when its df or the form's permissions say so. *)
Definition as_made (fm : option Frm) (s : SectionNode) : Prop :=
  s_hide_control s = FormSection.hide fm (s_df s) ∧
  s_body_hide s = false ∧ s_class s = NoClass.

(** Every section of the layout is as it was made. *)
Definition all_as_made (L : Layout) : Prop :=
  ∀ i s, sections L !! i = Some s → as_made (frm L) s.

(** ** Pages *)

(** The first page has been opened, and no other. *)
Definition started (L : Layout) : Prop := page L = Some 0 ∧ pages L = 1.

(** Before any fold: at most one page, the first, and every section on
    it. *)
Definition on_first_page (L : Layout) : Prop :=
  (∀ i s, sections L !! i = Some s → s_page s = 0) ∧
  (started L ∨ (page L = None ∧ pages L = 0)).

(** After a fold that opened page [p0] when the layout had [n0]
    sections: the current page is [p0] or a later one, the sections made
    since are on such pages and the sections made before on earlier
    ones. *)
Definition on_later_pages (p0 n0 : nat) (L : Layout) : Prop :=
  (∃ q, page L = Some q ∧ (p0 ≤ q)%nat ∧ (q < pages L)%nat) ∧
  (n0 ≤ length (sections L))%nat ∧
  (∀ i s, sections L !! i = Some s → (n0 ≤ i)%nat → (p0 ≤ s_page s)%nat) ∧
  (∀ i s, sections L !! i = Some s → (i < n0)%nat → (s_page s < p0)%nat).

(** The list starts with a section break. *)
Definition starts_with_section (fs : list DocField) : bool :=
  match fs with
  | df :: _ => is_section_break df
  | [] => false
  end.

(** A form with a field on each side of a fold. *)
Definition folded_layout : Layout :=
  fst (render None
         (init [plain_df "A" "Data"; plain_df "more" "Fold";
                plain_df "B" "Data"] false None None)).

(** * Properties *)

(** ** The evaluator *)

Lemma has_prefix_eval_set s :
  has_prefix 5 "eval:" s = true → expr_set (Some (EStr s)) = true.
Proof. destruct s; [discriminate | reflexivity]. Qed.

(** *** Prefixes and substrings *)

Lemma substring_whole s : substring 0 (String.length s) s = s.
Proof. induction s as [| c s IH]; [done |]. simpl. by rewrite IH. Qed.

Lemma substring_prefix_app p t : substring 0 (String.length p) (p ++ t) = p.
Proof. induction p as [| c p IH]; simpl; [by destruct t | by rewrite IH]. Qed.

Lemma substring_prefix_inv p s :
  substring 0 (String.length p) s = p → ∃ t, s = p ++ t.
Proof.
  revert s. induction p as [| c p IH]; intros s H; [by exists s |].
  destruct s as [| c' s]; [discriminate |]. simpl in H.
  injection H as -> H. destruct (IH s H) as [t ->]. by exists t.
Qed.

(** [(p + t).substr(0, p.length) == p] *)
Lemma has_prefix_app p t : has_prefix (String.length p) p (p ++ t) = true.
Proof. unfold has_prefix. rewrite substring_prefix_app. apply String.eqb_refl. Qed.

(** [s.substr(0, p.length) == p] only for a string that starts with [p]. *)
Lemma has_prefix_inv p s :
  has_prefix (String.length p) p s = true → ∃ t, s = p ++ t.
Proof.
  unfold has_prefix. intros H. apply String.eqb_eq in H.
  by apply substring_prefix_inv.
Qed.

(** [(p + t).substr(p.length)] is [t]. *)
Lemma substr_from_app p t : substr_from (String.length p) (p ++ t) = t.
Proof.
  unfold substr_from. induction p as [| c p IH]; simpl.
  - rewrite Nat.sub_0_r. apply substring_whole.
  - exact IH.
Qed.

Lemma prefix_app p t : String.prefix p (p ++ t) = true.
Proof.
  induction p as [| c p IH]; simpl; [by destruct t |].
  destruct (ascii_dec c c); [exact IH | done].
Qed.

(** [s.includes(p)] holds exactly of a string with [p] somewhere in it. *)
Lemma includes_spec p s : includes p s = true ↔ ∃ a b, s = a ++ p ++ b.
Proof.
  split.
  - induction s as [| c s IH]; cbn [includes].
    + destruct (String.prefix p "") eqn:Hp; [| done]. intros _.
      apply String.prefix_correct, substring_prefix_inv in Hp as [t Ht].
      exists "", t. done.
    + destruct (String.prefix p (String c s)) eqn:Hp.
      * intros _.
        apply String.prefix_correct, substring_prefix_inv in Hp as [t Ht].
        exists "", t. done.
      * intros H. destruct (IH H) as (a & b & ->). by exists (String c a), b.
  - intros (a & b & ->). induction a as [| c a IH].
    + change ("" ++ p ++ b) with (p ++ b).
      pose proof (prefix_app p b) as Hp.
      destruct (p ++ b); cbn [includes]; by rewrite Hp.
    + change (String c a ++ p ++ b) with (String c (a ++ p ++ b)).
      cbn [includes]. rewrite IH. by destruct (String.prefix p _).
Qed.

(** C7, as the code has it.  With a document at hand,
    [evaluate_depends_on_value] dispatches on the shape of the expression
    in this order: a boolean is returned as it is; a function is called
    with the document and its result is the outcome; a string [eval:]
    followed by code is evaluated by [frappe.utils.eval] over the
    bindings [doc] and [parent] (the outcome being [true] instead when
    [parent.istable] holds and the expression mentions
    [is_submittable]); a string [fn:] followed by a name goes to the
    form's trigger handler when there is a form; any other string, and a
    [fn:] string without a form, is read as a property of the document:
    an array counts as true exactly when it is not empty, any other value
    by its truthiness, and a name the document does not hold gives false
    unless it names a member that every object inherits, which gives
    true. *)
Theorem evaluate_dispatch (env : Env) (L : Layout) (d : Doc)
    (Hdoc : resolve_doc L = Some d) :
  (∀ b, evaluate_depends_on_value env L (EBool b) = Ok (VBool b)) ∧
  (∀ f, evaluate_depends_on_value env L (EFun f) = f d) ∧
  (∀ code v, js_eval env code d (parent_doc L) = Ok v →
     (parent_istable (parent_doc L) = true →
      (∃ a b, "eval:" ++ code = a ++ "is_submittable" ++ b) →
      evaluate_depends_on_value env L (EStr ("eval:" ++ code))
        = Ok (VBool true)) ∧
     (parent_istable (parent_doc L) = false ∨
      (∀ a b, "eval:" ++ code ≠ a ++ "is_submittable" ++ b) →
      evaluate_depends_on_value env L (EStr ("eval:" ++ code)) = Ok v)) ∧
  (∀ name fm, frm L = Some fm →
     evaluate_depends_on_value env L (EStr ("fn:" ++ name)) =
       trigger fm name (doctype L) (docname L)) ∧
  (∀ s, (∀ code, s ≠ "eval:" ++ code) →
     frm L = None ∨ (∀ name, s ≠ "fn:" ++ name) →
     (∀ items, d !! s = Some (VArr items) →
        evaluate_depends_on_value env L (EStr s) =
          Ok (VBool (negb (Nat.eqb (length items) 0)))) ∧
     (∀ v, d !! s = Some v → isArray v = false →
        evaluate_depends_on_value env L (EStr s) = Ok (VBool (truthy v))) ∧
     (d !! s = None →
        evaluate_depends_on_value env L (EStr s) =
          Ok (VBool (bool_decide (s ∈ object_prototype))))).
Proof.
  unfold evaluate_depends_on_value. rewrite Hdoc.
  split; [done |]. split; [done |]. split; [| split].
  - intros code v Hv.
    pose proof (has_prefix_app "eval:" code) as Hp.
    pose proof (substr_from_app "eval:" code) as Hs.
    change (String.length "eval:") with 5 in Hp, Hs.
    rewrite Hp. unfold eval_branch. rewrite Hs, Hv. split.
    + intros Ht Hin. apply includes_spec in Hin. by rewrite Ht, Hin.
    + intros [Ht | Hno]; [by rewrite Ht |].
      destruct (includes "is_submittable" ("eval:" ++ code)) eqn:Hin.
      * apply includes_spec in Hin as (a & b & Hab). by destruct (Hno a b).
      * by rewrite andb_false_r.
  - intros name fm Hfm.
    assert (Hp : has_prefix 5 "eval:" ("fn:" ++ name) = false)
      by (unfold has_prefix; by destruct name as [| c [| c' name]]).
    pose proof (has_prefix_app "fn:" name) as Hf.
    pose proof (substr_from_app "fn:" name) as Hs.
    change (String.length "fn:") with 3 in Hf, Hs.
    by rewrite Hp, Hf, Hfm, Hs.
  - intros s Hne Hfn.
    assert (Hp : has_prefix 5 "eval:" s = false).
    { destruct (has_prefix 5 "eval:" s) eqn:Hp; [| done].
      apply (has_prefix_inv "eval:") in Hp as [code ->]. by destruct (Hne code). }
    rewrite Hp.
    assert (Hlk : match has_prefix 3 "fn:" s, frm L with
                  | true, Some f =>
                      trigger f (substr_from 3 s) (doctype L) (docname L)
                  | _, _ => Ok (lookup_branch s d)
                  end = Ok (lookup_branch s d)).
    { destruct Hfn as [-> | Hfn]; [by destruct (has_prefix 3 _ _) |].
      destruct (has_prefix 3 "fn:" s) eqn:Hf; [| done].
      apply (has_prefix_inv "fn:") in Hf as [name ->]. by destruct (Hfn name). }
    rewrite Hlk. unfold lookup_branch, doc_get. split; [| split].
    + intros items Hi. by rewrite Hi.
    + intros v Hv Hi. rewrite Hv. by destruct v.
    + intros Hn. rewrite Hn. do 2 f_equal.
      assert (Hin : inherited s = bool_decide (s ∈ object_prototype)).
      { unfold inherited. generalize object_prototype as l.
        induction l as [| x l IH]; cbn [existsb].
        - symmetry. apply bool_decide_eq_false_2. by intros ?%elem_of_nil.
        - destruct (String.eqb s x) eqn:Hx; cbn [orb].
          + apply String.eqb_eq in Hx as ->. symmetry.
            apply bool_decide_eq_true_2. by left.
          + rewrite IH. apply String.eqb_neq in Hx.
            apply bool_decide_ext. rewrite elem_of_cons. tauto. }
      rewrite <- Hin. by destruct (inherited s).
Qed.

Lemma evaluate_dispatch_witness :
  let L := init [] false (Some (open_frm (Some form_doc)))
             (Some (status_doc "Open")) in
  evaluate_depends_on_value std_env L (EStr "eval:doc.status == 'Open'")
    = Ok (VBool true) ∧
  evaluate_depends_on_value std_env L (EStr "fn:check") = Ok VUndefined ∧
  evaluate_depends_on_value std_env L (EStr "status") = Ok (VBool true) ∧
  evaluate_depends_on_value std_env L (EStr "amount") = Ok (VBool false).
Proof.
  cbv zeta.
  set (L := init [] false (Some (open_frm (Some form_doc)))
              (Some (status_doc "Open"))).
  assert (Hd : resolve_doc L = Some (status_doc "Open"))
    by (vm_compute; reflexivity).
  pose proof (evaluate_dispatch std_env L _ Hd) as (_ & _ & He & Hf & Hl).
  assert (Hne : ∀ s, s = "status" ∨ s = "amount" →
            (∀ code, s ≠ "eval:" ++ code) ∧ (∀ name, s ≠ "fn:" ++ name)).
  { intros s [-> | ->]; split; intros x H; discriminate H. }
  split; [| split; [| split]].
  - assert (Hv : js_eval std_env "doc.status == 'Open'" (status_doc "Open")
                   (parent_doc L) = Ok (VBool true))
      by (vm_compute; reflexivity).
    destruct (He "doc.status == 'Open'" (VBool true) Hv) as [_ H].
    apply H. left. vm_compute; reflexivity.
  - exact (Hf "check" (open_frm (Some form_doc)) eq_refl).
  - destruct (Hne "status" (or_introl eq_refl)) as [H1 H2].
    destruct (Hl "status" H1 (or_intror H2)) as (_ & H & _).
    apply (H (VStr "Open")); [vm_compute; reflexivity | reflexivity].
  - destruct (Hne "amount" (or_intror eq_refl)) as [H1 H2].
    destruct (Hl "amount" H1 (or_intror H2)) as (_ & _ & H).
    rewrite H; [| vm_compute; reflexivity]. vm_compute; reflexivity.
Defined.

(** C7 as stated fails for the names that every object inherits: the
    document has no field [constructor], and yet the expression
    [constructor] evaluates true. *)
Lemma evaluate_dispatch_counterexample :
  status_doc "Open" !! "constructor" = None ∧
  evaluate_depends_on_value std_env
    (init [] false None (Some (status_doc "Open")))
    (EStr "constructor") = Ok (VBool true).
Proof. split; vm_compute; reflexivity. Qed.

(** C8, as the code has it.  The override reads [istable] from the [parent]
    binding, which is the form's document when there is a form and the
    layout's own document otherwise: when that document has [istable]
    set, the expression starts with [eval:], mentions [is_submittable]
    and evaluates without throwing, the outcome is [true] whatever the
    expression gave. *)
Theorem is_submittable_override (env : Env) (L : Layout) (d : Doc)
    (s : string) (v : Value) :
  resolve_doc L = Some d →
  has_prefix 5 "eval:" s = true →
  includes "is_submittable" s = true →
  parent_istable (parent_doc L) = true →
  js_eval env (substr_from 5 s) d (parent_doc L) = Ok v →
  evaluate_depends_on_value env L (EStr s) = Ok (VBool true).
Proof.
  intros Hd Hp Hi Ht Hv.
  unfold evaluate_depends_on_value, eval_branch.
  by rewrite Hd, Hp, Hv, Ht, Hi.
Qed.

Lemma is_submittable_override_witness :
  evaluate_depends_on_value std_env
    (init [] false None (Some row_doc))
    (EStr "eval:doc.is_submittable") = Ok (VBool true).
Proof.
  apply (is_submittable_override std_env _ row_doc _ VUndefined);
    vm_compute; reflexivity.
Defined.

(** C8 as stated fails: in a grid-row layout of a form the evaluated
    document is a child row with [istable] set, yet the form's document
    is the [parent] binding, it has no [istable], and the outcome of the
    expression stands. *)
Lemma is_submittable_override_counterexample :
  resolve_doc row_layout = Some row_doc ∧
  truthy (doc_get row_doc "istable") = true ∧
  includes "is_submittable" "eval:doc.is_submittable" = true ∧
  evaluate_depends_on_value std_env row_layout
    (EStr "eval:doc.is_submittable") = Ok VUndefined ∧
  evaluate_depends_on_value std_env row_layout
    (EStr "eval:doc.is_submittable") ≠ Ok (VBool true).
Proof.
  split; [vm_compute; reflexivity |].
  split; [vm_compute; reflexivity |].
  split; [vm_compute; reflexivity |].
  assert (H : evaluate_depends_on_value std_env row_layout
                (EStr "eval:doc.is_submittable") = Ok VUndefined)
    by (vm_compute; reflexivity).
  split; [exact H |]. rewrite H. discriminate.
Qed.

(** ** Section collapse *)

Lemma outside_sections_emit e L :
  outside_sections (emit e L) = outside_sections L.
Proof. reflexivity. Qed.

Lemma outside_sections_set_sections l L :
  outside_sections (set_sections l L) = outside_sections L.
Proof. reflexivity. Qed.

Lemma sections_emit e L : sections (emit e L) = sections L.
Proof. reflexivity. Qed.

Lemma emit_all_frame (evs : list nat) (g : nat → Event) L :
  let L' := fold_left (λ L' j, emit (g j) L') evs L in
  outside_sections L' = outside_sections L ∧ sections L' = sections L.
Proof.
  revert L. induction evs as [| j evs IH]; intros L; simpl; [done |].
  destruct (IH (emit (g j) L)) as [H1 H2]. simpl in *. by rewrite H1, H2.
Qed.

Lemma collapse_frame i h L :
  outside_sections (FormSection.collapse i h L) = outside_sections L.
Proof.
  unfold FormSection.collapse.
  destruct (sections L !! i) as [s |]; [| done].
  destruct (s_head s); simpl; [| done].
  match goal with |- outside_sections (fold_left _ ?l ?L0) = _ =>
    destruct (emit_all_frame l (λ j, EvRefresh (RControl j)) L0) as [-> _]
  end.
  done.
Qed.

Lemma collapse_sections i h L :
  sections (FormSection.collapse i (Some h) L) =
    match sections L !! i with
    | Some s => if s_head s
                then alter (set_s_body_hide h) i (sections L)
                else sections L
    | None => sections L
    end.
Proof.
  unfold FormSection.collapse.
  destruct (sections L !! i) as [s |]; [| done].
  destruct (s_head s); simpl; [| done].
  match goal with |- sections (fold_left _ ?l ?L0) = _ =>
    destruct (emit_all_frame l (λ j, EvRefresh (RControl j)) L0) as [_ ->]
  end.
  done.
Qed.

(** What evaluation reads lies outside the sections. *)
Lemma evaluate_outside_sections env L L' e :
  outside_sections L = outside_sections L' →
  evaluate_depends_on_value env L e = evaluate_depends_on_value env L' e.
Proof.
  intros H.
  pose proof (f_equal doc H) as Hd. pose proof (f_equal get_values H) as Hg.
  pose proof (f_equal frm H) as Hf. pose proof (f_equal doctype H) as Ht.
  pose proof (f_equal docname H) as Hn. simpl in *.
  unfold evaluate_depends_on_value, resolve_doc, parent_doc.
  by rewrite Hd, Hg, Hf, Ht, Hn.
Qed.

Lemma declarative_collapse_outside_sections env L L' df :
  outside_sections L = outside_sections L' →
  declarative_collapse env L df = declarative_collapse env L' df.
Proof.
  intros H. unfold declarative_collapse.
  destruct (collapsible_depends_on df); [| done].
  by rewrite (evaluate_outside_sections env L L' _ H).
Qed.

Lemma has_missing_mandatory_outside_sections L L' sec :
  outside_sections L = outside_sections L' →
  FormSection.has_missing_mandatory L sec =
  FormSection.has_missing_mandatory L' sec.
Proof.
  intros H.
  pose proof (f_equal doc H) as Hd. pose proof (f_equal controls H) as Hc.
  simpl in *.
  unfold FormSection.has_missing_mandatory, FormSection.field_dfs.
  by rewrite Hd, Hc.
Qed.

Lemma missing_in_spec d dfs :
  FormSection.missing_in (Some d) dfs = Ok (existsb (missing_value d) dfs).
Proof.
  induction dfs as [| df dfs IH]; simpl; [done |].
  unfold missing_value at 1.
  destruct (reqd df); simpl; [| done].
  by destruct (is_nullish _).
Qed.

Lemma collapse_step_frame env j L L' r :
  collapse_step env j L = (L', r) →
  outside_sections L' = outside_sections L ∧
  length (sections L') = length (sections L) ∧
  (∀ i, i ≠ j → sections L' !! i = sections L !! i) ∧
  (∀ i s, sections L !! i = Some s →
     ∃ s', sections L' !! i = Some s' ∧ same_but_body_hide s s').
Proof.
  unfold collapse_step. intros H.
  assert (Hid : outside_sections L = outside_sections L ∧
     length (sections L) = length (sections L) ∧
     (∀ i, i ≠ j → sections L !! i = sections L !! i) ∧
     (∀ i s, sections L !! i = Some s →
        ∃ s', sections L !! i = Some s' ∧ same_but_body_hide s s')).
  { repeat split; try done. intros i s Hs. by exists s. }
  assert (Hcol : ∀ h, outside_sections (FormSection.collapse j (Some h) L)
                        = outside_sections L ∧
     length (sections (FormSection.collapse j (Some h) L)) = length (sections L) ∧
     (∀ i, i ≠ j → sections (FormSection.collapse j (Some h) L) !! i
                    = sections L !! i) ∧
     (∀ i s, sections L !! i = Some s →
        ∃ s', sections (FormSection.collapse j (Some h) L) !! i = Some s'
              ∧ same_but_body_hide s s')).
  { intros h. split; [apply collapse_frame |].
    rewrite collapse_sections.
    destruct (sections L !! j) as [sj |] eqn:Hj; [| by apply Hid].
    destruct (s_head sj); [| by apply Hid].
    split; [apply length_alter |]. split.
    - intros i Hi. by apply list_lookup_alter_ne.
    - intros i s Hs. destruct (decide (j = i)) as [-> | Hne].
      + rewrite list_lookup_alter_eq, Hs. simpl. eexists; split; [done |].
        by destruct s.
      + rewrite list_lookup_alter_ne by done. by exists s. }
  destruct (sections L !! j) as [sec |]; [| by inversion H; subst].
  destruct (collapsible (s_df sec)); [| by inversion H; subst].
  destruct (declarative_collapse env L (s_df sec)) as [[|] | ex].
  - destruct (FormSection.has_missing_mandatory L sec) as [m | ex];
      inversion H; subst; [apply Hcol | apply Hid].
  - inversion H; subst. apply Hcol.
  - inversion H; subst. apply Hid.
Qed.







(** C10.  [has_missing_mandatory] finds a missing field exactly when one of
    the section's own required fields has the document value [null] or
    [undefined]; the empty string, zero and [false] are values like any
    other, so a section whose required fields hold them is not forced
    open: a collapsible section with a head and no condition is then
    collapsed by the recomputation. *)
Theorem has_missing_mandatory_nullish (env : Env) (L : Layout)
    (sec : SectionNode) (d : Doc) :
  doc L = Some d →
  FormSection.has_missing_mandatory L sec
    = Ok (existsb (missing_value d) (FormSection.field_dfs L sec)) ∧
  (∀ v, is_nullish v = true ↔ v = VNull ∨ v = VUndefined) ∧
  ((∀ df, df ∈ FormSection.field_dfs L sec → reqd df = true →
      let v := doc_get d (key_of (fieldname df)) in
      v = VStr "" ∨ v = VNum 0 ∨ v = VBool false ∨ is_nullish v = false) →
   FormSection.has_missing_mandatory L sec = Ok false ∧
   ∀ i, sections L !! i = Some sec → collapsible (s_df sec) = true →
     collapsible_depends_on (s_df sec) = None →
     collapse_step env i L = (FormSection.collapse i (Some true) L, Ok tt)).
Proof.
  intros Hd.
  assert (Hspec : FormSection.has_missing_mandatory L sec
            = Ok (existsb (missing_value d) (FormSection.field_dfs L sec))).
  { unfold FormSection.has_missing_mandatory. rewrite Hd.
    apply missing_in_spec. }
  split; [done |]. split.
  - intros v. destruct v; simpl; split; intros H; try done;
      try (by left); try (by right); by destruct H.
  - intros Hfilled.
    assert (Hno : FormSection.has_missing_mandatory L sec = Ok false).
    { rewrite Hspec. f_equal. apply not_true_is_false. intros Hex.
      apply existsb_exists in Hex. destruct Hex as (df & Hin & Hm).
      unfold missing_value in Hm. apply andb_true_iff in Hm as [Hr Hn].
      apply list_elem_of_In in Hin.
      destruct (Hfilled df Hin Hr) as [H | [H | [H | H]]];
        simpl in H; rewrite H in Hn; discriminate. }
    split; [done |]. intros i Hs Hc Hcd.
    unfold collapse_step, declarative_collapse. by rewrite Hs, Hc, Hcd, Hno.
Qed.

Lemma has_missing_mandatory_nullish_witness :
  FormSection.has_missing_mandatory (details_layout {[ "notes" := VStr "" ]})
    details_section = Ok false.
Proof.
  assert (Hd : doc (details_layout {[ "notes" := VStr "" ]})
               = Some {[ "notes" := VStr "" ]}) by (vm_compute; reflexivity).
  destruct (has_missing_mandatory_nullish std_env
              (details_layout {[ "notes" := VStr "" ]}) details_section
              {[ "notes" := VStr "" ]} Hd) as (_ & _ & H).
  assert (Hdfs : FormSection.field_dfs
                   (details_layout {[ "notes" := VStr "" ]}) details_section
                 = [with_reqd (plain_df "notes" "Data")])
    by (vm_compute; reflexivity).
  apply H. rewrite Hdfs. intros df Hin _. left.
  apply list_elem_of_singleton in Hin. subst df. vm_compute; reflexivity.
Defined.

(** ** Building the tree *)

Lemma render_one_field df : is_field df = true → render_one df = make_field df.
Proof.
  unfold is_field, is_section_break, is_column_break, render_one.
  intros H. apply andb_true_iff in H as [H H3]. apply andb_true_iff in H as [H1 H2].
  apply negb_true_iff in H1, H2, H3. by rewrite H1, H2, H3.
Qed.

Lemma render_one_section df :
  is_section_break df = true → render_one df = modify (make_section (Some df)).
Proof.
  unfold is_section_break, render_one. intros H.
  apply String.eqb_eq in H. by rewrite H.
Qed.

Lemma render_one_column df :
  is_column_break df = true → render_one df = make_column (Some df).
Proof.
  unfold is_column_break, render_one. intros H.
  apply String.eqb_eq in H. by rewrite H.
Qed.

Lemma is_field_not_section df : is_field df = true → is_section_break df = false.
Proof.
  unfold is_field. intros H. apply andb_true_iff in H as [H _].
  apply andb_true_iff in H as [_ H]. by apply negb_true_iff in H.
Qed.


(** The tree built from [A, section break, B, column break, C]. *)
Lemma example_tree A SB B CB C fm d :
  is_field A = true → is_section_break SB = true → is_field B = true →
  is_column_break CB = true → is_field C = true →
  ∃ L, render None (init [A; SB; B; CB; C] false fm d) = (L, Ok tt) ∧
       tree L = [(true, [(true, [fieldname A])]);
                 (false, [(true, [fieldname B]); (false, [fieldname C])])].
Proof.
  intros HA HSB HB HCB HC.
  unfold render.
  replace (no_opening_section _) with true
    by (symmetry; unfold no_opening_section; cbv [fields init set_column set_section with_dashboard];
        pose proof (is_field_not_section _ HA) as HnA;
        unfold is_section_break in HnA; by rewrite HnA).
  cbv [with_dashboard init set_column set_section fields].
  cbn [for_each].
  rewrite (render_one_field _ HA), (render_one_section _ HSB),
    (render_one_field _ HB), (render_one_column _ HCB), (render_one_field _ HC).
  run_builder.
  destruct (name_set (fieldname CB)); run_builder;
    (eexists; split; [reflexivity |]);
    cbv [tree section_columns column_controls imap omap sections columns
         controls s_synthetic col_synthetic col_section c_column c_df
         Nat.eqb compose mbind option_bind]; reflexivity.
Qed.
Lemma first_origin_app l l' b :
  first_origin l b → first_origin (l ++ l') b.
Proof.
  intros (s & Hs & Hb). exists s. split; [| done].
  by apply lookup_app_l_Some.
Qed.

Lemma first_origin_alter f i l b :
  (∀ s, sec_origin (f s) = sec_origin s) →
  first_origin l b → first_origin (alter f i l) b.
Proof.
  intros Hf (s & Hs & Hb). destruct (decide (i = 0)) as [-> | Hne].
  - exists (f s). rewrite list_lookup_alter_eq, Hs. split; [done |].
    by rewrite Hf.
  - exists s. by rewrite list_lookup_alter_ne.
Qed.

Lemma make_section_first df L b :
  first_origin (sections L) b →
  first_origin (sections (make_section df L)) b.
Proof.
  intros H. unfold make_section, new_section.
  destruct df as [d0 |]; destruct (page L);
    run_builder; apply first_origin_alter; try done;
    by apply first_origin_app.
Qed.

Lemma make_column_sections df L L' r :
  make_column df L = (L', r) → sections L' = sections L.
Proof.
  unfold make_column. destruct (section L); intros H; [| by inversion H].
  destruct df as [d0 |]; [destruct (name_set (fieldname d0)) |];
    by inversion H.
Qed.

Lemma ensure_section_first L L' r b :
  ensure_section L = (L', r) →
  first_origin (sections L) b → first_origin (sections L') b.
Proof.
  unfold ensure_section. destruct (section L); intros H Hb; inversion H; subst;
    [done | by apply make_section_first].
Qed.

Lemma ensure_column_sections L L' r :
  ensure_column L = (L', r) → sections L' = sections L.
Proof.
  unfold ensure_column. destruct (column L); intros H;
    [by inversion H | by eapply make_column_sections].
Qed.

Lemma place_field_first df L L' r b :
  place_field df L = (L', r) →
  first_origin (sections L) b → first_origin (sections L') b.
Proof.
  unfold place_field. intros H Hb.
  destruct (section L), (column L); inversion H; subst; try done.
  run_builder. by apply first_origin_alter.
Qed.

Lemma make_field_first df L L' r b :
  make_field df L = (L', r) →
  first_origin (sections L) b → first_origin (sections L') b.
Proof.
  unfold make_field, bind. intros H Hb.
  destruct (ensure_section L) as [L1 [[] | e]] eqn:H1.
  - pose proof (ensure_section_first _ _ _ _ H1 Hb) as Hb1.
    destruct (ensure_column L1) as [L2 [[] | e]] eqn:H2.
    + rewrite <- (ensure_column_sections _ _ _ H2) in Hb1.
      by eapply place_field_first.
    + inversion H; subst. by rewrite (ensure_column_sections _ _ _ H2).
  - inversion H; subst. by eapply ensure_section_first.
Qed.

Lemma render_one_first df L L' r b :
  render_one df L = (L', r) →
  first_origin (sections L) b → first_origin (sections L') b.
Proof.
  unfold render_one. intros H Hb.
  destruct (fieldtype df =? "Fold")%string.
  { inversion H; subst. done. }
  destruct (fieldtype df =? "Section Break")%string.
  { inversion H; subst. by apply make_section_first. }
  destruct (fieldtype df =? "Column Break")%string.
  { by rewrite (make_column_sections _ _ _ _ H). }
  by eapply make_field_first.
Qed.

Lemma render_loop_first fs L L' r b :
  for_each render_one fs L = (L', r) →
  first_origin (sections L) b → first_origin (sections L') b.
Proof.
  revert L. induction fs as [| df fs IH]; intros L H Hb.
  - by inversion H; subst.
  - simpl in H. unfold bind in H.
    destruct (render_one df L) as [L1 [[] | e]] eqn:H1.
    + eapply IH; [done |]. by eapply render_one_first.
    + inversion H; subst. by eapply render_one_first.
Qed.

(** The first section comes from the first descriptor when that is a
    section break, and is synthesized otherwise. *)
Lemma first_section_rule fs dash fm d L r :
  render None (init fs dash fm d) = (L, r) →
  first_origin (sections L) (expected_first_origin fs dash).
Proof.
  unfold render.
  set (L0 := set_column None (set_section None (init fs dash fm d))).
  change (with_dashboard L0) with dash.
  assert (Hno0 : no_opening_section L0 =
                 match fs with
                 | [] => true
                 | df :: _ => negb (is_section_break df)
                 end) by reflexivity.
  assert (Hfirst : ∀ df rest (L1 : Layout) L' r',
            sections L1 = [] →
            for_each render_one (df :: rest) L1 = (L', r') →
            is_section_break df = true →
            first_origin (sections L') (false, df)).
  { intros df rest L1 L' r' Hnil Hrun Hsb.
    simpl in Hrun. unfold bind in Hrun.
    rewrite (render_one_section df Hsb) in Hrun. unfold modify in Hrun.
    match type of Hrun with
    | context [for_each render_one rest ?L2] =>
        assert (H0 : first_origin (sections L2) (false, df));
        [| destruct (for_each render_one rest L2) as [L3 r3] eqn:Hloop]
    end.
    { unfold make_section, new_section.
      destruct (page L1); cbv zeta; lsimpl; rewrite Hnil;
        eexists; split; reflexivity. }
    pose proof (render_loop_first _ _ _ _ _ Hloop H0) as Hres.
    by inversion Hrun; subst. }
  assert (Hput : ∀ X, no_opening_section (set_fields (section_break_df :: X) L0)
                      = false) by reflexivity.
  assert (Hfs : fields L0 = fs) by reflexivity.
  assert (Hnil : ∀ X, sections (set_fields X L0) = []) by reflexivity.
  destruct dash.
  - (* with a dashboard *)
    unfold setup_dashboard_section. rewrite Hno0.
    destruct fs as [| df fs]; cbn [negb].
    + rewrite Hput. lsimpl. intros H.
      by apply (Hfirst section_break_df _ _ _ _ (Hnil _) H).
    + unfold expected_first_origin.
      destruct (is_section_break df) eqn:Hsb; cbn [negb].
      * rewrite Hno0. cbn [negb]. rewrite Hfs. intros H.
        by apply (Hfirst df fs L0 _ _ eq_refl H).
      * rewrite Hput. lsimpl. intros H.
        by apply (Hfirst section_break_df _ _ _ _ (Hnil _) H).
  - (* without *)
    rewrite Hno0. unfold expected_first_origin.
    destruct fs as [| df fs]; cbn [negb].
    + intros H. eapply (render_loop_first _ _ _ _ _ H).
      run_builder. eexists. split; reflexivity.
    + destruct (is_section_break df) eqn:Hsb; cbn [negb]; intros H.
      * by apply (Hfirst df fs L0 _ _ eq_refl H).
      * eapply (render_loop_first _ _ _ _ _ H).
        run_builder. eexists. split; reflexivity.
Qed.

(** A field that comes before any column break of its section gets a
    column of its own, made without a df. *)
Lemma first_column_rule df L sid :
  section L = Some sid → column L = None →
  ∃ L', make_field df L = (L', Ok tt) ∧
    columns L' = (columns L ++ [synthetic_column sid])%list ∧
    controls L' = (controls L ++ [init_field df sid (length (columns L))])%list.
Proof.
  intros Hs Hc. unfold make_field, bind, ensure_section, ensure_column.
  rewrite Hs, Hc. unfold make_column. rewrite Hs. unfold place_field.
  cbn [section column columns controls set_column set_columns set_controls
       set_fields_list set_fields_dict set_sections].
  rewrite Hs.
  eexists. split; [reflexivity |]. split; reflexivity.
Qed.

(** C3.  From the descriptors [A, section break, B, column break, C] the
    builder makes a synthetic first section holding [A] in a synthetic
    first column, and one section for the section break with two columns,
    a synthetic one holding [B] and the column break's holding [C].  In
    general the first section is made from the first descriptor when
    that is a section break, and is synthesized exactly when the list is
    empty or its first descriptor is not a section break (without a df,
    or, with a dashboard, from the section break the layout puts in front
    of the list); a field placed while the current section has no column
    yet gets a synthetic column. *)
Theorem build_tree (A SB B CB C : DocField) (fm : option Frm)
    (d : option Doc) :
  is_field A = true → is_section_break SB = true → is_field B = true →
  is_column_break CB = true → is_field C = true →
  (∃ L, render None (init [A; SB; B; CB; C] false fm d) = (L, Ok tt) ∧
        tree L = [(true, [(true, [fieldname A])]);
                  (false, [(true, [fieldname B]); (false, [fieldname C])])]) ∧
  (∀ fs dashboard L r, render None (init fs dashboard fm d) = (L, r) →
     first_origin (sections L) (expected_first_origin fs dashboard)) ∧
  (∀ df L sid, section L = Some sid → column L = None →
     ∃ L', make_field df L = (L', Ok tt) ∧
       columns L' = (columns L ++ [synthetic_column sid])%list ∧
       controls L' =
         (controls L ++ [init_field df sid (length (columns L))])%list).
Proof.
  intros HA HSB HB HCB HC. split; [by apply example_tree |]. split.
  - intros fs dashboard L r H. by eapply first_section_rule.
  - intros df L sid. apply first_column_rule.
Qed.

Lemma build_tree_witness :
  ∃ L, render None
         (init [plain_df "A" "Data"; plain_df "sb" "Section Break";
                plain_df "B" "Data"; plain_df "cb" "Column Break";
                plain_df "C" "Data"] false None None) = (L, Ok tt) ∧
       tree L = [(true, [(true, [Some "A"])]);
                 (false, [(true, [Some "B"]); (false, [Some "C"])])].
Proof.
  assert (Hf : ∀ n, is_field (plain_df n "Data") = true)
    by (intros n; vm_compute; reflexivity).
  assert (Hs : is_section_break (plain_df "sb" "Section Break") = true)
    by (vm_compute; reflexivity).
  assert (Hc : is_column_break (plain_df "cb" "Column Break") = true)
    by (vm_compute; reflexivity).
  destruct (build_tree (plain_df "A" "Data") (plain_df "sb" "Section Break")
              (plain_df "B" "Data") (plain_df "cb" "Column Break")
              (plain_df "C" "Data") None None
              (Hf "A") Hs (Hf "B") Hc (Hf "C")) as [H _].
  exact H.
Defined.

(** ** Tab navigation *)

Lemma is_visible_spec f :
  is_visible f = true ↔ t_disp_status f = Some Write ∧ t_wrapper_visible f = true.
Proof.
  unfold is_visible. destruct (t_disp_status f) as [[| |] |]; split;
    try (intros [? ?]); try done; by intros ?.
Qed.

(** C6, as the code has it.  With the fields [A, B, C] of the form, [B]
    not eligible and [A], [C] eligible: a forward tab from [A] focuses
    [C] when [C] is neither a Table nor of a type without a value; for a
    Table the form of its first row is shown instead, and a field of a
    type without a value is passed over, so that focus goes to the
    primary button.  A backward tab from [C] focuses [A], and a forward
    tab from [C] focuses the primary button.  [is_visible] holds exactly
    of a field whose status is Write and whose wrapper is visible. *)
Theorem tab_navigation (env : Env) (L : Layout) (orow : option GridRow)
    (A B C : TabField) :
  tab_fields L = [A; B; C] →
  is_visible A = true → is_visible B = false → is_visible C = true →
  t_fieldname A ≠ t_fieldname C → t_fieldname B ≠ t_fieldname C →
  (t_fieldtype C ≠ "Table" →
   in_list (no_value_type env) (t_fieldtype C) = false →
   handle_tab env L orow (doctype L) (t_fieldname A) false = [set_focus 2 C]) ∧
  (t_fieldtype C = "Table" →
   handle_tab env L orow (doctype L) (t_fieldname A) false
     = [AShowRowForm 2 (Nat.eqb (t_grid_rows C) 0)]) ∧
  (t_fieldtype C ≠ "Table" →
   in_list (no_value_type env) (t_fieldtype C) = true →
   handle_tab env L orow (doctype L) (t_fieldname A) false = [AFocusPrimary]) ∧
  handle_tab env L orow (doctype L) (t_fieldname C) true = [set_focus 0 A] ∧
  handle_tab env L orow (doctype L) (t_fieldname C) false = [AFocusPrimary] ∧
  (∀ f, is_visible f = true ↔
        t_disp_status f = Some Write ∧ t_wrapper_visible f = true).
Proof.
  intros Hfs HA HB HC HAC HBC.
  assert (Htop : ∀ name shift,
    handle_tab env L orow (doctype L) name shift =
      let '(acts, focused) := tab_loop env [A; B; C] name shift 0 None [A; B; C] in
      if focused then acts
      else if negb shift then (acts ++ [AFocusPrimary])%list else acts).
  { intros name shift. unfold handle_tab.
    rewrite bool_decide_eq_true_2 by done. simpl. by rewrite Hfs. }
  assert (HeqA : bool_decide (t_fieldname A = t_fieldname A) = true)
    by (apply bool_decide_eq_true_2; reflexivity).
  assert (HeqC : bool_decide (t_fieldname C = t_fieldname C) = true)
    by (apply bool_decide_eq_true_2; reflexivity).
  assert (HneA : bool_decide (t_fieldname A = t_fieldname C) = false)
    by (apply bool_decide_eq_false_2; assumption).
  assert (HneB : bool_decide (t_fieldname B = t_fieldname C) = false)
    by (apply bool_decide_eq_false_2; assumption).
  assert (HneC : bool_decide (t_fieldname C = t_fieldname A) = false)
    by (apply bool_decide_eq_false_2; intros Heq; apply HAC; by symmetry).
  split; [| split; [| split; [| split; [| split]]]].
  - intros Hnt Hval. rewrite Htop. simpl. rewrite HeqA.
    unfold focus_on_next_field. simpl. rewrite HB, HC.
    apply String.eqb_neq in Hnt. by rewrite Hnt, Hval.
  - intros Ht. rewrite Htop. simpl. rewrite HeqA.
    unfold focus_on_next_field. simpl. rewrite HB, HC.
    apply String.eqb_eq in Ht. by rewrite Ht.
  - intros Hnt Hval. rewrite Htop. simpl. rewrite HeqA, HneC.
    unfold focus_on_next_field. simpl. rewrite HB, HC.
    apply String.eqb_neq in Hnt. rewrite Hnt, Hval. simpl.
    destruct (bool_decide (t_fieldname B = t_fieldname A)); simpl;
      by rewrite ?HC, ?Hnt, ?Hval.
  - rewrite Htop. simpl. by rewrite HneA, HneB, HeqC, HA, HB.
  - rewrite Htop. simpl. by rewrite HneA, HneB, HeqC.
  - apply is_visible_spec.
Qed.

Lemma tab_navigation_witness :
  handle_tab std_env (tab_layout "Data") None None (Some "A") false
    = [ASetFocus 2 TInput] ∧
  handle_tab std_env (tab_layout "Data") None None (Some "C") true
    = [ASetFocus 0 TInput] ∧
  handle_tab std_env (tab_layout "Data") None None (Some "C") false
    = [AFocusPrimary].
Proof.
  assert (Hfs : tab_fields (tab_layout "Data")
                = [tab_entry "A" "Data" true; tab_entry "B" "Data" false;
                   tab_entry "C" "Data" true]) by (vm_compute; reflexivity).
  assert (HA : is_visible (tab_entry "A" "Data" true) = true)
    by (vm_compute; reflexivity).
  assert (HB : is_visible (tab_entry "B" "Data" false) = false)
    by (vm_compute; reflexivity).
  assert (HC : is_visible (tab_entry "C" "Data" true) = true)
    by (vm_compute; reflexivity).
  assert (HAC : t_fieldname (tab_entry "A" "Data" true)
                ≠ t_fieldname (tab_entry "C" "Data" true)) by discriminate.
  assert (HBC : t_fieldname (tab_entry "B" "Data" false)
                ≠ t_fieldname (tab_entry "C" "Data" true)) by discriminate.
  destruct (tab_navigation std_env (tab_layout "Data") None _ _ _
              Hfs HA HB HC HAC HBC) as (Hfwd & _ & _ & Hback & Hend & _).
  split; [| split].
  - apply Hfwd; [discriminate | vm_compute; reflexivity].
  - exact Hback.
  - exact Hend.
Defined.

(** C6 as stated fails on the forward tab from [A] when [C], though
    writable and rendered, is a Table or a Button: for the Table the form
    of its first row is shown rather than the field focused, and the Button
    is passed over in favour of the primary button. *)
Lemma tab_navigation_counterexample :
  tab_fields (tab_layout "Table")
    = [tab_entry "A" "Data" true; tab_entry "B" "Data" false;
       tab_entry "C" "Table" true] ∧
  tab_fields (tab_layout "Button")
    = [tab_entry "A" "Data" true; tab_entry "B" "Data" false;
       tab_entry "C" "Button" true] ∧
  is_visible (tab_entry "A" "Data" true) = true ∧
  is_visible (tab_entry "B" "Data" false) = false ∧
  is_visible (tab_entry "C" "Table" true) = true ∧
  is_visible (tab_entry "C" "Button" true) = true ∧
  handle_tab std_env (tab_layout "Table") None None (Some "A") false
    = [AShowRowForm 2 true] ∧
  handle_tab std_env (tab_layout "Button") None None (Some "A") false
    = [AFocusPrimary].
Proof.
  split; [vm_compute; reflexivity |].
  split; [vm_compute; reflexivity |].
  split; [vm_compute; reflexivity |].
  split; [vm_compute; reflexivity |].
  split; [vm_compute; reflexivity |].
  split; [vm_compute; reflexivity |].
  split; vm_compute; reflexivity.
Qed.

(** ** Effects of the primitive operations *)

Lemma fmap_alter_absorb {A B} (h : A → B) (f : A → A) (i : nat) (l : list A) :
  (∀ x, h (f x) = h x) → h <$> alter f i l = h <$> l.
Proof.
  intros Hf. apply list_eq. intros j. rewrite !list_lookup_fmap.
  destruct (decide (i = j)) as [-> | Hne].
  - rewrite list_lookup_alter_eq. destruct (l !! j); simpl; [| done].
    by rewrite Hf.
  - by rewrite list_lookup_alter_ne.
Qed.

Lemma df_static_set_flag b df :
  df_static (set_hidden_due_to_dependency b df) = df_static df.
Proof. reflexivity. Qed.

Lemma df_static_set_property p b df :
  df_static (set_property p b df) = df_static df.
Proof. by destruct p. Qed.

Lemma set_property_same p df : set_property p (get_property p df) df = df.
Proof. by destruct p, df. Qed.

Lemma set_flag_same df :
  set_hidden_due_to_dependency (hidden_due_to_dependency df) df = df.
Proof. by destruct df. Qed.



(** *** [upd_df] *)

Lemma df_of_upd_df g r L r' :
  df_of (upd_df g r L) r' =
    if decide (r = r') then g <$> df_of L r' else df_of L r'.
Proof.
  destruct r as [i | i | i], r' as [j | j | j]; unfold df_of, upd_df; lsimpl;
    try (destruct (decide _) as [Heq | Hne]; [discriminate Heq | done]).
  - destruct (decide (RControl i = RControl j)) as [Heq | Hne].
    + inversion Heq; subst. rewrite list_lookup_alter_eq.
      by destruct (controls L !! j).
    + rewrite list_lookup_alter_ne; [done | congruence].
  - destruct (decide (RSection i = RSection j)) as [Heq | Hne].
    + inversion Heq; subst. rewrite list_lookup_alter_eq.
      by destruct (sections L !! j).
    + rewrite list_lookup_alter_ne; [done | congruence].
  - destruct (decide (RColumn i = RColumn j)) as [Heq | Hne].
    + inversion Heq; subst. rewrite list_lookup_alter_eq.
      by destruct (columns L !! j).
    + rewrite list_lookup_alter_ne; [done | congruence].
Qed.

Lemma frame_upd_df g r L :
  (∀ d, df_static (g d) = df_static d) → frame (upd_df g r L) = frame L.
Proof.
  intros Hg. destruct r as [i | i | i]; unfold frame, upd_df; lsimpl.
  - rewrite (fmap_alter_absorb control_static); [done |].
    intros c. unfold control_static. simpl. by rewrite Hg.
  - rewrite (fmap_alter_absorb section_static); [done |].
    intros s. unfold section_static. simpl. by rewrite Hg.
  - rewrite (fmap_alter_absorb column_static); [done |].
    intros c. unfold column_static. simpl. by rewrite Hg.
Qed.

Lemma log_upd_df g r L : log (upd_df g r L) = log L.
Proof. by destruct r. Qed.

(** *** [refresh] of a section, a column, a field *)

Lemma df_of_section_refresh i L r :
  df_of (FormSection.refresh i L) r = df_of L r.
Proof.
  destruct r as [j | j | j]; unfold df_of, FormSection.refresh; lsimpl;
    try done.
  destruct (decide (i = j)) as [-> | Hne].
  - rewrite list_lookup_alter_eq. by destruct (sections L !! j).
  - by rewrite list_lookup_alter_ne.
Qed.

Lemma frame_section_refresh i L : frame (FormSection.refresh i L) = frame L.
Proof.
  unfold frame, FormSection.refresh. lsimpl.
  by rewrite (fmap_alter_absorb section_static).
Qed.

Lemma df_of_field_refresh r L r' : df_of (field_refresh r L) r' = df_of L r'.
Proof.
  destruct r as [i | i | i]; unfold field_refresh;
    [done | apply df_of_section_refresh |].
  unfold Column_refresh. destruct (columns L !! i); [| done].
  apply df_of_section_refresh.
Qed.

Lemma frame_field_refresh r L : frame (field_refresh r L) = frame L.
Proof.
  destruct r as [i | i | i]; unfold field_refresh;
    [done | apply frame_section_refresh |].
  unfold Column_refresh. destruct (columns L !! i); [| done].
  apply frame_section_refresh.
Qed.

(** *** Reading the frame *)

Lemma frame_static_of L L' r :
  frame L = frame L' → df_static <$> df_of L r = df_static <$> df_of L' r.
Proof.
  intros H. destruct r as [i | i | i]; unfold df_of.
  - pose proof (f_equal (λ X, c_df <$> controls X !! i) H) as Hc.
    unfold frame in Hc. lsimpl_in Hc. rewrite !list_lookup_fmap in Hc.
    destruct (controls L !! i), (controls L' !! i); simpl in *; congruence.
  - pose proof (f_equal (λ X, s_df <$> sections X !! i) H) as Hc.
    unfold frame in Hc. lsimpl_in Hc. rewrite !list_lookup_fmap in Hc.
    destruct (sections L !! i), (sections L' !! i); simpl in *; congruence.
  - pose proof (f_equal (λ X, col_df <$> columns X !! i) H) as Hc.
    unfold frame in Hc. lsimpl_in Hc. rewrite !list_lookup_fmap in Hc.
    destruct (columns L !! i), (columns L' !! i); simpl in *; congruence.
Qed.

Lemma frame_evaluate env L L' e :
  frame L = frame L' →
  evaluate_depends_on_value env L e = evaluate_depends_on_value env L' e.
Proof.
  intros H.
  pose proof (f_equal doc H) as Hd. pose proof (f_equal get_values H) as Hg.
  pose proof (f_equal frm H) as Hf. pose proof (f_equal doctype H) as Ht.
  pose proof (f_equal docname H) as Hn. simpl in *.
  unfold evaluate_depends_on_value, resolve_doc, parent_doc.
  by rewrite Hd, Hg, Hf, Ht, Hn.
Qed.

Lemma frame_form_obj L L' : frame L = frame L' → form_obj L = form_obj L'.
Proof.
  intros H. pose proof (f_equal frm H) as Hf.
  pose proof (f_equal is_dialog H) as Hi. pose proof (f_equal doctype H) as Ht.
  simpl in *. unfold form_obj. by rewrite Hf, Hi, Ht.
Qed.

Lemma frame_in_child_row L L' :
  frame L = frame L' → in_child_row L = in_child_row L'.
Proof.
  intros H. pose proof (f_equal doc H) as Hd. simpl in *.
  unfold in_child_row. by rewrite Hd.
Qed.

Lemma frame_fields_dict L L' :
  frame L = frame L' → fields_dict L = fields_dict L'.
Proof. intros H. exact (f_equal fields_dict H). Qed.

Lemma frame_fields_list L L' :
  frame L = frame L' → fields_list L = fields_list L'.
Proof. intros H. exact (f_equal fields_list H). Qed.

Lemma frame_doc L L' : frame L = frame L' → doc L = doc L'.
Proof. intros H. exact (f_equal doc H). Qed.

Lemma frame_frm L L' : frame L = frame L' → frm L = frm L'.
Proof. intros H. exact (f_equal frm H). Qed.

(** *** The setters of properties *)

Lemma df_of_emit e L r : df_of (emit e L) r = df_of L r.
Proof. by destruct r. Qed.

Lemma frame_emit e L : frame (emit e L) = frame L.
Proof. reflexivity. Qed.

Lemma df_of_set_df_property name p b L r :
  df_of (set_df_property name p b L) r =
    if decide (fields_dict L !! key_of name = Some r)
    then set_property p b <$> df_of L r else df_of L r.
Proof.
  unfold set_df_property. lsimpl.
  destruct (fields_dict L !! key_of name) as [t |] eqn:Ht.
  - rewrite df_of_emit.
    destruct (df_of L t) as [df |] eqn:Hdf.
    + destruct (Bool.eqb (get_property p df) b) eqn:Heq.
      * rewrite df_of_emit. destruct (decide (Some t = Some r)) as [Hr | Hr];
          [| done].
        inversion Hr; subst. rewrite Hdf. simpl.
        apply Bool.eqb_prop in Heq. by rewrite <- Heq, set_property_same.
      * rewrite df_of_field_refresh, df_of_upd_df, df_of_emit.
        destruct (decide (t = r)) as [-> | Hne].
        -- by rewrite decide_True.
        -- rewrite decide_False; [done | congruence].
    + rewrite df_of_emit. destruct (decide (Some t = Some r)) as [Hr | Hr];
        [| done].
      inversion Hr; subst. by rewrite Hdf.
  - rewrite df_of_emit. by rewrite decide_False.
Qed.

Lemma frame_set_df_property name p b L :
  frame (set_df_property name p b L) = frame L.
Proof.
  unfold set_df_property. lsimpl.
  destruct (fields_dict L !! key_of name) as [t |]; [| done].
  destruct (df_of (emit _ L) t) as [df |]; [| done].
  destruct (Bool.eqb (get_property p df) b); [done |].
  rewrite frame_field_refresh, frame_upd_df; [done |].
  intros d. apply df_static_set_property.
Qed.

Lemma df_of_set_row_df_property pf name p b L r :
  df_of (set_row_df_property pf p b name L) r =
    if decide (fields_dict L !! key_of name = Some r)
    then set_property p b <$> df_of L r else df_of L r.
Proof.
  unfold set_row_df_property. lsimpl.
  destruct (fields_dict L !! key_of name) as [t |] eqn:Ht.
  - rewrite df_of_upd_df, df_of_emit.
    destruct (decide (t = r)) as [-> | Hne].
    + by rewrite decide_True.
    + rewrite decide_False; [done | congruence].
  - rewrite df_of_emit. by rewrite decide_False.
Qed.

Lemma frame_set_row_df_property pf name p b L :
  frame (set_row_df_property pf p b name L) = frame L.
Proof.
  unfold set_row_df_property. lsimpl.
  destruct (fields_dict L !! key_of name) as [t |]; [| done].
  rewrite frame_upd_df; [done |].
  intros d. apply df_static_set_property.
Qed.

(** *** One write *)

Lemma frame_run_prim c L : frame (run_prim c L) = frame L.
Proof.
  destruct c as [r b | name p b | pf name p b]; unfold run_prim.
  - destruct (Bool.eqb (cur_flag L r) b); [done |].
    rewrite frame_field_refresh. by apply frame_upd_df.
  - apply frame_set_df_property.
  - cbv zeta.
    destruct (fields_dict (set_row_df_property pf p b name L) !! key_of name);
      rewrite ?frame_field_refresh; apply frame_set_row_df_property.
Qed.

Lemma df_of_run_prim c L r :
  df_of (run_prim c L) r =
    if decide (prim_target L c = Some r)
    then prim_write c <$> df_of L r else df_of L r.
Proof.
  destruct c as [t b | name p b | pf name p b]; unfold run_prim, prim_target,
    prim_write.
  - unfold cur_flag. destruct (df_of L t) as [df |] eqn:Hdf.
    + destruct (Bool.eqb (hidden_due_to_dependency df) b) eqn:Heq.
      * destruct (decide (Some t = Some r)) as [Hr | Hr]; [| done].
        inversion Hr; subst. rewrite Hdf. simpl.
        apply Bool.eqb_prop in Heq. by rewrite <- Heq, set_flag_same.
      * rewrite df_of_field_refresh, df_of_upd_df.
        destruct (decide (t = r)) as [-> | Hne].
        -- by rewrite decide_True.
        -- rewrite decide_False; [done | congruence].
    + destruct (Bool.eqb false b).
      * destruct (decide (Some t = Some r)) as [Hr | Hr]; [| done].
        inversion Hr; subst. by rewrite Hdf.
      * rewrite df_of_field_refresh, df_of_upd_df.
        destruct (decide (t = r)) as [-> | Hne].
        -- by rewrite decide_True.
        -- rewrite decide_False; [done | congruence].
  - apply df_of_set_df_property.
  - cbv zeta.
    destruct (fields_dict (set_row_df_property pf p b name L) !! key_of name);
      rewrite ?df_of_field_refresh; apply df_of_set_row_df_property.
Qed.

Lemma frame_run_prims cs L : frame (run_prims cs L) = frame L.
Proof.
  revert L. induction cs as [| c cs IH]; intros L; [done |].
  unfold run_prims in *. simpl. by rewrite IH, frame_run_prim.
Qed.

Lemma run_prims_app cs cs' L :
  run_prims (cs ++ cs') L = run_prims cs' (run_prims cs L).
Proof. unfold run_prims. apply fold_left_app. Qed.

(** *** Plans only read the frame *)

Lemma frame_df_exprs L L' r df :
  frame L = frame L' → df_of L r = Some df →
  ∃ df', df_of L' r = Some df' ∧ df_static df' = df_static df.
Proof.
  intros H Hdf. pose proof (frame_static_of L L' r H) as Hs.
  rewrite Hdf in Hs. destruct (df_of L' r) as [df' |]; [| done].
  exists df'. split; [done |]. simpl in Hs. congruence.
Qed.

Lemma flag_plan_frame env L L' r e :
  frame L = frame L' → flag_plan env L r e = flag_plan env L' r e.
Proof.
  intros H. unfold flag_plan. destruct e as [c |]; [| done].
  by rewrite (frame_evaluate env L L' c H).
Qed.

Lemma prop_plan_frame env L L' e name p :
  frame L = frame L' → prop_plan env L e name p = prop_plan env L' e name p.
Proof.
  intros H. unfold prop_plan. destruct e as [c |]; [| done].
  by rewrite (frame_evaluate env L L' c H), (frame_form_obj L L' H),
    (frame_in_child_row L L' H), (frame_doc L L' H).
Qed.

Lemma step_plan_frame env L L' x :
  frame L = frame L' → step_plan env L x = step_plan env L' x.
Proof.
  intros H. unfold step_plan.
  destruct (df_of L x) as [df |] eqn:Hdf.
  - destruct (frame_df_exprs L L' x df H Hdf) as (df' & -> & Hst).
    assert (Hd : depends_on df' = depends_on df)
      by exact (f_equal depends_on Hst).
    assert (Hm : mandatory_depends_on df' = mandatory_depends_on df)
      by exact (f_equal mandatory_depends_on Hst).
    assert (Hr : read_only_depends_on df' = read_only_depends_on df)
      by exact (f_equal read_only_depends_on Hst).
    assert (Hn : fieldname df' = fieldname df)
      by exact (f_equal fieldname Hst).
    rewrite Hd, Hm, Hr, Hn.
    by rewrite (flag_plan_frame env L L' _ _ H),
      !(prop_plan_frame env L L' _ _ _ H).
  - pose proof (frame_static_of L L' x H) as Hs. rewrite Hdf in Hs.
    by destruct (df_of L' x).
Qed.

Lemma pass_plan_frame env L L' xs :
  frame L = frame L' → pass_plan env L xs = pass_plan env L' xs.
Proof.
  intros H. induction xs as [| x xs IH]; [done |].
  simpl. by rewrite IH, (step_plan_frame env L L' x H).
Qed.

(** *** The pass performs its plan *)

Lemma show_hide_refines env r df L :
  df_of L r = Some df →
  show_hide env r df L =
    (run_prims (fst (flag_plan env L r (depends_on df))) L,
     plan_result (flag_plan env L r (depends_on df))).
Proof.
  intros Hdf. unfold show_hide, flag_plan.
  destruct (depends_on df) as [e |]; [| done].
  destruct (expr_set (Some e)); [| done].
  destruct (evaluate_depends_on_value env L e) as [v | ex]; [| done].
  unfold run_prims, plan_result. simpl. unfold cur_flag. rewrite Hdf.
  by destruct (truthy v), (hidden_due_to_dependency df).
Qed.

Lemma set_dependant_property_refines env e name p L :
  when_set e (λ c, set_dependant_property env c name p) L =
    (run_prims (fst (prop_plan env L e name p)) L,
     plan_result (prop_plan env L e name p)).
Proof.
  unfold when_set, prop_plan.
  destruct e as [c |]; [| done].
  destruct (expr_set (Some c)); [| done].
  unfold set_dependant_property.
  destruct (evaluate_depends_on_value env L c) as [v | ex]; [| done].
  destruct (form_obj L); [| done].
  destruct (in_child_row L); unfold run_prims, plan_result; simpl; [| done].
  by destruct (fields_dict _ !! key_of name).
Qed.

Lemma seq_plan_refines (m1 m2 : M unit) (pl1 pl2 : Layout → Plan) L :
  m1 L = (run_prims (fst (pl1 L)) L, plan_result (pl1 L)) →
  (∀ L', frame L' = frame L →
     m2 L' = (run_prims (fst (pl2 L')) L', plan_result (pl2 L')) ∧
     pl2 L' = pl2 L) →
  bind m1 (λ _, m2) L =
    (run_prims (fst (seq_plan (pl1 L) (pl2 L))) L,
     plan_result (seq_plan (pl1 L) (pl2 L))).
Proof.
  intros H1 H2. unfold bind, seq_plan. rewrite H1.
  unfold plan_result at 1. destruct (snd (pl1 L)) as [ex |] eqn:Hs.
  - unfold plan_result. by rewrite Hs.
  - destruct (H2 (run_prims (fst (pl1 L)) L) (frame_run_prims _ _))
      as [Hm Hp].
    rewrite Hm, Hp. simpl. by rewrite run_prims_app.
Qed.

Lemma step_refines env x L :
  dependency_step env x L =
    (run_prims (fst (step_plan env L x)) L, plan_result (step_plan env L x)).
Proof.
  unfold dependency_step, step_plan.
  destruct (df_of L x) as [df |] eqn:Hdf; [| done].
  apply (seq_plan_refines (show_hide env x df) _
           (λ L, flag_plan env L x (depends_on df))
           (λ L, seq_plan
                   (prop_plan env L (mandatory_depends_on df) (fieldname df) P_reqd)
                   (prop_plan env L (read_only_depends_on df) (fieldname df)
                      P_read_only))).
  - by apply show_hide_refines.
  - intros L1 HL1. split.
    + apply (seq_plan_refines _ _
               (λ L, prop_plan env L (mandatory_depends_on df) (fieldname df) P_reqd)
               (λ L, prop_plan env L (read_only_depends_on df) (fieldname df)
                       P_read_only)).
      * apply set_dependant_property_refines.
      * intros L2 HL2. split;
          [apply set_dependant_property_refines | by apply prop_plan_frame].
    + by rewrite !(prop_plan_frame env L1 L _ _ _ HL1).
Qed.

Lemma pass_refines env xs L :
  for_each (dependency_step env) xs L =
    (run_prims (fst (pass_plan env L xs)) L, plan_result (pass_plan env L xs)).
Proof.
  revert L. induction xs as [| x xs IH]; intros L; [done |].
  simpl.
  apply (seq_plan_refines (dependency_step env x) _
           (λ L, step_plan env L x) (λ L, pass_plan env L xs)).
  - apply step_refines.
  - intros L1 HL1. split; [apply IH | by apply pass_plan_frame].
Qed.

(** *** Flags after a list of writes *)

Lemma flag_of_run_prim c L r :
  flag_of (run_prim c L) r =
    match c with
    | PFlag r' b => if decide (r' = r) then (λ _, b) <$> flag_of L r
                    else flag_of L r
    | _ => flag_of L r
    end.
Proof.
  unfold flag_of. rewrite df_of_run_prim.
  destruct c as [t b | name p b | pf name p b]; simpl.
  - destruct (decide (t = r)) as [-> | Hne].
    + rewrite decide_True by done. by destruct (df_of L r).
    + rewrite decide_False; [done | congruence].
  - destruct (decide _); [| done]. destruct (df_of L r); [| done].
    by destruct p.
  - destruct (decide _); [| done]. destruct (df_of L r); [| done].
    by destruct p.
Qed.

Lemma flag_of_run_prims_frame cs L r :
  (∀ c, c ∈ cs → ¬ writes_flag r c) →
  flag_of (run_prims cs L) r = flag_of L r.
Proof.
  revert L. induction cs as [| c cs IH]; intros L Hcs; [done |].
  unfold run_prims in *. simpl. rewrite IH.
  - rewrite flag_of_run_prim. destruct c as [t b | |]; try done.
    destruct (decide (t = r)) as [-> | Hne]; [| done].
    exfalso. apply (Hcs (PFlag r b)); [left | done].
  - intros c' Hc'. apply Hcs. by right.
Qed.

Lemma flag_of_run_prims_written cs L r b :
  (∀ b', PFlag r b' ∈ cs → b' = b) →
  (∃ b', PFlag r b' ∈ cs) →
  flag_of (run_prims cs L) r = (λ _, b) <$> flag_of L r.
Proof.
  revert L. induction cs as [| c cs IH]; intros L Hall Hex.
  { destruct Hex as [b' Hb']. by apply elem_of_nil in Hb'. }
  unfold run_prims in *. simpl.
  assert (Hall' : ∀ b', PFlag r b' ∈ cs → b' = b)
    by (intros b' Hb'; apply Hall; by right).
  destruct (existsb (is_flag_write r) cs) eqn:Hany.
  - apply existsb_exists in Hany as (c0 & Hc0 & Hw).
    destruct c0 as [t b0 | |]; simpl in Hw; try done.
    apply bool_decide_eq_true in Hw. subst t.
    apply list_elem_of_In in Hc0.
    rewrite IH; [| done | by exists b0]. rewrite flag_of_run_prim.
    destruct c as [t b1 | |]; try done.
    destruct (decide (t = r)); [| done]. by destruct (flag_of L r).
  - assert (Hnin : ∀ c', c' ∈ cs → ¬ writes_flag r c').
    { intros c' Hc' Hw. destruct c' as [t b0 | |]; simpl in Hw; try done.
      subst t. apply not_true_iff_false in Hany. apply Hany.
      apply existsb_exists. exists (PFlag r b0).
      split; [by apply list_elem_of_In |]. simpl. by apply bool_decide_eq_true. }
    fold (run_prims cs (run_prim c L)).
    rewrite flag_of_run_prims_frame by done.
    destruct Hex as [b' Hb']. apply elem_of_cons in Hb' as [<- | Hb'].
    + rewrite flag_of_run_prim, decide_True by done.
      rewrite (Hall b'); [done | by left].
    + exfalso. by apply (Hnin (PFlag r b')).
Qed.

(** *** What a plan contains *)

Lemma seq_plan_elem (a b : Plan) c :
  c ∈ fst (seq_plan a b) → c ∈ fst a ∨ (snd a = None ∧ c ∈ fst b).
Proof.
  unfold seq_plan. destruct (snd a) eqn:Ha; [by left |].
  simpl. rewrite elem_of_app. intros [? | ?]; [by left | by right].
Qed.

Lemma seq_plan_none (a b : Plan) :
  snd (seq_plan a b) = None ↔ snd a = None ∧ snd b = None.
Proof.
  unfold seq_plan. destruct (snd a) eqn:Ha; simpl.
  - rewrite Ha. split; [done | by intros [? _]].
  - split; [done | by intros [_ ?]].
Qed.

Lemma seq_plan_elem_l (a b : Plan) c : c ∈ fst a → c ∈ fst (seq_plan a b).
Proof.
  unfold seq_plan. destruct (snd a); [done |]. simpl. rewrite elem_of_app.
  by left.
Qed.

Lemma seq_plan_elem_r (a b : Plan) c :
  snd a = None → c ∈ fst b → c ∈ fst (seq_plan a b).
Proof.
  unfold seq_plan. intros ->. simpl. rewrite elem_of_app. by right.
Qed.

Lemma flag_plan_elem env L r e c :
  c ∈ fst (flag_plan env L r e) →
  ∃ c0 v, e = Some c0 ∧ expr_set e = true ∧
          evaluate_depends_on_value env L c0 = Ok v ∧
          c = PFlag r (negb (truthy v)).
Proof.
  unfold flag_plan. destruct e as [c0 |]; [| by intros ?%elem_of_nil].
  destruct (expr_set (Some c0)) eqn:Hset; [| by intros ?%elem_of_nil].
  destruct (evaluate_depends_on_value env L c0) as [v | ex] eqn:Hev;
    [| by intros ?%elem_of_nil].
  simpl. intros ->%list_elem_of_singleton. by exists c0, v.
Qed.

Lemma prop_plan_elem env L e name p c r :
  c ∈ fst (prop_plan env L e name p) → ¬ writes_flag r c.
Proof.
  unfold prop_plan. destruct e as [c0 |]; [| by intros ?%elem_of_nil].
  destruct (expr_set (Some c0)); [| by intros ?%elem_of_nil].
  destruct (evaluate_depends_on_value env L c0) as [v | ex];
    [| by intros ?%elem_of_nil].
  simpl. destruct (form_obj L); [| by intros ?%elem_of_nil].
  destruct (in_child_row L); intros ->%list_elem_of_singleton; simpl; tauto.
Qed.

Lemma step_plan_flag env L x r c :
  c ∈ fst (step_plan env L x) → writes_flag r c →
  x = r ∧ ∃ df e v, df_of L x = Some df ∧ depends_on df = Some e ∧
    expr_set (Some e) = true ∧ evaluate_depends_on_value env L e = Ok v ∧
    c = PFlag r (negb (truthy v)).
Proof.
  unfold step_plan. destruct (df_of L x) as [df |];
    [| by intros ?%elem_of_nil].
  intros Hc Hw. apply seq_plan_elem in Hc as [Hc | [_ Hc]].
  - apply flag_plan_elem in Hc as (c0 & v & He & Hset & Hev & ->).
    simpl in Hw. subst x. split; [done |]. exists df, c0, v.
    rewrite He in Hset. done.
  - apply seq_plan_elem in Hc as [Hc | [_ Hc]];
      by apply (prop_plan_elem _ _ _ _ _ _ r) in Hc.
Qed.

Lemma pass_plan_flag env L xs r c :
  c ∈ fst (pass_plan env L xs) → writes_flag r c →
  r ∈ xs ∧ ∃ df e v, df_of L r = Some df ∧ depends_on df = Some e ∧
    expr_set (Some e) = true ∧ evaluate_depends_on_value env L e = Ok v ∧
    c = PFlag r (negb (truthy v)).
Proof.
  induction xs as [| x xs IH]; simpl; [by intros ?%elem_of_nil |].
  intros Hc Hw. apply seq_plan_elem in Hc as [Hc | [_ Hc]].
  - destruct (step_plan_flag _ _ _ _ _ Hc Hw) as [-> H]. split; [by left | done].
  - destruct (IH Hc Hw) as [Hin H]. split; [by right | done].
Qed.

(** A pass that comes to a field whose [depends_on] throws stops there at
    the latest, and has not written the flag of that field. *)
Lemma pass_plan_raises env L xs r df e ex :
  r ∈ xs → df_of L r = Some df → depends_on df = Some e →
  expr_set (Some e) = true →
  evaluate_depends_on_value env L e = Raise ex →
  (∃ ex', snd (pass_plan env L xs) = Some ex') ∧
  ∀ c, c ∈ fst (pass_plan env L xs) → ¬ writes_flag r c.
Proof.
  intros Hin Hdf He Hset Hev. split.
  - induction xs as [| x xs IH]; [by apply elem_of_nil in Hin |].
    simpl. unfold seq_plan.
    destruct (snd (step_plan env L x)) as [ex0 |] eqn:Hs.
    + exists ex0. done.
    + simpl. apply elem_of_cons in Hin as [<- | Hin]; [| by apply IH].
      exfalso. unfold step_plan in Hs. rewrite Hdf, He in Hs.
      unfold flag_plan in Hs. rewrite Hset, Hev in Hs. discriminate.
  - intros c Hc Hw.
    destruct (pass_plan_flag _ _ _ _ _ Hc Hw)
      as (_ & df' & e' & v & Hdf' & He' & _ & Hev' & _).
    congruence.
Qed.

(** A pass that completes has evaluated every [depends_on] and written
    the outcome. *)
Lemma pass_plan_complete env L xs x df :
  snd (pass_plan env L xs) = None →
  x ∈ xs → df_of L x = Some df → expr_set (depends_on df) = true →
  ∃ e v, depends_on df = Some e ∧
         evaluate_depends_on_value env L e = Ok v ∧
         PFlag x (negb (truthy v)) ∈ fst (pass_plan env L xs).
Proof.
  intros Hnone Hin Hdf Hset.
  induction xs as [| y xs IH]; [by apply elem_of_nil in Hin |].
  cbn [pass_plan] in Hnone |- *.
  apply seq_plan_none in Hnone as [Hy Hxs].
  apply elem_of_cons in Hin as [<- | Hin].
  - assert (Hfp : snd (flag_plan env L x (depends_on df)) = None).
    { unfold step_plan in Hy. rewrite Hdf in Hy.
      by apply seq_plan_none in Hy as [Hf _]. }
    destruct (depends_on df) as [e |] eqn:He; [| done].
    destruct (evaluate_depends_on_value env L e) as [v | ex] eqn:Hev.
    + exists e, v. split; [done |]. split; [done |].
      apply seq_plan_elem_l. unfold step_plan. rewrite Hdf, He.
      apply seq_plan_elem_l. unfold flag_plan. rewrite Hset, Hev.
      simpl. by left.
    + unfold flag_plan in Hfp. rewrite Hset, Hev in Hfp. discriminate.
  - destruct (IH Hxs Hin) as (e & v & He & Hev & Hc).
    exists e, v. split; [done |]. split; [done |].
    by apply seq_plan_elem_r.
Qed.

(** *** The first phases of [refresh] *)

Lemma attach_frame b L : frame (attach_doc_and_docfields b L) = frame L.
Proof.
  unfold attach_doc_and_docfields. generalize (fields_list L) as xs.
  intros xs. revert L. induction xs as [| x xs IH]; intros L; [done |].
  simpl. rewrite IH. destruct b; [apply frame_field_refresh | done].
Qed.

Lemma attach_df_of b L r : df_of (attach_doc_and_docfields b L) r = df_of L r.
Proof.
  unfold attach_doc_and_docfields. generalize (fields_list L) as xs.
  intros xs. revert L. induction xs as [| x xs IH]; intros L; [done |].
  simpl. rewrite IH. destruct b; [apply df_of_field_refresh | done].
Qed.

Lemma has_dep_intro L r df :
  r ∈ fields_list L → df_of L r = Some df → expr_set (depends_on df) = true →
  has_dep L = true.
Proof.
  intros Hin Hdf Hset. unfold has_dep. apply existsb_exists. exists r.
  split; [by apply list_elem_of_In |]. rewrite Hdf. unfold df_has_dep.
  by rewrite Hset.
Qed.

Lemma eval_throws env L s d x exn :
  frappe_throw env invalid_depends_on = Some exn →
  has_prefix 5 "eval:" s = true → resolve_doc L = Some d →
  js_eval env (substr_from 5 s) d (parent_doc L) = Raise x →
  evaluate_depends_on_value env L (EStr s) = Raise exn.
Proof.
  intros Ht Hp Hd Hx. unfold evaluate_depends_on_value, eval_branch.
  by rewrite Hd, Hp, Hx, Ht.
Qed.

Lemma refresh_dependency_plan env L :
  refresh_dependency env L =
    if negb (has_dep L) then (L, Ok tt)
    else
      let pl := pass_plan env L (reverse (fields_list L)) in
      match snd pl with
      | Some e => (run_prims (fst pl) L, Raise e)
      | None => (emit EvRefreshSectionCount (run_prims (fst pl) L), Ok tt)
      end.
Proof.
  unfold refresh_dependency. destruct (negb (has_dep L)); [done |].
  unfold bind. rewrite pass_refines. unfold plan_result.
  by destruct (snd (pass_plan env L (reverse (fields_list L)))).
Qed.

Lemma refresh_unfold env nd L :
  refresh env nd L =
    let La := attach_doc_and_docfields true (rebind nd L) in
    match refresh_dependency env La with
    | (Lc, Raise e) => (Lc, Raise e)
    | (Lc, Ok _) =>
        match frm La with
        | Some _ => refresh_section_collapse env (refresh_sections Lc)
        | None => (refresh_sections Lc, Ok tt)
        end
    end.
Proof.
  unfold refresh, rebind, bind, modify, ret. cbv zeta.
  destruct (refresh_dependency env _) as [Lc [[] | e]]; [| done].
  by destruct (frm _).
Qed.

(** ** Errors in expressions *)

(** C1, as the code has it.  [frappe.throw] raises: when the [depends_on]
    of a field of the layout is an [eval:] expression that throws, a
    refresh does not return normally, the exception raised in
    [evaluate_depends_on_value] (or an earlier one of the same pass)
    reaches the caller, and the field's [hidden_due_to_dependency] is what
    it was before. *)
Theorem eval_error_keeps_flag (env : Env) (new_doc : option Doc)
    (L : Layout) (r : FieldRef) (df : DocField) (s : string) (d : Doc)
    (x exn : Exn) :
  frappe_throw env invalid_depends_on = Some exn →
  r ∈ fields_list L → df_of L r = Some df →
  depends_on df = Some (EStr s) → has_prefix 5 "eval:" s = true →
  resolve_doc (rebind new_doc L) = Some d →
  js_eval env (substr_from 5 s) d (parent_doc (rebind new_doc L)) = Raise x →
  ∃ L' e, refresh env new_doc L = (L', Raise e) ∧
          flag_of L' r = flag_of L r.
Proof.
  intros Hthrow Hin Hdf He Hp Hd Hx.
  set (L0 := rebind new_doc L) in *.
  set (La := attach_doc_and_docfields true L0).
  assert (HfL0 : ∀ r', df_of L0 r' = df_of L r')
    by (intros r'; unfold L0, rebind; by destruct new_doc, r').
  assert (Hfr : frame La = frame L0) by apply attach_frame.
  assert (Hdfa : df_of La r = Some df)
    by (unfold La; by rewrite attach_df_of, HfL0).
  assert (Hina : r ∈ fields_list La).
  { rewrite (frame_fields_list La L0 Hfr). unfold L0, rebind.
    by destruct new_doc. }
  assert (Hev : evaluate_depends_on_value env La (EStr s) = Raise exn).
  { rewrite (frame_evaluate env La L0 _ Hfr). by eapply eval_throws. }
  assert (Hset : expr_set (Some (EStr s)) = true)
    by by apply has_prefix_eval_set.
  destruct (pass_plan_raises env La (reverse (fields_list La)) r df (EStr s)
              exn) as [[ex' Hex] Hnow]; try done.
  { by apply elem_of_reverse. }
  rewrite refresh_unfold. fold L0. fold La. cbv zeta.
  rewrite refresh_dependency_plan.
  rewrite (has_dep_intro La r df Hina Hdfa) by (by rewrite He).
  cbn [negb]. cbv zeta. rewrite Hex.
  eexists _, ex'. split; [done |].
  rewrite flag_of_run_prims_frame by done.
  unfold flag_of, La. by rewrite attach_df_of, HfL0.
Qed.

Lemma eval_error_keeps_flag_witness :
  ∃ L' e, refresh std_env None broken_layout = (L', Raise e) ∧
          flag_of L' (RControl 0) = flag_of broken_layout (RControl 0).
Proof.
  assert (Hin : RControl 0 ∈ fields_list broken_layout).
  { replace (fields_list broken_layout) with [RControl 0]
      by (vm_compute; reflexivity). by left. }
  apply (eval_error_keeps_flag std_env None broken_layout (RControl 0)
           (with_depends_on (EStr "eval:doc.status ==") (plain_df "A" "Data"))
           "eval:doc.status ==" (status_doc "Open")
           (ScriptError "unsupported expression")
           (ValidationError invalid_depends_on)).
  - vm_compute; reflexivity.
  - exact Hin.
  - vm_compute; reflexivity.
  - vm_compute; reflexivity.
  - vm_compute; reflexivity.
  - vm_compute; reflexivity.
  - vm_compute; reflexivity.
Defined.

(** C1 as stated fails whatever [frappe.throw] does.  When it raises, the
    exception leaves [refresh]; when it only reported and returned, the
    outcome would be [null], and the field, visible before, would be
    hidden. *)
Lemma eval_error_counterexample :
  snd (refresh std_env None broken_layout)
    = Raise (ValidationError invalid_depends_on) ∧
  (snd (refresh quiet_env None broken_layout) = Ok tt ∧
   flag_of broken_layout (RControl 0) = Some false ∧
   flag_of (fst (refresh quiet_env None broken_layout)) (RControl 0)
     = Some true).
Proof.
  split; [vm_compute; reflexivity |].
  split; [vm_compute; reflexivity |].
  split; vm_compute; reflexivity.
Qed.

(** ** Consistency of the [hide-control] class of sections *)

Lemma hide_set_property fm p b df :
  FormSection.hide fm (set_property p b df) = FormSection.hide fm df.
Proof. by destruct p. Qed.

Lemma hide_visible fm df :
  negb (FormSection.hide fm df) =
    negb (hidden_due_to_dependency df) && negb (hidden df) && perm_read fm df.
Proof.
  unfold FormSection.hide, perm_read.
  destruct (hidden df), (hidden_due_to_dependency df), fm as [f |]; simpl;
    try done; by destruct (get_perm f (permlevel df)).
Qed.

Lemma frm_section_refresh i L : frm (FormSection.refresh i L) = frm L.
Proof. reflexivity. Qed.

Lemma frm_field_refresh r L : frm (field_refresh r L) = frm L.
Proof.
  destruct r as [i | i | i]; try done. unfold field_refresh, Column_refresh.
  by destruct (columns L !! i).
Qed.

Lemma frm_upd_df g r L : frm (upd_df g r L) = frm L.
Proof. by destruct r. Qed.

Lemma sections_section_refresh i L :
  sections (FormSection.refresh i L) =
    alter (λ s, set_s_hide_control (FormSection.hide (frm L) (s_df s)) s) i
      (sections L).
Proof. reflexivity. Qed.

Lemma cons_section_refresh i j L :
  hide_consistent L j ∨ j = i → hide_consistent (FormSection.refresh i L) j.
Proof.
  intros H s. rewrite sections_section_refresh, frm_section_refresh.
  destruct (decide (i = j)) as [-> | Hne].
  - rewrite list_lookup_alter_eq. destruct (sections L !! j); [| done].
    simpl. intros [= <-]. done.
  - rewrite list_lookup_alter_ne by done. destruct H as [H | ->]; [| done].
    apply H.
Qed.

Lemma cons_field_refresh r j L :
  hide_consistent L j ∨ r = RSection j →
  hide_consistent (field_refresh r L) j.
Proof.
  intros H. destruct r as [i | i | i]; unfold field_refresh.
  - destruct H as [H | H]; [| done]. intros s Hs. by apply H.
  - apply cons_section_refresh. destruct H as [H | [= ->]]; [by left | by right].
  - destruct H as [H | H]; [| done]. unfold Column_refresh.
    destruct (columns L !! i); [| done]. apply cons_section_refresh. by left.
Qed.

Lemma cons_emit e j L : hide_consistent L j → hide_consistent (emit e L) j.
Proof. intros H s Hs. by apply H. Qed.

Lemma cons_upd_df_other g r j L :
  r ≠ RSection j → hide_consistent L j → hide_consistent (upd_df g r L) j.
Proof.
  intros Hne H s. rewrite frm_upd_df. destruct r as [i | i | i]; try apply H.
  unfold upd_df. lsimpl. rewrite list_lookup_alter_ne by congruence. apply H.
Qed.

Lemma cons_upd_df_prop p b r j L :
  hide_consistent L j → hide_consistent (upd_df (set_property p b) r L) j.
Proof.
  intros H. destruct (decide (r = RSection j)) as [-> | Hne];
    [| by apply cons_upd_df_other].
  intros s. rewrite frm_upd_df. unfold upd_df. lsimpl.
  rewrite list_lookup_alter_eq. destruct (sections L !! j) as [s0 |] eqn:Hs;
    [| done].
  simpl. intros [= <-]. simpl. rewrite hide_set_property. by apply H.
Qed.

Lemma cons_run_prim c j L :
  hide_consistent L j → hide_consistent (run_prim c L) j.
Proof.
  intros H. destruct c as [r b | name p b | pf name p b]; unfold run_prim.
  - destruct (Bool.eqb (cur_flag L r) b); [done |].
    apply cons_field_refresh.
    destruct (decide (r = RSection j)) as [-> | Hne]; [by right | left].
    by apply cons_upd_df_other.
  - unfold set_df_property. lsimpl.
    destruct (fields_dict L !! key_of name) as [t |]; [| by apply cons_emit].
    destruct (df_of (emit _ L) t) as [df |]; [| by apply cons_emit].
    destruct (Bool.eqb (get_property p df) b); [by apply cons_emit |].
    apply cons_field_refresh. left. apply cons_upd_df_prop.
    by apply cons_emit.
  - cbv zeta.
    assert (Hrow : hide_consistent (set_row_df_property pf p b name L) j).
    { unfold set_row_df_property. lsimpl.
      destruct (fields_dict L !! key_of name); [| by apply cons_emit].
      apply cons_upd_df_prop. by apply cons_emit. }
    destruct (fields_dict _ !! key_of name); [| done].
    apply cons_field_refresh. by left.
Qed.

Lemma cons_run_prims cs j L :
  hide_consistent L j → hide_consistent (run_prims cs L) j.
Proof.
  revert L. induction cs as [| c cs IH]; intros L H; [done |].
  unfold run_prims in *. simpl. apply IH. by apply cons_run_prim.
Qed.

Lemma cons_refresh_all xs j L :
  hide_consistent L j ∨ RSection j ∈ xs →
  hide_consistent (fold_left (λ L' r, field_refresh r L') xs L) j.
Proof.
  revert L. induction xs as [| x xs IH]; intros L H.
  - destruct H as [H | H]; [done | by apply elem_of_nil in H].
  - simpl. apply IH. destruct H as [H | H].
    + left. apply cons_field_refresh. by left.
    + apply elem_of_cons in H as [<- | H]; [| by right].
      left. apply cons_field_refresh. by right.
Qed.

Lemma cons_attach j L :
  RSection j ∈ fields_list L →
  hide_consistent (attach_doc_and_docfields true L) j.
Proof.
  intros H. unfold attach_doc_and_docfields. apply cons_refresh_all.
  by right.
Qed.

(** ** The later phases of [refresh] leave the dfs alone *)

Lemma collapse_loop_frame env js L L' r :
  for_each (collapse_step env) js L = (L', r) →
  outside_sections L' = outside_sections L ∧
  length (sections L') = length (sections L) ∧
  ∀ i s, sections L !! i = Some s →
    ∃ s', sections L' !! i = Some s' ∧ same_but_body_hide s s'.
Proof.
  revert L. induction js as [| j js IH]; intros L H.
  - inversion H; subst. split; [done |]. split; [done |].
    intros i s Hs. by exists s.
  - simpl in H. unfold bind in H.
    destruct (collapse_step env j L) as [L1 r1] eqn:Hstep.
    destruct (collapse_step_frame _ _ _ _ _ Hstep) as (Ho & Hl & _ & Hs1).
    destruct r1 as [[] | ex].
    + destruct (IH _ H) as (Ho' & Hl' & Hs').
      split; [congruence |]. split; [congruence |].
      intros i s Hs. destruct (Hs1 i s Hs) as (s1 & Hi1 & Hb1).
      destruct (Hs' i s1 Hi1) as (s' & Hi' & Hb').
      exists s'. split; [done |]. unfold same_but_body_hide in *. congruence.
    + inversion H; subst. done.
Qed.

Lemma sections_refresh_sections L i :
  sections (refresh_sections L) !! i =
    (λ s, if s_hide_control s then s
          else if has_shown_control L i
               then set_s_class VisibleSection s
               else set_s_class EmptySection s) <$> sections L !! i.
Proof. unfold refresh_sections. lsimpl. by rewrite list_lookup_imap. Qed.

Lemma same_dfs_refresh_sections L : same_dfs L (refresh_sections L).
Proof.
  split; [done |]. split.
  { unfold refresh_sections. lsimpl. by rewrite length_imap. }
  intros i s Hs. rewrite sections_refresh_sections, Hs. simpl.
  eexists. split; [done |].
  destruct (s_hide_control s) eqn:Hh; [done |].
  by destruct (has_shown_control L i).
Qed.

Lemma same_dfs_collapse env L L' r :
  refresh_section_collapse env L = (L', r) → same_dfs L L'.
Proof.
  intros H. destruct (collapse_loop_frame _ _ _ _ _ H) as (Ho & Hl & Hs).
  split; [done |]. split; [done |]. intros i s Hi.
  destruct (Hs i s Hi) as (s' & Hi' & Hb). exists s'. split; [done |].
  split; [exact (f_equal s_df (eq_sym Hb)) |
          exact (f_equal s_hide_control (eq_sym Hb))].
Qed.

Lemma same_dfs_trans L1 L2 L3 :
  same_dfs L1 L2 → same_dfs L2 L3 → same_dfs L1 L3.
Proof.
  intros (Ho & Hl & Hs) (Ho' & Hl' & Hs').
  split; [congruence |]. split; [congruence |]. intros i s Hi.
  destruct (Hs i s Hi) as (s2 & Hi2 & Hd2 & Hh2).
  destruct (Hs' i s2 Hi2) as (s3 & Hi3 & Hd3 & Hh3).
  exists s3. split; [done |]. split; congruence.
Qed.

Lemma same_dfs_df_of L L' r : same_dfs L L' → df_of L' r = df_of L r.
Proof.
  intros (Ho & Hl & Hs). destruct r as [i | i | i]; unfold df_of.
  - by rewrite (f_equal controls Ho : controls L' = controls L).
  - destruct (sections L !! i) as [s |] eqn:Hi.
    + destruct (Hs i s Hi) as (s' & -> & Hd & _). simpl. by rewrite Hd.
    + apply lookup_ge_None in Hi. rewrite <- Hl in Hi.
      apply lookup_ge_None in Hi. by rewrite Hi.
  - by rewrite (f_equal columns Ho : columns L' = columns L).
Qed.

Lemma same_dfs_frm L L' : same_dfs L L' → frm L' = frm L.
Proof. intros (Ho & _). exact (f_equal frm Ho). Qed.

Lemma same_dfs_cons L L' i :
  same_dfs L L' → hide_consistent L i → hide_consistent L' i.
Proof.
  intros Hsame Hc s' Hs'. rewrite (same_dfs_frm _ _ Hsame).
  destruct Hsame as (Ho & Hl & Hs).
  destruct (sections L !! i) as [s |] eqn:Hi.
  - destruct (Hs i s Hi) as (s2 & Hi2 & Hd & Hh).
    assert (s2 = s') by congruence. subst s2. rewrite Hd, Hh. by apply Hc.
  - apply lookup_ge_None in Hi. rewrite <- Hl in Hi.
    apply lookup_ge_None in Hi. congruence.
Qed.

(** The phases after the dependency pass. *)
Lemma refresh_tail env La Lc L' r :
  match frm La with
  | Some _ => refresh_section_collapse env (refresh_sections Lc)
  | None => (refresh_sections Lc, Ok tt)
  end = (L', r) →
  same_dfs Lc L'.
Proof.
  destruct (frm La); intros H.
  - eapply same_dfs_trans; [apply same_dfs_refresh_sections |].
    by eapply same_dfs_collapse.
  - inversion H; subst. apply same_dfs_refresh_sections.
Qed.

(** ** Visibility after a refresh *)

Lemma rebind_df_of nd L r : df_of (rebind nd L) r = df_of L r.
Proof. unfold rebind. by destruct nd, r. Qed.

Lemma rebind_fields_list nd L : fields_list (rebind nd L) = fields_list L.
Proof. unfold rebind. by destruct nd. Qed.

Lemma rebind_frm nd L : frm (rebind nd L) = frm L.
Proof. unfold rebind. by destruct nd. Qed.

Lemma has_dep_false L r df :
  has_dep L = false → r ∈ fields_list L → df_of L r = Some df →
  expr_set (depends_on df) = false.
Proof.
  intros Hno Hin Hdf. destruct (expr_set (depends_on df)) eqn:Hset; [| done].
  by rewrite (has_dep_intro L r df Hin Hdf Hset) in Hno.
Qed.

(** The dependency pass alone: flags of the fields after a pass that
    completes. *)
Lemma dependency_flags env La Lc r df :
  refresh_dependency env La = (Lc, Ok tt) →
  r ∈ fields_list La → df_of La r = Some df →
  if expr_set (depends_on df)
  then ∃ e v, depends_on df = Some e ∧
              evaluate_depends_on_value env La e = Ok v ∧
              flag_of Lc r = Some (negb (truthy v))
  else flag_of Lc r = flag_of La r.
Proof.
  rewrite refresh_dependency_plan. intros H Hin Hdf.
  destruct (has_dep La) eqn:Hdep; cbn [negb] in H.
  - cbv zeta in H.
    destruct (snd (pass_plan env La (reverse (fields_list La)))) eqn:Hsnd;
      [discriminate |].
    inversion H; subst Lc. clear H.
    assert (Hfl : ∀ L1, flag_of (emit EvRefreshSectionCount L1) r = flag_of L1 r)
      by (intros L1; unfold flag_of; by rewrite df_of_emit).
    rewrite Hfl.
    destruct (expr_set (depends_on df)) eqn:Hset.
    + destruct (pass_plan_complete env La _ r df Hsnd) as (e & v & He & Hev & Hc);
        try done.
      { by apply elem_of_reverse. }
      exists e, v. split; [done |]. split; [done |].
      rewrite (flag_of_run_prims_written _ _ _ (negb (truthy v))).
      * unfold flag_of. by rewrite Hdf.
      * intros b' Hb'.
        destruct (pass_plan_flag env La _ r _ Hb' eq_refl)
          as (_ & df' & e' & v' & Hdf' & He' & _ & Hev' & Hb).
        inversion Hb. congruence.
      * by exists (negb (truthy v)).
    + apply flag_of_run_prims_frame. intros c Hc Hw.
      destruct (pass_plan_flag env La _ r _ Hc Hw)
        as (_ & df' & e' & v' & Hdf' & He' & Hset' & _).
      assert (df' = df) by congruence. subst df'.
      rewrite He', Hset' in Hset. discriminate.
  - inversion H; subst Lc. by rewrite (has_dep_false La r df Hdep Hin Hdf).
Qed.

Lemma refresh_dependency_frame env L L' r :
  refresh_dependency env L = (L', r) → frame L' = frame L.
Proof.
  rewrite refresh_dependency_plan. destruct (negb (has_dep L)).
  - by intros [= <- _].
  - cbv zeta. destruct (snd (pass_plan env L (reverse (fields_list L))));
      intros [= <- _]; [| rewrite frame_emit]; apply frame_run_prims.
Qed.

Lemma refresh_dependency_cons env L L' r j :
  refresh_dependency env L = (L', r) →
  hide_consistent L j → hide_consistent L' j.
Proof.
  rewrite refresh_dependency_plan. destruct (negb (has_dep L)).
  - by intros [= <- _].
  - cbv zeta. destruct (snd (pass_plan env L (reverse (fields_list L))));
      intros [= <- _] Hc; [| apply cons_emit]; by apply cons_run_prims.
Qed.

(** [if (f.df.depends_on)] lets everything through but the literal
    [false] and the empty string. *)
Lemma expr_set_cases e :
  expr_set (Some e) = true ↔ e ≠ EBool false ∧ e ≠ EStr "".
Proof.
  destruct e as [[] | f | s]; simpl; split; try done.
  - intros [H _]. by destruct H.
  - intros H. apply negb_true_iff, String.eqb_neq in H.
    split; [done |]. intros [= ->]. by destruct H.
  - intros [_ H]. apply negb_true_iff, String.eqb_neq. intros ->. by destruct H.
Qed.

Lemma columns_field_refresh r L : columns (field_refresh r L) = columns L.
Proof.
  destruct r as [i | i | i]; try done. unfold field_refresh, Column_refresh.
  by destruct (columns L !! i).
Qed.

(** Refreshing a listed column break refreshes the section the column
    belongs to. *)
Lemma cons_refresh_column xs c col L :
  RColumn c ∈ xs → columns L !! c = Some col →
  hide_consistent (fold_left (λ L' r, field_refresh r L') xs L)
    (col_section col).
Proof.
  revert L. induction xs as [| x xs IH]; intros L Hin Hc;
    [by apply elem_of_nil in Hin |].
  simpl. apply elem_of_cons in Hin as [<- | Hin].
  - apply cons_refresh_all. left. unfold field_refresh, Column_refresh.
    rewrite Hc. apply cons_section_refresh. by right.
  - apply IH; [done |]. by rewrite columns_field_refresh.
Qed.

(** C4, as the code has it.  After a refresh that returns, every entry of
    [fields_list] whose [depends_on] passes the test [if (f.df.depends_on)]
    (it is set, and is neither the literal [false] nor the empty string)
    has [hidden_due_to_dependency] equal to the negation of the truthiness
    of that expression evaluated against the document the refresh works
    with, so that the visibility its df asks for is: the expression is
    truthy, the field is not statically hidden and read permission is
    granted.  An entry whose [depends_on] is absent, [false] or empty is
    not looked at and keeps the flag it had.  The wrapper of a listed
    section is shown exactly when its df asks for it; the flag of a listed
    column break hides nothing: the section the column belongs to is shown
    exactly when the section's own df asks for it. *)
Theorem dependency_visibility (env : Env) (new_doc : option Doc)
    (L L' : Layout) :
  refresh env new_doc L = (L', Ok tt) →
  ∀ r df, r ∈ fields_list L → df_of L r = Some df →
    ∃ df', df_of L' r = Some df' ∧ df_static df' = df_static df ∧
      (∀ e, depends_on df = Some e → e ≠ EBool false → e ≠ EStr "" →
         ∃ v, evaluate_depends_on_value env (rebind new_doc L) e = Ok v ∧
              hidden_due_to_dependency df' = negb (truthy v) ∧
              df_visible (frm L') df'
                = truthy v && negb (hidden df) && perm_read (frm L) df) ∧
      (depends_on df = None ∨ depends_on df = Some (EBool false)
       ∨ depends_on df = Some (EStr "") →
       hidden_due_to_dependency df' = hidden_due_to_dependency df) ∧
      (∀ i s', r = RSection i → sections L' !! i = Some s' →
         negb (s_hide_control s') = df_visible (frm L') df') ∧
      (∀ c col s', r = RColumn c → columns L !! c = Some col →
         sections L' !! col_section col = Some s' →
         negb (s_hide_control s') = df_visible (frm L') (s_df s')).
Proof.
  rewrite refresh_unfold. cbv zeta.
  set (L0 := rebind new_doc L).
  set (La := attach_doc_and_docfields true L0).
  destruct (refresh_dependency env La) as [Lc [[] | ex]] eqn:Hdep;
    [| discriminate].
  intros Htail r df Hin Hdf.
  pose proof (refresh_tail _ _ _ _ _ Htail) as Hsame.
  assert (Hfa : frame La = frame L0) by apply attach_frame.
  assert (Hfc : frame Lc = frame La) by by eapply refresh_dependency_frame.
  assert (Hdfa : df_of La r = Some df)
    by (unfold La, L0; by rewrite attach_df_of, rebind_df_of).
  assert (Hina : r ∈ fields_list La).
  { rewrite (frame_fields_list La L0 Hfa). unfold L0.
    by rewrite rebind_fields_list. }
  assert (Hfrm : frm L' = frm L).
  { rewrite (same_dfs_frm _ _ Hsame), (frame_frm Lc La Hfc),
      (frame_frm La L0 Hfa). unfold L0. apply rebind_frm. }
  assert (Hvis : ∀ fm d0, negb (FormSection.hide fm d0) = df_visible fm d0).
  { intros fm d0. rewrite hide_visible. unfold df_visible.
    by destruct (hidden d0), (hidden_due_to_dependency d0). }
  destruct (frame_df_exprs La Lc r df (eq_sym Hfc) Hdfa) as (df' & Hdfc & Hst).
  assert (Hh : hidden df' = hidden df) by exact (f_equal hidden Hst).
  assert (Hp : permlevel df' = permlevel df) by exact (f_equal permlevel Hst).
  pose proof (dependency_flags env La Lc r df Hdep Hina Hdfa) as Hflags.
  unfold flag_of in Hflags. rewrite Hdfc, Hdfa in Hflags. simpl in Hflags.
  exists df'. split; [by rewrite (same_dfs_df_of _ _ r Hsame) |].
  split; [done |]. split; [| split; [| split]].
  - intros e He Hne1 Hne2.
    assert (Hset : expr_set (depends_on df) = true)
      by (rewrite He; by apply expr_set_cases).
    rewrite Hset in Hflags. destruct Hflags as (e' & v & He' & Hev & Hfl).
    assert (e' = e) by congruence. subst e'. exists v.
    split; [by rewrite <- (frame_evaluate env La L0 e Hfa) |].
    assert (Hflag : hidden_due_to_dependency df' = negb (truthy v))
      by congruence.
    split; [done |]. unfold df_visible, perm_read.
    rewrite Hflag, Hh, Hp, Hfrm, negb_involutive.
    by destruct (hidden df), (truthy v).
  - intros Hno.
    assert (Hset : expr_set (depends_on df) = false)
      by (destruct Hno as [-> | [-> | ->]]; reflexivity).
    rewrite Hset in Hflags. congruence.
  - intros i s' -> Hs'.
    assert (Hcons : hide_consistent L' i).
    { apply (same_dfs_cons Lc L' i Hsame).
      apply (refresh_dependency_cons env La Lc _ i Hdep).
      apply cons_attach. unfold L0. by rewrite rebind_fields_list. }
    rewrite (Hcons s' Hs'), Hvis.
    assert (Hdf' : s_df s' = df').
    { pose proof (same_dfs_df_of _ _ (RSection i) Hsame) as Hd.
      unfold df_of in Hd, Hdfc. rewrite Hs' in Hd. rewrite Hdfc in Hd.
      simpl in Hd. congruence. }
    by rewrite Hdf'.
  - intros c col s' -> Hcol Hs'.
    assert (Hcons : hide_consistent L' (col_section col)).
    { apply (same_dfs_cons Lc L' _ Hsame).
      apply (refresh_dependency_cons env La Lc _ _ Hdep).
      unfold La, attach_doc_and_docfields.
      apply (cons_refresh_column _ c col).
      - unfold L0. by rewrite rebind_fields_list.
      - unfold L0, rebind. by destruct new_doc. }
    by rewrite (Hcons s' Hs'), Hvis.
Qed.

Lemma dependency_visibility_witness :
  ∃ df', df_of (fst (refresh std_env (Some (status_doc "Closed"))
                       (status_layout "Open"))) (RControl 0) = Some df' ∧
         hidden_due_to_dependency df' = true ∧
         df_visible None df' = false.
Proof.
  set (df0 := with_depends_on (EStr "eval: doc.status == 'Open'")
                (plain_df "A" "Data")).
  assert (Hrun : refresh std_env (Some (status_doc "Closed"))
                   (status_layout "Open")
                 = (fst (refresh std_env (Some (status_doc "Closed"))
                           (status_layout "Open")), Ok tt))
    by (vm_compute; reflexivity).
  assert (Hin : RControl 0 ∈ fields_list (status_layout "Open")).
  { replace (fields_list (status_layout "Open"))
      with [RSection 0; RControl 0; RControl 1] by (vm_compute; reflexivity).
    right. left. }
  assert (Hdf : df_of (status_layout "Open") (RControl 0) = Some df0)
    by (vm_compute; reflexivity).
  assert (Hfrm : frm (fst (refresh std_env (Some (status_doc "Closed"))
                             (status_layout "Open"))) = None)
    by (vm_compute; reflexivity).
  destruct (dependency_visibility std_env _ _ _ Hrun (RControl 0) df0 Hin Hdf)
    as (df' & Hdf' & _ & Hflag & _).
  exists df'. split; [exact Hdf' |].
  destruct (Hflag (EStr "eval: doc.status == 'Open'") eq_refl)
    as (v & Hev & Hfl & Hvis); [discriminate | discriminate |].
  assert (Hev0 : evaluate_depends_on_value std_env
                   (rebind (Some (status_doc "Closed")) (status_layout "Open"))
                   (EStr "eval: doc.status == 'Open'") = Ok (VBool false))
    by (vm_compute; reflexivity).
  rewrite Hev0 in Hev. injection Hev as <-.
  split; [exact Hfl |]. rewrite Hfrm in Hvis. exact Hvis.
Defined.

(** C4 as stated fails in two ways: a field whose [depends_on] is the
    literal [false] stays shown although the expression evaluates to
    [false], and a field without [depends_on] whose df carries the flag
    of a former pass stays hidden by dependency. *)
Lemma dependency_visibility_counterexample :
  let L' := fst (refresh std_env None stale_layout) in
  snd (refresh std_env None stale_layout) = Ok tt ∧
  (depends_on <$> df_of stale_layout (RControl 0) = Some (Some (EBool false)) ∧
   evaluate_depends_on_value std_env stale_layout (EBool false)
     = Ok (VBool false) ∧
   flag_of L' (RControl 0) = Some false) ∧
  (depends_on <$> df_of stale_layout (RControl 1) = Some None ∧
   flag_of L' (RControl 1) = Some true).
Proof.
  cbv zeta. split; [vm_compute; reflexivity |].
  split; [split; [| split] | split]; vm_compute; reflexivity.
Qed.

(** The example of the spec: the field and the section are shown while
    [status] is Open, hidden once it is Closed, and shown again when it is
    back to Open; the field without [depends_on] is not touched. *)
Lemma status_toggle_example :
  let L1 := fst (refresh std_env None (status_layout "Open")) in
  let L2 := fst (refresh std_env (Some (status_doc "Closed")) L1) in
  let L3 := fst (refresh std_env (Some (status_doc "Open")) L2) in
  (flag_of L1 (RControl 0), flag_of L2 (RControl 0), flag_of L3 (RControl 0))
    = (Some false, Some true, Some false) ∧
  (s_hide_control <$> sections L1 !! 0, s_hide_control <$> sections L2 !! 0,
   s_hide_control <$> sections L3 !! 0) = (Some false, Some true, Some false) ∧
  (flag_of L1 (RControl 1), flag_of L2 (RControl 1), flag_of L3 (RControl 1))
    = (Some false, Some false, Some false).
Proof.
  split; [vm_compute; reflexivity |]. split; vm_compute; reflexivity.
Qed.

(** ** Re-rendering during the dependency pass *)

Lemma log_section_refresh i L :
  log (FormSection.refresh i L) = (log L ++ [EvSectionRefresh i])%list.
Proof. reflexivity. Qed.

Lemma log_field_refresh r L :
  log (field_refresh r L) = (log L ++ refresh_events L r)%list.
Proof.
  destruct r as [i | i | i]; unfold field_refresh, refresh_events; try done.
  unfold Column_refresh. destruct (columns L !! i); [done |].
  by rewrite app_nil_r.
Qed.






Lemma pass_plan_elem env L xs c :
  c ∈ fst (pass_plan env L xs) → ∃ x, x ∈ xs ∧ c ∈ fst (step_plan env L x).
Proof.
  induction xs as [| x xs IH]; simpl; [by intros ?%elem_of_nil |].
  intros Hc. apply seq_plan_elem in Hc as [Hc | [_ Hc]].
  - exists x. split; [by left | done].
  - destruct (IH Hc) as (y & Hy & Hcy). exists y. split; [by right | done].
Qed.






Lemma new_events_app L L' evs :
  log L' = (log L ++ evs)%list → new_events L L' = evs.
Proof. intros H. unfold new_events. by rewrite H, drop_app_length. Qed.

Lemma log_grows_field_refresh r L : log L `prefix_of` log (field_refresh r L).
Proof. rewrite log_field_refresh. by apply prefix_app_r. Qed.

Lemma log_grows_emit e L : log L `prefix_of` log (emit e L).
Proof. by apply prefix_app_r. Qed.

Lemma log_grows_run_prim c L : log L `prefix_of` log (run_prim c L).
Proof.
  destruct c as [t b | name p b | pf name p b]; unfold run_prim.
  - destruct (Bool.eqb (cur_flag L t) b); [done |].
    etrans; [| apply log_grows_field_refresh]. by rewrite log_upd_df.
  - unfold set_df_property. cbv zeta.
    destruct (fields_dict (emit _ L) !! key_of name) as [r |];
      [| apply log_grows_emit].
    destruct (df_of (emit _ L) r) as [df |]; [| apply log_grows_emit].
    destruct (Bool.eqb (get_property p df) b); [apply log_grows_emit |].
    etrans; [| apply log_grows_field_refresh]. rewrite log_upd_df.
    apply log_grows_emit.
  - cbv zeta. unfold set_row_df_property. cbv zeta.
    destruct (fields_dict (emit _ L) !! key_of name) as [r |] eqn:Hr.
    + assert (Hfd : fields_dict (upd_df (set_property p b) r (emit
                (EvSetRowDfProperty pf p b name) L)) !! key_of name = Some r).
      { by destruct r. }
      rewrite Hfd. etrans; [| apply log_grows_field_refresh].
      rewrite log_upd_df. apply log_grows_emit.
    + rewrite Hr. apply log_grows_emit.
Qed.

Lemma log_grows_run_prims cs L : log L `prefix_of` log (run_prims cs L).
Proof.
  revert L. induction cs as [| c cs IH]; intros L; [done |].
  unfold run_prims. cbn [fold_left]. fold (run_prims cs (run_prim c L)).
  etrans; [apply log_grows_run_prim | apply IH].
Qed.









(** ** Idempotence of the refresh *)

Lemma dloc_run_prim c L r k :
  dloc_of (run_prim c L) r k =
    if decide (prim_target L c = Some r ∧ prim_loc c = k)
    then (λ _, prim_value c) <$> dloc_of L r k
    else dloc_of L r k.
Proof.
  unfold dloc_of. rewrite df_of_run_prim.
  destruct (decide (prim_target L c = Some r)) as [Ht | Ht].
  - destruct (decide (prim_loc c = k)) as [Hk | Hk].
    + rewrite decide_True by done. destruct (df_of L r); [| done]. simpl.
      subst k. destruct c as [? ? | ? p ? | ? ? p ?]; simpl; try done;
        by destruct p.
    + rewrite decide_False by tauto. destruct (df_of L r); [| done]. simpl.
      f_equal.
      destruct c as [? ? | ? p ? | ? ? p ?], k as [| q]; simpl in *; try done;
        destruct p, q; simpl; congruence.
  - rewrite decide_False by tauto. done.
Qed.

Lemma prim_target_frame L L' c :
  frame L = frame L' → prim_target L c = prim_target L' c.
Proof.
  intros H. destruct c; simpl; try done; by rewrite (frame_fields_dict L L' H).
Qed.

(** Two runs of the same writes: a flag ends with the same value in both,
    or was written in neither. *)
Lemma run_prims_coupled cs T T' r k :
  frame T = frame T' →
  dloc_of (run_prims cs T) r k = dloc_of (run_prims cs T') r k ∨
  (dloc_of (run_prims cs T) r k = dloc_of T r k ∧
   dloc_of (run_prims cs T') r k = dloc_of T' r k).
Proof.
  revert T T'. induction cs as [| c cs IH]; intros T T' Hfr; [by right |].
  unfold run_prims in *. simpl.
  assert (Hfr1 : frame (run_prim c T) = frame (run_prim c T'))
    by by rewrite !frame_run_prim.
  destruct (IH _ _ Hfr1) as [Heq | [H1 H2]]; [by left |].
  rewrite H1, H2, !dloc_run_prim, <- (prim_target_frame T T' c Hfr).
  destruct (decide _) as [[Ht Hk] | Hno]; [left | by right].
  unfold dloc_of.
  pose proof (frame_static_of T T' r Hfr) as Hs.
  destruct (df_of T r), (df_of T' r); simpl in *; done.
Qed.

Lemma df_ext (d d' : DocField) :
  df_static d = df_static d' →
  (∀ k, get_dloc k d = get_dloc k d') → d = d'.
Proof.
  intros Hs Hk.
  pose proof (Hk DFlag) as H1. pose proof (Hk (DProp P_reqd)) as H2.
  pose proof (Hk (DProp P_read_only)) as H3.
  destruct d, d'. simpl in *. unfold df_static in Hs. simpl in Hs.
  inversion Hs. by subst.
Qed.

Lemma df_of_ext L L' r :
  frame L = frame L' → (∀ k, dloc_of L r k = dloc_of L' r k) →
  df_of L r = df_of L' r.
Proof.
  intros Hfr Hk. pose proof (frame_static_of L L' r Hfr) as Hs.
  unfold dloc_of in Hk.
  destruct (df_of L r) as [d |], (df_of L' r) as [d' |]; simpl in *;
    try done.
  f_equal. apply df_ext; [congruence |]. intros k. specialize (Hk k).
  congruence.
Qed.

(** Running the writes again on their own result changes no df. *)
Lemma run_prims_again cs L M :
  frame M = frame L →
  (∀ r, df_of M r = df_of (run_prims cs L) r) →
  ∀ r, df_of (run_prims cs M) r = df_of (run_prims cs L) r.
Proof.
  intros Hfr Hdf r. apply df_of_ext; [by rewrite !frame_run_prims |].
  intros k. destruct (run_prims_coupled cs M L r k Hfr) as [Heq | [H1 H2]];
    [done |].
  rewrite H1. unfold dloc_of. by rewrite Hdf.
Qed.

(** *** What the dependency pass leaves alone in the sections *)

Lemma sec_rest_emit e L i : sec_rest (emit e L) i = sec_rest L i.
Proof. reflexivity. Qed.

Lemma sec_rest_upd_df g r L i : sec_rest (upd_df g r L) i = sec_rest L i.
Proof.
  destruct r as [j | j | j]; unfold sec_rest, upd_df; lsimpl; try done.
  destruct (decide (j = i)) as [-> | Hne].
  - rewrite list_lookup_alter_eq. by destruct (sections L !! i).
  - by rewrite list_lookup_alter_ne.
Qed.

Lemma sec_rest_section_refresh j L i :
  sec_rest (FormSection.refresh j L) i = sec_rest L i.
Proof.
  unfold sec_rest. rewrite sections_section_refresh.
  destruct (decide (j = i)) as [-> | Hne].
  - rewrite list_lookup_alter_eq. by destruct (sections L !! i).
  - by rewrite list_lookup_alter_ne.
Qed.

Lemma sec_rest_field_refresh r L i :
  sec_rest (field_refresh r L) i = sec_rest L i.
Proof.
  destruct r as [j | j | j]; unfold field_refresh;
    [done | apply sec_rest_section_refresh |].
  unfold Column_refresh. destruct (columns L !! j); [| done].
  apply sec_rest_section_refresh.
Qed.

Lemma sec_rest_run_prim c L i : sec_rest (run_prim c L) i = sec_rest L i.
Proof.
  destruct c as [r b | name p b | pf name p b]; unfold run_prim.
  - destruct (Bool.eqb (cur_flag L r) b); [done |].
    by rewrite sec_rest_field_refresh, sec_rest_upd_df.
  - unfold set_df_property. lsimpl.
    destruct (fields_dict L !! key_of name) as [t |]; [| done].
    destruct (df_of (emit _ L) t) as [df |]; [| done].
    destruct (Bool.eqb (get_property p df) b); [done |].
    by rewrite sec_rest_field_refresh, sec_rest_upd_df.
  - cbv zeta.
    assert (Hrow : sec_rest (set_row_df_property pf p b name L) i
                   = sec_rest L i).
    { unfold set_row_df_property. lsimpl.
      destruct (fields_dict L !! key_of name); [| done].
      by rewrite sec_rest_upd_df. }
    destruct (fields_dict _ !! key_of name); [| done].
    by rewrite sec_rest_field_refresh.
Qed.

Lemma sec_rest_run_prims cs L i : sec_rest (run_prims cs L) i = sec_rest L i.
Proof.
  revert L. induction cs as [| c cs IH]; intros L; [done |].
  unfold run_prims in *. simpl. by rewrite IH, sec_rest_run_prim.
Qed.

Lemma sec_rest_refresh_dependency env L L' r i :
  refresh_dependency env L = (L', r) → sec_rest L' i = sec_rest L i.
Proof.
  rewrite refresh_dependency_plan. destruct (negb (has_dep L)).
  - by intros [= <- _].
  - cbv zeta. destruct (snd (pass_plan env L (reverse (fields_list L))));
      intros [= <- _]; rewrite ?sec_rest_emit; apply sec_rest_run_prims.
Qed.

(** *** Layouts with the same frame, dfs and section classes *)

Lemma control_ext (c c' : Control) :
  control_static c = control_static c' → c_df c = c_df c' → c = c'.
Proof.
  destruct c, c'. unfold control_static. simpl. intros H ->.
  by inversion H.
Qed.

Lemma column_ext (c c' : ColumnNode) :
  column_static c = column_static c' → col_df c = col_df c' → c = c'.
Proof.
  destruct c, c'. unfold column_static. simpl. intros H ->.
  by inversion H.
Qed.

Lemma section_ext (s s' : SectionNode) :
  section_static s = section_static s' → s_df s = s_df s' →
  s_hide_control s = s_hide_control s' → s_body_hide s = s_body_hide s' →
  s_class s = s_class s' → s = s'.
Proof.
  destruct s, s'. unfold section_static. simpl.
  intros H -> -> -> ->. by inversion H.
Qed.

Lemma same_state_ext L L' :
  frame L = frame L' →
  (∀ r, df_of L r = df_of L' r) →
  (∀ i, sec_hide L i = sec_hide L' i) →
  (∀ i, sec_rest L i = sec_rest L' i) →
  same_state L L'.
Proof.
  intros Hfr Hdf Hhide Hrest.
  assert (Hc : controls L = controls L').
  { apply list_eq. intros i.
    pose proof (f_equal (λ X, controls X !! i) Hfr) as Hs.
    unfold frame in Hs. lsimpl_in Hs. rewrite !list_lookup_fmap in Hs.
    specialize (Hdf (RControl i)). unfold df_of in Hdf.
    destruct (controls L !! i) as [c |], (controls L' !! i) as [c' |];
      simpl in *; try done.
    f_equal. apply control_ext; congruence. }
  assert (Hcol : columns L = columns L').
  { apply list_eq. intros i.
    pose proof (f_equal (λ X, columns X !! i) Hfr) as Hs.
    unfold frame in Hs. lsimpl_in Hs. rewrite !list_lookup_fmap in Hs.
    specialize (Hdf (RColumn i)). unfold df_of in Hdf.
    destruct (columns L !! i) as [c |], (columns L' !! i) as [c' |];
      simpl in *; try done.
    f_equal. apply column_ext; congruence. }
  assert (Hsec : sections L = sections L').
  { apply list_eq. intros i.
    pose proof (f_equal (λ X, sections X !! i) Hfr) as Hs.
    unfold frame in Hs. lsimpl_in Hs. rewrite !list_lookup_fmap in Hs.
    specialize (Hdf (RSection i)). unfold df_of in Hdf.
    specialize (Hhide i). specialize (Hrest i).
    unfold sec_hide, sec_rest in *.
    destruct (sections L !! i) as [s |], (sections L' !! i) as [s' |];
      simpl in *; try done.
    f_equal. apply section_ext; congruence. }
  unfold same_state. destruct L, L'. unfold frame in Hfr. simpl in *.
  inversion Hfr. by subst.
Qed.

Lemma same_state_parts L L' :
  same_state L L' ↔
  outside_sections L = outside_sections L' ∧ sections L = sections L'.
Proof.
  unfold same_state, outside_sections. split.
  - intros H. split; [by rewrite H |]. exact (f_equal sections H).
  - intros [Ho Hs]. destruct L, L'. simpl in *. inversion Ho. by subst.
Qed.

(** *** The attach phase on a consistent layout *)

Lemma section_refresh_consistent i L :
  hide_consistent L i → same_state (FormSection.refresh i L) L.
Proof.
  intros Hc. apply same_state_parts. split; [done |].
  rewrite sections_section_refresh. apply list_eq. intros j.
  destruct (decide (i = j)) as [-> | Hne].
  - rewrite list_lookup_alter_eq.
    destruct (sections L !! j) as [s |] eqn:Hs; [| done]. simpl. f_equal.
    rewrite <- (Hc s Hs). by destruct s.
  - by rewrite list_lookup_alter_ne.
Qed.

Lemma same_state_emit e L : same_state (emit e L) L.
Proof. reflexivity. Qed.

Lemma same_state_trans L1 L2 L3 :
  same_state L1 L2 → same_state L2 L3 → same_state L1 L3.
Proof. unfold same_state. congruence. Qed.

Lemma same_state_sym L1 L2 : same_state L1 L2 → same_state L2 L1.
Proof. unfold same_state. congruence. Qed.

Lemma same_state_cons L L' :
  same_state L L' → sections_consistent L → sections_consistent L'.
Proof.
  intros H Hc i s Hs. apply same_state_parts in H as [Ho Hsec].
  rewrite <- (f_equal frm Ho : frm L = frm L'). apply (Hc i). by rewrite Hsec.
Qed.

Lemma field_refresh_consistent r L :
  sections_consistent L → same_state (field_refresh r L) L.
Proof.
  intros Hc. destruct r as [i | i | i]; unfold field_refresh.
  - apply same_state_emit.
  - by apply section_refresh_consistent.
  - unfold Column_refresh. destruct (columns L !! i); [| done].
    by apply section_refresh_consistent.
Qed.

Lemma refresh_all_consistent xs L :
  sections_consistent L →
  same_state (fold_left (λ L' r, field_refresh r L') xs L) L.
Proof.
  revert L. induction xs as [| x xs IH]; intros L Hc; [done |].
  simpl. pose proof (field_refresh_consistent x L Hc) as Hx.
  eapply same_state_trans; [| exact Hx]. apply IH.
  by apply (same_state_cons L); [apply same_state_sym |].
Qed.

Lemma attach_consistent L :
  sections_consistent L → same_state (attach_doc_and_docfields true L) L.
Proof. intros Hc. by apply refresh_all_consistent. Qed.

(** *** [refresh_sections] *)

Lemma frame_refresh_sections L : frame (refresh_sections L) = frame L.
Proof.
  assert (Heq : section_static <$> sections (refresh_sections L)
                = section_static <$> sections L).
  { apply list_eq. intros i.
    rewrite !list_lookup_fmap, sections_refresh_sections.
    destruct (sections L !! i) as [s |]; [| done]. simpl. f_equal.
    destruct (s_hide_control s); [done |].
    by destruct (has_shown_control L i). }
  unfold frame. rewrite Heq. by destruct L.
Qed.

Lemma has_shown_control_parts L L' i :
  controls L = controls L' → has_shown_control L i = has_shown_control L' i.
Proof. intros H. unfold has_shown_control. by rewrite H. Qed.

Lemma refresh_sections_same L L' :
  same_state L L' → same_state (refresh_sections L) (refresh_sections L').
Proof.
  intros H. apply same_state_parts in H as [Ho Hs].
  apply same_state_parts. split; [done |].
  unfold refresh_sections. lsimpl. rewrite Hs. apply imap_ext.
  intros i s _.
  by rewrite (has_shown_control_parts L L' i (f_equal controls Ho)).
Qed.

Lemma refresh_sections_marked L :
  sections_marked L → same_state (refresh_sections L) L.
Proof.
  intros Hm. apply same_state_parts. split; [done |].
  apply list_eq. intros i. rewrite sections_refresh_sections.
  destruct (sections L !! i) as [s |] eqn:Hs; [| done]. simpl. f_equal.
  destruct (s_hide_control s) eqn:Hh; [done |].
  pose proof (Hm i s Hs Hh) as Hc.
  destruct (has_shown_control L i); rewrite <- Hc; by destruct s.
Qed.

Lemma marked_refresh_sections L : sections_marked (refresh_sections L).
Proof.
  intros i s. rewrite sections_refresh_sections.
  destruct (sections L !! i) as [s0 |]; [| done]. simpl. intros [= <-].
  assert (Hh : has_shown_control (refresh_sections L) i = has_shown_control L i)
    by reflexivity.
  rewrite Hh. destruct (s_hide_control s0) eqn:Hs0.
  - by rewrite Hs0.
  - destruct (has_shown_control L i); simpl; done.
Qed.

(** *** The collapse phase *)

Lemma collapse_step_decision env i L :
  collapse_step env i L =
    match collapse_decision env L i with
    | None => (L, Ok tt)
    | Some (Raise ex) => (L, Raise ex)
    | Some (Ok h) => (FormSection.collapse i (Some h) L, Ok tt)
    end.
Proof.
  unfold collapse_step, collapse_decision.
  destruct (sections L !! i) as [sec |]; [| done].
  destruct (collapsible (s_df sec)); [| done].
  destruct (declarative_collapse env L (s_df sec)) as [[|] | ex]; try done.
  by destruct (FormSection.has_missing_mandatory L sec).
Qed.

Lemma collapse_decision_frame env L M i :
  outside_sections M = outside_sections L →
  length (sections M) = length (sections L) →
  (∀ s, sections L !! i = Some s →
        ∃ s', sections M !! i = Some s' ∧ same_but_body_hide s s') →
  collapse_decision env M i = collapse_decision env L i.
Proof.
  intros Ho Hl Hs. unfold collapse_decision.
  destruct (sections L !! i) as [s |] eqn:Hi.
  - destruct (Hs s eq_refl) as (s' & -> & Hb).
    pose proof (f_equal s_df Hb) as Hdf. simpl in Hdf. rewrite <- Hdf.
    destruct (collapsible (s_df s)); [| done].
    rewrite (declarative_collapse_outside_sections env M L _ Ho).
    rewrite (has_missing_mandatory_outside_sections M L _ Ho).
    unfold FormSection.has_missing_mandatory, FormSection.field_dfs.
    pose proof (f_equal s_fields_list Hb) as Hfl. simpl in Hfl.
    by rewrite <- Hfl.
  - apply lookup_ge_None in Hi. rewrite <- Hl in Hi.
    apply lookup_ge_None in Hi. by rewrite Hi.
Qed.

Lemma collapse_loop_untouched env js L L' r i :
  for_each (collapse_step env) js L = (L', r) → i ∉ js →
  sections L' !! i = sections L !! i.
Proof.
  revert L. induction js as [| j js IH]; intros L H Hi.
  - by inversion H.
  - simpl in H. unfold bind in H.
    destruct (collapse_step env j L) as [L1 r1] eqn:Hstep.
    destruct (collapse_step_frame _ _ _ _ _ Hstep) as (_ & _ & Hne & _).
    apply not_elem_of_cons in Hi as [Hij Hi].
    destruct r1 as [[] | ex].
    + rewrite (IH _ H Hi). by apply Hne.
    + inversion H; subst. by apply Hne.
Qed.

Lemma collapse_written j h L :
  (∀ s, sections L !! j = Some s → s_head s = true → s_body_hide s = h) →
  same_state (FormSection.collapse j (Some h) L) L.
Proof.
  intros Hb. apply same_state_parts. split; [apply collapse_frame |].
  rewrite collapse_sections.
  destruct (sections L !! j) as [s |] eqn:Hs; [| done].
  destruct (s_head s) eqn:Hh; [| done].
  apply list_eq. intros i. destruct (decide (j = i)) as [-> | Hne].
  - rewrite list_lookup_alter_eq, Hs. simpl. f_equal.
    rewrite <- (Hb s eq_refl Hh). by destruct s.
  - by rewrite list_lookup_alter_ne.
Qed.

Lemma collapse_body j h L s :
  sections (FormSection.collapse j (Some h) L) !! j = Some s →
  s_head s = true → s_body_hide s = h.
Proof.
  rewrite collapse_sections.
  destruct (sections L !! j) as [s0 |] eqn:Hs; [| by rewrite Hs].
  destruct (s_head s0) eqn:Hh.
  - rewrite list_lookup_alter_eq, Hs. simpl. by intros [= <-].
  - rewrite Hs. intros [= <-]. congruence.
Qed.

(** The collapse phase, run again on its own result, changes nothing. *)
Lemma collapse_loop_again env js L L' r M :
  NoDup js →
  for_each (collapse_step env) js L = (L', r) →
  same_state M L' →
  ∃ M', for_each (collapse_step env) js M = (M', r) ∧ same_state M' M.
Proof.
  intros Hnd. revert L M. induction Hnd as [| j js Hj Hnd IH]; intros L M H HM.
  { inversion H; subst. by exists M. }
  pose proof H as Hloop. simpl in H. unfold bind in H.
  destruct (collapse_step env j L) as [L1 r1] eqn:Hstep.
  destruct (collapse_loop_frame _ _ _ _ _ Hloop) as (Ho & Hl & Hs).
  apply same_state_parts in HM as [HMo HMs].
  assert (Hdec : collapse_decision env M j = collapse_decision env L j).
  { apply collapse_decision_frame; [congruence | by rewrite HMs |].
    intros s Hi. rewrite HMs. by apply Hs. }
  simpl. unfold bind. rewrite collapse_step_decision, Hdec.
  rewrite collapse_step_decision in Hstep.
  destruct (collapse_decision env L j) as [[h | ex] |].
  - inversion Hstep; subst L1 r1. clear Hstep.
    assert (Hsame : same_state (FormSection.collapse j (Some h) M) M).
    { apply collapse_written. intros s Hsj Hh. rewrite HMs in Hsj.
      rewrite (collapse_loop_untouched _ _ _ _ _ _ H Hj) in Hsj.
      by eapply collapse_body. }
    destruct (IH _ (FormSection.collapse j (Some h) M) H) as (M' & HM' & HMM).
    { eapply same_state_trans; [exact Hsame |].
      by apply same_state_parts. }
    exists M'. split; [done |]. by eapply same_state_trans.
  - inversion Hstep; subst L1 r1. inversion H; subst. by exists M.
  - inversion Hstep; subst L1 r1.
    destruct (IH _ M H) as (M' & HM' & HMM); [by apply same_state_parts |].
    by exists M'.
Qed.

(** *** Putting the phases together *)

Lemma frame_parts L L' :
  outside_sections L = outside_sections L' →
  section_static <$> sections L = section_static <$> sections L' →
  frame L = frame L'.
Proof.
  intros Ho Hs. unfold frame. rewrite Hs.
  destruct L, L'. unfold outside_sections in Ho. simpl in *.
  inversion Ho. by subst.
Qed.

Lemma frame_collapse env L L' r :
  refresh_section_collapse env L = (L', r) → frame L' = frame L.
Proof.
  intros H. destruct (collapse_loop_frame _ _ _ _ _ H) as (Ho & Hl & Hs).
  apply frame_parts; [done |]. apply list_eq. intros i.
  rewrite !list_lookup_fmap.
  destruct (sections L !! i) as [s |] eqn:Hi.
  - destruct (Hs i s Hi) as (s' & -> & Hb). simpl. f_equal.
    unfold same_but_body_hide in Hb. destruct s, s'. simpl in *.
    inversion Hb. by subst.
  - apply lookup_ge_None in Hi. rewrite <- Hl in Hi.
    apply lookup_ge_None in Hi. by rewrite Hi.
Qed.

Lemma frame_tail env La Lc L' r :
  match frm La with
  | Some _ => refresh_section_collapse env (refresh_sections Lc)
  | None => (refresh_sections Lc, Ok tt)
  end = (L', r) →
  frame L' = frame Lc.
Proof.
  destruct (frm La); intros H.
  - by rewrite (frame_collapse _ _ _ _ H), frame_refresh_sections.
  - inversion H; subst. apply frame_refresh_sections.
Qed.

Lemma existsb_pointwise {A} (f g : A → bool) (l : list A) :
  (∀ x, f x = g x) → existsb f l = existsb g l.
Proof.
  intros H. induction l as [| a l IH]; [done |]. simpl. by rewrite H, IH.
Qed.

Lemma has_dep_frame L L' : frame L = frame L' → has_dep L = has_dep L'.
Proof.
  intros H. unfold has_dep. rewrite (frame_fields_list L L' H).
  apply existsb_pointwise. intros r.
  pose proof (frame_static_of L L' r H) as Hs.
  destruct (df_of L r) as [d |], (df_of L' r) as [d' |]; simpl in *;
    try done.
  assert (Hst : df_static d = df_static d') by congruence.
  clear Hs. rename Hst into Hs. unfold df_has_dep.
  by rewrite (f_equal depends_on Hs : depends_on d = depends_on d'),
    (f_equal mandatory_depends_on Hs
       : mandatory_depends_on d = mandatory_depends_on d'),
    (f_equal read_only_depends_on Hs
       : read_only_depends_on d = read_only_depends_on d').
Qed.

(** The dependency pass, run again on a layout that has the dfs the pass
    produced. *)
Lemma dependency_again env La Lc rc Ma :
  refresh_dependency env La = (Lc, rc) →
  frame Ma = frame La →
  (∀ r, df_of Ma r = df_of Lc r) →
  ∃ Mc, refresh_dependency env Ma = (Mc, rc) ∧
        (∀ r, df_of Mc r = df_of Lc r).
Proof.
  rewrite !refresh_dependency_plan. intros H Hfr Hdf.
  rewrite (has_dep_frame Ma La Hfr), (frame_fields_list Ma La Hfr),
    (pass_plan_frame env Ma La _ Hfr).
  destruct (negb (has_dep La)).
  { inversion H; subst. by exists Ma. }
  cbv zeta in *.
  set (cs := fst (pass_plan env La (reverse (fields_list La)))) in *.
  destruct (snd (pass_plan env La (reverse (fields_list La))));
    inversion H; subst Lc rc; eexists; (split; [done |]); intros r.
  - apply run_prims_again; [done |]. intros r'. by rewrite Hdf.
  - rewrite !df_of_emit. apply run_prims_again; [done |]. intros r'.
    by rewrite Hdf, df_of_emit.
Qed.

Lemma sec_hide_consistent L L' i :
  sections_consistent L → sections_consistent L' →
  frame L = frame L' → (∀ r, df_of L r = df_of L' r) →
  sec_hide L i = sec_hide L' i.
Proof.
  intros Hc Hc' Hfr Hdf. specialize (Hdf (RSection i)).
  unfold sec_hide, df_of in *.
  pose proof (Hc i) as Hi. pose proof (Hc' i) as Hi'.
  unfold hide_consistent in *. rewrite <- (frame_frm L L' Hfr) in Hi'.
  destruct (sections L !! i) as [s |], (sections L' !! i) as [s' |];
    simpl in *; try done.
  rewrite (Hi s eq_refl), (Hi' s' eq_refl). congruence.
Qed.

Lemma rebind_consistent nd L :
  sections_consistent L → sections_consistent (rebind nd L).
Proof.
  intros Hc. unfold rebind. destruct nd; [| done].
  intros i s Hs. by apply (Hc i).
Qed.

Lemma same_state_frame L L' : same_state L L' → frame L = frame L'.
Proof.
  intros H. unfold same_state in H. unfold frame.
  destruct L, L'. simpl in *. inversion H. by subst.
Qed.

Lemma same_state_df_of L L' r : same_state L L' → df_of L r = df_of L' r.
Proof.
  intros H. apply same_state_parts in H as [Ho Hs].
  destruct r; unfold df_of;
    [by rewrite (f_equal controls Ho : controls L = controls L') |
     by rewrite Hs |
     by rewrite (f_equal columns Ho : columns L = columns L')].
Qed.

Lemma marked_collapse env L L' r :
  refresh_section_collapse env L = (L', r) →
  sections_marked L → sections_marked L'.
Proof.
  intros H Hm i s' Hs' Hh.
  destruct (collapse_loop_frame _ _ _ _ _ H) as (Ho & Hl & Hs).
  rewrite (has_shown_control_parts L' L i (f_equal controls Ho)).
  destruct (sections L !! i) as [s |] eqn:Hi.
  - destruct (Hs i s Hi) as (s2 & Hi2 & Hb).
    assert (s2 = s') by congruence. subst s2.
    rewrite <- (f_equal s_class Hb : s_class s = s_class s').
    apply (Hm i s Hi).
    by rewrite (f_equal s_hide_control Hb
                  : s_hide_control s = s_hide_control s').
  - apply lookup_ge_None in Hi. rewrite <- Hl in Hi.
    apply lookup_ge_None in Hi. congruence.
Qed.

Lemma attach_cons L :
  sections_consistent L → sections_consistent (attach_doc_and_docfields true L).
Proof.
  intros Hc. apply (same_state_cons L); [| done].
  apply same_state_sym. by apply attach_consistent.
Qed.

(** A refresh keeps the sections consistent. *)
Lemma refresh_consistent env nd L L1 r1 :
  sections_consistent L → refresh env nd L = (L1, r1) →
  sections_consistent L1.
Proof.
  intros Hc. rewrite refresh_unfold. cbv zeta.
  destruct (refresh_dependency env _) as [Lc rc] eqn:Hdep.
  assert (HcC : sections_consistent Lc).
  { intros i. eapply refresh_dependency_cons; [exact Hdep |].
    by apply attach_cons, rebind_consistent. }
  destruct rc as [[] | ex].
  - intros Htail i. eapply same_dfs_cons; [by eapply refresh_tail | apply HcC].
  - by intros [= <- _].
Qed.

(** C2, as the code has it.  On a layout whose sections carry the
    [hide-control] class their dfs ask for (as every section does once
    [Section.init] has refreshed it), a refresh that follows a refresh
    with the same document ends the same way and changes nothing but the
    event log: every df, hence every (visible, required, read_only)
    tuple, and the collapse state of every section are those the first
    refresh left. *)
Theorem refresh_idempotent (env : Env) (new_doc : option Doc)
    (L L1 : Layout) (r1 : result unit) :
  sections_consistent L →
  refresh env new_doc L = (L1, r1) →
  ∃ L2, refresh env None L1 = (L2, r1) ∧ same_state L2 L1 ∧
    (∀ r, df_of L2 r = df_of L1 r) ∧
    (∀ i, FormSection.is_collapsed <$> sections L2 !! i
          = FormSection.is_collapsed <$> sections L1 !! i).
Proof.
  intros Hc H.
  assert (Hc1 : sections_consistent L1) by by eapply refresh_consistent.
  assert (Hgoal : ∃ L2, refresh env None L1 = (L2, r1) ∧ same_state L2 L1).
  2:{ destruct Hgoal as (L2 & Hrun & Hsame). exists L2.
      split; [done |]. split; [done |]. split.
      - intros r. by apply same_state_df_of.
      - intros i. apply same_state_parts in Hsame as [_ Hs]. by rewrite Hs. }
  rewrite refresh_unfold in H. cbv zeta in H.
  set (La := attach_doc_and_docfields true (rebind new_doc L)) in *.
  destruct (refresh_dependency env La) as [Lc rc] eqn:Hdep.
  assert (Hfc : frame Lc = frame La) by by eapply refresh_dependency_frame.
  (* what the first refresh left of the dependency pass *)
  assert (Hfin : frame L1 = frame Lc ∧ ∀ r, df_of L1 r = df_of Lc r).
  { destruct rc as [[] | ex].
    - split; [by eapply frame_tail |]. intros r.
      eapply same_dfs_df_of. by eapply refresh_tail.
    - by inversion H; subst. }
  destruct Hfin as [Hf1 Hdf1].
  (* the second refresh *)
  rewrite refresh_unfold. cbv zeta.
  change (rebind None L1) with L1.
  set (Ma := attach_doc_and_docfields true L1).
  assert (HMa : same_state Ma L1) by by apply attach_consistent.
  assert (HfMa : frame Ma = frame La)
    by (rewrite (same_state_frame _ _ HMa); congruence).
  destruct (dependency_again env La Lc rc Ma Hdep HfMa) as (Mc & HMdep & HMdf).
  { intros r. by rewrite (same_state_df_of _ _ r HMa). }
  rewrite HMdep.
  assert (HMc : same_state Mc L1).
  { apply same_state_ext.
    - rewrite (refresh_dependency_frame _ _ _ _ HMdep).
      by apply same_state_frame.
    - intros r. by rewrite HMdf, Hdf1.
    - intros i. apply sec_hide_consistent; [| done | |].
      + intros j. eapply refresh_dependency_cons; [exact HMdep |].
        by apply attach_cons.
      + rewrite (refresh_dependency_frame _ _ _ _ HMdep).
        by apply same_state_frame.
      + intros r. by rewrite HMdf, Hdf1.
    - intros i. rewrite (sec_rest_refresh_dependency _ _ _ _ i HMdep).
      apply same_state_parts in HMa as [_ Hs]. unfold sec_rest.
      by rewrite Hs. }
  destruct rc as [[] | ex].
  2:{ inversion H; subst. by exists Mc. }
  assert (Hfrm : frm Ma = frm La) by exact (frame_frm Ma La HfMa).
  rewrite Hfrm.
  pose proof (refresh_sections_same _ _ HMc) as Hrs.
  destruct (frm La) eqn:HfrmLa.
  - (* with a form: the collapse phase *)
    assert (Hmark : sections_marked L1).
    { eapply marked_collapse; [exact H | apply marked_refresh_sections]. }
    assert (HMd : same_state (refresh_sections Mc) L1).
    { eapply same_state_trans; [exact Hrs |].
      by apply refresh_sections_marked. }
    destruct (collapse_loop_frame _ _ _ _ _ H) as (_ & Hlen & _).
    assert (Hlen' : length (sections (refresh_sections Mc))
                    = length (sections (refresh_sections Lc))).
    { apply same_state_parts in HMd as [_ Hs]. by rewrite Hs. }
    unfold refresh_section_collapse in *. rewrite Hlen'.
    destruct (collapse_loop_again env _ _ _ _ (refresh_sections Mc)
                (NoDup_seq 0 _) H HMd) as (M' & HM' & HMM).
    exists M'. split; [done |]. by eapply same_state_trans.
  - (* without a form *)
    inversion H; subst L1 r1. eexists. split; [done |].
    eapply same_state_trans; [exact Hrs |].
    apply refresh_sections_marked, marked_refresh_sections.
Qed.

(** *** Built layouts have consistent sections *)

Lemma consistent_same_sections L L' :
  frm L' = frm L → sections L' = sections L →
  sections_consistent L → sections_consistent L'.
Proof.
  intros Hf Hs Hc i s Hi. rewrite Hf. apply (Hc i). by rewrite <- Hs.
Qed.

Lemma new_section_consistent df L :
  sections_consistent L → sections_consistent (fst (new_section df L)).
Proof.
  intros Hc.
  assert (Hnew : ∀ L0 sec, frm L0 = frm L → sections L0 = sections L →
            sections_consistent
              (FormSection.refresh (length (sections L0))
                 (set_sections (sections L0 ++ [sec]) L0))).
  { intros L0 sec Hf Hs i. apply cons_section_refresh.
    destruct (decide (i = length (sections L0))) as [-> | Hne]; [by right |].
    left. intros s. lsimpl. change (frm (set_sections _ L0)) with (frm L0).
    rewrite Hf. intros Hi.
    assert (Hlt : i < length (sections L0)).
    { apply lookup_lt_Some in Hi. rewrite length_app in Hi. simpl in Hi. lia. }
    rewrite lookup_app_l in Hi by done. apply (Hc i). by rewrite <- Hs. }
  unfold new_section. destruct (page L); cbv zeta; cbn [fst].
  - by apply (Hnew L).
  - by apply (Hnew (set_page (Some (pages L)) (set_pages (S (pages L)) L))).
Qed.

Lemma make_section_consistent df L :
  sections_consistent L → sections_consistent (make_section df L).
Proof.
  intros Hc. pose proof (new_section_consistent df L Hc) as Hn.
  unfold make_section. destruct (new_section df L) as [L1 i]. simpl in Hn.
  apply (consistent_same_sections L1); [| | done]; by destruct df.
Qed.

Lemma make_column_consistent df L L' r :
  make_column df L = (L', r) →
  sections_consistent L → sections_consistent L'.
Proof.
  intros H Hc. pose proof (make_column_sections _ _ _ _ H) as Hs.
  apply (consistent_same_sections L); [| done | done].
  unfold make_column in H. destruct (section L); [| by inversion H].
  destruct df as [d |]; [destruct (name_set (fieldname d)) |];
    by inversion H.
Qed.

Lemma place_field_consistent df L L' r :
  place_field df L = (L', r) →
  sections_consistent L → sections_consistent L'.
Proof.
  unfold place_field. intros H Hc.
  destruct (section L) as [sid |], (column L); inversion H; subst; try done.
  intros i s. lsimpl. change (frm (set_sections _ _)) with (frm L).
  destruct (decide (sid = i)) as [-> | Hne].
  - rewrite list_lookup_alter_eq.
    destruct (sections L !! i) as [s0 |] eqn:Hi; [| done]. simpl.
    intros [= <-]. simpl. by apply (Hc i).
  - rewrite list_lookup_alter_ne by done. apply (Hc i).
Qed.

Lemma make_field_consistent df L L' r :
  make_field df L = (L', r) →
  sections_consistent L → sections_consistent L'.
Proof.
  unfold make_field, bind. intros H Hc.
  assert (H1 : ∀ L1 r1, ensure_section L = (L1, r1) → sections_consistent L1).
  { unfold ensure_section. intros L1 r1.
    destruct (section L); intros [= <- _];
      [done | by apply make_section_consistent]. }
  destruct (ensure_section L) as [L1 [[] | e]] eqn:He1.
  - assert (H2 : ∀ L2 r2, ensure_column L1 = (L2, r2) →
              sections_consistent L2).
    { unfold ensure_column. intros L2 r2. destruct (column L1).
      - intros [= <- _]. by eapply H1.
      - intros Hm. eapply make_column_consistent; [exact Hm |]. by eapply H1. }
    destruct (ensure_column L1) as [L2 [[] | e]] eqn:He2.
    + eapply place_field_consistent; [exact H |]. by eapply H2.
    + inversion H; subst. by eapply H2.
  - inversion H; subst. by eapply H1.
Qed.

Lemma render_one_consistent df L L' r :
  render_one df L = (L', r) →
  sections_consistent L → sections_consistent L'.
Proof.
  unfold render_one. intros H Hc.
  destruct (fieldtype df =? "Fold")%string.
  { inversion H; subst. by apply (consistent_same_sections L). }
  destruct (fieldtype df =? "Section Break")%string.
  { inversion H; subst. by apply make_section_consistent. }
  destruct (fieldtype df =? "Column Break")%string.
  { by eapply make_column_consistent. }
  by eapply make_field_consistent.
Qed.

Lemma render_loop_consistent fs L L' r :
  for_each render_one fs L = (L', r) →
  sections_consistent L → sections_consistent L'.
Proof.
  revert L. induction fs as [| df fs IH]; intros L H Hc.
  - by inversion H; subst.
  - simpl in H. unfold bind in H.
    destruct (render_one df L) as [L1 [[] | e]] eqn:H1.
    + eapply IH; [done |]. by eapply render_one_consistent.
    + inversion H; subst. by eapply render_one_consistent.
Qed.

(** [render] makes consistent sections: each is refreshed when it is
    made. *)
Lemma render_consistent nf L L' r :
  render nf L = (L', r) →
  sections_consistent L → sections_consistent L'.
Proof.
  unfold render. intros H Hc. eapply render_loop_consistent; [exact H |].
  set (L0 := set_column None (set_section None L)).
  assert (Hc0 : sections_consistent L0) by by apply (consistent_same_sections L).
  set (L1 := if with_dashboard L0 then setup_dashboard_section L0 else L0).
  assert (Hc1 : sections_consistent L1).
  { unfold L1, setup_dashboard_section.
    destruct (with_dashboard L0); [| done].
    destruct (no_opening_section L0); [| done].
    by apply (consistent_same_sections L0). }
  destruct (no_opening_section L1); [| done].
  by apply make_section_consistent.
Qed.

Lemma init_consistent fs b fm d : sections_consistent (init fs b fm d).
Proof. intros i s Hs. unfold init in Hs. lsimpl_in Hs. by rewrite lookup_nil in Hs. Qed.

(** A click on the head of a section keeps the sections consistent. *)
Lemma collapse_consistent i h L :
  sections_consistent L → sections_consistent (FormSection.collapse i h L).
Proof.
  intros Hc j s Hs.
  assert (Hf : frm (FormSection.collapse i h L) = frm L)
    by exact (f_equal frm (collapse_frame i h L)).
  rewrite Hf.
  unfold FormSection.collapse in Hs.
  destruct (sections L !! i) as [s0 |] eqn:Hi; [| by apply (Hc j)].
  destruct (s_head s0); [| by apply (Hc j)]. simpl in Hs.
  match type of Hs with
  | sections (fold_left _ ?l ?L0) !! _ = _ =>
      destruct (emit_all_frame l (λ j, EvRefresh (RControl j)) L0) as [_ Hsec];
      rewrite Hsec in Hs
  end.
  lsimpl_in Hs. destruct (decide (i = j)) as [-> | Hne].
  - rewrite list_lookup_alter_eq, Hi in Hs. simpl in Hs.
    injection Hs as <-. simpl. by apply (Hc j).
  - rewrite list_lookup_alter_ne in Hs by done. by apply (Hc j).
Qed.

Lemma manual_layout_consistent : sections_consistent manual_layout.
Proof.
  unfold manual_layout.
  destruct (render None _) as [L r] eqn:H. simpl.
  eapply render_consistent; [exact H | apply init_consistent].
Qed.

Lemma refresh_idempotent_witness :
  ∃ L2, refresh std_env None (fst (refresh std_env None manual_layout))
        = (L2, Ok tt) ∧
        same_state L2 (fst (refresh std_env None manual_layout)).
Proof.
  assert (Hrun : refresh std_env None manual_layout
                 = (fst (refresh std_env None manual_layout), Ok tt))
    by (vm_compute; reflexivity).
  destruct (refresh_idempotent std_env None manual_layout _ _
              manual_layout_consistent Hrun) as (L2 & H2 & Hsame & _).
  exists L2. split; [exact H2 | exact Hsame].
Defined.

(** C2 as stated fails on its last part: a section that its condition
    keeps open, once collapsed by a click on its head, is expanded again
    by the next refresh although the document has not changed. *)
Lemma refresh_idempotent_counterexample :
  let L1 := fst (refresh std_env None manual_layout) in
  let clicked := FormSection.collapse 0 None L1 in
  let L2 := fst (refresh std_env None clicked) in
  FormSection.is_collapsed <$> sections L1 !! 0 = Some false ∧
  FormSection.is_collapsed <$> sections clicked !! 0 = Some true ∧
  doc clicked = doc L1 ∧
  snd (refresh std_env None clicked) = Ok tt ∧
  FormSection.is_collapsed <$> sections L2 !! 0 = Some false.
Proof.
  cbv zeta.
  split; [vm_compute; reflexivity |].
  split; [vm_compute; reflexivity |].
  split; [vm_compute; reflexivity |].
  split; vm_compute; reflexivity.
Qed.

(** * Further properties of the layout *)

(** ** The builder *)

Lemma kinds_exclusive df :
  (is_fold df = true → is_section_break df = false ∧ is_column_break df = false) ∧
  (is_section_break df = true → is_fold df = false ∧ is_column_break df = false) ∧
  (is_column_break df = true → is_fold df = false ∧ is_section_break df = false).
Proof.
  unfold is_fold, is_section_break, is_column_break.
  split; [| split]; intros H; apply String.eqb_eq in H; by rewrite H.
Qed.

Lemma render_one_fold df : is_fold df = true → render_one df = modify make_page.
Proof. unfold is_fold, render_one. by intros ->. Qed.

Lemma kind_cases df :
  is_fold df = true ∨ is_section_break df = true ∨ is_column_break df = true
  ∨ is_field df = true.
Proof.
  unfold is_field. fold (is_fold df).
  destruct (is_fold df); [by left |].
  destruct (is_section_break df); [by right; left |].
  destruct (is_column_break df); [by right; right; left |].
  by right; right; right.
Qed.

Lemma section_make_section df L :
  section (make_section df L) = Some (length (sections L)).
Proof.
  unfold make_section, new_section.
  destruct df, (page L); reflexivity.
Qed.

Lemma make_column_ok df L sid :
  section L = Some sid →
  ∃ L', make_column df L = (L', Ok tt) ∧ section L' = Some sid ∧
        column L' = Some (length (columns L)).
Proof.
  intros Hs. unfold make_column. rewrite Hs.
  destruct df as [d0 |]; [destruct (name_set (fieldname d0)) |];
    eexists; (split; [reflexivity |]); split; try done.
Qed.

Lemma make_column_null df L :
  section L = None → make_column df L = (L, Raise null_deref).
Proof. intros Hs. unfold make_column. by rewrite Hs. Qed.

Lemma place_field_ok df L sid cid :
  section L = Some sid → column L = Some cid →
  ∃ L', place_field df L = (L', Ok tt) ∧ section L' = Some sid.
Proof.
  intros Hs Hc. unfold place_field. rewrite Hs, Hc.
  eexists. split; [reflexivity |]. done.
Qed.

Lemma make_field_ok df L :
  ∃ L', make_field df L = (L', Ok tt) ∧ has_section L' = true.
Proof.
  unfold make_field, bind.
  assert (H1 : ∃ L1 sid, ensure_section L = (L1, Ok tt) ∧ section L1 = Some sid).
  { unfold ensure_section. destruct (section L) as [sid |] eqn:Hs.
    - by exists L, sid.
    - eexists _, _. split; [reflexivity |]. apply section_make_section. }
  destruct H1 as (L1 & sid & -> & Hs1).
  assert (H2 : ∃ L2 cid, ensure_column L1 = (L2, Ok tt) ∧ section L2 = Some sid
                         ∧ column L2 = Some cid).
  { unfold ensure_column. destruct (column L1) as [cid |] eqn:Hc.
    - by exists L1, cid.
    - destruct (make_column_ok None L1 sid Hs1) as (L2 & -> & Hs2 & Hc2).
      by eexists _, _. }
  destruct H2 as (L2 & cid & -> & Hs2 & Hc2).
  destruct (place_field_ok df L2 sid cid Hs2 Hc2) as (L3 & -> & Hs3).
  exists L3. split; [done |]. unfold has_section. by rewrite Hs3.
Qed.

Lemma render_loop_result fs L :
  snd (for_each render_one fs L) =
    if loop_ok (has_section L) fs then Ok tt else Raise null_deref.
Proof.
  revert L. induction fs as [| df fs IH]; intros L; [done |].
  cbn [for_each loop_ok]. unfold bind.
  destruct (kind_cases df) as [Hk | [Hk | [Hk | Hk]]].
  - rewrite (render_one_fold df Hk), Hk. unfold modify. apply IH.
  - destruct (kinds_exclusive df) as (_ & H2 & _). destruct (H2 Hk) as [Hf Hc].
    rewrite (render_one_section df Hk), Hf, Hc. unfold modify.
    rewrite IH. unfold has_section. by rewrite section_make_section.
  - destruct (kinds_exclusive df) as (_ & _ & H3). destruct (H3 Hk) as [Hf Hs].
    rewrite (render_one_column df Hk), Hf, Hk.
    unfold has_section at 1. destruct (section L) as [sid |] eqn:Hsec.
    + destruct (make_column_ok (Some df) L sid Hsec) as (L' & -> & Hs' & _).
      rewrite IH. unfold has_section. by rewrite Hs'.
    + by rewrite (make_column_null _ _ Hsec).
  - rewrite (render_one_field df Hk).
    assert (Hf : is_fold df = false ∧ is_column_break df = false).
    { unfold is_field in Hk. fold (is_fold df) in Hk.
      destruct (is_fold df), (is_section_break df), (is_column_break df);
        try discriminate; done. }
    destruct Hf as [-> ->].
    destruct (make_field_ok df L) as (L' & -> & Hs').
    rewrite IH. by rewrite Hs'.
Qed.

Lemma loop_ok_spec sec fs :
  loop_ok sec fs =
    negb ((negb sec && starts_with_column fs) || fold_then_column fs).
Proof.
  revert sec. induction fs as [| df fs IH]; intros sec.
  - by destruct sec.
  - cbn [loop_ok fold_then_column starts_with_column].
    destruct (kind_cases df) as [Hk | [Hk | [Hk | Hk]]].
    + destruct (kinds_exclusive df) as (H1 & _ & _). destruct (H1 Hk) as [_ Hc].
      rewrite Hk, Hc, IH. cbn. by rewrite andb_false_r.
    + destruct (kinds_exclusive df) as (_ & H2 & _). destruct (H2 Hk) as [Hf Hc].
      rewrite Hf, Hc, IH. cbn. by rewrite andb_false_r.
    + destruct (kinds_exclusive df) as (_ & _ & H3). destruct (H3 Hk) as [Hf _].
      rewrite Hf, Hk, IH. cbn. by destruct sec.
    + assert (Hf : is_fold df = false ∧ is_column_break df = false).
      { unfold is_field in Hk. fold (is_fold df) in Hk.
        destruct (is_fold df), (is_section_break df), (is_column_break df);
          try discriminate; done. }
      destruct Hf as [-> ->]. rewrite IH. cbn. by rewrite andb_false_r.
Qed.

(** X1.  [render] on a fresh layout runs to its end unless some Column
    Break comes directly after a Fold in the list of descriptors: the fold
    leaves the layout without a current section, and the column is made
    inside [this.section], which is then [null].  In that case, and only
    then, the outcome is a TypeError. *)
Theorem render_completes (fs : list DocField) (dash : bool)
    (fm : option Frm) (d : option Doc) :
  snd (render None (init fs dash fm d)) =
    if fold_then_column fs then Raise null_deref else Ok tt.
Proof.
  unfold render.
  set (L0 := set_column None (set_section None (init fs dash fm d))).
  change (with_dashboard L0) with dash.
  assert (Hsb : is_section_break section_break_df = true) by reflexivity.
  assert (Hsec : ∀ df L, has_section (make_section df L) = true).
  { intros df L. unfold has_section. by rewrite section_make_section. }
  assert (Hno : ∀ L, no_opening_section L =
            match fields L with
            | [] => true
            | df :: _ => negb (is_section_break df)
            end) by reflexivity.
  assert (Hstart : ∀ (L : Layout) rest df, has_section L = false →
            is_section_break df = true →
            snd (for_each render_one (df :: rest) L) =
              if fold_then_column (df :: rest) then Raise null_deref else Ok tt).
  { intros L rest df HL Hdf. rewrite render_loop_result, loop_ok_spec, HL.
    destruct (kinds_exclusive df) as (_ & H2 & _). destruct (H2 Hdf) as [Hf Hc].
    cbn [starts_with_column negb andb orb]. rewrite Hc. cbn [orb].
    by destruct (fold_then_column (df :: rest)). }
  assert (Hopen : ∀ (L : Layout) l, has_section L = true →
            snd (for_each render_one l L) =
              if fold_then_column l then Raise null_deref else Ok tt).
  { intros L l HL. rewrite render_loop_result, loop_ok_spec, HL.
    cbn [negb andb orb]. by destruct (fold_then_column l). }
  assert (Hf0 : fields L0 = fs) by reflexivity.
  assert (Hs0 : has_section L0 = false) by reflexivity.
  assert (Hdash : setup_dashboard_section L0 =
            if match fs with
               | [] => true
               | df :: _ => negb (is_section_break df)
               end
            then set_fields (section_break_df :: fs) L0 else L0) by reflexivity.
  assert (Hput : ∀ X, no_opening_section (set_fields (section_break_df :: X) L0)
                      = false) by reflexivity.
  assert (Hfput : ∀ X, fields (set_fields X L0) = X) by reflexivity.
  assert (Hsput : ∀ X, has_section (set_fields X L0) = false) by reflexivity.
  cbv zeta. destruct dash.
  - rewrite Hdash. destruct fs as [| df fs].
    + rewrite Hput, Hfput. rewrite (Hstart _ [] section_break_df); done.
    + destruct (is_section_break df) eqn:Hdf; cbn [negb].
      * rewrite Hno, Hf0, Hdf. cbn [negb]. by apply Hstart.
      * rewrite Hput, Hfput.
        rewrite (Hstart _ (df :: fs) section_break_df); done.
  - rewrite Hno, Hf0. destruct fs as [| df fs].
    + by rewrite Hopen.
    + destruct (is_section_break df) eqn:Hdf; cbn [negb].
      * by apply Hstart.
      * by rewrite Hopen.
Qed.

Lemma alter_last {A} (f : A → A) (l : list A) (x : A) :
  alter f (length l) (l ++ [x])%list = (l ++ [f x])%list.
Proof. induction l as [| a l IH]; [done |]. simpl. by f_equal. Qed.

(** What [make_section] does to the layout. *)
Lemma make_section_spec df L :
  let L' := make_section df L in
  (∃ sec, sections L' = (sections L ++ [sec])%list ∧
          s_df sec = default empty_df df ∧ s_fields_list sec = []) ∧
  controls L' = controls L ∧ columns L' = columns L ∧
  section L' = Some (length (sections L)) ∧ column L' = None ∧
  fields_list L' =
    (fields_list L ++ match df with
                      | Some _ => [RSection (length (sections L))]
                      | None => []
                      end)%list ∧
  fields_dict L' =
    match df with
    | Some d => <[key_of (fieldname d) := RSection (length (sections L))]>
                  (fields_dict L)
    | None => fields_dict L
    end ∧
  fields L' = fields L ∧ frm L' = frm L ∧ doc L' = doc L ∧
  with_dashboard L' = with_dashboard L.
Proof.
  cbv zeta. unfold make_section, new_section, FormSection.refresh.
  destruct df as [d0 |], (page L); lsimpl; rewrite alter_last;
    (split; [eexists; split; [reflexivity |]; split; reflexivity |]);
    repeat split; try done; by rewrite app_nil_r.
Qed.

(** What [make_column] does when there is a current section. *)
Lemma make_column_spec df L sid :
  section L = Some sid →
  ∃ L', make_column df L = (L', Ok tt) ∧
    (∃ col, columns L' = (columns L ++ [col])%list ∧ col_section col = sid ∧
            col_df col = default empty_df df) ∧
    controls L' = controls L ∧ sections L' = sections L ∧
    section L' = Some sid ∧ column L' = Some (length (columns L)) ∧
    fields_list L' =
      (fields_list L ++ match df with
                        | Some d => if name_set (fieldname d)
                                    then [RColumn (length (columns L))] else []
                        | None => []
                        end)%list ∧
    fields_dict L' = fields_dict L ∧
    fields L' = fields L ∧ frm L' = frm L ∧ doc L' = doc L ∧
    with_dashboard L' = with_dashboard L.
Proof.
  intros Hs. unfold make_column. rewrite Hs.
  destruct df as [d0 |]; [destruct (name_set (fieldname d0)) |];
    (eexists; split; [reflexivity |]); lsimpl;
    (split; [eexists; split; [reflexivity |]; split; reflexivity |]);
    repeat split; try done; by rewrite app_nil_r.
Qed.

(** What [place_field] does when there are a current section and a
    current column. *)
Lemma place_field_spec df L sid cid :
  section L = Some sid → column L = Some cid →
  ∃ L', place_field df L = (L', Ok tt) ∧
    controls L' = (controls L ++ [init_field df sid cid])%list ∧
    columns L' = columns L ∧
    sections L' =
      alter (fun s => set_s_fields_list
                        (s_fields_list s ++ [length (controls L)]) s)
        sid (sections L) ∧
    section L' = Some sid ∧ column L' = Some cid ∧
    fields_list L' = (fields_list L ++ [RControl (length (controls L))])%list ∧
    fields_dict L' =
      <[key_of (fieldname df) := RControl (length (controls L))]>
        (fields_dict L) ∧
    fields L' = fields L ∧ frm L' = frm L ∧ doc L' = doc L ∧
    with_dashboard L' = with_dashboard L.
Proof.
  intros Hs Hc. unfold place_field. rewrite Hs, Hc.
  eexists. split; [reflexivity |]. lsimpl. repeat split; done.
Qed.

Lemma grows_refl L : grows L L.
Proof. by intros r df. Qed.

Lemma grows_trans L1 L2 L3 : grows L1 L2 → grows L2 L3 → grows L1 L3.
Proof. intros H1 H2 r df H. by apply H2, H1. Qed.

Lemma grows_arenas L L' :
  (∃ l, controls L' = (controls L ++ l)%list) →
  (∃ l, columns L' = (columns L ++ l)%list) →
  (∀ i s, sections L !! i = Some s →
     ∃ s', sections L' !! i = Some s' ∧ s_df s' = s_df s) →
  grows L L'.
Proof.
  intros [lc Hc] [lk Hk] Hs [j | j | j] df; unfold df_of.
  - rewrite Hc. destruct (controls L !! j) as [c |] eqn:E; [| done].
    by rewrite (lookup_app_l_Some _ _ _ _ E).
  - destruct (sections L !! j) as [s |] eqn:E; [| done].
    destruct (Hs j s E) as (s' & -> & Hdf). simpl. by rewrite Hdf.
  - rewrite Hk. destruct (columns L !! j) as [c |] eqn:E; [| done].
    by rewrite (lookup_app_l_Some _ _ _ _ E).
Qed.

Lemma grows_make_section df L : grows L (make_section df L).
Proof.
  destruct (make_section_spec df L)
    as ((sec & Hsec & _) & Hc & Hk & _).
  apply grows_arenas.
  - exists []. by rewrite app_nil_r.
  - exists []. by rewrite app_nil_r.
  - intros i s Hs. exists s. split; [| done].
    rewrite Hsec. by apply lookup_app_l_Some.
Qed.

Lemma ref_key_grows L L' r :
  grows L L' → is_Some (df_of L r) → ref_key L' r = ref_key L r.
Proof.
  intros Hg [df Hdf]. unfold ref_key. by rewrite (Hg r df Hdf), Hdf.
Qed.

Lemma filter_named_grows L L' k l :
  grows L L' → (∀ r, r ∈ l → is_Some (df_of L r)) →
  List.filter (named L' k) l = List.filter (named L k) l.
Proof.
  intros Hg Hv. apply List.filter_ext_in. intros r Hin.
  unfold named. rewrite (ref_key_grows L L' r Hg); [done |].
  apply Hv. by apply list_elem_of_In.
Qed.

Lemma refs_valid_push L L' extra :
  refs_valid L → grows L L' →
  fields_list L' = (fields_list L ++ extra)%list →
  (∀ r, r ∈ extra → is_Some (df_of L' r)) → refs_valid L'.
Proof.
  intros Hv Hg Hfl Hex r Hr. rewrite Hfl in Hr.
  apply elem_of_app in Hr as [Hr | Hr]; [| by apply Hex].
  destruct (Hv r Hr) as [df Hdf]. exists df. by apply Hg.
Qed.

Lemma dict_last_push L L' r df :
  refs_valid L → dict_last L → grows L L' →
  fields_list L' = (fields_list L ++ [r])%list →
  df_of L' r = Some df → registered r = true →
  fields_dict L' = <[key_of (fieldname df) := r]> (fields_dict L) →
  dict_last L'.
Proof.
  intros Hv Hd Hg Hfl Hdf Hreg Hfd k.
  unfold last_named. rewrite Hfl, List.filter_app, Hfd.
  rewrite (filter_named_grows L L' k _ Hg Hv).
  cbn [List.filter]. unfold named at 2. rewrite Hreg. unfold ref_key.
  rewrite Hdf. cbn [fmap option_fmap option_map andb].
  destruct (decide (key_of (fieldname df) = k)) as [-> | Hne].
  - rewrite lookup_insert_eq, bool_decide_eq_true_2 by done.
    by rewrite last_snoc.
  - rewrite lookup_insert_ne by done.
    rewrite bool_decide_eq_false_2 by congruence.
    rewrite app_nil_r. apply Hd.
Qed.

Lemma dict_last_keep L L' extra :
  refs_valid L → dict_last L → grows L L' →
  fields_list L' = (fields_list L ++ extra)%list →
  (∀ r, r ∈ extra → registered r = false) →
  fields_dict L' = fields_dict L → dict_last L'.
Proof.
  intros Hv Hd Hg Hfl Hex Hfd k.
  unfold last_named. rewrite Hfl, List.filter_app, Hfd.
  rewrite (filter_named_grows L L' k _ Hg Hv).
  assert (Hnil : List.filter (named L' k) extra = []).
  { clear Hfl. induction extra as [| r extra IH]; [done |].
    cbn [List.filter]. unfold named at 1.
    rewrite (Hex r) by apply list_elem_of_here. cbn [andb].
    apply IH. intros r' Hr'. apply Hex. by apply list_elem_of_further. }
  rewrite Hnil, app_nil_r. apply Hd.
Qed.

Lemma controls_of_section_same L L' i :
  controls L' = controls L → controls_of_section L' i = controls_of_section L i.
Proof. unfold controls_of_section. by intros ->. Qed.

Lemma controls_of_section_push L L' c i :
  controls L' = (controls L ++ [c])%list →
  controls_of_section L' i =
    (controls_of_section L i ++
       if bool_decide (c_section c = i) then [length (controls L)] else [])%list.
Proof.
  intros Hc. unfold controls_of_section. rewrite Hc.
  rewrite length_app, Nat.add_1_r, seq_S, List.filter_app. cbn [List.filter].
  f_equal.
  - apply List.filter_ext_in. intros j Hj. apply List.in_seq in Hj.
    rewrite lookup_app_l by lia. done.
  - rewrite Nat.add_0_l. rewrite list_lookup_middle by done.
    cbn [fmap option_fmap option_map].
    destruct (decide (c_section c = i)) as [-> | Hne].
    + by rewrite !bool_decide_eq_true_2.
    + rewrite !bool_decide_eq_false_2; [done | done | congruence].
Qed.

Lemma filter_none {A} (p : A → bool) (l : list A) :
  (∀ x, List.In x l → p x = false) → List.filter p l = [].
Proof.
  induction l as [| a l IH]; [done |]. intros H. cbn [List.filter].
  rewrite (H a) by by left. apply IH. intros x Hx. apply H. by right.
Qed.

Lemma built_make_section df L : built L → built (make_section df L).
Proof.
  intros (Hv & Hd & Hcp & Hsl & Hcur1 & Hcur2).
  pose proof (grows_make_section df L) as Hg.
  destruct (make_section_spec df L)
    as ((sec & Hsec & Hsdf & Hsfl) & Hc & Hk & Hs & Hcol & Hfl & Hfd & _).
  set (L' := make_section df L) in *.
  assert (Hnew : df_of L' (RSection (length (sections L)))
                 = Some (default empty_df df)).
  { unfold df_of. rewrite Hsec, list_lookup_middle by done. simpl.
    by rewrite Hsdf. }
  split; [| split; [| split; [| split]]].
  - eapply refs_valid_push; [done | done | exact Hfl |].
    intros r Hr. destruct df; [| by apply elem_of_nil in Hr].
    apply list_elem_of_singleton in Hr as ->. by rewrite Hnew.
  - destruct df as [d0 |].
    + eapply (dict_last_push L L' _ d0); try done.
    + eapply dict_last_keep; try done. intros r Hr. by apply elem_of_nil in Hr.
  - intros j c Hj. rewrite Hc in Hj. destruct (Hcp j c Hj) as [H1 H2].
    rewrite Hsec, length_app, Hk. split; [simpl; lia | done].
  - intros i s Hi. rewrite (controls_of_section_same L L' i Hc).
    rewrite Hsec in Hi. apply lookup_app_Some in Hi as [Hi | [Hlen Hi]].
    + by apply Hsl.
    + destruct (i - length (sections L)) as [| n] eqn:E; [| done].
      simpl in Hi. inversion Hi; subst s. rewrite Hsfl.
      assert (i = length (sections L)) as -> by lia.
      unfold controls_of_section. symmetry. apply filter_none.
      intros j Hj. apply bool_decide_eq_false_2. intros Hcs.
      destruct (controls L !! j) as [c |] eqn:Ec; [| done].
      destruct (Hcp j c Ec) as [Hlt _]. simpl in Hcs. inversion Hcs. lia.
  - split.
    + intros sid Hsid. rewrite Hs in Hsid. inversion Hsid.
      rewrite Hsec, length_app. simpl. lia.
    + intros sid cid _ Hcid. by rewrite Hcol in Hcid.
Qed.

Lemma built_make_column df L L' r :
  built L → make_column df L = (L', r) → built L' ∧ grows L L'.
Proof.
  intros HB H. destruct (section L) as [sid |] eqn:Hsid.
  2: { rewrite (make_column_null _ _ Hsid) in H. inversion H; subst.
       split; [done | apply grows_refl]. }
  destruct (make_column_spec df L sid Hsid)
    as (L1 & Hrun & (col & Hcols & Hcs & Hcdf) & Hc & Hs & Hsec & Hcol & Hfl
        & Hfd & _).
  rewrite Hrun in H. inversion H; subst L1 r. clear H.
  destruct HB as (Hv & Hd & Hcp & Hsl & Hcur1 & Hcur2).
  assert (Hg : grows L L').
  { apply grows_arenas.
    - exists []. by rewrite app_nil_r.
    - by exists [col].
    - intros i s Hi. exists s. by rewrite Hs. }
  split; [| done].
  split; [| split; [| split; [| split]]].
  - eapply refs_valid_push; [done | done | exact Hfl |].
    intros r Hr. destruct df as [d0 |]; [| by apply elem_of_nil in Hr].
    destruct (name_set (fieldname d0)); [| by apply elem_of_nil in Hr].
    apply list_elem_of_singleton in Hr as ->.
    unfold df_of. rewrite Hcols, list_lookup_middle by done. by eexists.
  - eapply dict_last_keep; try done. intros r Hr.
    destruct df as [d0 |]; [| by apply elem_of_nil in Hr].
    destruct (name_set (fieldname d0)); [| by apply elem_of_nil in Hr].
    by apply list_elem_of_singleton in Hr as ->.
  - intros j c Hj. rewrite Hc in Hj. destruct (Hcp j c Hj) as [H1 H2].
    rewrite Hs. split; [done |]. rewrite Hcols.
    destruct (columns L !! c_column c) as [k |] eqn:Ek; [| done].
    by rewrite (lookup_app_l_Some _ _ _ _ Ek).
  - intros i s Hi. rewrite (controls_of_section_same L L' i Hc).
    rewrite Hs in Hi. by apply Hsl.
  - split.
    + intros sid' Hs'. rewrite Hs. apply Hcur1. congruence.
    + intros sid' cid Hs' Hcid. rewrite Hcol in Hcid. inversion Hcid; subst cid.
      rewrite Hcols, list_lookup_middle by done. simpl. congruence.
Qed.

Lemma built_place_field df L L' r :
  built L → place_field df L = (L', r) → built L' ∧ grows L L'.
Proof.
  intros HB H.
  destruct (section L) as [sid |] eqn:Hsid, (column L) as [cid |] eqn:Hcid;
    try (unfold place_field in H; rewrite Hsid, ?Hcid in H; inversion H; subst;
         split; [done | apply grows_refl]).
  destruct (place_field_spec df L sid cid Hsid Hcid)
    as (L1 & Hrun & Hc & Hk & Hs & Hsec & Hcol & Hfl & Hfd & _).
  rewrite Hrun in H. inversion H; subst L1 r. clear H.
  destruct HB as (Hv & Hd & Hcp & Hsl & Hcur1 & Hcur2).
  assert (Hlen : length (sections L') = length (sections L))
    by (rewrite Hs; apply length_alter).
  assert (Hg : grows L L').
  { apply grows_arenas.
    - by eexists.
    - exists []. by rewrite app_nil_r.
    - intros i s Hi. rewrite Hs. destruct (decide (sid = i)) as [-> | Hne].
      + eexists. rewrite list_lookup_alter_eq, Hi. split; reflexivity.
      + exists s. by rewrite list_lookup_alter_ne. }
  assert (Hnew : df_of L' (RControl (length (controls L))) = Some df).
  { unfold df_of. by rewrite Hc, list_lookup_middle. }
  split; [| done].
  split; [| split; [| split; [| split]]].
  - eapply refs_valid_push; [done | done | exact Hfl |].
    intros r Hr. apply list_elem_of_singleton in Hr as ->. by rewrite Hnew.
  - by eapply (dict_last_push L L' _ df).
  - intros j c Hj. rewrite Hlen, Hk. rewrite Hc in Hj.
    apply lookup_app_Some in Hj as [Hj | [Hge Hj]]; [by apply (Hcp j c) |].
    destruct (j - length (controls L)) as [| n]; [| done].
    simpl in Hj. inversion Hj; subst c. cbn [c_section c_column init_field].
    split; [by apply Hcur1 | by apply Hcur2].
  - intros i s Hi.
    rewrite (controls_of_section_push L L' _ i Hc).
    cbn [c_section init_field]. rewrite Hs in Hi.
    destruct (decide (sid = i)) as [-> | Hne].
    + rewrite list_lookup_alter_eq in Hi.
      destruct (sections L !! i) as [s0 |] eqn:E; [| done].
      simpl in Hi. inversion Hi; subst s. cbn [s_fields_list set_s_fields_list].
      rewrite (Hsl i s0 E). by rewrite bool_decide_eq_true_2.
    + rewrite list_lookup_alter_ne in Hi by done.
      rewrite bool_decide_eq_false_2 by done. rewrite app_nil_r. by apply Hsl.
  - split.
    + intros sid' Hs'. rewrite Hlen. apply Hcur1. congruence.
    + intros sid' cid' Hs' Hc'. rewrite Hk. apply Hcur2; congruence.
Qed.

Lemma built_make_page L : built L → built (make_page L).
Proof.
  intros (Hv & Hd & Hcp & Hsl & Hcur1 & Hcur2).
  split; [| split; [| split; [| split]]]; try done.
Qed.

Lemma grows_make_page L : grows L (make_page L).
Proof. by intros r df. Qed.

Lemma built_make_field df L L' r :
  built L → make_field df L = (L', r) → built L' ∧ grows L L'.
Proof.
  intros HB. unfold make_field, bind.
  assert (H1 : ∃ L1, ensure_section L = (L1, Ok tt) ∧ built L1 ∧ grows L L1).
  { unfold ensure_section. destruct (section L).
    - exists L. split; [done |]. split; [done | apply grows_refl].
    - eexists. split; [reflexivity |].
      split; [by apply built_make_section | apply grows_make_section]. }
  destruct H1 as (L1 & -> & HB1 & Hg1).
  destruct (ensure_column L1) as [L2 r2] eqn:H2.
  assert (HB2 : built L2 ∧ grows L1 L2).
  { unfold ensure_column in H2. destruct (column L1).
    - inversion H2; subst. split; [done | apply grows_refl].
    - by eapply built_make_column. }
  destruct HB2 as [HB2 Hg2].
  destruct r2 as [[] | e].
  - intros H. destruct (built_place_field df L2 L' r HB2 H) as [HB3 Hg3].
    split; [done |]. eapply grows_trans; [| exact Hg3].
    by eapply grows_trans.
  - intros H. inversion H; subst. split; [done |]. by eapply grows_trans.
Qed.

Lemma built_render_one df L L' r :
  built L → render_one df L = (L', r) → built L' ∧ grows L L'.
Proof.
  intros HB. destruct (kind_cases df) as [Hk | [Hk | [Hk | Hk]]].
  - rewrite (render_one_fold df Hk). intros H. inversion H; subst.
    split; [by apply built_make_page | apply grows_make_page].
  - rewrite (render_one_section df Hk). intros H. inversion H; subst.
    split; [by apply built_make_section | apply grows_make_section].
  - rewrite (render_one_column df Hk). by apply built_make_column.
  - rewrite (render_one_field df Hk). by apply built_make_field.
Qed.

Lemma built_render_loop fs L L' r :
  built L → for_each render_one fs L = (L', r) → built L' ∧ grows L L'.
Proof.
  revert L. induction fs as [| df fs IH]; intros L HB H.
  - inversion H; subst. split; [done | apply grows_refl].
  - cbn [for_each] in H. unfold bind in H.
    destruct (render_one df L) as [L1 r1] eqn:H1.
    destruct (built_render_one df L L1 r1 HB H1) as [HB1 Hg1].
    destruct r1 as [[] | e].
    + destruct (IH L1 HB1 H) as [HB' Hg']. split; [done |].
      by eapply grows_trans.
    + by inversion H; subst.
Qed.

Lemma built_reset L : built L → built (set_column None (set_section None L)).
Proof.
  intros (Hv & Hd & Hcp & Hsl & Hcur1 & Hcur2).
  split; [| split; [| split; [| split]]]; try done.
Qed.

Lemma built_set_fields X L : built L → built (set_fields X L).
Proof.
  intros (Hv & Hd & Hcp & Hsl & Hcur1 & Hcur2).
  split; [| split; [| split; [| split]]]; try done.
Qed.

Lemma built_render nf L L' r :
  built L → render nf L = (L', r) → built L'.
Proof.
  intros HB. unfold render. cbv zeta.
  set (L0 := set_column None (set_section None L)).
  assert (HB0 : built L0) by by apply built_reset.
  set (L1 := if with_dashboard L0 then setup_dashboard_section L0 else L0).
  assert (HB1 : built L1).
  { unfold L1, setup_dashboard_section.
    destruct (with_dashboard L0); [| done].
    destruct (no_opening_section L0); [| done]. by apply built_set_fields. }
  set (L2 := if no_opening_section L1 then make_section None L1 else L1).
  assert (HB2 : built L2).
  { unfold L2. destruct (no_opening_section L1); [| done].
    by apply built_make_section. }
  intros H. by destruct (built_render_loop _ _ _ _ HB2 H).
Qed.

Lemma built_init fs dash fm d : built (init fs dash fm d).
Proof.
  split; [| split; [| split; [| split]]].
  - intros r Hr. by apply elem_of_nil in Hr.
  - intros k. unfold last_named. cbn. apply lookup_empty.
  - intros j c Hj. change (controls (init fs dash fm d)) with (@nil Control) in Hj.
    by rewrite lookup_nil in Hj.
  - intros i s Hi.
    change (sections (init fs dash fm d)) with (@nil SectionNode) in Hi.
    by rewrite lookup_nil in Hi.
  - split; intros; discriminate.
Qed.

(** The dfs behind [fields_list], in order. *)
Lemma listing_push L L' extra :
  refs_valid L → grows L L' →
  fields_list L' = (fields_list L ++ extra)%list →
  df_of L' <$> fields_list L' =
    ((df_of L <$> fields_list L) ++ (df_of L' <$> extra))%list.
Proof.
  intros Hv Hg ->. rewrite fmap_app. f_equal.
  apply list_fmap_ext. intros i r Hr.
  destruct (Hv r) as [df Hdf]; [by eapply list_elem_of_lookup_2 |].
  by rewrite (Hg r df Hdf).
Qed.

Lemma listing_make_section df L :
  built L →
  df_of (make_section df L) <$> fields_list (make_section df L) =
    ((df_of L <$> fields_list L) ++ match df with
                                    | Some d => [Some d]
                                    | None => []
                                    end)%list.
Proof.
  intros (Hv & _).
  destruct (make_section_spec df L)
    as ((sec & Hsec & Hsdf & _) & _ & _ & _ & _ & Hfl & _).
  rewrite (listing_push L _ _ Hv (grows_make_section df L) Hfl).
  f_equal. destruct df as [d0 |]; [| done]. cbn [fmap list_fmap].
  unfold df_of. rewrite Hsec, list_lookup_middle by done. simpl.
  by rewrite Hsdf.
Qed.

Lemma listing_make_column df L L' :
  built L → make_column df L = (L', Ok tt) →
  df_of L' <$> fields_list L' =
    ((df_of L <$> fields_list L) ++
       match df with
       | Some d => if name_set (fieldname d) then [Some d] else []
       | None => []
       end)%list.
Proof.
  intros HB H. destruct (built_make_column df L L' _ HB H) as [_ Hg].
  destruct (section L) as [sid |] eqn:Hsid.
  2: { by rewrite (make_column_null _ _ Hsid) in H. }
  destruct (make_column_spec df L sid Hsid)
    as (L1 & Hrun & (col & Hcols & _ & Hcdf) & _ & _ & _ & _ & Hfl & _).
  rewrite Hrun in H. inversion H; subst L1.
  destruct HB as (Hv & _).
  rewrite (listing_push L _ _ Hv Hg Hfl). f_equal.
  destruct df as [d0 |]; [| done].
  destruct (name_set (fieldname d0)); [| done]. cbn [fmap list_fmap].
  unfold df_of. rewrite Hcols, list_lookup_middle by done. simpl.
  by rewrite Hcdf.
Qed.

Lemma listing_place_field df L L' :
  built L → place_field df L = (L', Ok tt) →
  df_of L' <$> fields_list L' = ((df_of L <$> fields_list L) ++ [Some df])%list.
Proof.
  intros HB H. destruct (built_place_field df L L' _ HB H) as [_ Hg].
  destruct (section L) as [sid |] eqn:Hsid, (column L) as [cid |] eqn:Hcid;
    try (unfold place_field in H; rewrite Hsid, ?Hcid in H; discriminate).
  destruct (place_field_spec df L sid cid Hsid Hcid)
    as (L1 & Hrun & Hc & _ & _ & _ & _ & Hfl & _).
  rewrite Hrun in H. inversion H; subst L1.
  destruct HB as (Hv & _).
  rewrite (listing_push L _ _ Hv Hg Hfl). f_equal. cbn [fmap list_fmap].
  unfold df_of. by rewrite Hc, list_lookup_middle.
Qed.

Lemma listing_make_field df L L' :
  built L → make_field df L = (L', Ok tt) →
  df_of L' <$> fields_list L' = ((df_of L <$> fields_list L) ++ [Some df])%list.
Proof.
  intros HB. unfold make_field, bind.
  assert (H1 : ∃ L1, ensure_section L = (L1, Ok tt) ∧ built L1 ∧
             df_of L1 <$> fields_list L1 = df_of L <$> fields_list L).
  { unfold ensure_section. destruct (section L).
    - by exists L.
    - eexists. split; [reflexivity |].
      split; [by apply built_make_section |].
      rewrite listing_make_section by done. by rewrite app_nil_r. }
  destruct H1 as (L1 & -> & HB1 & Hl1).
  destruct (ensure_column L1) as [L2 [[] | e]] eqn:H2; [| discriminate].
  assert (H2' : built L2 ∧
             df_of L2 <$> fields_list L2 = df_of L1 <$> fields_list L1).
  { unfold ensure_column in H2. destruct (column L1).
    - by inversion H2; subst.
    - split; [by destruct (built_make_column None L1 L2 _ HB1 H2) |].
      rewrite (listing_make_column None L1 L2 HB1 H2). by rewrite app_nil_r. }
  destruct H2' as [HB2 Hl2]. intros H.
  rewrite (listing_place_field df L2 L' HB2 H). congruence.
Qed.

Lemma fields_make_field df L L' r :
  make_field df L = (L', r) → fields L' = fields L.
Proof.
  unfold make_field, bind, ensure_section, ensure_column.
  assert (Hms : ∀ X, fields (make_section None X) = fields X).
  { intros X. by destruct (make_section_spec None X)
      as (_ & _ & _ & _ & _ & _ & _ & Hf & _). }
  assert (Hmc : ∀ X X' r', make_column None X = (X', r') → fields X' = fields X).
  { intros X X' r'. unfold make_column. destruct (section X); by intros [= <- _]. }
  assert (Hpf : ∀ X X' r', place_field df X = (X', r') → fields X' = fields X).
  { intros X X' r'. unfold place_field.
    destruct (section X), (column X); by intros [= <- _]. }
  destruct (section L).
  - destruct (column L).
    + apply Hpf.
    + destruct (make_column None L) as [L2 [[] | e]] eqn:H2.
      * intros H. rewrite (Hpf _ _ _ H). by eapply Hmc.
      * intros [= <- _]. by eapply Hmc.
  - destruct (column (make_section None L)).
    + intros H. rewrite (Hpf _ _ _ H). apply Hms.
    + destruct (make_column None (make_section None L)) as [L2 [[] | e]] eqn:H2.
      * intros H. rewrite (Hpf _ _ _ H), (Hmc _ _ _ H2). apply Hms.
      * intros [= <- _]. rewrite (Hmc _ _ _ H2). apply Hms.
Qed.

Lemma fields_render_one df L L' r :
  render_one df L = (L', r) → fields L' = fields L.
Proof.
  destruct (kind_cases df) as [Hk | [Hk | [Hk | Hk]]].
  - rewrite (render_one_fold df Hk). by intros [= <- _].
  - rewrite (render_one_section df Hk). intros [= <- _].
    by destruct (make_section_spec (Some df) L)
      as (_ & _ & _ & _ & _ & _ & _ & Hf & _).
  - rewrite (render_one_column df Hk). unfold make_column.
    destruct (section L); [destruct (name_set (fieldname df)) |];
      by intros [= <- _].
  - rewrite (render_one_field df Hk). apply fields_make_field.
Qed.

Lemma fields_render_loop fs L L' r :
  for_each render_one fs L = (L', r) → fields L' = fields L.
Proof.
  revert L. induction fs as [| df fs IH]; intros L H.
  - by inversion H.
  - cbn [for_each] in H. unfold bind in H.
    destruct (render_one df L) as [L1 [[] | e]] eqn:H1.
    + rewrite (IH _ H). by eapply fields_render_one.
    + inversion H; subst. by eapply fields_render_one.
Qed.

Lemma listed_kinds df :
  (is_fold df = true → listed df = false) ∧
  (is_section_break df = true → listed df = true) ∧
  (is_column_break df = true → listed df = name_set (fieldname df)) ∧
  (is_field df = true → listed df = true).
Proof.
  unfold listed, is_field. fold (is_fold df).
  destruct (kinds_exclusive df) as (H1 & H2 & H3).
  split; [| split; [| split]]; intros H.
  - destruct (H1 H) as [-> ->]. by rewrite H.
  - by rewrite H.
  - destruct (H3 H) as [-> ->]. by rewrite H.
  - rewrite H. by rewrite orb_true_r.
Qed.

Lemma listing_render_one df L L' :
  built L → render_one df L = (L', Ok tt) →
  df_of L' <$> fields_list L' =
    ((df_of L <$> fields_list L) ++ (Some <$> List.filter listed [df]))%list.
Proof.
  intros HB. cbn [List.filter].
  destruct (listed_kinds df) as (K1 & K2 & K3 & K4).
  destruct (kind_cases df) as [Hk | [Hk | [Hk | Hk]]].
  - rewrite (render_one_fold df Hk), (K1 Hk). intros [= <-].
    by rewrite app_nil_r.
  - rewrite (render_one_section df Hk), (K2 Hk). intros [= <-].
    by rewrite listing_make_section.
  - rewrite (render_one_column df Hk), (K3 Hk). intros H.
    rewrite (listing_make_column _ _ _ HB H).
    by destruct (name_set (fieldname df)).
  - rewrite (render_one_field df Hk), (K4 Hk). intros H.
    by rewrite (listing_make_field _ _ _ HB H).
Qed.

Lemma listing_render_loop fs L L' :
  built L → for_each render_one fs L = (L', Ok tt) →
  df_of L' <$> fields_list L' =
    ((df_of L <$> fields_list L) ++ (Some <$> List.filter listed fs))%list.
Proof.
  revert L. induction fs as [| df fs IH]; intros L HB H.
  - inversion H; subst. by rewrite app_nil_r.
  - cbn [for_each] in H. unfold bind in H.
    destruct (render_one df L) as [L1 [[] | e]] eqn:H1; [| discriminate].
    destruct (built_render_one df L L1 _ HB H1) as [HB1 _].
    rewrite (IH L1 HB1 H), (listing_render_one df L L1 HB H1).
    rewrite <- app_assoc, <- fmap_app, <- List.filter_app. done.
Qed.

(** X2.  When [render] completes on a fresh layout, [fields_list] holds, in
    the order of the descriptors, one entry for every field, every
    Section Break and every Column Break that has a fieldname, each with
    its descriptor as df; Folds and Column Breaks without a fieldname are
    not listed.  With a dashboard the Section Break that the layout puts
    in front of [this.fields] is listed as well. *)
Theorem fields_list_order (fs : list DocField) (dash : bool)
    (fm : option Frm) (d : option Doc) (L : Layout) :
  render None (init fs dash fm d) = (L, Ok tt) →
  fields L = rendered_fields fs dash ∧
  df_of L <$> fields_list L = Some <$> List.filter listed (fields L).
Proof.
  unfold render. cbv zeta.
  set (L0 := set_column None (set_section None (init fs dash fm d))).
  assert (HB0 : built L0) by apply built_reset, built_init.
  set (L1 := if with_dashboard L0 then setup_dashboard_section L0 else L0).
  assert (Hf1 : fields L1 = rendered_fields fs dash).
  { unfold L1. change (with_dashboard L0) with dash.
    unfold rendered_fields, setup_dashboard_section.
    destruct dash; [| done].
    change (no_opening_section L0) with
      match fs with [] => true | df :: _ => negb (is_section_break df) end.
    cbn [andb]. by destruct (match fs with [] => _ | _ => _ end). }
  assert (HB1 : built L1).
  { unfold L1, setup_dashboard_section.
    destruct (with_dashboard L0); [| done].
    destruct (no_opening_section L0); [| done]. by apply built_set_fields. }
  assert (Hl1 : fields_list L1 = []).
  { unfold L1, setup_dashboard_section.
    destruct (with_dashboard L0); [| done].
    by destruct (no_opening_section L0). }
  set (L2 := if no_opening_section L1 then make_section None L1 else L1).
  assert (HB2 : built L2).
  { unfold L2. destruct (no_opening_section L1); [| done].
    by apply built_make_section. }
  assert (Hl2 : df_of L2 <$> fields_list L2 = []).
  { unfold L2. destruct (no_opening_section L1).
    - rewrite listing_make_section by done. by rewrite Hl1.
    - by rewrite Hl1. }
  assert (Hf2 : fields L2 = fields L1).
  { unfold L2. destruct (no_opening_section L1); [| done].
    by destruct (make_section_spec None L1)
      as (_ & _ & _ & _ & _ & _ & _ & Hf & _). }
  intros H.
  rewrite (fields_render_loop _ _ _ _ H), Hf2. split; [done |].
  by rewrite (listing_render_loop _ _ _ HB2 H), Hl2.
Qed.

Lemma fields_list_order_witness :
  let fs := [plain_df "A" "Data"; plain_df "" "Column Break";
             plain_df "more" "Fold"; plain_df "sb" "Section Break";
             plain_df "cb" "Column Break"; plain_df "B" "Data"] in
  let L := fst (render None (init fs true None None)) in
  fields L = section_break_df :: fs ∧
  df_of L <$> fields_list L =
    [Some section_break_df; Some (plain_df "A" "Data");
     Some (plain_df "sb" "Section Break"); Some (plain_df "cb" "Column Break");
     Some (plain_df "B" "Data")].
Proof.
  cbv zeta.
  set (fs := [plain_df "A" "Data"; plain_df "" "Column Break";
              plain_df "more" "Fold"; plain_df "sb" "Section Break";
              plain_df "cb" "Column Break"; plain_df "B" "Data"]).
  assert (Hrun : render None (init fs true None None)
                 = (fst (render None (init fs true None None)), Ok tt))
    by (vm_compute; reflexivity).
  destruct (fields_list_order fs true None None _ Hrun) as [Hf Hl].
  assert (Hr : rendered_fields fs true = section_break_df :: fs)
    by (vm_compute; reflexivity).
  split; [by rewrite Hf, Hr |].
  rewrite Hl, Hf, Hr. vm_compute; reflexivity.
Defined.

(** X3.  After [render], whether it completed or not, looking a name up
    in [fields_dict] gives the last entry of [fields_list] that is a field
    or a section registered under that name (a section or field without a
    fieldname under the key [undefined]); a name borne only by Column
    Breaks is not found, since columns are pushed on [fields_list] but
    never registered. *)
Theorem fields_dict_lookup (nf : option (list DocField)) (fs : list DocField)
    (dash : bool) (fm : option Frm) (d : option Doc) (k : string) :
  fields_dict (fst (render nf (init fs dash fm d))) !! k =
    last_named (fst (render nf (init fs dash fm d))) k.
Proof.
  destruct (render nf (init fs dash fm d)) as [L r] eqn:H.
  destruct (built_render nf _ L r (built_init fs dash fm d) H) as (_ & Hd & _).
  apply Hd.
Qed.

(** X4.  After [render], every control lies in an existing section and in
    a column of that same section, and the [fields_list] of a section
    holds exactly the controls whose [section] it is, each once, in the
    order of their creation. *)
Theorem controls_in_sections (nf : option (list DocField))
    (fs : list DocField) (dash : bool) (fm : option Frm) (d : option Doc) :
  let L := fst (render nf (init fs dash fm d)) in
  (∀ j c, controls L !! j = Some c →
     c_section c < length (sections L) ∧
     col_section <$> columns L !! c_column c = Some (c_section c)) ∧
  (∀ i s, sections L !! i = Some s →
     s_fields_list s = controls_of_section L i).
Proof.
  cbv zeta. destruct (render nf (init fs dash fm d)) as [L r] eqn:H.
  destruct (built_render nf _ L r (built_init fs dash fm d) H)
    as (_ & _ & Hcp & Hsl & _).
  split; [exact Hcp | exact Hsl].
Qed.

Lemma continues_refl L : continues L L.
Proof. by repeat split. Qed.

Lemma continues_trans L1 L2 L3 :
  continues L1 L2 → continues L2 L3 → continues L1 L3.
Proof.
  intros (A1 & A2 & A3 & A4 & A5 & A6) (B1 & B2 & B3 & B4 & B5 & B6).
  split; [by etrans |]. split; [by etrans |]. split; [by etrans |].
  split; [lia |]. split; congruence.
Qed.

Lemma step_make_section n0 m0 df L :
  made_since n0 m0 L →
  made_since n0 m0 (make_section df L) ∧ continues L (make_section df L).
Proof.
  intros (H1 & H2 & H3).
  destruct (make_section_spec df L)
    as ((sec & Hsec & _) & Hc & Hk & Hs & _ & Hfl & _ & Hf & _ & _ & Hwd).
  split.
  - split; [rewrite Hsec, length_app; lia |]. split.
    + intros sid. rewrite Hs. intros [= <-]. done.
    + intros j c. rewrite Hc. apply H3.
  - split; [by rewrite Hc |]. split; [by rewrite Hk |].
    split; [rewrite Hfl; by apply prefix_app_r |].
    split; [rewrite Hsec, length_app; lia | done].
Qed.

Lemma step_make_column n0 m0 df L L' r :
  made_since n0 m0 L → make_column df L = (L', r) →
  made_since n0 m0 L' ∧ continues L L'.
Proof.
  intros HM H. destruct (section L) as [sid |] eqn:Hsid.
  2: { rewrite (make_column_null _ _ Hsid) in H. inversion H; subst.
       split; [done | apply continues_refl]. }
  destruct (make_column_spec df L sid Hsid)
    as (L1 & Hrun & (col & Hcols & _) & Hc & Hs & Hsec & _ & Hfl & _ & Hf & _
        & _ & Hwd).
  rewrite Hrun in H. inversion H; subst L1 r. clear H.
  destruct HM as (H1 & H2 & H3). split.
  - split; [by rewrite Hs |]. split.
    + intros sid'. rewrite Hsec. intros [= <-]. by apply H2.
    + intros j c. rewrite Hc. apply H3.
  - split; [by rewrite Hc |].
    split; [rewrite Hcols; by apply prefix_app_r |].
    split; [rewrite Hfl; by apply prefix_app_r |].
    split; [by rewrite Hs | done].
Qed.

Lemma step_place_field n0 m0 df L L' r :
  (m0 ≤ length (controls L))%nat →
  made_since n0 m0 L → place_field df L = (L', r) →
  made_since n0 m0 L' ∧ continues L L'.
Proof.
  intros Hm HM H.
  destruct (section L) as [sid |] eqn:Hsid, (column L) as [cid |] eqn:Hcid;
    try (unfold place_field in H; rewrite Hsid, ?Hcid in H; inversion H; subst;
         split; [done | apply continues_refl]).
  destruct (place_field_spec df L sid cid Hsid Hcid)
    as (L1 & Hrun & Hc & Hk & Hs & Hsec & _ & Hfl & _ & Hf & _ & _ & Hwd).
  rewrite Hrun in H. inversion H; subst L1 r. clear H.
  destruct HM as (H1 & H2 & H3).
  assert (Hlen : length (sections L') = length (sections L))
    by (rewrite Hs; apply length_alter).
  split.
  - split; [by rewrite Hlen |]. split.
    + intros sid'. rewrite Hsec. intros [= <-]. by apply H2.
    + intros j c. rewrite Hc. intros Hj Hge.
      apply lookup_app_Some in Hj as [Hj | [_ Hj]]; [by apply (H3 j c) |].
      destruct (j - length (controls L)) as [| n]; [| done].
      simpl in Hj. inversion Hj; subst c. cbn [c_section init_field].
      by apply H2.
  - split; [rewrite Hc; by apply prefix_app_r |].
    split; [by rewrite Hk |].
    split; [rewrite Hfl; by apply prefix_app_r |].
    split; [by rewrite Hlen | done].
Qed.

Lemma step_make_page n0 m0 L :
  made_since n0 m0 L →
  made_since n0 m0 (make_page L) ∧ continues L (make_page L).
Proof.
  intros (H1 & H2 & H3). split; [| by repeat split].
  split; [done |]. split; [| done]. intros sid. discriminate.
Qed.

Lemma continues_controls L L' :
  continues L L' → (length (controls L) ≤ length (controls L'))%nat.
Proof. intros ([k Hk] & _). rewrite Hk, length_app. lia. Qed.

Lemma step_make_field n0 m0 df L L' r :
  (m0 ≤ length (controls L))%nat →
  made_since n0 m0 L → make_field df L = (L', r) →
  made_since n0 m0 L' ∧ continues L L'.
Proof.
  intros Hm HM. unfold make_field, bind.
  assert (H1 : ∃ L1, ensure_section L = (L1, Ok tt) ∧ made_since n0 m0 L1
                     ∧ continues L L1).
  { unfold ensure_section. destruct (section L).
    - exists L. split; [done |]. split; [done | apply continues_refl].
    - eexists. split; [reflexivity |]. by apply step_make_section. }
  destruct H1 as (L1 & -> & HM1 & Hc1).
  destruct (ensure_column L1) as [L2 r2] eqn:H2.
  assert (H2' : made_since n0 m0 L2 ∧ continues L1 L2).
  { unfold ensure_column in H2. destruct (column L1).
    - inversion H2; subst. split; [done | apply continues_refl].
    - by eapply step_make_column. }
  destruct H2' as [HM2 Hc2].
  pose proof (continues_trans _ _ _ Hc1 Hc2) as Hc12.
  destruct r2 as [[] | e].
  - intros H.
    destruct (step_place_field n0 m0 df L2 L' r) as [HM3 Hc3]; try done.
    { pose proof (continues_controls _ _ Hc12). lia. }
    split; [done |]. by eapply continues_trans.
  - intros H. inversion H; subst. done.
Qed.

Lemma step_render_one n0 m0 df L L' r :
  (m0 ≤ length (controls L))%nat →
  made_since n0 m0 L → render_one df L = (L', r) →
  made_since n0 m0 L' ∧ continues L L'.
Proof.
  intros Hm HM. destruct (kind_cases df) as [Hk | [Hk | [Hk | Hk]]].
  - rewrite (render_one_fold df Hk). intros H. inversion H; subst.
    by apply step_make_page.
  - rewrite (render_one_section df Hk). intros H. inversion H; subst.
    by apply step_make_section.
  - rewrite (render_one_column df Hk). by apply step_make_column.
  - rewrite (render_one_field df Hk). by apply step_make_field.
Qed.

Lemma step_render_loop n0 m0 fs L L' r :
  (m0 ≤ length (controls L))%nat →
  made_since n0 m0 L → for_each render_one fs L = (L', r) →
  made_since n0 m0 L' ∧ continues L L'.
Proof.
  revert L. induction fs as [| df fs IH]; intros L Hm HM H.
  - inversion H; subst. split; [done | apply continues_refl].
  - cbn [for_each] in H. unfold bind in H.
    destruct (render_one df L) as [L1 r1] eqn:H1.
    destruct (step_render_one n0 m0 df L L1 r1 Hm HM H1) as [HM1 Hc1].
    destruct r1 as [[] | e].
    + destruct (IH L1) as [HM' Hc']; try done.
      { pose proof (continues_controls _ _ Hc1). lia. }
      split; [done |]. by eapply continues_trans.
    + by inversion H; subst.
Qed.

(** A second [render] continues the layout; what it makes goes into
    sections of its own. *)
Lemma render_continues nfs L L' r :
  render (Some nfs) L = (L', r) →
  no_opening_section L = false ∨ with_dashboard L = false →
  made_since (length (sections L)) (length (controls L)) L' ∧ continues L L'.
Proof.
  unfold render. cbv zeta. intros H Hno.
  set (L0 := set_column None (set_section None L)) in *.
  set (L1 := if with_dashboard L0 then setup_dashboard_section L0 else L0) in *.
  assert (H1 : L1 = L0).
  { unfold L1, setup_dashboard_section.
    change (with_dashboard L0) with (with_dashboard L).
    change (no_opening_section L0) with (no_opening_section L).
    destruct Hno as [-> | ->]; [by destruct (with_dashboard L) | done]. }
  rewrite H1 in H.
  assert (HM0 : made_since (length (sections L)) (length (controls L)) L0).
  { split; [done |]. split; [intros sid; discriminate |].
    intros j c Hj Hge. apply lookup_lt_Some in Hj.
    change (controls L0) with (controls L) in Hj. lia. }
  assert (Hc0 : continues L L0) by by repeat split.
  set (L2 := if no_opening_section L0 then make_section None L0 else L0) in *.
  assert (H2 : made_since (length (sections L)) (length (controls L)) L2
               ∧ continues L0 L2).
  { unfold L2. destruct (no_opening_section L0).
    - by apply step_make_section.
    - split; [done | apply continues_refl]. }
  destruct H2 as [HM2 Hc2].
  destruct (step_render_loop _ _ _ _ _ _
              (continues_controls _ _ (continues_trans _ _ _ Hc0 Hc2)) HM2 H)
    as [HM3 Hc3].
  split; [done |].
  eapply continues_trans; [exact Hc0 |]. by eapply continues_trans.
Qed.

Lemma render_grows nf L L' r :
  built L → render nf L = (L', r) → grows L L'.
Proof.
  intros HB. unfold render. cbv zeta.
  set (L0 := set_column None (set_section None L)).
  assert (HB0 : built L0) by by apply built_reset.
  set (L1 := if with_dashboard L0 then setup_dashboard_section L0 else L0).
  assert (Hg0 : ∀ X, grows L (set_fields X L0) ∧ grows L L0).
  { intros X. split; intros x df; by destruct x. }
  assert (HB1 : built L1 ∧ grows L L1).
  { unfold L1, setup_dashboard_section.
    destruct (with_dashboard L0); [| split; [done | exact (proj2 (Hg0 []))]].
    destruct (no_opening_section L0);
      [| split; [done | exact (proj2 (Hg0 []))]].
    split; [by apply built_set_fields | exact (proj1 (Hg0 _))]. }
  destruct HB1 as [HB1 Hg1].
  set (L2 := if no_opening_section L1 then make_section None L1 else L1).
  assert (HB2 : built L2 ∧ grows L1 L2).
  { unfold L2. destruct (no_opening_section L1);
      [| split; [done | apply grows_refl]].
    split; [by apply built_make_section | apply grows_make_section]. }
  destruct HB2 as [HB2 Hg2].
  intros H. destruct (built_render_loop _ _ _ _ HB2 H) as [_ Hg3].
  eapply grows_trans; [exact Hg1 |]. by eapply grows_trans.
Qed.

Lemma controls_of_section_old L L' i :
  controls L `prefix_of` controls L' →
  (∀ j c, controls L' !! j = Some c → (length (controls L) ≤ j)%nat →
     (i < c_section c)%nat) →
  controls_of_section L' i = controls_of_section L i.
Proof.
  intros [lc Hc] Hnew. unfold controls_of_section.
  rewrite Hc, length_app, seq_app, List.filter_app. rewrite <- Hc.
  rewrite (filter_none _ (seq _ (length lc))).
  - rewrite app_nil_r. apply List.filter_ext_in. intros j Hj.
    apply List.in_seq in Hj. rewrite Hc, lookup_app_l by lia. done.
  - intros j Hj. apply List.in_seq in Hj. apply bool_decide_eq_false_2.
    destruct (controls L' !! j) as [c |] eqn:Ec; [| done].
    simpl. intros [= Hcs]. pose proof (Hnew j c Ec). lia.
Qed.

Lemma quiet_refl L : quiet L L.
Proof. repeat split; try done. intros i s Hs. by exists s. Qed.

Lemma quiet_trans L1 L2 L3 : quiet L1 L2 → quiet L2 L3 → quiet L1 L3.
Proof.
  intros (A1 & A2 & A3 & A4 & A5 & A6) (B1 & B2 & B3 & B4 & B5 & B6).
  repeat split; try congruence.
  intros i s Hs. destruct (A6 i s Hs) as (s2 & Hs2 & Hd2 & Hl2).
  destruct (B6 i s2 Hs2) as (s3 & Hs3 & Hd3 & Hl3).
  exists s3. split; [done |]. split; congruence.
Qed.

Lemma quiet_section_refresh i L : quiet L (FormSection.refresh i L).
Proof.
  unfold FormSection.refresh. repeat split; try done.
  - lsimpl. apply length_alter.
  - intros j s Hs. lsimpl. destruct (decide (i = j)) as [-> | Hne].
    + eexists. rewrite list_lookup_alter_eq, Hs. split; [reflexivity |]. done.
    + exists s. by rewrite list_lookup_alter_ne.
Qed.

Lemma quiet_field_refresh r L : quiet L (field_refresh r L).
Proof.
  destruct r as [j | j | j]; cbn [field_refresh].
  - repeat split; try done. intros i s Hs. by exists s.
  - apply quiet_section_refresh.
  - unfold Column_refresh. destruct (columns L !! j);
      [apply quiet_section_refresh | apply quiet_refl].
Qed.

Lemma refresh_fields_step_layout default_of names x L :
  fst (refresh_fields_step default_of names x L) = L ∨
  fst (refresh_fields_step default_of names x L) = field_refresh x L.
Proof.
  unfold refresh_fields_step. destruct (df_of L x) as [df |]; [| by left].
  destruct (bool_decide _); [| by left].
  destruct (truthy (default_of df)); [destruct x |]; by right.
Qed.

Lemma quiet_refresh_each default_of names rs L L' r :
  refresh_each default_of names rs L = (L', r) → quiet L L'.
Proof.
  revert L L' r. induction rs as [| x rs IH]; intros L L' r H.
  - inversion H; subst. apply quiet_refl.
  - cbn [refresh_each] in H. unfold bind in H.
    destruct (refresh_fields_step default_of names x L) as [L1 r1] eqn:H1.
    assert (Hq1 : quiet L L1).
    { destruct (refresh_fields_step_layout default_of names x L) as [Hl | Hl];
        rewrite H1 in Hl; cbn [fst] in Hl; subst L1;
        [apply quiet_refl | apply quiet_field_refresh]. }
    destruct r1 as [c1 | e].
    + destruct (refresh_each default_of names rs L1) as [L2 r2] eqn:H2.
      pose proof (IH _ _ _ H2) as Hq2.
      destruct r2; inversion H; subst; by eapply quiet_trans.
    + by inversion H; subst.
Qed.

Lemma fields_after_render nf fs dash fm d :
  fields (fst (render nf (init fs dash fm d))) = rendered_fields fs dash ∧
  with_dashboard (fst (render nf (init fs dash fm d))) = dash.
Proof.
  unfold render. cbv zeta.
  set (L0 := set_column None (set_section None (init fs dash fm d))).
  set (L1 := if with_dashboard L0 then setup_dashboard_section L0 else L0).
  assert (Hf1 : fields L1 = rendered_fields fs dash ∧ with_dashboard L1 = dash).
  { unfold L1. change (with_dashboard L0) with dash.
    unfold rendered_fields, setup_dashboard_section.
    destruct dash; [| done].
    change (no_opening_section L0) with
      match fs with [] => true | df :: _ => negb (is_section_break df) end.
    cbn [andb]. by destruct (match fs with [] => _ | _ => _ end). }
  set (L2 := if no_opening_section L1 then make_section None L1 else L1).
  assert (Hf2 : fields L2 = fields L1 ∧ with_dashboard L2 = with_dashboard L1).
  { unfold L2. destruct (no_opening_section L1); [| done].
    by destruct (make_section_spec None L1)
      as (_ & _ & _ & _ & _ & _ & _ & Hf & _ & _ & Hw). }
  destruct (for_each render_one
              match nf with Some nf0 => nf0 | None => fields L1 end L2)
    as [L3 r3] eqn:H.
  assert (HM : made_since 0 0 L2).
  { split; [lia |]. split; intros; lia. }
  destruct (step_render_loop 0 0 _ _ _ _ (Nat.le_0_l _) HM H)
    as (_ & _ & _ & _ & _ & Hf3 & Hw3).
  cbn [fst]. destruct Hf1 as [Hf1 Hw1], Hf2 as [Hf2 Hw2].
  split; congruence.
Qed.

(** X5.  [add_fields] on a rendered layout, whatever its outcome, keeps
    [this.fields], the entries of [fields_list] and the controls that
    were there, and leaves every existing section with its df and its
    own list of controls; every control it makes lies in a section made
    by this call, never in a section that existed before. *)
Theorem add_fields_new_sections (default_of : DocField → Value)
    (fs nfs : list DocField) (dash : bool) (fm : option Frm)
    (d : option Doc) :
  let L := fst (render None (init fs dash fm d)) in
  let L' := fst (add_fields default_of nfs L) in
  fields L' = fields L ∧
  fields_list L `prefix_of` fields_list L' ∧
  controls L `prefix_of` controls L' ∧
  (∀ i s, sections L !! i = Some s →
     ∃ s', sections L' !! i = Some s' ∧ s_df s' = s_df s ∧
           s_fields_list s' = s_fields_list s) ∧
  (∀ j c, controls L' !! j = Some c → (length (controls L) ≤ j)%nat →
     (length (sections L) ≤ c_section c)%nat).
Proof.
  cbv zeta.
  destruct (fields_after_render None fs dash fm d) as [Hf Hw].
  destruct (render None (init fs dash fm d)) as [L r] eqn:Hr. cbn [fst] in *.
  pose proof (built_render None _ L r (built_init fs dash fm d) Hr) as HB.
  assert (Hno : no_opening_section L = false ∨ with_dashboard L = false).
  { rewrite Hw. destruct dash; [left | by right].
    unfold no_opening_section. rewrite Hf. unfold rendered_fields.
    cbn [andb]. destruct fs as [| df fs]; [done |].
    destruct (is_section_break df) eqn:Hsb; cbn [negb]; [| done].
    unfold is_section_break in Hsb. by rewrite Hsb. }
  unfold add_fields, bind.
  destruct (render (Some nfs) L) as [L1 r1] eqn:H1.
  destruct (render_continues nfs L L1 r1 H1 Hno)
    as [(HM1 & HM2 & HM3) (Hc1 & Hc2 & Hc3 & Hc4 & Hc5 & _)].
  pose proof (built_render _ _ _ _ HB H1) as HB1.
  pose proof (render_grows _ _ _ _ HB H1) as Hg1.
  assert (Hq : quiet L1 (fst match r1 with
                             | Ok _ => refresh_fields default_of nfs L1
                             | Raise e => (L1, Raise e)
                             end)).
  { destruct r1 as [[] | e]; [| apply quiet_refl].
    unfold refresh_fields.
    destruct (refresh_each default_of (fieldnames_of nfs) (fields_list L1) L1)
      as [L2 r2] eqn:H2.
    by eapply quiet_refresh_each. }
  destruct Hq as (Q1 & Q2 & Q3 & Q4 & Q5 & Q6).
  split; [congruence |]. split; [by rewrite Q3 |]. split; [by rewrite Q1 |].
  split.
  - intros i s Hs.
    assert (Hlt : (i < length (sections L))%nat) by by eapply lookup_lt_Some.
    assert (Hdf : df_of L1 (RSection i) = Some (s_df s)).
    { apply Hg1. unfold df_of. by rewrite Hs. }
    unfold df_of in Hdf.
    destruct (sections L1 !! i) as [s1 |] eqn:Hs1; [| done].
    simpl in Hdf. inversion Hdf as [Hdf1].
    destruct (Q6 i s1 Hs1) as (s' & Hs' & Hd' & Hl').
    exists s'. split; [done |]. split; [congruence |].
    destruct HB as (_ & _ & _ & Hsl & _), HB1 as (_ & _ & _ & Hsl1 & _).
    rewrite Hl', (Hsl1 i s1 Hs1), (Hsl i s Hs).
    apply controls_of_section_old; [done |].
    intros j c Hj Hge. pose proof (HM3 j c Hj Hge). lia.
  - intros j c. rewrite Q1. apply HM3.
Qed.

Lemma matches_ext names L L' :
  (∀ r, df_of L' r = df_of L r) →
  ∀ rs, List.filter (matches names L') rs = List.filter (matches names L) rs.
Proof.
  intros H rs. apply List.filter_ext. intros r. unfold matches. by rewrite H.
Qed.

Lemma refresh_events_columns L L' r :
  columns L' = columns L → refresh_events L' r = refresh_events L r.
Proof. intros H. destruct r; try done. unfold refresh_events. by rewrite H. Qed.

Lemma refresh_each_effect default_of names rs L L' calls :
  refresh_each default_of names rs L = (L', Ok calls) →
  log L' = (log L ++ concat (refresh_events L <$>
                               List.filter (matches names L) rs))%list ∧
  calls = omap (default_call default_of L) (List.filter (matches names L) rs) ∧
  (∀ r, df_of L' r = df_of L r).
Proof.
  revert L L' calls. induction rs as [| x rs IH]; intros L L' calls H.
  - inversion H; subst. cbn. by rewrite app_nil_r.
  - cbn [refresh_each] in H. unfold bind in H.
    destruct (refresh_fields_step default_of names x L) as [L1 [c1 | e]] eqn:H1;
      [| discriminate].
    destruct (refresh_each default_of names rs L1) as [L2 [c2 | e]] eqn:H2;
      [| discriminate].
    inversion H; subst L2 calls. clear H.
    destruct (IH _ _ _ H2) as (Hlog & Hcalls & Hdf).
    assert (Hstep : (∀ r, df_of L1 r = df_of L r) ∧ columns L1 = columns L ∧
              log L1 = (log L ++ if matches names L x
                                 then refresh_events L x else [])%list ∧
              c1 = if matches names L x
                   then match default_call default_of L x with
                        | Some c => [c]
                        | None => []
                        end
                   else []).
    { unfold refresh_fields_step in H1. unfold matches, default_call.
      destruct (df_of L x) as [df |] eqn:Edf.
      - destruct (bool_decide (fieldname df ∈ names)).
        + assert (Hfr : (∀ r, df_of (field_refresh x L) r = df_of L r) ∧
                    columns (field_refresh x L) = columns L ∧
                    log (field_refresh x L) = (log L ++ refresh_events L x)%list).
          { split; [intros r; apply df_of_field_refresh |].
            split; [by destruct (quiet_field_refresh x L) as (_ & ? & _) |].
            apply log_field_refresh. }
          destruct Hfr as (F1 & F2 & F3).
          destruct (truthy (default_of df)).
          * destruct x; inversion H1; subst; done.
          * inversion H1; subst; done.
        + inversion H1; subst. by rewrite app_nil_r.
      - inversion H1; subst. by rewrite app_nil_r. }
    destruct Hstep as (S1 & S2 & S3 & S4).
    rewrite (matches_ext names L L1 S1) in Hlog, Hcalls.
    assert (Hev : ∀ l : list FieldRef,
              refresh_events L1 <$> l = refresh_events L <$> l).
    { intros l. apply list_fmap_ext. intros i r _.
      by apply refresh_events_columns. }
    assert (Hdc : ∀ l : list FieldRef,
              omap (default_call default_of L1) l
              = omap (default_call default_of L) l).
    { assert (Hp : ∀ r, default_call default_of L1 r
                        = default_call default_of L r)
        by (intros r; unfold default_call; by rewrite S1).
      intros l. induction l as [| r l IHl]; [done |]. cbn [omap list_omap].
      by rewrite Hp, IHl. }
    rewrite Hev in Hlog. rewrite Hdc in Hcalls.
    split; [| split].
    + rewrite Hlog, S3. cbn [List.filter].
      destruct (matches names L x); cbn [fmap list_fmap concat];
        by rewrite <- ?app_assoc, ?app_nil_r.
    + rewrite Hcalls, S4. cbn [List.filter].
      destruct (matches names L x); [| done]. cbn [omap list_omap].
      by destruct (default_call default_of L x).
    + intros r. by rewrite Hdf, S1.
Qed.

(** X6.  A [refresh_fields] that completes has refreshed, once each and in
    the order of [fields_list], exactly the entries whose fieldname is
    among the fieldnames of the given descriptors (an entry without a
    fieldname when one of the descriptors has none), has set the input of
    those of them whose df has a default, and has changed no df, no
    control and no entry of [fields_list]. *)
Theorem refresh_fields_effect (default_of : DocField → Value)
    (fs : list DocField) (L L' : Layout) (calls : list InputCall) :
  refresh_fields default_of fs L = (L', Ok calls) →
  new_events L L' =
    concat (refresh_events L <$> matching (fieldnames_of fs) L) ∧
  calls = omap (default_call default_of L) (matching (fieldnames_of fs) L) ∧
  (∀ r, df_of L' r = df_of L r) ∧
  controls L' = controls L ∧ fields_list L' = fields_list L.
Proof.
  unfold refresh_fields. intros H.
  destruct (refresh_each_effect _ _ _ _ _ _ H) as (Hlog & Hcalls & Hdf).
  destruct (quiet_refresh_each _ _ _ _ _ _ H) as (Q1 & _ & Q3 & _).
  split; [by apply new_events_app |]. by repeat split.
Qed.

Lemma refresh_fields_effect_witness :
  let fs := [plain_df "B" "Data"; plain_df "sb" "Section Break";
             plain_df "unknown" "Data"] in
  let L' := fst (refresh_fields default_for_B fs two_field_layout) in
  new_events two_field_layout L' = [EvSectionRefresh 1; EvRefresh (RControl 1)] ∧
  snd (refresh_fields default_for_B fs two_field_layout)
    = Ok [SetInput (RControl 1) (VStr "x")].
Proof.
  cbv zeta.
  set (fs := [plain_df "B" "Data"; plain_df "sb" "Section Break";
              plain_df "unknown" "Data"]).
  assert (Hrun : refresh_fields default_for_B fs two_field_layout
                 = (fst (refresh_fields default_for_B fs two_field_layout),
                    Ok [SetInput (RControl 1) (VStr "x")]))
    by (vm_compute; reflexivity).
  destruct (refresh_fields_effect default_for_B fs two_field_layout _ _ Hrun)
    as (Hev & _).
  assert (Hm : concat (refresh_events two_field_layout <$>
                         matching (fieldnames_of fs) two_field_layout)
               = [EvSectionRefresh 1; EvRefresh (RControl 1)])
    by (vm_compute; reflexivity).
  split; [by rewrite Hev, Hm |].
  by rewrite Hrun.
Defined.

Lemma emit_all_same_state (l : list nat) (g : nat → Event) L :
  same_state (fold_left (λ L' j, emit (g j) L') l L) L.
Proof.
  apply same_state_parts.
  destruct (emit_all_frame l g L) as [H1 H2]. cbv zeta in H1, H2. by split.
Qed.

Lemma collapse_click_sections i L :
  sections (FormSection.collapse i None L) =
    match sections L !! i with
    | Some s => if s_head s
                then alter (set_s_body_hide (negb (s_body_hide s))) i
                       (sections L)
                else sections L
    | None => sections L
    end.
Proof.
  unfold FormSection.collapse.
  destruct (sections L !! i) as [s |]; [| done].
  destruct (s_head s); simpl; [| done].
  match goal with |- sections (fold_left _ ?l ?L0) = _ =>
    destruct (emit_all_frame l (λ j, EvRefresh (RControl j)) L0) as [_ ->]
  end.
  done.
Qed.

Lemma collapse_click_twice i L :
  same_state (FormSection.collapse i None (FormSection.collapse i None L)) L.
Proof.
  apply same_state_parts. split; [by rewrite !collapse_frame |].
  rewrite collapse_click_sections.
  destruct (sections (FormSection.collapse i None L) !! i) as [s1 |] eqn:H1.
  - rewrite collapse_click_sections in H1 |- *.
    destruct (sections L !! i) as [s |] eqn:Hs.
    + destruct (s_head s) eqn:Hh.
      * rewrite list_lookup_alter_eq, Hs in H1. simpl in H1.
        inversion H1; subst s1. cbn [s_head set_s_body_hide]. rewrite Hh.
        apply list_eq. intros j. destruct (decide (i = j)) as [-> | Hne].
        -- rewrite !list_lookup_alter_eq, Hs. simpl. f_equal.
           cbn [s_body_hide set_s_body_hide]. rewrite negb_involutive.
           by destruct s.
        -- by rewrite !list_lookup_alter_ne.
      * rewrite Hs in H1. inversion H1; subst s1. by rewrite Hh.
    + by rewrite Hs in H1.
  - rewrite collapse_click_sections in H1 |- *.
    destruct (sections L !! i) as [s |] eqn:Hs; [| done].
    destruct (s_head s); [| done].
    by rewrite list_lookup_alter_eq, Hs in H1.
Qed.

(** X7.  A click on the head of a section that has a head and whose df is
    collapsible inverts the collapsed state of that section; on a section
    without a head, or whose df is not collapsible (no handler was bound),
    a click changes nothing.  In either case every other section is left
    as it is, and a second click brings the layout back to what it was,
    the log of events apart. *)
Theorem head_click_toggles (i : nat) (L : Layout) :
  (∀ s, sections L !! i = Some s →
     s_head s = true → collapsible (s_df s) = true →
     collapsed_at (head_click i L) i
       = Some (negb (FormSection.is_collapsed s))) ∧
  (∀ s, sections L !! i = Some s →
     s_head s = false ∨ collapsible (s_df s) = false →
     head_click i L = L) ∧
  (∀ j, j ≠ i → sections (head_click i L) !! j = sections L !! j) ∧
  same_state (head_click i (head_click i L)) L.
Proof.
  destruct (sections L !! i) as [s |] eqn:Hs.
  2:{ assert (H0 : head_click i L = L)
        by (unfold head_click; by rewrite Hs).
      rewrite !H0. by repeat split. }
  destruct (s_head s && collapsible (s_df s)) eqn:Hb.
  - assert (H1 : head_click i L = FormSection.collapse i None L)
      by (unfold head_click; by rewrite Hs, Hb).
    apply andb_true_iff in Hb as [Hh Hc].
    assert (Hs1 : sections (FormSection.collapse i None L) !! i
                  = Some (set_s_body_hide (negb (s_body_hide s)) s)).
    { rewrite collapse_click_sections, Hs, Hh, list_lookup_alter_eq, Hs.
      done. }
    assert (H2 : head_click i (FormSection.collapse i None L)
                 = FormSection.collapse i None (FormSection.collapse i None L)).
    { unfold head_click. rewrite Hs1. cbn [s_head s_df set_s_body_hide].
      by rewrite Hh, Hc. }
    rewrite !H1, H2. split; [| split; [| split]].
    + intros s0 [= <-] _ _. unfold collapsed_at. by rewrite Hs1.
    + intros s0 [= <-] [H | H]; congruence.
    + intros j Hne. rewrite collapse_click_sections, Hs, Hh.
      by rewrite list_lookup_alter_ne.
    + apply collapse_click_twice.
  - assert (H1 : head_click i L = L)
      by (unfold head_click; by rewrite Hs, Hb).
    rewrite !H1. split; [| split; [| split]]; try done.
    intros s0 [= <-] Hh Hc. by rewrite Hh, Hc in Hb.
Qed.

Lemma sec_rest_attach b L i :
  sec_rest (attach_doc_and_docfields b L) i = sec_rest L i.
Proof.
  unfold attach_doc_and_docfields. generalize (fields_list L) as rs.
  intros rs. revert L. induction rs as [| r rs IH]; intros L; [done |].
  cbn [fold_left]. rewrite IH. destruct b; [| done].
  apply sec_rest_field_refresh.
Qed.

Lemma sec_rest_body L L' i :
  sec_rest L' i = sec_rest L i → collapsed_at L' i = collapsed_at L i.
Proof.
  unfold sec_rest, collapsed_at, FormSection.is_collapsed.
  destruct (sections L' !! i), (sections L !! i); simpl; congruence.
Qed.

Lemma collapsed_at_refresh_sections L i :
  collapsed_at (refresh_sections L) i = collapsed_at L i.
Proof.
  unfold collapsed_at. rewrite sections_refresh_sections.
  destruct (sections L !! i) as [s |]; [| done]. simpl.
  destruct (s_hide_control s); [done |]. by destruct (has_shown_control L i).
Qed.

Lemma frame_recomputed L L' i :
  frame L = frame L' →
  recomputed <$> sections L !! i = recomputed <$> sections L' !! i.
Proof.
  intros H.
  pose proof (f_equal (λ X, recomputed <$> sections X !! i) H) as Hc.
  unfold frame in Hc. lsimpl_in Hc. rewrite !list_lookup_fmap in Hc.
  assert (Hst : ∀ s, recomputed (section_static s) = recomputed s) by done.
  destruct (sections L !! i), (sections L' !! i); simpl in *;
    rewrite ?Hst in Hc; congruence.
Qed.

Lemma frame_rebind_sections nd L i :
  recomputed <$> sections (rebind nd L) !! i = recomputed <$> sections L !! i.
Proof. by destruct nd. Qed.

Lemma collapse_loop_skips env js L L' r i :
  for_each (collapse_step env) js L = (L', r) →
  (∀ s, sections L !! i = Some s → recomputed s = false) →
  sections L' !! i = sections L !! i.
Proof.
  revert L. induction js as [| j js IH]; intros L H Hi.
  - by inversion H.
  - simpl in H. unfold bind in H.
    destruct (collapse_step env j L) as [L1 r1] eqn:Hstep.
    assert (H1 : sections L1 !! i = sections L !! i).
    { destruct (decide (i = j)) as [-> | Hne].
      - rewrite collapse_step_decision in Hstep.
        unfold collapse_decision in Hstep.
        destruct (sections L !! j) as [s |] eqn:Hs;
          [| inversion Hstep; subst; by rewrite Hs].
        pose proof (Hi s eq_refl) as Hrec. unfold recomputed in Hrec.
        destruct (collapsible (s_df s)); [| by inversion Hstep; subst].
        cbn [andb] in Hrec.
        destruct (match declarative_collapse env L (s_df s) with
                  | Ok true =>
                      match FormSection.has_missing_mandatory L s with
                      | Ok missing => Ok (negb missing)
                      | Raise ex => Raise ex
                      end
                  | Ok false => Ok false
                  | Raise ex => Raise ex
                  end) as [h | ex]; inversion Hstep; subst; [| done].
        by rewrite collapse_sections, Hs, Hrec.
      - destruct (collapse_step_frame _ _ _ _ _ Hstep) as (_ & _ & Hne' & _).
        by apply Hne'. }
    destruct r1 as [[] | ex].
    + rewrite (IH _ H); [done |]. by rewrite H1.
    + by inversion H; subst.
Qed.

(** X8.  A refresh, whatever its outcome, leaves the collapsed state of a
    section as it was when the layout has no form, when the section is
    not collapsible, or when it has no head: only the collapsible sections
    with a head of a layout in a form are collapsed or expanded by a
    refresh. *)
Theorem refresh_collapse_scope (env : Env) (new_doc : option Doc)
    (L L' : Layout) (r : result unit) :
  refresh env new_doc L = (L', r) →
  ∀ i s, sections L !! i = Some s →
    frm L = None ∨ collapsible (s_df s) = false ∨ s_head s = false →
    collapsed_at L' i = Some (FormSection.is_collapsed s).
Proof.
  rewrite refresh_unfold. cbv zeta.
  set (L0 := rebind new_doc L).
  set (La := attach_doc_and_docfields true L0).
  intros H i s Hs Hwhy.
  assert (Hstart : collapsed_at L i = Some (FormSection.is_collapsed s))
    by (unfold collapsed_at; by rewrite Hs).
  assert (Ha : collapsed_at La i = collapsed_at L i).
  { unfold La. rewrite (sec_rest_body L0 _ i (sec_rest_attach true L0 i)).
    unfold L0. by destruct new_doc. }
  assert (Hfa : frame La = frame L0) by apply attach_frame.
  assert (Hfrm : frm La = frm L).
  { rewrite (frame_frm La L0 Hfa). unfold L0. apply rebind_frm. }
  destruct (refresh_dependency env La) as [Lc rc] eqn:Hdep.
  assert (Hc : collapsed_at Lc i = collapsed_at La i)
    by (apply sec_rest_body; by eapply sec_rest_refresh_dependency).
  assert (Hfc : frame Lc = frame La) by by eapply refresh_dependency_frame.
  destruct rc as [[] | ex]; [| inversion H; subst; congruence].
  rewrite Hfrm in H.
  pose proof (collapsed_at_refresh_sections Lc i) as Hr.
  destruct (frm L) as [fm |] eqn:Efrm; [| inversion H; subst; congruence].
  destruct Hwhy as [Hno | Hwhy]; [discriminate |].
  assert (Hrec : recomputed s = false).
  { unfold recomputed. destruct Hwhy as [-> | ->]; [done |].
    apply andb_false_r. }
  assert (Hrs : recomputed <$> sections (refresh_sections Lc) !! i = Some false).
  { rewrite (frame_recomputed _ _ i (frame_refresh_sections Lc)).
    rewrite (frame_recomputed _ _ i Hfc), (frame_recomputed _ _ i Hfa).
    unfold L0. rewrite frame_rebind_sections, Hs. simpl. by rewrite Hrec. }
  unfold refresh_section_collapse in H.
  rewrite <- Hstart, <- Ha, <- Hc, <- Hr. unfold collapsed_at.
  rewrite (collapse_loop_skips _ _ _ _ _ i H); [done |].
  intros s1 Hs1. rewrite Hs1 in Hrs. simpl in Hrs. congruence.
Qed.

Lemma refresh_collapse_scope_witness :
  collapsed_at clicked_dialog 0 = Some true ∧
  collapsed_at (fst (refresh std_env None clicked_dialog)) 0 = Some true.
Proof.
  assert (Hs : sections clicked_dialog !! 0
               = Some (set_s_body_hide true details_section))
    by (vm_compute; reflexivity).
  assert (Hrun : refresh std_env None clicked_dialog
                 = (fst (refresh std_env None clicked_dialog), Ok tt))
    by (vm_compute; reflexivity).
  assert (Hfrm : frm clicked_dialog = None) by (vm_compute; reflexivity).
  split; [unfold collapsed_at; by rewrite Hs |].
  exact (refresh_collapse_scope std_env None clicked_dialog _ _ Hrun 0 _ Hs
           (or_introl Hfrm)).
Defined.

Lemma evaluate_no_doc env L e :
  resolve_doc L = None → evaluate_depends_on_value env L e = Ok VUndefined.
Proof. unfold evaluate_depends_on_value. by intros ->. Qed.

Lemma pass_plan_no_doc env L xs :
  resolve_doc L = None → snd (pass_plan env L xs) = None.
Proof.
  intros Hd. induction xs as [| x xs IH]; [done |].
  cbn [pass_plan]. apply seq_plan_none. split; [| done].
  unfold step_plan. destruct (df_of L x) as [df |]; [| done].
  apply seq_plan_none. split; [| apply seq_plan_none; split].
  - unfold flag_plan. destruct (depends_on df) as [e |]; [| done].
    destruct (expr_set (Some e)); [| done]. by rewrite evaluate_no_doc.
  - unfold prop_plan. destruct (mandatory_depends_on df) as [e |]; [| done].
    destruct (expr_set (Some e)); [| done]. by rewrite evaluate_no_doc.
  - unfold prop_plan. destruct (read_only_depends_on df) as [e |]; [| done].
    destruct (expr_set (Some e)); [| done]. by rewrite evaluate_no_doc.
Qed.

(** X9.  Without a document ([this.doc] unset and no [get_values]) the
    dependency pass completes whatever the expressions are, since
    [evaluate_depends_on_value] returns [undefined] before looking at
    them, and it leaves every field of [fields_list] whose [depends_on]
    is set hidden by dependency, the other fields keeping their flag. *)
Theorem no_document_pass (env : Env) (L : Layout) :
  resolve_doc L = None →
  ∃ L', refresh_dependency env L = (L', Ok tt) ∧
    ∀ r df, r ∈ fields_list L → df_of L r = Some df →
      flag_of L' r =
        Some (if expr_set (depends_on df) then true
              else hidden_due_to_dependency df).
Proof.
  intros Hd.
  assert (Hrun : ∃ L', refresh_dependency env L = (L', Ok tt)).
  { rewrite refresh_dependency_plan. destruct (negb (has_dep L));
      [by eexists |]. cbv zeta. rewrite pass_plan_no_doc by done.
    by eexists. }
  destruct Hrun as [L' Hrun]. exists L'. split; [done |].
  intros r df Hin Hdf.
  pose proof (dependency_flags env L L' r df Hrun Hin Hdf) as Hfl.
  destruct (expr_set (depends_on df)).
  - destruct Hfl as (e & v & _ & Hev & Hfl).
    rewrite evaluate_no_doc in Hev by done. inversion Hev; subst v. done.
  - rewrite Hfl. unfold flag_of. by rewrite Hdf.
Qed.

Lemma no_document_pass_witness :
  ∃ L', refresh_dependency std_env unbound_layout = (L', Ok tt) ∧
        flag_of L' (RControl 0) = Some true ∧
        flag_of L' (RControl 1) = Some false.
Proof.
  assert (Hd : resolve_doc unbound_layout = None) by (vm_compute; reflexivity).
  destruct (no_document_pass std_env unbound_layout Hd) as (L' & Hrun & Hfl).
  exists L'. split; [done |].
  assert (Hin : ∀ i, i < 2 → RControl i ∈ fields_list unbound_layout).
  { assert (Hl : fields_list unbound_layout = [RControl 0; RControl 1])
      by (vm_compute; reflexivity).
    rewrite Hl. intros i Hi. destruct i as [| [| i]]; [| | lia].
    - apply list_elem_of_here.
    - apply list_elem_of_further, list_elem_of_here. }
  assert (H0 : df_of unbound_layout (RControl 0)
               = Some (with_depends_on (EStr "eval:doc.status ==")
                         (plain_df "A" "Data")))
    by (vm_compute; reflexivity).
  assert (H1 : df_of unbound_layout (RControl 1) = Some (plain_df "B" "Data"))
    by (vm_compute; reflexivity).
  split.
  - by rewrite (Hfl _ _ (Hin 0 ltac:(lia)) H0).
  - by rewrite (Hfl _ _ (Hin 1 ltac:(lia)) H1).
Defined.

Lemma step_plan_no_form env L x c :
  form_obj L = None → c ∈ fst (step_plan env L x) → prim_loc c = DFlag.
Proof.
  intros Hfo. unfold step_plan. destruct (df_of L x) as [df |];
    [| by intros ?%elem_of_nil].
  assert (Hprop : ∀ e name p, fst (prop_plan env L e name p) = []).
  { intros e name p. unfold prop_plan. destruct e as [c0 |]; [| done].
    destruct (expr_set (Some c0)); [| done].
    destruct (evaluate_depends_on_value env L c0); [| done]. by rewrite Hfo. }
  intros Hc. apply seq_plan_elem in Hc as [Hc | [_ Hc]].
  - destruct (flag_plan_elem _ _ _ _ _ Hc) as (c0 & v & _ & _ & _ & ->). done.
  - apply seq_plan_elem in Hc as [Hc | [_ Hc]]; rewrite Hprop in Hc;
      by apply elem_of_nil in Hc.
Qed.

Lemma run_prims_flags_only cs L r p :
  (∀ c, c ∈ cs → prim_loc c = DFlag) →
  prop_of (run_prims cs L) r p = prop_of L r p.
Proof.
  revert L. induction cs as [| c cs IH]; intros L Hcs; [done |].
  unfold run_prims. cbn [fold_left]. fold (run_prims cs (run_prim c L)).
  rewrite IH by (intros c' Hc'; apply Hcs; by right).
  change (dloc_of (run_prim c L) r (DProp p) = dloc_of L r (DProp p)).
  rewrite dloc_run_prim. rewrite decide_False; [done |].
  intros [_ Hk]. rewrite (Hcs c) in Hk by by left. discriminate.
Qed.

Lemma form_obj_frm L : form_obj L = None → frm L = None.
Proof. unfold form_obj. by destruct (frm L). Qed.

(** X10.  In a layout that has no form and is neither a dialog nor a Web
    Form, a refresh, whatever its outcome, leaves [reqd] and [read_only]
    of every df as they were: [mandatory_depends_on] and
    [read_only_depends_on] are evaluated, but there is no object to set
    the property on. *)
Theorem no_form_keeps_properties (env : Env) (new_doc : option Doc)
    (L L' : Layout) (res : result unit) :
  form_obj L = None → refresh env new_doc L = (L', res) →
  ∀ r p, prop_of L' r p = prop_of L r p.
Proof.
  intros Hfo. rewrite refresh_unfold. cbv zeta.
  set (L0 := rebind new_doc L).
  set (La := attach_doc_and_docfields true L0).
  assert (Hfa : frame La = frame L0) by apply attach_frame.
  assert (Hfoa : form_obj La = None).
  { rewrite (frame_form_obj La L0 Hfa). unfold L0. by destruct new_doc. }
  assert (Hpa : ∀ r p, prop_of La r p = prop_of L r p).
  { intros r p. unfold prop_of, La, L0. by rewrite attach_df_of, rebind_df_of. }
  destruct (refresh_dependency env La) as [Lc rc] eqn:Hdep.
  assert (Hpc : ∀ r p, prop_of Lc r p = prop_of La r p).
  { intros r p. rewrite refresh_dependency_plan in Hdep.
    destruct (negb (has_dep La)); [by inversion Hdep |]. cbv zeta in Hdep.
    assert (Hcs : ∀ c, c ∈ fst (pass_plan env La (reverse (fields_list La))) →
                       prim_loc c = DFlag).
    { intros c Hc. apply pass_plan_elem in Hc as (x & _ & Hc).
      by eapply step_plan_no_form. }
    destruct (snd (pass_plan env La (reverse (fields_list La))));
      inversion Hdep; subst Lc; [| unfold prop_of; rewrite df_of_emit];
      by apply run_prims_flags_only. }
  destruct rc as [[] | ex].
  - intros H r p. pose proof (refresh_tail _ _ _ _ _ H) as Hsame.
    unfold prop_of at 1. rewrite (same_dfs_df_of _ _ r Hsame).
    fold (prop_of Lc r p). by rewrite Hpc, Hpa.
  - intros H r p. inversion H; subst. by rewrite Hpc, Hpa.
Qed.

Lemma no_form_keeps_properties_witness :
  prop_of bare_layout (RControl 0) P_reqd = Some false ∧
  prop_of (fst (refresh std_env None bare_layout)) (RControl 0) P_reqd
    = Some false.
Proof.
  assert (Hfo : form_obj bare_layout = None) by (vm_compute; reflexivity).
  assert (Hrun : refresh std_env None bare_layout
                 = (fst (refresh std_env None bare_layout), Ok tt))
    by (vm_compute; reflexivity).
  assert (H0 : prop_of bare_layout (RControl 0) P_reqd = Some false)
    by (vm_compute; reflexivity).
  split; [done |].
  by rewrite (no_form_keeps_properties std_env None bare_layout _ _ Hfo Hrun).
Defined.

Lemma next_field_none env i rest :
  next_field_from env i rest = None ↔ ∀ f, f ∈ rest → eligible env f = false.
Proof.
  revert i. induction rest as [| f rest IH]; intros i.
  - split; [intros _ f Hf; by apply elem_of_nil in Hf | done].
  - cbn [next_field_from]. unfold eligible at 1.
    destruct (is_visible f) eqn:Hv.
    + destruct (t_fieldtype f =? "Table")%string eqn:Ht.
      * split; [done |]. intros H.
        specialize (H f (list_elem_of_here _ _)). unfold eligible in H.
        by rewrite Hv, Ht in H.
      * destruct (in_list (no_value_type env) (t_fieldtype f)) eqn:Hn;
          cbn [negb].
        -- rewrite IH. split.
           ++ intros H g Hg. apply elem_of_cons in Hg as [-> | Hg];
                [| by apply H]. unfold eligible. by rewrite Hv, Ht, Hn.
           ++ intros H g Hg. apply H. by right.
        -- split; [done |]. intros H.
           specialize (H f (list_elem_of_here _ _)). unfold eligible in H.
           by rewrite Hv, Ht, Hn in H.
    + rewrite IH. split.
      * intros H g Hg. apply elem_of_cons in Hg as [-> | Hg]; [| by apply H].
        unfold eligible. by rewrite Hv.
      * intros H g Hg. apply H. by right.
Qed.

Lemma next_field_first env i l k g l' :
  (∀ f, f ∈ l → eligible env f = false) → eligible env g = true →
  length l = k →
  next_field_from env i (l ++ g :: l') = Some (forward_action (i + k) g).
Proof.
  revert i k. induction l as [| f l IH]; intros i k Hl Hg Hk.
  - subst k. cbn [app next_field_from length]. rewrite Nat.add_0_r.
    unfold eligible in Hg. apply andb_true_iff in Hg as [Hv Hg]. rewrite Hv.
    unfold forward_action.
    destruct (t_fieldtype g =? "Table")%string; [done |].
    cbn [orb] in Hg. by rewrite Hg.
  - cbn [app next_field_from]. subst k. cbn [length].
    pose proof (Hl f (list_elem_of_here _ _)) as Hf. unfold eligible in Hf.
    rewrite (IH (S i) (length l)); try done.
    2: { intros f' Hf'. apply Hl. by right. }
    replace (S i + length l) with (i + S (length l)) by lia.
    destruct (is_visible f); [| done]. cbn [andb] in Hf.
    destruct (t_fieldtype f =? "Table")%string; [done |]. cbn [orb] in Hf.
    by rewrite Hf.
Qed.

Lemma tab_loop_no_match env fs name shift i prev rest :
  (∀ f, f ∈ rest → t_fieldname f ≠ name) →
  tab_loop env fs name shift i prev rest = ([], false).
Proof.
  revert i prev. induction rest as [| f rest IH]; intros i prev H; [done |].
  cbn [tab_loop]. rewrite bool_decide_eq_false_2 by (apply H; by left).
  apply IH. intros g Hg. apply H. by right.
Qed.

(** Once the forward scan has found nothing, no later occurrence of the
    name finds anything either. *)
Lemma tab_loop_forward_none env pre rest name i prev :
  length pre = i →
  (∀ f, f ∈ rest → eligible env f = false) →
  tab_loop env (pre ++ rest) name false i prev rest = ([], false).
Proof.
  revert pre i prev. induction rest as [| f rest IH]; intros pre i prev Hi He;
    [done |].
  cbn [tab_loop].
  assert (Hcont : tab_loop env (pre ++ f :: rest) name false (S i)
                    (if is_visible f then Some i else prev) rest = ([], false)).
  { replace (pre ++ f :: rest)%list with ((pre ++ [f]) ++ rest)%list
      by by rewrite <- app_assoc.
    apply IH; [rewrite length_app; simpl; lia |].
    intros g Hg. apply He. by right. }
  rewrite Hcont.
  destruct (bool_decide (t_fieldname f = name)); [| done].
  destruct (i <? length (pre ++ f :: rest) - 1)%nat; [| done].
  unfold focus_on_next_field.
  replace (drop (S i) (pre ++ f :: rest)) with rest.
  2: { replace (pre ++ f :: rest)%list with ((pre ++ [f]) ++ rest)%list
         by by rewrite <- app_assoc.
       rewrite drop_app_length'; [done |]. rewrite length_app. simpl. lia. }
  assert (Hn : next_field_from env (S i) rest = None).
  { apply next_field_none. intros g Hg. apply He. by right. }
  by rewrite Hn.
Qed.

Lemma tab_loop_forward env pre l1 f l2 name i prev :
  length pre = i →
  (∀ g, g ∈ l1 → t_fieldname g ≠ name) → t_fieldname f = name →
  tab_loop env (pre ++ l1 ++ f :: l2) name false i prev (l1 ++ f :: l2) =
    match next_field_from env (S (i + length l1)) l2 with
    | Some a => ([a], true)
    | None => ([], false)
    end.
Proof.
  revert pre i prev. induction l1 as [| g l1 IH]; intros pre i prev Hi Hno Hf.
  - cbn [app tab_loop length]. rewrite Nat.add_0_r.
    rewrite bool_decide_eq_true_2 by done.
    assert (Hdrop : drop (S i) (pre ++ f :: l2) = l2).
    { replace (pre ++ f :: l2)%list with ((pre ++ [f]) ++ l2)%list
        by by rewrite <- app_assoc.
      rewrite drop_app_length'; [done |]. rewrite length_app. simpl. lia. }
    unfold focus_on_next_field. rewrite Hdrop.
    destruct (next_field_from env (S i) l2) as [a |] eqn:Hn.
    + assert (Hlt : (i <? length (pre ++ f :: l2) - 1)%nat = true).
      { apply Nat.ltb_lt. rewrite length_app. simpl.
        destruct l2; [done |]. simpl. lia. }
      by rewrite Hlt.
    + assert (Hcont : tab_loop env (pre ++ f :: l2) name false (S i)
                        (if is_visible f then Some i else prev) l2
                      = ([], false)).
      { replace (pre ++ f :: l2)%list with ((pre ++ [f]) ++ l2)%list
          by by rewrite <- app_assoc.
        apply tab_loop_forward_none; [rewrite length_app; simpl; lia |].
        exact (proj1 (next_field_none _ _ _) Hn). }
      rewrite Hcont. by destruct (i <? _)%nat.
  - cbn [app tab_loop].
    rewrite bool_decide_eq_false_2 by (apply Hno; by left).
    replace (pre ++ g :: l1 ++ f :: l2)%list
      with ((pre ++ [g]) ++ l1 ++ f :: l2)%list by by rewrite <- app_assoc.
    rewrite (IH (pre ++ [g])%list (S i)); try done.
    + cbn [length]. by replace (S i + length l1) with (i + S (length l1)) by lia.
    + rewrite length_app. simpl. lia.
    + intros h Hh. apply Hno. by right.
Qed.

Lemma tab_loop_backward env fs l1 f l2 name i prev :
  (∀ g, g ∈ l1 → t_fieldname g ≠ name) → t_fieldname f = name →
  tab_loop env fs name true i prev (l1 ++ f :: l2) =
    (match scan_prev i prev l1 with
     | Some p => match fs !! p with
                 | Some pf => [set_focus p pf]
                 | None => []
                 end
     | None => [AFocusPrimary]
     end, false).
Proof.
  revert i prev. induction l1 as [| g l1 IH]; intros i prev Hno Hf.
  - cbn [app tab_loop scan_prev]. rewrite bool_decide_eq_true_2 by done.
    destruct prev as [p |]; [| done]. by destruct (fs !! p).
  - cbn [app tab_loop scan_prev].
    rewrite bool_decide_eq_false_2 by (apply Hno; by left).
    apply IH; [| done]. intros h Hh. apply Hno. by right.
Qed.

Lemma scan_prev_app i prev l g :
  scan_prev i prev (l ++ [g]) =
    if is_visible g then Some (i + length l) else scan_prev i prev l.
Proof.
  revert i prev. induction l as [| f l IH]; intros i prev.
  - cbn. by rewrite Nat.add_0_r.
  - cbn [app scan_prev length]. rewrite IH.
    by replace (S i + length l) with (i + S (length l)) by lia.
Qed.

Lemma scan_prev_none l :
  (∀ g, g ∈ l → is_visible g = false) → scan_prev 0 None l = None.
Proof.
  induction l as [| g l IH] using rev_ind; intros H; [done |].
  rewrite scan_prev_app, (H g) by (apply elem_of_app; right; by left).
  apply IH. intros h Hh. apply H. apply elem_of_app. by left.
Qed.

Lemma scan_prev_last l g l' :
  is_visible g = true → (∀ h, h ∈ l' → is_visible h = false) →
  scan_prev 0 None (l ++ g :: l') = Some (length l).
Proof.
  revert l g. induction l' as [| h l' IH] using rev_ind; intros l g Hg Hl'.
  - by rewrite scan_prev_app, Hg.
  - replace (l ++ g :: l' ++ [h])%list with ((l ++ g :: l') ++ [h])%list
      by by rewrite <- app_assoc.
    rewrite scan_prev_app, (Hl' h) by (apply elem_of_app; right; by left).
    apply IH; [done |]. intros x Hx. apply Hl'. apply elem_of_app. by left.
Qed.

Lemma handle_tab_form env L orow name shift :
  handle_tab env L orow (doctype L) name shift =
    let '(acts, focused) :=
      tab_loop env (tab_fields L) name shift 0 None (tab_fields L) in
    if focused then acts
    else if negb shift then (acts ++ [AFocusPrimary])%list else acts.
Proof.
  unfold handle_tab. rewrite bool_decide_eq_true_2 by done. cbn [negb].
  by destruct (tab_loop _ _ _ _ _ _ _) as [acts []].
Qed.

Lemma handle_tab_row env L g fs dt name shift :
  dt ≠ doctype L → gr_fields g = Some fs →
  handle_tab env L (Some g) dt name shift =
    let '(acts, focused) := tab_loop env fs name shift 0 None fs in
    if focused then acts else (acts ++ [leave_row g])%list.
Proof.
  intros Hdt Hfs. unfold handle_tab, leave_row.
  rewrite bool_decide_eq_false_2 by done. cbn [negb]. rewrite Hfs.
  destruct (tab_loop _ _ _ _ _ _ _) as [acts []]; [done |].
  by destruct (gr_idx g =? gr_rows g)%nat.
Qed.

Lemma forward_loop env name l1 f l2 :
  t_fieldname f = name → (∀ g, g ∈ l1 → t_fieldname g ≠ name) →
  (∀ m g m', l2 = (m ++ g :: m')%list →
     (∀ h, h ∈ m → eligible env h = false) → eligible env g = true →
     tab_loop env (l1 ++ f :: l2) name false 0 None (l1 ++ f :: l2) =
       ([forward_action (S (length l1) + length m) g], true)) ∧
  ((∀ h, h ∈ l2 → eligible env h = false) →
     tab_loop env (l1 ++ f :: l2) name false 0 None (l1 ++ f :: l2) =
       ([], false)).
Proof.
  intros Hf Hno.
  pose proof (tab_loop_forward env [] l1 f l2 name 0 None eq_refl Hno Hf) as H.
  cbn [app] in H. split.
  - intros m g m' -> Hm Hg. rewrite H.
    by rewrite (next_field_first env _ m (length m) g m' Hm Hg eq_refl).
  - intros Hl2. rewrite H.
    by rewrite (proj2 (next_field_none env _ l2) Hl2).
Qed.

Lemma backward_loop env name l1 f l2 :
  t_fieldname f = name → (∀ g, g ∈ l1 → t_fieldname g ≠ name) →
  (∀ m g m', l1 = (m ++ g :: m')%list → is_visible g = true →
     (∀ h, h ∈ m' → is_visible h = false) →
     tab_loop env (l1 ++ f :: l2) name true 0 None (l1 ++ f :: l2) =
       ([set_focus (length m) g], false)) ∧
  ((∀ h, h ∈ l1 → is_visible h = false) →
     tab_loop env (l1 ++ f :: l2) name true 0 None (l1 ++ f :: l2) =
       ([AFocusPrimary], false)).
Proof.
  intros Hf Hno.
  pose proof (tab_loop_backward env (l1 ++ f :: l2) l1 f l2 name 0 None Hno Hf)
    as H.
  split.
  - intros m g m' Hl1 Hg Hm'. rewrite H. subst l1.
    rewrite (scan_prev_last m g m' Hg Hm').
    rewrite <- !app_assoc. cbn [app]. by rewrite list_lookup_middle.
  - intros Hl1. rewrite H. by rewrite (scan_prev_none l1 Hl1).
Qed.

(** X11.  Forward tab in the form's own fields: from the first field of
    [fields_list] that bears the current fieldname, the next field that
    is visible and is a Table or of a value-holding type gets the focus
    (a Table by showing the form of its first row); later fields are not
    considered, and when there is no such field the focus goes to the
    primary action. *)
Theorem tab_forward_next (env : Env) (L : Layout) (orow : option GridRow)
    (name : option string) (l1 l2 : list TabField) (f : TabField) :
  tab_fields L = (l1 ++ f :: l2)%list → t_fieldname f = name →
  (∀ g, g ∈ l1 → t_fieldname g ≠ name) →
  (∀ m g m', l2 = (m ++ g :: m')%list →
     (∀ h, h ∈ m → eligible env h = false) → eligible env g = true →
     handle_tab env L orow (doctype L) name false =
       [forward_action (S (length l1) + length m) g]) ∧
  ((∀ h, h ∈ l2 → eligible env h = false) →
     handle_tab env L orow (doctype L) name false = [AFocusPrimary]).
Proof.
  intros Hfs Hf Hno. rewrite handle_tab_form, Hfs.
  destruct (forward_loop env name l1 f l2 Hf Hno) as [H1 H2]. split.
  - intros m g m' Hl2 Hm Hg. by rewrite (H1 m g m' Hl2 Hm Hg).
  - intros Hl2. by rewrite (H2 Hl2).
Qed.

(** X12.  Backward tab in the form's own fields: the focus goes to the
    last visible field before the first field that bears the current
    fieldname, whatever its type, and to the primary action when no field
    before it is visible. *)
Theorem tab_backward_previous (env : Env) (L : Layout)
    (orow : option GridRow) (name : option string) (l1 l2 : list TabField)
    (f : TabField) :
  tab_fields L = (l1 ++ f :: l2)%list → t_fieldname f = name →
  (∀ g, g ∈ l1 → t_fieldname g ≠ name) →
  (∀ m g m', l1 = (m ++ g :: m')%list → is_visible g = true →
     (∀ h, h ∈ m' → is_visible h = false) →
     handle_tab env L orow (doctype L) name true = [set_focus (length m) g]) ∧
  ((∀ h, h ∈ l1 → is_visible h = false) →
     handle_tab env L orow (doctype L) name true = [AFocusPrimary]).
Proof.
  intros Hfs Hf Hno. rewrite handle_tab_form, Hfs.
  destruct (backward_loop env name l1 f l2 Hf Hno) as [H1 H2]. split.
  - intros m g m' Hl1 Hg Hm'. by rewrite (H1 m g m' Hl1 Hg Hm').
  - intros Hl1. by rewrite (H2 Hl1).
Qed.

(** X13.  When no field of the form bears the given fieldname (so also in
    a form without fields), forward tab moves the focus to the primary
    action and backward tab does nothing. *)
Theorem tab_unknown_field (env : Env) (L : Layout) (orow : option GridRow)
    (name : option string) :
  (∀ g, g ∈ tab_fields L → t_fieldname g ≠ name) →
  handle_tab env L orow (doctype L) name false = [AFocusPrimary] ∧
  handle_tab env L orow (doctype L) name true = [].
Proof.
  intros Hno. rewrite !handle_tab_form.
  by rewrite !(tab_loop_no_match env _ name _ 0 None _ Hno).
Qed.

(** X14.  Tab inside a grid (the doctype of the event is not the
    layout's): without an open row nothing is done; with one, forward tab
    from a field after which the row has no eligible field leaves the
    row, closing it when it is the last row and opening the next row
    otherwise, and backward tab focuses the previous visible field of the
    row and then leaves the row in the same way. *)
Theorem tab_in_grid_row (env : Env) (L : Layout) (g : GridRow)
    (dt name : option string) (fs l1 l2 : list TabField) (f : TabField) :
  dt ≠ doctype L → gr_fields g = Some fs →
  fs = (l1 ++ f :: l2)%list → t_fieldname f = name →
  (∀ x, x ∈ l1 → t_fieldname x ≠ name) →
  ((∀ h, h ∈ l2 → eligible env h = false) →
     handle_tab env L (Some g) dt name false = [leave_row g]) ∧
  (∀ m x m', l1 = (m ++ x :: m')%list → is_visible x = true →
     (∀ h, h ∈ m' → is_visible h = false) →
     handle_tab env L (Some g) dt name true =
       [set_focus (length m) x; leave_row g]) ∧
  (∀ shift, handle_tab env L None dt name shift = []).
Proof.
  intros Hdt Hg Hfs Hf Hno. subst fs.
  destruct (forward_loop env name l1 f l2 Hf Hno) as [_ F2].
  destruct (backward_loop env name l1 f l2 Hf Hno) as [B1 _].
  split; [| split].
  - intros Hl2. rewrite (handle_tab_row env L g _ dt name false Hdt Hg).
    by rewrite (F2 Hl2).
  - intros m x m' Hl1 Hx Hm'.
    rewrite (handle_tab_row env L g _ dt name true Hdt Hg).
    by rewrite (B1 m x m' Hl1 Hx Hm').
  - intros shift. unfold handle_tab.
    by rewrite bool_decide_eq_false_2 by done.
Qed.

Lemma tab_forward_next_witness :
  handle_tab std_env nav_layout None (doctype nav_layout) (Some "A") false
    = [ASetFocus 3 TInput].
Proof.
  assert (Hfs : tab_fields nav_layout
                = ([] ++ tab_entry "A" "Data" true ::
                     [tab_entry "go" "Button" true; tab_entry "B" "Data" false;
                      tab_entry "C" "Data" true])%list)
    by (vm_compute; reflexivity).
  destruct (tab_forward_next std_env nav_layout None (Some "A") [] _ _ Hfs
              eq_refl) as [H _].
  { intros g Hg. by apply elem_of_nil in Hg. }
  rewrite (H [tab_entry "go" "Button" true; tab_entry "B" "Data" false]
             (tab_entry "C" "Data" true) [] eq_refl).
  - reflexivity.
  - intros h Hh. apply elem_of_cons in Hh as [-> | Hh]; [reflexivity |].
    apply list_elem_of_singleton in Hh as ->. reflexivity.
  - reflexivity.
Defined.

Lemma tab_backward_previous_witness :
  handle_tab std_env nav_layout None (doctype nav_layout) (Some "C") true
    = [ASetFocus 1 TInput].
Proof.
  assert (Hfs : tab_fields nav_layout
                = ([tab_entry "A" "Data" true; tab_entry "go" "Button" true;
                    tab_entry "B" "Data" false]
                   ++ tab_entry "C" "Data" true :: [])%list)
    by (vm_compute; reflexivity).
  destruct (tab_backward_previous std_env nav_layout None (Some "C") _ _ _ Hfs
              eq_refl) as [H _].
  { intros g Hg. apply elem_of_cons in Hg as [-> | Hg]; [done |].
    apply elem_of_cons in Hg as [-> | Hg]; [done |].
    apply list_elem_of_singleton in Hg as ->. done. }
  rewrite (H [tab_entry "A" "Data" true] (tab_entry "go" "Button" true)
             [tab_entry "B" "Data" false] eq_refl eq_refl).
  - reflexivity.
  - intros h Hh. apply list_elem_of_singleton in Hh as ->. reflexivity.
Defined.

Lemma tab_unknown_field_witness :
  handle_tab std_env nav_layout None (doctype nav_layout) (Some "Z") false
    = [AFocusPrimary] ∧
  handle_tab std_env nav_layout None (doctype nav_layout) (Some "Z") true = [].
Proof.
  apply tab_unknown_field.
  assert (Hfs : tab_fields nav_layout
                = [tab_entry "A" "Data" true; tab_entry "go" "Button" true;
                   tab_entry "B" "Data" false; tab_entry "C" "Data" true])
    by (vm_compute; reflexivity).
  rewrite Hfs. intros g Hg.
  apply elem_of_cons in Hg as [-> | Hg]; [done |].
  apply elem_of_cons in Hg as [-> | Hg]; [done |].
  apply elem_of_cons in Hg as [-> | Hg]; [done |].
  apply list_elem_of_singleton in Hg as ->. done.
Defined.

Lemma tab_in_grid_row_witness :
  handle_tab std_env nav_layout (Some open_row) (Some "Order Item") (Some "y")
    false = [AOpenRow 2] ∧
  handle_tab std_env nav_layout (Some open_row) (Some "Order Item") (Some "y")
    true = [ASetFocus 0 TInput; AOpenRow 2].
Proof.
  destruct (tab_in_grid_row std_env nav_layout open_row (Some "Order Item")
              (Some "y") _ [tab_entry "x" "Data" true] []
              (tab_entry "y" "Data" true)
              ltac:(done) eq_refl eq_refl eq_refl) as (H1 & H2 & _).
  { intros x Hx. apply list_elem_of_singleton in Hx as ->. done. }
  split.
  - rewrite H1; [reflexivity |]. intros h Hh. by apply elem_of_nil in Hh.
  - rewrite (H2 [] (tab_entry "x" "Data" true) [] eq_refl eq_refl);
      [reflexivity |]. intros h Hh. by apply elem_of_nil in Hh.
Defined.

Lemma tab_loop_forward_shape env fs name i prev rest :
  (∃ a, tab_loop env fs name false i prev rest = ([a], true)) ∨
  tab_loop env fs name false i prev rest = ([], false).
Proof.
  revert i prev. induction rest as [| f rest IH]; intros i prev; [by right |].
  cbn [tab_loop]. destruct (bool_decide (t_fieldname f = name)); [| apply IH].
  destruct (if (i <? length fs - 1)%nat then focus_on_next_field env i fs
            else None) as [a |]; [left; by exists a | apply IH].
Qed.

(** X15.  The keydown handler leaves the key to the browser, taking no
    action, unless the key is Tab (code 9) and the target has a
    [data-doctype] attribute, and also when that doctype is not the
    layout's and no grid row with a layout is open.  A forward Tab on a
    field of the layout's doctype, or with an open grid row that has a
    layout, suppresses the default and takes exactly one action. *)
Theorem keydown_forward_tab (env : Env) (L : Layout) (orow : option GridRow)
    (ev : KeyEvent) :
  (ev_which ev ≠ 9 ∨ name_set (ev_doctype ev) = false →
     keydown env L orow ev = Unhandled) ∧
  (ev_which ev = 9 → name_set (ev_doctype ev) = true →
     ev_doctype ev ≠ doctype L → (∀ g, orow = Some g → gr_fields g = None) →
     keydown env L orow ev = Unhandled) ∧
  (ev_which ev = 9 → name_set (ev_doctype ev) = true → ev_shift ev = false →
     (ev_doctype ev = doctype L ∨
      ∃ g fs, orow = Some g ∧ gr_fields g = Some fs) →
     ∃ a, keydown env L orow ev = Suppressed [a]).
Proof.
  unfold keydown. split; [| split].
  - intros [Hw | Hd].
    + apply Nat.eqb_neq in Hw. by rewrite Hw.
    + rewrite Hd. by destruct (ev_which ev =? 9)%nat.
  - intros -> -> Hne Hrow. cbn [Nat.eqb]. unfold handle_tab_result, tab_scope.
    rewrite bool_decide_eq_false_2 by done. cbn [negb].
    destruct orow as [g |]; [| done]. by rewrite (Hrow g eq_refl).
  - intros -> -> Hs Hscope. cbn [Nat.eqb]. rewrite Hs.
    unfold handle_tab_result.
    destruct (decide (ev_doctype ev = doctype L)) as [Heq | Hne].
    + unfold tab_scope. rewrite bool_decide_eq_true_2 by done. cbn [negb].
      rewrite Heq, handle_tab_form.
      destruct (tab_loop_forward_shape env (tab_fields L) (ev_fieldname ev)
                  0 None (tab_fields L)) as [[a ->] | ->]; eexists; reflexivity.
    + destruct Hscope as [Heq | (g & fs & -> & Hg)]; [done |].
      unfold tab_scope. rewrite bool_decide_eq_false_2 by done. cbn [negb].
      rewrite Hg, (handle_tab_row env L g fs _ _ false Hne Hg).
      destruct (tab_loop_forward_shape env fs (ev_fieldname ev) 0 None fs)
        as [[a ->] | ->]; eexists; reflexivity.
Qed.

Lemma pick_color_valid color : pick_color color ∈ message_colors.
Proof.
  assert (Hblue : "blue" ∈ message_colors)
    by (apply list_elem_of_further, list_elem_of_here).
  unfold pick_color. destruct color as [c |]; [| done].
  destruct (str_set (Some c) && in_list message_colors c) eqn:H; [| done].
  apply andb_true_iff in H as [_ H]. unfold in_list in H.
  apply existsb_exists in H as (x & Hx & Heq). apply String.eqb_eq in Heq.
  subst x. by apply list_elem_of_In.
Qed.

Lemma message_color_names c :
  c ∈ message_colors → c ≠ "hidden" ∧ c ≠ "form-message" ∧ c ≠ "".
Proof.
  unfold message_colors. intros H.
  repeat (apply elem_of_cons in H as [-> | H]; [done |]).
  by apply elem_of_nil in H.
Qed.

Lemma str_set_color c : c ∈ message_colors → str_set (Some c) = true.
Proof.
  intros H. destruct (message_color_names c H) as (_ & _ & Hne).
  unfold str_set. apply negb_true_iff. by apply String.eqb_neq.
Qed.

(** The classes of the element once the remembered colour is removed. *)
Lemma message_base M :
  message_ok M →
  match message_color M with
  | Some c => if str_set (message_color M) then m_classes M ∖ {[ c ]}
              else m_classes M
  | None => m_classes M
  end = {[ "form-message"; "hidden" ]} ∨
  match message_color M with
  | Some c => if str_set (message_color M) then m_classes M ∖ {[ c ]}
              else m_classes M
  | None => m_classes M
  end = {[ "form-message" ]}.
Proof.
  intros [[Hc | (c & Hc & Hin)] Hcl].
  - rewrite Hc. destruct Hcl as [-> | (c & Hc' & _)]; [by left | congruence].
  - rewrite Hc, (str_set_color c Hin).
    destruct (message_color_names c Hin) as (H1 & H2 & _).
    destruct Hcl as [-> | (c' & Hc' & ->)].
    + left. apply set_eq. intros x. set_unfold. intuition congruence.
    + assert (c' = c) by congruence. subst c'. right.
      apply set_eq. intros x. set_unfold. intuition congruence.
Qed.

Lemma show_message_spec jq html color M :
  message_ok M →
  let M' := fst (show_message jq html color M) in
  let r := snd (show_message jq html color M) in
  message_ok M' ∧ message_color M' = Some (pick_color color) ∧
  (if str_set html
   then m_classes M' = {[ "form-message"; pick_color color ]} ∧
        ∃ h, html = Some h ∧
             match jq (wrap_html h) with
             | Ok el => r = Ok tt ∧
                        m_content M' = (m_content M ++ [el])%list
             | Raise e => r = Raise e ∧ m_content M' = m_content M
             end
   else r = Ok tt ∧ m_classes M' = {[ "form-message"; "hidden" ]} ∧
        m_content M' = []).
Proof.
  intros HM. cbv zeta. pose proof (message_base M HM) as Hbase.
  pose proof (pick_color_valid color) as Hpc.
  destruct (message_color_names _ Hpc) as (H1 & H2 & _).
  unfold show_message.
  set (base := match message_color M with
               | Some c => if str_set (message_color M)
                           then m_classes M ∖ {[ c ]} else m_classes M
               | None => m_classes M
               end) in *.
  assert (Hhide : {[ "hidden" ]} ∪ base = ({[ "form-message"; "hidden" ]} : gset string))
    by (destruct Hbase as [-> | ->]; apply set_eq; intros x; set_unfold;
        intuition congruence).
  assert (Hshow : {[ pick_color color ]} ∪ (base ∖ {[ "hidden" ]})
                  = ({[ "form-message"; pick_color color ]} : gset string))
    by (destruct Hbase as [-> | ->]; apply set_eq; intros x; set_unfold;
        intuition congruence).
  cbv zeta. destruct html as [h |].
  - destruct (str_set (Some h)) eqn:Hh.
    + rewrite Hshow. destruct (jq (wrap_html h)) as [el | ex] eqn:Hjq;
        cbn [fst snd message_color m_classes m_content].
      * split; [| split; [done |]].
        -- split; [right; by eexists |]. right. by eexists.
        -- split; [done |]. exists h. by rewrite Hjq.
      * split; [| split; [done |]].
        -- split; [right; by eexists |]. right. by eexists.
        -- split; [done |]. exists h. by rewrite Hjq.
    + cbn [fst snd message_color m_classes m_content]. rewrite Hhide.
      split; [| done]. split; [right; by eexists | by left].
  - cbn [fst snd message_color m_classes m_content str_set]. rewrite Hhide.
    split; [| done]. split; [right; by eexists | by left].
Qed.

Lemma show_messages_ok jq calls M :
  message_ok M → message_ok (show_messages jq calls M).
Proof.
  revert M. induction calls as [| c calls IH]; intros M HM; [done |].
  unfold show_messages. cbn [fold_left]. apply IH.
  by destruct (show_message_spec jq (fst c) (snd c) M HM) as [H _].
Qed.

Lemma new_message_ok : message_ok new_message.
Proof. split; by left. Qed.

(** [html] is wrapped in a [div] unless it starts with [<]. *)
Lemma wrap_html_cases h :
  (∀ t, h = "<" ++ t → wrap_html h = h) ∧
  ((∀ t, h ≠ "<" ++ t) → wrap_html h = "<div>" ++ h ++ "</div>").
Proof.
  unfold wrap_html. split.
  - intros t ->. by destruct t.
  - intros Hne. destruct (String.eqb (substring 0 1 h) "<") eqn:Hp; [| done].
    apply (has_prefix_inv "<") in Hp as [t ->]. by destruct (Hne t).
Qed.

(** X16.  After any sequence of calls of [show_message] on the message
    area that [make] creates, whether they returned or raised, one more
    call [show_message(html, color)] leaves [this.message_color] at
    [color] when that is one of yellow, blue, red, green and orange, and
    at blue otherwise.  With a non-empty [html] the element then carries
    exactly the classes [form-message] and that colour (the colour of an
    earlier message is gone and [hidden] is off); [html] is wrapped in a
    [div] unless it starts with [<], and what [$] makes of it is appended
    to what was shown, while an exception of [$] leaves the call after
    the classes are set and with nothing appended.  With an empty or
    absent [html] the call returns, the element is emptied and carries
    exactly [form-message] and [hidden]. *)
Theorem message_after_calls (jq : string → result string)
    (calls : list (option string * option string))
    (html color : option string) :
  let M := show_messages jq calls new_message in
  let M' := fst (show_message jq html color M) in
  let r := snd (show_message jq html color M) in
  message_color M' = Some (pick_color color) ∧
  pick_color color ∈ message_colors ∧
  (if str_set html
   then m_classes M' = {[ "form-message"; pick_color color ]} ∧
        ∃ h, html = Some h ∧
             (∀ t, h = "<" ++ t → wrap_html h = h) ∧
             ((∀ t, h ≠ "<" ++ t) → wrap_html h = "<div>" ++ h ++ "</div>") ∧
             match jq (wrap_html h) with
             | Ok el => r = Ok tt ∧
                        m_content M' = (m_content M ++ [el])%list
             | Raise e => r = Raise e ∧ m_content M' = m_content M
             end
   else r = Ok tt ∧ m_classes M' = {[ "form-message"; "hidden" ]} ∧
        m_content M' = []).
Proof.
  cbv zeta.
  pose proof (show_messages_ok jq calls new_message new_message_ok) as HM.
  destruct (show_message_spec jq html color _ HM) as (_ & Hc & Hrest).
  split; [done |]. split; [apply pick_color_valid |].
  destruct (str_set html); [| done].
  destruct Hrest as (Hcl & h & Hh & Hjq). split; [done |].
  exists h. split; [done |].
  destruct (wrap_html_cases h) as [Hw1 Hw2]. by repeat split.
Qed.

Lemma render_first_field dash fm d df rest :
  is_field df = true →
  ∃ L0, render None (init (df :: rest) dash fm d) = for_each render_one rest L0 ∧
        controls L0 = [init_field df 0 0] ∧
        fields_list L0 = (if dash then [RSection 0; RControl 0]
                          else [RControl 0]) ∧
        (∃ s, sections L0 = [s] ∧ sec_origin s = synthesized_origin dash ∧
              s_fields_list s = [0]).
Proof.
  intros Hf. pose proof (is_field_not_section df Hf) as Hns.
  unfold render. cbv zeta.
  set (L0 := set_column None (set_section None (init (df :: rest) dash fm d))).
  assert (Hno : no_opening_section L0 = true).
  { unfold no_opening_section. cbn. unfold is_section_break in Hns.
    by rewrite Hns. }
  assert (Hsb : render_one section_break_df
                = modify (make_section (Some section_break_df))) by done.
  destruct dash.
  - change (with_dashboard L0) with true. cbv iota.
    unfold setup_dashboard_section. rewrite Hno.
    assert (Hno' : no_opening_section
                     (set_fields (section_break_df :: fields L0) L0) = false)
      by done.
    rewrite Hno'. lsimpl.
    change (fields L0) with (df :: rest).
    cbn [for_each]. rewrite Hsb, (render_one_field df Hf).
    unfold bind at 1. unfold modify at 1. unfold bind at 1.
    run_builder. eexists. split; [reflexivity |].
    lsimpl. split; [reflexivity |]. split; [reflexivity |].
    eexists. split; [reflexivity |]. split; reflexivity.
  - change (with_dashboard L0) with false. cbv iota. rewrite Hno.
    change (fields L0) with (df :: rest).
    cbn [for_each]. rewrite (render_one_field df Hf).
    unfold bind at 1.
    run_builder. eexists. split; [reflexivity |].
    lsimpl. split; [reflexivity |]. split; [reflexivity |].
    eexists. split; [reflexivity |]. split; reflexivity.
Qed.

(** X17.  A layout made without fields of its own takes them from the
    metadata of the doctype.  Without a form that is a TypeError, since
    [get_new_name_field] reads [this.frm.doctype].  With a form,
    [this.fields] starts with the hidden, mandatory field [__newname]
    (behind the section break of the dashboard, if any); whatever the
    metadata holds, and whether or not the rest of the rendering
    completes, the first section of the layout is the synthesized one (or
    that of the dashboard), and the control of [__newname] is the first
    control of the layout, the first field entry of [fields_list] and the
    first control of that section. *)
Theorem make_from_doctype (m : Meta) (dash : bool) (fm : option Frm)
    (d : option Doc) :
  (fm = None → ∃ msg, snd (make m None dash fm d) = Raise (TypeError msg)) ∧
  (∀ f, fm = Some f →
     let L := fst (make m None dash fm d) in
     let newname := get_new_name_field (name_label m) in
     (∃ rest, fields L = rendered_fields (newname :: rest) dash) ∧
     first_origin (sections L) (synthesized_origin dash) ∧
     controls L !! 0 = Some (init_field newname 0 0) ∧
     fields_list L !! (if dash then 1 else 0) = Some (RControl 0) ∧
     ∃ s tl, sections L !! 0 = Some s ∧ s_fields_list s = 0 :: tl).
Proof.
  split.
  - intros ->. by eexists.
  - intros f ->. cbv zeta. unfold make, get_doctype_fields.
    set (newname := get_new_name_field (name_label m)).
    set (rest := match doctype_layout m with
                 | Some lf => get_fields_from_layout m lf
                 | None => sorted_docfields m
                 end).
    assert (Hfield : is_field newname = true) by reflexivity.
    destruct (fields_after_render None (newname :: rest) dash (Some f) d)
      as [Hfs _].
    destruct (render None (init (newname :: rest) dash (Some f) d))
      as [L r] eqn:Hrun.
    cbn [fst] in *.
    pose proof (first_section_rule _ _ _ _ _ _ Hrun) as Hfirst.
    pose proof (built_render None _ L r (built_init _ dash (Some f) d) Hrun)
      as (_ & _ & _ & Hsl & _).
    destruct (render_first_field dash (Some f) d newname rest Hfield)
      as (L0 & Hr0 & Hc0 & Hfl0 & _).
    rewrite Hrun in Hr0. symmetry in Hr0.
    assert (HM : made_since 0 0 L0).
    { split; [lia |]. split; intros; lia. }
    destruct (step_render_loop 0 0 _ _ _ _ (Nat.le_0_l _) HM Hr0)
      as (_ & [lc Hc] & _ & [lf Hf] & _).
    assert (Hctl : controls L !! 0 = Some (init_field newname 0 0))
      by by rewrite Hc, Hc0.
    split; [by exists rest |].
    split; [exact Hfirst |].
    split; [exact Hctl |].
    split; [rewrite Hf, Hfl0; by destruct dash |].
    destruct Hfirst as (s & Hs & _). exists s.
    rewrite (Hsl 0 s Hs). unfold controls_of_section.
    rewrite Hc, Hc0. cbn [app length seq List.filter lookup list_lookup].
    cbn [c_section init_field fmap option_fmap option_map].
    rewrite bool_decide_eq_true_2 by done.
    eexists. split; [done | reflexivity].
Qed.

Lemma log_emit_all (l : list nat) (g : nat → Event) L :
  log (fold_left (λ L' j, emit (g j) L') l L) = (log L ++ (g <$> l))%list.
Proof.
  revert L. induction l as [| j l IH]; intros L.
  - by rewrite app_nil_r.
  - cbn [fold_left fmap list_fmap]. rewrite IH.
    change (log (emit (g j) L)) with (log L ++ [g j])%list.
    by rewrite <- app_assoc.
Qed.

Lemma log_grows_refresh_dependency env L L' r :
  refresh_dependency env L = (L', r) → log L `prefix_of` log L'.
Proof.
  rewrite refresh_dependency_plan. destruct (negb (has_dep L)).
  - by intros [= <- _].
  - cbv zeta. destruct (snd (pass_plan env L (reverse (fields_list L))));
      intros [= <- _].
    + apply log_grows_run_prims.
    + etrans; [apply log_grows_run_prims | apply log_grows_emit].
Qed.

Lemma log_grows_collapse i h L : log L `prefix_of` log (FormSection.collapse i h L).
Proof.
  unfold FormSection.collapse. destruct (sections L !! i) as [s |]; [| done].
  destruct (s_head s); cbn [negb]; [| done].
  rewrite log_emit_all. lsimpl. rewrite <- app_assoc. by apply prefix_app_r.
Qed.

Lemma log_grows_collapse_loop env js L L' r :
  for_each (collapse_step env) js L = (L', r) → log L `prefix_of` log L'.
Proof.
  revert L. induction js as [| j js IH]; intros L H.
  - by inversion H.
  - simpl in H. unfold bind in H.
    destruct (collapse_step env j L) as [L1 r1] eqn:Hstep.
    assert (H1 : log L `prefix_of` log L1).
    { rewrite collapse_step_decision in Hstep.
      destruct (collapse_decision env L j) as [[h | ex] |];
        inversion Hstep; subst; try done. apply log_grows_collapse. }
    destruct r1 as [[] | ex].
    + etrans; [exact H1 | by apply IH].
    + by inversion H; subst.
Qed.

Lemma log_attach L :
  log (attach_doc_and_docfields true L) = (log L ++ refresh_all_events L)%list.
Proof.
  unfold attach_doc_and_docfields, refresh_all_events.
  assert (H : ∀ rs L0, columns L0 = columns L →
            log (fold_left (λ L' r, field_refresh r L') rs L0)
            = (log L0 ++ concat (refresh_events L <$> rs))%list).
  { induction rs as [| r rs IH]; intros L0 Hc.
    - cbn. by rewrite app_nil_r.
    - cbn [fold_left fmap list_fmap concat]. rewrite IH.
      + rewrite log_field_refresh, <- app_assoc.
        by rewrite (refresh_events_columns L L0 r Hc).
      + destruct (quiet_field_refresh r L0) as (_ & Hk & _). congruence. }
  by apply H.
Qed.

(** X18.  Every refresh, whatever its outcome, binds the layout to the
    document it is given (keeping the old one when it is given none) and
    begins by refreshing every entry of [fields_list] once, in order;
    whatever the dependency pass and the later phases re-render comes
    after that. *)
Theorem refresh_rerenders_all (env : Env) (new_doc : option Doc)
    (L L' : Layout) (r : result unit) :
  refresh env new_doc L = (L', r) →
  doc L' = match new_doc with Some d => Some d | None => doc L end ∧
  ∃ later, new_events L L' = (refresh_all_events L ++ later)%list.
Proof.
  rewrite refresh_unfold. cbv zeta.
  set (L0 := rebind new_doc L).
  set (La := attach_doc_and_docfields true L0).
  assert (Hfa : frame La = frame L0) by apply attach_frame.
  assert (Hla : log La = (log L ++ refresh_all_events L)%list).
  { unfold La. rewrite log_attach. unfold L0. by destruct new_doc. }
  assert (Hd0 : doc L0 = match new_doc with Some d => Some d | None => doc L end)
    by (unfold L0; by destruct new_doc).
  destruct (refresh_dependency env La) as [Lc rc] eqn:Hdep.
  assert (Hfc : frame Lc = frame La) by by eapply refresh_dependency_frame.
  pose proof (log_grows_refresh_dependency _ _ _ _ Hdep) as Hlc.
  intros H.
  assert (Htail : frame L' = frame Lc ∧ log Lc `prefix_of` log L').
  { destruct rc as [[] | ex].
    - split; [by eapply frame_tail |].
      destruct (frm La).
      + etrans; [| by eapply log_grows_collapse_loop]. done.
      + by inversion H; subst.
    - by inversion H; subst. }
  destruct Htail as [Hft Hlt]. split.
  - rewrite (frame_doc L' Lc Hft), (frame_doc Lc La Hfc), (frame_doc La L0 Hfa).
    exact Hd0.
  - destruct (transitivity Hlc Hlt) as [later Hlater].
    exists later. apply new_events_app. rewrite Hlater, Hla.
    by rewrite <- app_assoc.
Qed.

Lemma refresh_rerenders_all_witness :
  ∃ later,
    new_events two_field_layout (fst (refresh std_env None two_field_layout))
    = ([EvRefresh (RControl 0); EvSectionRefresh 1; EvRefresh (RControl 1)]
       ++ later)%list.
Proof.
  assert (Hrun : refresh std_env None two_field_layout
                 = (fst (refresh std_env None two_field_layout), Ok tt))
    by (vm_compute; reflexivity).
  destruct (refresh_rerenders_all std_env None two_field_layout _ _ Hrun)
    as (_ & later & Hev).
  assert (Hall : refresh_all_events two_field_layout
                 = [EvRefresh (RControl 0); EvSectionRefresh 1;
                    EvRefresh (RControl 1)])
    by (vm_compute; reflexivity).
  exists later. by rewrite Hev, Hall.
Defined.




Lemma fold_left_ext_in {A B} (f g : A → B → A) (l : list B) (a : A) :
  (∀ x y, List.In y l → f x y = g x y) → fold_left f l a = fold_left g l a.
Proof.
  revert a. induction l as [| y l IH]; intros a H; [done |].
  cbn [fold_left]. rewrite (H a y) by by left.
  apply IH. intros x z Hz. apply H. by right.
Qed.

Lemma column_widths_snoc f cols c :
  column_widths f (cols ++ [c]) =
    column_init f (cols ++ [c])%list (column_widths f cols).
Proof.
  unfold column_widths. rewrite length_app, Nat.add_1_r, seq_S, fold_left_app.
  cbn [fold_left]. rewrite Nat.add_1_l.
  replace (take (S (length cols)) (cols ++ [c])) with (cols ++ [c])%list.
  2: { rewrite take_ge; [done |]. rewrite length_app. simpl. lia. }
  f_equal. apply fold_left_ext_in. intros w k Hk. apply List.in_seq in Hk.
  by rewrite take_app_le by lia.
Qed.

Lemma length_resize f cols sid w :
  length (resize_all_columns f cols sid w) = length w.
Proof. unfold resize_all_columns. cbv zeta. apply length_imap. Qed.

Lemma length_column_widths f cols :
  length (column_widths f cols) = length cols.
Proof.
  induction cols as [| c cols IH] using rev_ind; [done |].
  rewrite column_widths_snoc. unfold column_init. rewrite last_snoc.
  rewrite length_resize, !length_app, IH. done.
Qed.

Lemma section_column_ids_snoc cols c sid :
  section_column_ids (cols ++ [c]) sid =
    (section_column_ids cols sid ++
       if bool_decide (col_section c = sid) then [length cols] else [])%list.
Proof.
  unfold section_column_ids.
  rewrite length_app, Nat.add_1_r, seq_S, List.filter_app. cbn [List.filter].
  f_equal.
  - apply List.filter_ext_in. intros j Hj. apply List.in_seq in Hj.
    rewrite lookup_app_l by lia. done.
  - rewrite Nat.add_0_l. rewrite list_lookup_middle by done.
    cbn [fmap option_fmap option_map].
    destruct (decide (col_section c = sid)) as [-> | Hne].
    + by rewrite !bool_decide_eq_true_2.
    + rewrite !bool_decide_eq_false_2; [done | done | congruence].
Qed.

Lemma column_widths_lookup f cols i c :
  cols !! i = Some c →
  column_widths f cols !! i =
    Some (f 12 (length (section_column_ids cols (col_section c)))).
Proof.
  revert i c. induction cols as [| c0 cols IH] using rev_ind; intros i c Hi.
  { by rewrite lookup_nil in Hi. }
  rewrite column_widths_snoc. unfold column_init. rewrite last_snoc.
  unfold resize_all_columns. cbv zeta. rewrite list_lookup_imap, Hi.
  cbn [fmap option_fmap option_map].
  assert (Hlt : (i < length (column_widths f cols ++ [0]))%nat).
  { rewrite length_app, length_column_widths. simpl.
    apply lookup_lt_Some in Hi. rewrite length_app in Hi. simpl in Hi. lia. }
  destruct (lookup_lt_is_Some_2 _ _ Hlt) as [x Hx]. rewrite Hx.
  cbn [option_map].
  destruct (decide (col_section c = col_section c0)) as [Heq | Hne].
  - rewrite bool_decide_eq_true_2 by congruence. by rewrite Heq.
  - rewrite bool_decide_eq_false_2 by congruence.
    apply lookup_app_Some in Hi as [Hi | [Hge Hi]].
    + rewrite lookup_app_l in Hx by (rewrite length_column_widths;
                                     by eapply lookup_lt_Some).
      rewrite (IH i c Hi) in Hx. inversion Hx; subst x.
      rewrite section_column_ids_snoc.
      rewrite bool_decide_eq_false_2 by congruence. by rewrite app_nil_r.
    + destruct (i - length cols) as [| n]; [| done].
      simpl in Hi. inversion Hi. congruence.
Qed.

Lemma list_sum_const (g : nat → nat) (l : list nat) (k : nat) :
  (∀ j, j ∈ l → g j = k) → list_sum (g <$> l) = (length l * k)%nat.
Proof.
  induction l as [| j l IH]; intros Hl; [done |].
  change (list_sum (g <$> j :: l)) with (g j + list_sum (g <$> l))%nat.
  rewrite (Hl j) by by left. rewrite IH; [simpl; lia |].
  intros x Hx. apply Hl. by right.
Qed.

(** X20.  [Column.init] resizes all columns of the section of the column
    it makes, so that once the columns are made every column carries the
    width class computed from the number of columns its section ends up
    with: [col-sm-] followed by [cint(12 / n)] for a section of [n]
    columns.  With a [cint] that truncates, the widths of the columns of
    a section add up to at most 12. *)
Theorem columns_share_width (cint_div : nat → nat → nat) (L : Layout)
    (i : nat) (c : ColumnNode) :
  columns L !! i = Some c →
  column_widths cint_div (columns L) !! i =
    Some (cint_div 12
            (length (section_column_ids (columns L) (col_section c)))) ∧
  (section_width Nat.div (columns L) (col_section c) ≤ 12)%nat.
Proof.
  intros Hi. split; [by apply column_widths_lookup |].
  unfold section_width.
  set (ids := section_column_ids (columns L) (col_section c)).
  assert (Hall : ∀ j, j ∈ ids →
            default 0 (column_widths Nat.div (columns L) !! j)
            = 12 `div` length ids).
  { intros j Hj. unfold ids, section_column_ids in Hj.
    apply list_elem_of_In, List.filter_In in Hj as [_ Hj].
    apply bool_decide_eq_true_1 in Hj.
    destruct (columns L !! j) as [cj |] eqn:Hcj; [| done].
    simpl in Hj. inversion Hj as [Hsec].
    rewrite (column_widths_lookup Nat.div _ j cj Hcj). simpl.
    by rewrite Hsec. }
  rewrite (list_sum_const _ _ (12 `div` length ids) Hall).
  apply Nat.Div0.mul_div_le.
Qed.

Lemma columns_share_width_witness :
  column_widths Nat.div (columns three_column_layout) = [4; 4; 4] ∧
  column_widths Nat.div (columns three_column_layout) !! 0 = Some 4 ∧
  (section_width Nat.div (columns three_column_layout) 0 ≤ 12)%nat.
Proof.
  assert (Hc : columns three_column_layout !! 0 = Some (synthetic_column 0))
    by (vm_compute; reflexivity).
  assert (Hn : length (section_column_ids (columns three_column_layout) 0) = 3)
    by (vm_compute; reflexivity).
  assert (Hw : column_widths Nat.div (columns three_column_layout) = [4; 4; 4])
    by (vm_compute; reflexivity).
  destruct (columns_share_width Nat.div three_column_layout 0 _ Hc) as [H1 H2].
  split; [exact Hw |]. split; [| exact H2].
  rewrite H1. cbn [col_section synthetic_column]. by rewrite Hn.
Defined.

Lemma pass_plan_app env L xs ys :
  pass_plan env L (xs ++ ys) =
    seq_plan (pass_plan env L xs) (pass_plan env L ys).
Proof.
  induction xs as [| x xs IH].
  - change (pass_plan env L ([] ++ ys)) with (pass_plan env L ys).
    change (pass_plan env L []) with (([], None) : Plan).
    unfold seq_plan. cbn [fst snd app].
    apply surjective_pairing.
  - cbn [app pass_plan]. rewrite IH.
    generalize (step_plan env L x) (pass_plan env L xs) (pass_plan env L ys).
    intros [a [ea |]] [b [eb |]] [c ec]; unfold seq_plan; cbn [fst snd];
      try reflexivity.
    by rewrite app_assoc.
Qed.

Lemma pass_plan_evaluates env L xs :
  (∀ r, r ∈ xs → evaluates env L r) → snd (pass_plan env L xs) = None.
Proof.
  induction xs as [| x xs IH]; intros H; [done |].
  cbn [pass_plan]. apply seq_plan_none.
  split; [| apply IH; intros r Hr; apply H; by right].
  pose proof (H x (list_elem_of_here _ _)) as Hx.
  unfold step_plan. destruct (df_of L x) as [df |] eqn:Hdf; [| done].
  assert (Hc : ∀ c, c ∈ conditions df → expr_set c = true →
                    ∃ e v, c = Some e ∧ evaluate_depends_on_value env L e = Ok v).
  { intros c Hc Hset. destruct c as [e |]; [| done].
    destruct (Hx df (Some e) e Hdf Hc eq_refl Hset) as [v Hv]. by exists e, v. }
  apply seq_plan_none. split; [| apply seq_plan_none; split].
  - unfold flag_plan. destruct (depends_on df) as [e |] eqn:He; [| done].
    destruct (expr_set (Some e)) eqn:Hset; [| done].
    destruct (Hc (Some e)) as (e' & v & [= <-] & ->); [| done | done].
    unfold conditions. rewrite He. by left.
  - unfold prop_plan. destruct (mandatory_depends_on df) as [e |] eqn:He;
      [| done].
    destruct (expr_set (Some e)) eqn:Hset; [| done].
    destruct (Hc (Some e)) as (e' & v & [= <-] & ->); [| done | done].
    unfold conditions. rewrite He. right. by left.
  - unfold prop_plan. destruct (read_only_depends_on df) as [e |] eqn:He;
      [| done].
    destruct (expr_set (Some e)) eqn:Hset; [| done].
    destruct (Hc (Some e)) as (e' & v & [= <-] & ->); [| done | done].
    unfold conditions. rewrite He. right. right. by left.
Qed.

(** X21.  The dependency pass goes through [fields_list] from the last
    entry to the first and stops at the first exception: when the
    [depends_on] of a field raises, the pass ends in an exception and the
    fields listed before that field have not been looked at, so that
    their visibility flags are what they were; when moreover the
    conditions of the fields listed after it evaluate, the exception is
    that of the field, and the fields listed after it have had their
    flags set from their [depends_on]. *)
Theorem pass_runs_backwards (env : Env) (L : Layout) (l1 l2 : list FieldRef)
    (x : FieldRef) (dfx : DocField) (e : Expr) (ex : Exn) :
  fields_list L = (l1 ++ x :: l2)%list →
  df_of L x = Some dfx → depends_on dfx = Some e → expr_set (Some e) = true →
  evaluate_depends_on_value env L e = Raise ex →
  ∃ L' ex', refresh_dependency env L = (L', Raise ex') ∧
    (∀ r, r ∈ l1 → r ∉ l2 → flag_of L' r = flag_of L r) ∧
    ((∀ r, r ∈ l2 → evaluates env L r) →
       ex' = ex ∧
       ∀ r df, r ∈ l2 → df_of L r = Some df →
         expr_set (depends_on df) = true →
         ∃ e' v, depends_on df = Some e' ∧
                 evaluate_depends_on_value env L e' = Ok v ∧
                 flag_of L' r = Some (negb (truthy v))).
Proof.
  intros Hfl Hdf He Hset Hev.
  assert (Hin : x ∈ fields_list L).
  { rewrite Hfl. apply elem_of_app. right. by left. }
  assert (Hdep : has_dep L = true).
  { apply (has_dep_intro L x dfx Hin Hdf). by rewrite He. }
  assert (Hstep : step_plan env L x = ([], Some ex)).
  { unfold step_plan. rewrite Hdf, He. unfold flag_plan.
    by rewrite Hset, Hev. }
  set (back := pass_plan env L (reverse l2)).
  assert (Hplan : pass_plan env L (reverse (fields_list L)) =
            (fst back, Some (default ex (snd back)))).
  { assert (Hx1 : pass_plan env L [x] = ([], Some ex))
      by (cbn [pass_plan]; by rewrite Hstep).
    rewrite Hfl, reverse_app, reverse_cons, !pass_plan_app, Hx1. fold back.
    generalize back (pass_plan env L (reverse l1)).
    intros [b [eb |]] [c ec]; unfold seq_plan; cbn [fst snd default];
      by rewrite ?app_nil_r. }
  rewrite refresh_dependency_plan, Hdep. cbn [negb]. cbv zeta.
  rewrite Hplan. cbn [fst snd].
  eexists _, _. split; [reflexivity |]. split.
  - intros r Hr1 Hr2. apply flag_of_run_prims_frame. intros c Hc Hw.
    destruct (pass_plan_flag _ _ _ _ _ Hc Hw) as [Hrin _].
    rewrite elem_of_reverse in Hrin. exact (Hr2 Hrin).
  - intros Hok.
    assert (Hnone : snd back = None).
    { apply pass_plan_evaluates. intros r Hr. apply Hok.
      by rewrite elem_of_reverse in Hr. }
    rewrite Hnone. split; [done |].
    intros r df Hr Hdfr Hsetr.
    destruct (pass_plan_complete env L (reverse l2) r df Hnone)
      as (e' & v & He' & Hev' & Hc); try done.
    { by apply elem_of_reverse. }
    exists e', v. split; [done |]. split; [done |].
    rewrite (flag_of_run_prims_written _ _ _ (negb (truthy v))).
    + unfold flag_of. by rewrite Hdfr.
    + intros b' Hb'.
      destruct (pass_plan_flag env L _ r _ Hb' eq_refl)
        as (_ & df' & e2 & v2 & Hdf' & He2 & _ & Hev2 & Hb).
      inversion Hb. congruence.
    + by exists (negb (truthy v)).
Qed.

Lemma pass_runs_backwards_witness :
  ∃ L' ex', refresh_dependency std_env half_broken_layout = (L', Raise ex') ∧
    flag_of L' (RControl 0) = Some false ∧
    flag_of L' (RControl 2) = Some true.
Proof.
  assert (Hfl : fields_list half_broken_layout
                = ([RControl 0] ++ RControl 1 :: [RControl 2])%list)
    by (vm_compute; reflexivity).
  assert (Hdf : df_of half_broken_layout (RControl 1)
                = Some (with_depends_on (EStr "eval:doc.status ==")
                          (plain_df "B" "Data")))
    by (vm_compute; reflexivity).
  assert (Hev : evaluate_depends_on_value std_env half_broken_layout
                  (EStr "eval:doc.status ==")
                = Raise (ValidationError invalid_depends_on))
    by (vm_compute; reflexivity).
  destruct (pass_runs_backwards std_env half_broken_layout _ _ _ _ _ _
              Hfl Hdf eq_refl eq_refl Hev) as (L' & ex' & Hrun & H1 & H2).
  exists L', ex'. split; [exact Hrun |].
  assert (Hdf2 : df_of half_broken_layout (RControl 2)
                 = Some (with_depends_on (EStr "eval: doc.status == 'Open'")
                           (plain_df "C" "Data")))
    by (vm_compute; reflexivity).
  assert (Hev2 : evaluate_depends_on_value std_env half_broken_layout
                   (EStr "eval: doc.status == 'Open'") = Ok (VBool false))
    by (vm_compute; reflexivity).
  assert (Hok : ∀ r, r ∈ [RControl 2] → evaluates std_env half_broken_layout r).
  { intros r Hr. apply list_elem_of_singleton in Hr as ->.
    intros df c e0 Hd Hc He0 Hs. rewrite Hdf2 in Hd. inversion Hd; subst df.
    unfold conditions in Hc. cbn in Hc.
    apply elem_of_cons in Hc as [-> | Hc].
    - inversion He0; subst e0. by exists (VBool false).
    - apply elem_of_cons in Hc as [-> | Hc]; [done |].
      apply list_elem_of_singleton in Hc as ->. done. }
  destruct (H2 Hok) as [_ H3].
  assert (F0 : flag_of half_broken_layout (RControl 0) = Some false)
    by (vm_compute; reflexivity).
  split.
  - rewrite (H1 (RControl 0)); [exact F0 | by left |].
    intros Hin. by apply list_elem_of_singleton in Hin.
  - destruct (H3 (RControl 2) _ (list_elem_of_here _ _) Hdf2 eq_refl)
      as (e' & v & He' & Hv & Hf).
    inversion He'; subst e'. rewrite Hev2 in Hv. inversion Hv; subst v.
    exact Hf.
Defined.

Lemma make_section_new df L :
  ∃ sec, sections (make_section df L) = (sections L ++ [sec])%list ∧
         as_made (frm L) sec ∧ s_page sec = default (pages L) (page L) ∧
         page (make_section df L) = Some (default (pages L) (page L)) ∧
         pages (make_section df L) =
           match page L with Some _ => pages L | None => S (pages L) end.
Proof.
  unfold make_section, new_section, FormSection.refresh.
  destruct (page L) as [q |] eqn:Hp; destruct df as [d0 |]; cbv zeta; lsimpl;
    rewrite ?Hp; rewrite alter_last;
    (eexists; split; [reflexivity |]); repeat split; reflexivity.
Qed.

Lemma for_each_app {A} (body : A → M unit) (xs ys : list A) L :
  for_each body (xs ++ ys) L =
    match for_each body xs L with
    | (L1, Ok _) => for_each body ys L1
    | (L1, Raise e) => (L1, Raise e)
    end.
Proof.
  revert L. induction xs as [| x xs IH]; intros L; [done |].
  cbn [app for_each]. unfold bind. destruct (body x L) as [L1 [[] | e]]; [| done].
  apply IH.
Qed.

Lemma render_context nf L L' r :
  render nf L = (L', r) → frm L' = frm L.
Proof.
  assert (Hone : ∀ df X X' r', render_one df X = (X', r') → frm X' = frm X).
  { intros df X X' r'. destruct (kind_cases df) as [Hk | [Hk | [Hk | Hk]]].
    - rewrite (render_one_fold df Hk). by intros [= <- _].
    - rewrite (render_one_section df Hk). intros [= <- _].
      by destruct (make_section_spec (Some df) X)
        as (_ & _ & _ & _ & _ & _ & _ & _ & Hf & _).
    - rewrite (render_one_column df Hk). unfold make_column.
      destruct (section X); [destruct (name_set (fieldname df)) |];
        by intros [= <- _].
    - rewrite (render_one_field df Hk).
      unfold make_field, bind, ensure_section, ensure_column.
      assert (Hms : ∀ Y, frm (make_section None Y) = frm Y).
      { intros Y. by destruct (make_section_spec None Y)
          as (_ & _ & _ & _ & _ & _ & _ & _ & Hf & _). }
      assert (Hmc : ∀ Y Y' r2, make_column None Y = (Y', r2) → frm Y' = frm Y).
      { intros Y Y' r2. unfold make_column.
        destruct (section Y); by intros [= <- _]. }
      assert (Hpf : ∀ Y Y' r2, place_field df Y = (Y', r2) → frm Y' = frm Y).
      { intros Y Y' r2. unfold place_field.
        destruct (section Y), (column Y); by intros [= <- _]. }
      destruct (section X).
      + destruct (column X); [apply Hpf |].
        destruct (make_column None X) as [X2 [[] | e]] eqn:H2.
        * intros H. rewrite (Hpf _ _ _ H). by eapply Hmc.
        * intros [= <- _]. by eapply Hmc.
      + destruct (column (make_section None X)).
        * intros H. rewrite (Hpf _ _ _ H). apply Hms.
        * destruct (make_column None (make_section None X))
            as [X2 [[] | e]] eqn:H2.
          -- intros H. rewrite (Hpf _ _ _ H), (Hmc _ _ _ H2). apply Hms.
          -- intros [= <- _]. rewrite (Hmc _ _ _ H2). apply Hms. }
  assert (Hloop : ∀ fs X X' r', for_each render_one fs X = (X', r') →
                                frm X' = frm X).
  { induction fs as [| df fs IH]; intros X X' r' H; [by inversion H |].
    cbn [for_each] in H. unfold bind in H.
    destruct (render_one df X) as [X1 [[] | e]] eqn:H1.
    - rewrite (IH _ _ _ H). by eapply Hone.
    - inversion H; subst. by eapply Hone. }
  unfold render. cbv zeta. intros H. rewrite (Hloop _ _ _ _ H).
  set (L0 := set_column None (set_section None L)).
  assert (H1 : frm (if with_dashboard L0 then setup_dashboard_section L0
                    else L0) = frm L).
  { unfold setup_dashboard_section. destruct (with_dashboard L0); [| done].
    by destruct (no_opening_section L0). }
  destruct (no_opening_section _); [| exact H1].
  rewrite <- H1. by destruct (make_section_spec None
    (if with_dashboard L0 then setup_dashboard_section L0 else L0))
    as (_ & _ & _ & _ & _ & _ & _ & _ & Hf & _).
Qed.

Lemma as_made_make_section df L :
  all_as_made L → all_as_made (make_section df L).
Proof.
  intros H i s. destruct (make_section_new df L) as (sec & Hsec & Hm & _).
  assert (Hf : frm (make_section df L) = frm L).
  { by destruct (make_section_spec df L)
      as (_ & _ & _ & _ & _ & _ & _ & _ & Hf & _). }
  rewrite Hf, Hsec. intros Hi.
  apply lookup_app_Some in Hi as [Hi | [_ Hi]]; [by eapply H |].
  destruct (i - length (sections L)) as [| n]; [| done].
  simpl in Hi. by inversion Hi; subst.
Qed.

Lemma as_made_make_column df L L' r :
  all_as_made L → make_column df L = (L', r) → all_as_made L'.
Proof.
  intros H Hrun. destruct (section L) as [sid |] eqn:Hsid.
  - destruct (make_column_spec df L sid Hsid)
      as (L1 & Hr & _ & _ & Hs & _ & _ & _ & _ & _ & Hf & _).
    rewrite Hr in Hrun. inversion Hrun; subst L1.
    intros i s. rewrite Hf, Hs. apply H.
  - rewrite (make_column_null _ _ Hsid) in Hrun. by inversion Hrun; subst.
Qed.

Lemma as_made_place_field df L L' r :
  all_as_made L → place_field df L = (L', r) → all_as_made L'.
Proof.
  intros H Hrun.
  destruct (section L) as [sid |] eqn:Hsid, (column L) as [cid |] eqn:Hcid;
    try (unfold place_field in Hrun; rewrite Hsid, ?Hcid in Hrun;
         by inversion Hrun; subst).
  destruct (place_field_spec df L sid cid Hsid Hcid)
    as (L1 & Hr & _ & _ & Hs & _ & _ & _ & _ & _ & Hf & _).
  rewrite Hr in Hrun. inversion Hrun; subst L1.
  intros i s. rewrite Hf, Hs. destruct (decide (sid = i)) as [-> | Hne].
  - rewrite list_lookup_alter_eq.
    destruct (sections L !! i) as [s0 |] eqn:Hi; [| done].
    simpl. intros [= <-]. exact (H i s0 Hi).
  - rewrite list_lookup_alter_ne by done. apply H.
Qed.

Lemma as_made_render_one df L L' r :
  all_as_made L → render_one df L = (L', r) → all_as_made L'.
Proof.
  intros H. destruct (kind_cases df) as [Hk | [Hk | [Hk | Hk]]].
  - rewrite (render_one_fold df Hk). by intros [= <- _].
  - rewrite (render_one_section df Hk). intros [= <- _].
    by apply as_made_make_section.
  - rewrite (render_one_column df Hk). by apply as_made_make_column.
  - rewrite (render_one_field df Hk). unfold make_field, bind.
    assert (H1 : ∃ L1, ensure_section L = (L1, Ok tt) ∧ all_as_made L1).
    { unfold ensure_section. destruct (section L); [by exists L |].
      eexists. split; [reflexivity |]. by apply as_made_make_section. }
    destruct H1 as (L1 & -> & HB1).
    destruct (ensure_column L1) as [L2 r2] eqn:H2.
    assert (HB2 : all_as_made L2).
    { unfold ensure_column in H2. destruct (column L1).
      - by inversion H2; subst.
      - by eapply as_made_make_column. }
    destruct r2 as [[] | e]; [by apply as_made_place_field |].
    by intros [= <- _].
Qed.

Lemma as_made_render nf L L' r :
  all_as_made L → render nf L = (L', r) → all_as_made L'.
Proof.
  intros H. unfold render. cbv zeta.
  set (L0 := set_column None (set_section None L)).
  set (L1 := if with_dashboard L0 then setup_dashboard_section L0 else L0).
  assert (H1 : all_as_made L1).
  { unfold L1, setup_dashboard_section. destruct (with_dashboard L0); [| done].
    by destruct (no_opening_section L0). }
  set (L2 := if no_opening_section L1 then make_section None L1 else L1).
  assert (H2 : all_as_made L2).
  { unfold L2. destruct (no_opening_section L1); [| done].
    by apply as_made_make_section. }
  clearbody L2.
  generalize (match nf with Some nf0 => nf0 | None => fields L1 end).
  intros fs. revert L2 H2. induction fs as [| df fs IH]; intros L2 H2 Hrun.
  - by inversion Hrun; subst.
  - cbn [for_each] in Hrun. unfold bind in Hrun.
    destruct (render_one df L2) as [L3 r3] eqn:H3.
    pose proof (as_made_render_one _ _ _ _ H2 H3) as HB3.
    destruct r3 as [[] | e]; [by eapply IH | by inversion Hrun; subst].
Qed.

(** X22. A section made by [render] starts out hidden exactly when its df
    is hidden, or hidden by a dependency, or the form denies read
    permission at its permlevel; and whatever its df says about
    [collapsible], it starts out expanded and carries neither the
    [visible-section] nor the [empty-section] mark. *)
Theorem sections_as_made (nf : option (list DocField)) (fs : list DocField)
    (dash : bool) (fm : option Frm) (d : option Doc) (i : nat)
    (s : SectionNode) :
  sections (fst (render nf (init fs dash fm d))) !! i = Some s →
  negb (s_hide_control s) =
    negb (hidden_due_to_dependency (s_df s)) && negb (hidden (s_df s))
    && perm_read fm (s_df s) ∧
  FormSection.is_collapsed s = false ∧ s_class s = NoClass.
Proof.
  destruct (render nf (init fs dash fm d)) as [L r] eqn:Hrun. cbn [fst].
  intros Hs.
  assert (H0 : all_as_made (init fs dash fm d)).
  { intros j t Ht.
    change (sections (init fs dash fm d)) with (@nil SectionNode) in Ht.
    by rewrite lookup_nil in Ht. }
  destruct (as_made_render _ _ _ _ H0 Hrun i s Hs) as (Hh & Hb & Hc).
  rewrite (render_context _ _ _ _ Hrun) in Hh.
  change (frm (init fs dash fm d)) with fm in Hh.
  split; [by rewrite Hh, hide_visible |]. by split.
Qed.

Lemma sections_as_made_witness :
  ∃ s, sections (fst (render None
                        (init [collapsible_df "details" "" None;
                               plain_df "notes" "Data"]
                           false (Some (open_frm (Some form_doc)))
                           (Some form_doc)))) !! 0 = Some s ∧
       s_hide_control s = false ∧
       FormSection.is_collapsed s = false ∧ s_class s = NoClass.
Proof.
  assert (Hs : sections (fst (render None
                        (init [collapsible_df "details" "" None;
                               plain_df "notes" "Data"]
                           false (Some (open_frm (Some form_doc)))
                           (Some form_doc)))) !! 0 = Some headless_section)
    by (vm_compute; reflexivity).
  exists headless_section. split; [exact Hs |].
  destruct (sections_as_made None
              [collapsible_df "details" "" None; plain_df "notes" "Data"]
              false (Some (open_frm (Some form_doc))) (Some form_doc)
              0 headless_section Hs) as (Hh & Hb & Hc).
  split; [| by split].
  apply negb_true_iff. rewrite Hh. reflexivity.
Defined.

Lemma pages_make_column df L L' r :
  make_column df L = (L', r) → page L' = page L ∧ pages L' = pages L.
Proof.
  unfold make_column. destruct (section L);
    [destruct df as [d0 |]; [destruct (name_set (fieldname d0)) |] |];
    by intros [= <- _].
Qed.

Lemma pages_place_field df L L' r :
  place_field df L = (L', r) →
  page L' = page L ∧ pages L' = pages L ∧
  ∀ i, s_page <$> sections L' !! i = s_page <$> sections L !! i.
Proof.
  unfold place_field. destruct (section L) as [sid |], (column L);
    intros [= <- _]; try done.
  split; [done |]. split; [done |]. intros i. lsimpl.
  destruct (decide (sid = i)) as [-> | Hne].
  - rewrite list_lookup_alter_eq. by destruct (sections L !! i).
  - by rewrite list_lookup_alter_ne.
Qed.

(** One step that is not a fold, before any fold. *)
Lemma first_page_step df L L' :
  is_fold df = false → on_first_page L → render_one df L = (L', Ok tt) →
  on_first_page L' ∧ (started L → started L') ∧
  (is_section_break df = true → started L') ∧
  length (controls L') =
    length (controls L) + (if is_field df then 1 else 0).
Proof.
  intros Hnf [Hsec Hpg].
  assert (Hms : ∀ d0 X, on_first_page X →
            on_first_page (make_section d0 X) ∧ started (make_section d0 X) ∧
            controls (make_section d0 X) = controls X).
  { intros d0 X [HsX HpX].
    destruct (make_section_new d0 X) as (sec & Hs & _ & Hp & Hpage & Hpages).
    assert (Hst : started (make_section d0 X)).
    { unfold started. rewrite Hpage, Hpages.
      destruct HpX as [[-> ->] | [-> ->]]; done. }
    split; [| split; [done |]].
    - split; [| by left]. intros i s. rewrite Hs. intros Hi.
      apply lookup_app_Some in Hi as [Hi | [_ Hi]]; [by eapply HsX |].
      destruct (i - length (sections X)) as [| n]; [| done].
      simpl in Hi. inversion Hi; subst s. rewrite Hp.
      destruct HpX as [[-> ->] | [-> ->]]; done.
    - by destruct (make_section_spec d0 X) as (_ & Hc & _). }
  assert (Hmc : ∀ d0 X X', on_first_page X → make_column d0 X = (X', Ok tt) →
            on_first_page X' ∧ (started X → started X') ∧
            controls X' = controls X).
  { intros d0 X X' [HsX HpX] Hrun.
    destruct (pages_make_column _ _ _ _ Hrun) as [Hp1 Hp2].
    pose proof (make_column_sections _ _ _ _ Hrun) as Hs.
    assert (Hc : controls X' = controls X).
    { unfold make_column in Hrun. destruct (section X); [| done].
      destruct d0 as [d1 |]; [destruct (name_set (fieldname d1)) |];
        by inversion Hrun. }
    unfold on_first_page, started. rewrite Hs, Hp1, Hp2. done. }
  assert (Hpf : ∀ X X', on_first_page X → place_field df X = (X', Ok tt) →
            on_first_page X' ∧ (started X → started X') ∧
            length (controls X') = S (length (controls X))).
  { intros X X' [HsX HpX] Hrun.
    destruct (pages_place_field _ _ _ _ Hrun) as (Hp1 & Hp2 & Hs).
    assert (Hc : length (controls X') = S (length (controls X))).
    { unfold place_field in Hrun. destruct (section X), (column X);
        try done. inversion Hrun. lsimpl. rewrite length_app. simpl. lia. }
    unfold on_first_page, started. rewrite Hp1, Hp2.
    split; [| done]. split; [| done]. intros i s Hi.
    pose proof (Hs i) as Hsi. rewrite Hi in Hsi.
    destruct (sections X !! i) as [s0 |] eqn:H0; [| done].
    simpl in Hsi. inversion Hsi as [Hpage]. rewrite Hpage. by eapply HsX. }
  destruct (kind_cases df) as [Hk | [Hk | [Hk | Hk]]].
  - congruence.
  - rewrite (render_one_section df Hk). intros [= <-].
    destruct (Hms (Some df) L (conj Hsec Hpg)) as (H1 & H2 & H3).
    split; [done |]. split; [done |]. split; [done |].
    rewrite H3. destruct (is_field df) eqn:Hf; [| lia].
    by rewrite (is_field_not_section df Hf) in Hk.
  - rewrite (render_one_column df Hk). intros Hrun.
    destruct (Hmc (Some df) L L' (conj Hsec Hpg) Hrun) as (H1 & H2 & H3).
    split; [done |]. split; [done |].
    destruct (kinds_exclusive df) as (_ & _ & K3). destruct (K3 Hk) as [_ Hns].
    split; [congruence |]. rewrite H3.
    destruct (is_field df) eqn:Hf; [| lia].
    unfold is_field in Hf. rewrite Hk in Hf. cbn in Hf.
    by rewrite andb_false_r in Hf.
  - rewrite (render_one_field df Hk), Hk. unfold make_field, bind.
    pose proof (is_field_not_section df Hk) as Hns.
    assert (H1 : ∃ L1, ensure_section L = (L1, Ok tt) ∧ on_first_page L1 ∧
               (started L → started L1) ∧ controls L1 = controls L).
    { unfold ensure_section. destruct (section L); [by exists L |].
      eexists. split; [reflexivity |].
      destruct (Hms None L (conj Hsec Hpg)) as (A1 & A2 & A3).
      split; [done |]. split; done. }
    destruct H1 as (L1 & -> & F1 & S1 & C1).
    destruct (ensure_column L1) as [L2 [[] | e]] eqn:H2; [| done].
    assert (H2' : on_first_page L2 ∧ (started L1 → started L2) ∧
                  controls L2 = controls L1).
    { unfold ensure_column in H2. destruct (column L1).
      - by inversion H2; subst.
      - by eapply Hmc. }
    destruct H2' as (F2 & S2 & C2). intros Hrun.
    destruct (Hpf L2 L' F2 Hrun) as (F3 & S3 & C3).
    split; [done |]. split; [tauto |]. split; [congruence |].
    rewrite C3, C2, C1. lia.
Qed.

Lemma first_page_loop fs L L' :
  (∀ df, df ∈ fs → is_fold df = false) → on_first_page L →
  started L ∨ starts_with_section fs = true →
  for_each render_one fs L = (L', Ok tt) →
  on_first_page L' ∧ started L' ∧
  length (controls L') = length (controls L) + length (List.filter is_field fs).
Proof.
  revert L. induction fs as [| df fs IH]; intros L Hnf HF Hst Hrun.
  - inversion Hrun; subst. destruct Hst as [Hst | Hst]; [| done].
    split; [done |]. split; [done |]. simpl. lia.
  - cbn [for_each] in Hrun. unfold bind in Hrun.
    destruct (render_one df L) as [L1 [[] | e]] eqn:H1; [| done].
    destruct (first_page_step df L L1 (Hnf df (list_elem_of_here _ _)) HF H1)
      as (F1 & S1 & S1' & C1).
    assert (Hst1 : started L1).
    { destruct Hst as [Hst | Hst]; [by apply S1 | by apply S1']. }
    destruct (IH L1) as (F2 & S2 & C2); try done.
    { intros df' Hdf'. apply Hnf. by right. }
    { by left. }
    split; [done |]. split; [done |]. rewrite C2, C1.
    cbn [List.filter]. destruct (is_field df); simpl; lia.
Qed.

(** One step after a fold. *)
Lemma later_pages_step p0 n0 df L L' r :
  on_later_pages p0 n0 L → render_one df L = (L', r) →
  on_later_pages p0 n0 L'.
Proof.
  intros ((q & Hq & Hpq & Hqp) & Hn & Hnew & Hold).
  assert (Hms : ∀ d0 X, on_later_pages p0 n0 X →
                        on_later_pages p0 n0 (make_section d0 X)).
  { intros d0 X ((q' & Hq' & Hpq' & Hqp') & Hn' & Hnew' & Hold').
    destruct (make_section_new d0 X) as (sec & Hs & _ & Hp & Hpage & Hpages).
    rewrite Hq' in Hp, Hpage, Hpages. cbn [default from_option id] in Hp, Hpage.
    split; [exists q'; by rewrite Hpage, Hpages |].
    split; [rewrite Hs, length_app; lia |]. split.
    - intros i s. rewrite Hs. intros Hi Hge.
      apply lookup_app_Some in Hi as [Hi | [_ Hi]]; [by eapply Hnew' |].
      destruct (i - length (sections X)) as [| n]; [| done].
      simpl in Hi. inversion Hi; subst s. by rewrite Hp.
    - intros i s. rewrite Hs. intros Hi Hlt.
      apply lookup_app_Some in Hi as [Hi | [Hge Hi]]; [by eapply Hold' |].
      lia. }
  assert (Hmc : ∀ d0 X X' r', on_later_pages p0 n0 X →
            make_column d0 X = (X', r') → on_later_pages p0 n0 X').
  { intros d0 X X' r' HX Hrun.
    destruct (pages_make_column _ _ _ _ Hrun) as [Hp1 Hp2].
    pose proof (make_column_sections _ _ _ _ Hrun) as Hs.
    unfold on_later_pages. by rewrite Hs, Hp1, Hp2. }
  assert (Hpf : ∀ X X' r', on_later_pages p0 n0 X →
            place_field df X = (X', r') → on_later_pages p0 n0 X').
  { intros X X' r' ((q' & Hq') & Hn' & Hnew' & Hold') Hrun.
    destruct (pages_place_field _ _ _ _ Hrun) as (Hp1 & Hp2 & Hs).
    assert (Hlen : length (sections X') = length (sections X)).
    { unfold place_field in Hrun. destruct (section X), (column X);
        inversion Hrun; try done. lsimpl. apply length_alter. }
    assert (Hpage : ∀ i s, sections X' !! i = Some s →
              ∃ s0, sections X !! i = Some s0 ∧ s_page s0 = s_page s).
    { intros i s Hi. pose proof (Hs i) as Hsi. rewrite Hi in Hsi.
      destruct (sections X !! i) as [s0 |]; [| done].
      simpl in Hsi. inversion Hsi. by exists s0. }
    split; [exists q'; by rewrite Hp1, Hp2 |].
    split; [by rewrite Hlen |]. split.
    - intros i s Hi Hge. destruct (Hpage i s Hi) as (s0 & H0 & <-).
      by eapply Hnew'.
    - intros i s Hi Hlt. destruct (Hpage i s Hi) as (s0 & H0 & <-).
      by eapply Hold'. }
  assert (HL : on_later_pages p0 n0 L).
  { split; [by exists q |]. done. }
  destruct (kind_cases df) as [Hk | [Hk | [Hk | Hk]]].
  - rewrite (render_one_fold df Hk). intros [= <- _].
    split; [exists (pages L); unfold make_page; lsimpl;
            split; [done |]; split; lia |].
    done.
  - rewrite (render_one_section df Hk). intros [= <- _]. by apply Hms.
  - rewrite (render_one_column df Hk). by apply Hmc.
  - rewrite (render_one_field df Hk). unfold make_field, bind.
    assert (H1 : ∃ L1, ensure_section L = (L1, Ok tt) ∧ on_later_pages p0 n0 L1).
    { unfold ensure_section. destruct (section L); [by exists L |].
      eexists. split; [reflexivity |]. by apply Hms. }
    destruct H1 as (L1 & -> & F1).
    destruct (ensure_column L1) as [L2 r2] eqn:H2.
    assert (F2 : on_later_pages p0 n0 L2).
    { unfold ensure_column in H2. destruct (column L1).
      - by inversion H2; subst.
      - by eapply Hmc. }
    destruct r2 as [[] | e]; [by apply Hpf | by intros [= <- _]].
Qed.

Lemma later_pages_loop p0 n0 fs L L' r :
  on_later_pages p0 n0 L → for_each render_one fs L = (L', r) →
  on_later_pages p0 n0 L'.
Proof.
  revert L. induction fs as [| df fs IH]; intros L HL Hrun.
  - by inversion Hrun; subst.
  - cbn [for_each] in Hrun. unfold bind in Hrun.
    destruct (render_one df L) as [L1 r1] eqn:H1.
    pose proof (later_pages_step _ _ _ _ _ _ HL H1) as HL1.
    destruct r1 as [[] | e]; [by eapply IH | by inversion Hrun; subst].
Qed.

(** The state in which the loop of [render] starts on a fresh layout. *)
Lemma render_start fs dash fm d :
  ∃ Ls, render None (init fs dash fm d)
          = for_each render_one (rendered_fields fs dash) Ls ∧
        built Ls ∧ controls Ls = [] ∧ on_first_page Ls ∧
        (started Ls ∨ starts_with_section (rendered_fields fs dash) = true).
Proof.
  unfold render. cbv zeta.
  set (L0 := set_column None (set_section None (init fs dash fm d))).
  assert (HB0 : built L0) by (apply built_reset, built_init).
  assert (HF0 : ∀ X, on_first_page (set_fields X L0) ∧ on_first_page L0).
  { intros X. split; (split; [intros i s Hi; apply lookup_lt_Some in Hi; cbn in Hi; lia |
                              by right]). }
  assert (Hopen : ∀ X, controls X = [] → built X → on_first_page X →
            built (make_section None X) ∧ controls (make_section None X) = [] ∧
            on_first_page (make_section None X) ∧ started (make_section None X)).
  { intros X HC HB [HsX HpX]. split; [by apply built_make_section |].
    destruct (make_section_new None X) as (sec & Hs & _ & Hp & Hpage & Hpages).
    destruct (make_section_spec None X) as (_ & Hc & _).
    assert (Hst : started (make_section None X)).
    { unfold started. rewrite Hpage, Hpages.
      destruct HpX as [[-> ->] | [-> ->]]; done. }
    split; [congruence |]. split; [| done].
    split; [| by left]. intros i s. rewrite Hs. intros Hi.
    apply lookup_app_Some in Hi as [Hi | [_ Hi]]; [by eapply HsX |].
    destruct (i - length (sections X)) as [| n]; [| done].
    simpl in Hi. inversion Hi; subst s. rewrite Hp.
    destruct HpX as [[-> ->] | [-> ->]]; done. }
  change (with_dashboard L0) with dash.
  unfold rendered_fields, setup_dashboard_section, no_opening_section.
  change (fields L0) with fs.
  destruct dash, fs as [| df fs']; cbn [andb negb fields set_fields].
  - exists (set_fields [section_break_df] L0).
    split; [done |]. split; [by apply built_set_fields |]. split; [done |].
    split; [exact (proj1 (HF0 _)) | by right].
  - unfold is_section_break.
    destruct (String.eqb (fieldtype df) "Section Break") eqn:Hsb;
      cbn [negb fields set_fields].
    + change (fields L0) with (df :: fs'). cbv iota. rewrite Hsb. cbn [negb].
      exists L0. split; [done |].
      split; [done |]. split; [done |]. split; [exact (proj2 (HF0 [])) |].
      right. exact Hsb.
    + exists (set_fields (section_break_df :: df :: fs') L0).
      split; [done |]. split; [by apply built_set_fields |]. split; [done |].
      split; [exact (proj1 (HF0 _)) | by right].
  - change (fields L0) with (@nil DocField). cbv iota.
    destruct (Hopen L0 eq_refl HB0 (proj2 (HF0 []))) as (B & C & F & S).
    exists (make_section None L0). split; [done |]. split; [done |].
    split; [done |]. split; [done | by left].
  - change (fields L0) with (df :: fs'). cbv iota. unfold is_section_break.
    destruct (String.eqb (fieldtype df) "Section Break") eqn:Hsb;
      cbn [negb].
    + exists L0. split; [done |]. split; [done |]. split; [done |].
      split; [exact (proj2 (HF0 [])) |]. right. exact Hsb.
    + destruct (Hopen L0 eq_refl HB0 (proj2 (HF0 []))) as (B & C & F & S).
      exists (make_section None L0). split; [done |]. split; [done |].
      split; [done |]. split; [done | by left].
Qed.

(** X23. When [render] completes on a list with a Fold, the controls made
    from the fields before the first Fold are exactly those whose section
    is on the first page: control [j] is on page 0 iff [j] is less than
    the number of plain fields before that Fold. *)
Theorem first_fold_ends_first_page fs1 F fs2 dash fm d L j c s :
  is_fold F = true → (∀ df, df ∈ fs1 → is_fold df = false) →
  render None (init (fs1 ++ F :: fs2) dash fm d) = (L, Ok tt) →
  controls L !! j = Some c → sections L !! c_section c = Some s →
  s_page s = 0 ↔ (j < length (List.filter is_field fs1))%nat.
Proof.
  intros HF Hnf Hrun Hj Hs.
  destruct (render_start (fs1 ++ F :: fs2) dash fm d)
    as (Ls & Hloop & HBs & HCs & HFs & Hst).
  rewrite Hrun in Hloop. symmetry in Hloop.
  assert (Hpre : ∃ pre, rendered_fields (fs1 ++ F :: fs2) dash
                        = (pre ++ fs1 ++ F :: fs2)%list ∧
                   (pre = [] ∨ pre = [section_break_df])).
  { unfold rendered_fields.
    destruct (dash && _); [exists [section_break_df] | exists []];
      (split; [done |]); tauto. }
  destruct Hpre as (pre & Hrf & Hpre). rewrite Hrf in Hloop, Hst.
  rewrite (app_assoc pre fs1 (F :: fs2)) in Hloop.
  rewrite for_each_app in Hloop.
  destruct (for_each render_one (pre ++ fs1) Ls) as [L1 [[] | e]] eqn:H1;
    [| done].
  assert (Hnf1 : ∀ df, df ∈ (pre ++ fs1)%list → is_fold df = false).
  { intros df Hdf. apply elem_of_app in Hdf as [Hdf | Hdf]; [| by apply Hnf].
    destruct Hpre as [-> | ->]; [by apply elem_of_nil in Hdf |].
    apply list_elem_of_singleton in Hdf. by subst df. }
  assert (Hst1 : started Ls ∨ starts_with_section (pre ++ fs1) = true).
  { destruct Hst as [Hst | Hst]; [by left |]. right.
    destruct Hpre as [-> | ->]; [| done]. cbn [app] in Hst |- *.
    destruct fs1 as [| df fs1']; [| done]. cbn in Hst.
    unfold is_fold in HF. unfold is_section_break in Hst.
    apply String.eqb_eq in HF, Hst. congruence. }
  destruct (first_page_loop _ _ _ Hnf1 HFs Hst1 H1) as (F1 & [Hp1 Hps1] & C1).
  assert (Hm0 : length (controls L1) = length (List.filter is_field fs1)).
  { rewrite C1, HCs. cbn [length Nat.add].
    destruct Hpre as [-> | ->]; [done |]. by vm_compute. }
  destruct (built_render_loop _ _ _ _ HBs H1) as [HB1 _].
  cbn [for_each] in Hloop. unfold bind in Hloop.
  rewrite (render_one_fold F HF) in Hloop. cbn in Hloop.
  set (n0 := length (sections L1)). set (m0 := length (controls L1)).
  assert (HL : on_later_pages 1 n0 (make_page L1)).
  { split.
    - exists 1. unfold make_page. lsimpl. rewrite Hps1. split; [done |]. lia.
    - split; [done |]. split.
      + intros i s0 Hi Hge. apply lookup_lt_Some in Hi.
        change (sections (make_page L1)) with (sections L1) in Hi. lia.
      + intros i s0 Hi _. change (sections (make_page L1)) with (sections L1) in Hi.
        destruct F1 as [F1 _]. rewrite (F1 _ _ Hi). lia. }
  assert (HM : made_since n0 m0 (make_page L1)).
  { split; [done |]. split; [done |]. intros j' c' Hj' Hge.
    apply lookup_lt_Some in Hj'.
    change (controls (make_page L1)) with (controls L1) in Hj'.
    unfold m0 in Hge. lia. }
  destruct (step_render_loop n0 m0 fs2 (make_page L1) L (Ok tt)
              (Nat.le_refl _) HM Hloop)
    as [(_ & _ & HM2) ([k Hk] & _)].
  pose proof (later_pages_loop _ _ _ _ _ _ HL Hloop) as (_ & _ & Hnew & Hold).
  change (controls (make_page L1)) with (controls L1) in Hk.
  rewrite <- Hm0. fold m0.
  destruct (decide (j < m0)%nat) as [Hlt | Hge].
  - split; [done |]. intros _.
    assert (Hj1 : controls L1 !! j = Some c).
    { rewrite Hk, lookup_app_l in Hj; done. }
    destruct HB1 as (_ & _ & Hcp & _).
    destruct (Hcp j c Hj1) as [Hcs _].
    pose proof (Hold _ _ Hs). unfold n0 in *. lia.
  - split; [| lia]. intros H0.
    assert (n0 ≤ c_section c)%nat by (eapply HM2; [done | lia]).
    pose proof (Hnew _ _ Hs). lia.
Qed.

Lemma first_fold_ends_first_page_witness :
  ∃ c s, controls folded_layout !! 1 = Some c ∧
         sections folded_layout !! c_section c = Some s ∧ s_page s ≠ 0.
Proof.
  assert (Hrun : render None
                   (init ([plain_df "A" "Data"] ++ plain_df "more" "Fold"
                            :: [plain_df "B" "Data"]) false None None)
                 = (folded_layout, Ok tt))
    by (vm_compute; reflexivity).
  assert (Hc : ∃ c, controls folded_layout !! 1 = Some c ∧ c_section c = 1).
  { eexists. split; vm_compute; reflexivity. }
  destruct Hc as (c & Hc & Hcs).
  assert (Hs : ∃ s, sections folded_layout !! 1 = Some s).
  { eexists. vm_compute. reflexivity. }
  destruct Hs as (s & Hs).
  exists c, s. split; [exact Hc |]. rewrite Hcs. split; [exact Hs |].
  rewrite <- Hcs in Hs.
  assert (Hnf : ∀ df, df ∈ [plain_df "A" "Data"] → is_fold df = false).
  { intros df Hdf. apply list_elem_of_singleton in Hdf. by subst df. }
  pose proof (proj1 (first_fold_ends_first_page
                [plain_df "A" "Data"] (plain_df "more" "Fold")
                [plain_df "B" "Data"] false None None folded_layout 1 c s
                eq_refl Hnf Hrun Hc Hs)) as H.
  intros H0. apply H in H0. cbn [List.filter] in H0.
  change (is_field (plain_df "A" "Data")) with true in H0.
  cbn [length] in H0. lia.
Defined.
